(* ===== verification/_CoqProject ===== *)
-Q . S2P
Prelude.v
GoErrors.v
GoContext.v
GoNum.v
GoString.v
Regexp.v
Multicluster.v
Reconcile.v
Handler.v
Sanitize.v
Sharder.v
LeaseAPI.v
LeaseGuard.v
Fence.v
Peers.v
Coordinator.v
CoordinatorRaces.v
ProcessGroup.v
Basic.v
Manager.v
Clusters.v
ManagerExamples.v
Registry.v
Controller.v
Source.v
MultiProvider.v
ClustersProvider.v
SimpleProviders.v
Builder.v
Sha256.v
Objects.v
ActiveClusters.v
KubeconfigProvider.v
ClusterAPIProvider.v
KubeconfigStrategy.v
InventoryProvider.v
NamespaceClient.v
NamespaceProvider.v
NamespaceRaces.v
System.v
ShardedSystem.v
KindProvider.v
FileProvider.v
WebhookBuilder.v
EndToEnd.v
NamespaceEvents.v
SyncExample.v
Examples.v
ModCheck.v
PortAllocator.v
PortRaces.v
