(* ===== verification/Prelude.v ===== *)
(** * multicluster-runtime: a verification development

    multicluster-runtime lets one Kubernetes controller reconcile objects of
    many clusters.  This library models the Go packages under [pkg/] and
    [providers/] and the programs under [examples/], and proves what they
    promise each other.

    ** How the program works

    A _provider_ discovers clusters and hands each one, with a context that
    ends when the cluster goes away, to an _aware_: the multicluster manager
    ([pkg/manager/manager.go]).  The manager passes it to its _coordinator_.
    The basic coordinator engages the cluster with every registered component;
    the sharded one first decides which process of a group runs the cluster -
    by rendezvous hashing over a peer registry - and then takes a _fence_, a
    Lease object in the host cluster, which it renews while the cluster runs.
    The components are the multicluster controllers, which start their sources
    on each engaged cluster; the events of a source are enqueued as requests
    that carry the cluster's name; the reconciler looks the cluster up again
    through the manager, that is, through the provider.

    ** The files

    Vocabulary.  [Prelude] (this file): results, the state monad with Go's
    early returns, labelled transition systems with reachability and rule
    induction, sorted keys, automation.  [GoErrors], [GoContext], [GoNum],
    [GoString]: the parts of Go's standard library the code uses - errors and
    [errors.Is], contexts as trees of cancellable nodes, machine integers and
    time, strings as bytes and runes.  [Regexp]: the regular expressions the
    code compiles, parsed from their literals, with a matcher that is proved to
    decide their language.  [Multicluster]: cluster names, the
    interfaces [Aware] and [Provider] ([pkg/multicluster], [pkg/context]), and
    the world in which code outside the repository is called.  [Reconcile]:
    [pkg/reconcile].

    Events.  [Handler]: [pkg/handler], the queue wrappers and handlers that tag
    requests with the cluster.  [Source]: [pkg/source/kind.go].  [Controller]:
    [pkg/controller/controller.go].  [Builder]: [pkg/builder], the controller
    builder and its options, on top of [Source], [Controller] and [Manager].

    Coordination.  [Sanitize]: [pkg/util/sanitize].  [Sharder]: the FNV hash
    and the choice of the owner ([sharded/sharder]).  [LeaseAPI]: the Lease
    objects and what the API server documents about them, as the class
    [LeaseClient] with the laws [LeaseLaws], implemented by a concrete store.
    [LeaseGuard]: [sharded/leaseguard.go] against that class, each operation
    run through.  [Fence]: the same operations split at their API calls,
    several processes interleaved with each other and with the clock.
    [Peers]: [sharded/peers/registry.go].  [Coordinator]:
    [sharded/coordinator.go] and [options.go]; [CoordinatorRaces] runs it.
    [ProcessGroup]: several processes, each with its registry and its
    coordinator, against one Lease server and one clock.
    [Basic]: [coordinator/basic].  [Manager]: [pkg/manager], over the classes
    [Provider] and [CoordinatorI]; [ManagerExamples] instantiates it.

    Providers.  [Clusters] and [Registry]: [pkg/clusters].  [MultiProvider]:
    [providers/multi].  [ClustersProvider]: [providers/clusters].
    [SimpleProviders]: [providers/single] and [providers/nop].

    Providers that follow objects.  [Objects]: the objects of a cluster the
    providers read, and their names; [Sha256]: the digest their fingerprints
    use, executable.
    [ActiveClusters]: the map of active clusters that two of them keep, its
    abstract specification [synced] and the interleaving of reconciles, over
    the class [HeadSpec] that a provider's own part of a reconcile implements.
    [KubeconfigProvider]: [providers/kubeconfig].  [ClusterAPIProvider]:
    [providers/cluster-api].  [KubeconfigStrategy] and [InventoryProvider]:
    [providers/cluster-inventory-api].  [NamespaceClient]: the clients, caches
    and informers of [providers/namespace], over a shared cluster whose laws
    are stated there; [NamespaceProvider]: its provider, and [NamespaceRaces]:
    several runs of its [Start] interleaved.  [KindProvider]:
    [providers/kind].  [FileProvider]: [providers/file], on [Clusters].

    Webhooks.  [WebhookBuilder]: [pkg/builder/forked_webhook.go].

    The parts together.  [EndToEnd]: every provider as an instance of the
    manager's interface, indexes through the manager, and the way of an event
    from an informer over the queue to a reconcile in its cluster.
    [System]: the namespace provider, the basic coordinator and any number of
    controllers as one transition system; the provider and the coordinator are
    written against the class [Surroundings] of Multicluster, whose instance is
    the outside world in their own files and the fleet of controllers here.
    [ShardedSystem]: the same provider with the sharded coordinator.
    [NamespaceEvents]: the wrappers of the namespace provider, a source, the
    queue and the manager, from an event of the shared cluster to the reads and
    writes of a reconcile.
    [SyncExample]: [examples/sync-local-to-remote], two reconcilers over the
    class [ConfigMapClient] of clients that write to API servers and read from
    caches: the laws [ConfigMapLaws] say nothing about what a read answers,
    [CurrentReads] does where a theorem needs it.  [Examples]: the
    programs of [examples/], from their flags to their exit codes.

    Tools.  [ModCheck]: [hack/tools/cmd/gomodcheck].  [PortAllocator]:
    [internal/forked/testing], ports reserved by locked files; [PortRaces]: the
    same with a step per system call and the threads interleaved.

    ** How code becomes definitions

    A Go struct is a record with the same fields, less loggers and locks.  A
    method is a definition of the same name (prefixed where two files use one
    name), a function of the state or a computation in the monad [M]; its error
    is an [option error], or a [result] when it comes with a value.  A comment
    [src:] before a definition names the lines it translates.  Calls that
    leave the repository are recorded in order in the [world], and an oracle,
    which a theorem quantifies over, answers each from the calls made before.

    A component with goroutines or locks is also a transition system: an
    executable function [exec : label -> state -> option state], where a label
    says which goroutine runs next and what its environment answers.  One step
    is a section of code between two acquisitions of the lock, one API call, or
    one blocking operation; a buffered channel is the list of what it holds,
    and a goroutine that waits in a send while holding a lock keeps every step
    that needs the lock disabled.  Properties of all interleavings are proved
    by rule induction ([invariant_reachable]); behaviours the code allows but
    surely does not mean are shown by running a list of labels.

    Calls to the Lease API take a context and fail when it is done
    ([LeaseGuard.api_Get], [LeaseGuard.api_write]).  In the sharded coordinator
    the steps of a goroutine are tasks: [TBegin] starts the periodic runnable,
    which [CPeersEnd] ends with the registry it runs; [TEngage] calls one aware
    for a cluster that starts, [TStartFailed] is the failure of one; [TRenew] is
    a renewal and [TLost] the notice that follows a failed one.  An index call of
    [Clusters] that has returned stays as a record, [KIndexReturned], of the
    clusters it visited and its error.  [ShardedSystem] keeps, beside the state
    of the program, the set [sh_made] of the contexts that awares have made;
    awares may make and cancel contexts of their own, as the controllers do,
    and only those ([aware_ok]).

    Recursion is structural throughout except for three functions on strings,
    which take the length as fuel: the decoding of runes and the trimming of
    spaces consume at least a byte per step, and the parser of regular
    expressions is run on one literal, for which a theorem says that it
    succeeds.  No theorem depends on a bound.  Where Go iterates over a map in an unspecified
    order, the model either takes the order as an argument or uses
    [map_to_list]; no theorem depends on which one that is.

    Time is one clock that all processes read: the bound of the fence's safety
    argument is the contract that a process renews within the Lease duration,
    and clock skew would have to be subtracted from it.  A process is named by
    its identity; two processes whose identities the sanitizer maps to one name
    are one process to the fence.

    ** What is proved

    - The fence: at no time do two processes hold a valid fence, provided each
      abandons one it has not renewed in time ([Fence.fence_mutual_exclusion];
      [Fence.fence_needs_the_contract] shows that the proviso is needed); the
      operations split at their API calls are the ones run through; what
      acquiring, renewing and releasing do on every branch, and that a free
      fence is taken: the Lease names the new holder, no other Lease changes
      and one loop renews it ([LeaseGuard]).
    - Sharding: every cluster has exactly one owner among the peers, and a peer
      that joins or leaves moves no cluster between two others ([Sharder]);
      peers that publish themselves are read back with their weight, and the
      snapshot stays sorted and without duplicates ([Peers]).
    - The sharded coordinator: what a recomputation decides for each cluster,
      that only one of two coordinators starts a cluster, and that in every run
      each engaged cluster has its goroutine, which waits for the very context
      that Engage was called with, and cleans up once it ends ([Coordinator]).
      While the processes of a group see the same peers, at most one of those
      that have recomputed runs a cluster, whatever else happens; processes that
      crash are replaced: the ones that are left can reach a state in which
      exactly one of them runs it; and no process touches another's membership
      ([ProcessGroup]).
    - Events: handlers lifted to clusters do what the original handler does,
      with every request tagged, whatever operations of the queue it uses
      ([Handler]); a source has at most one handler registered ([Source]);
      engaging starts the sources in their order up to the first that refuses,
      and every source of a controller runs on every engaged cluster
      ([Controller]); a built controller watches what the builder was told,
      where it was told ([Builder]).
    - Lookup: requests for a cluster that is gone are dropped, and names are
      resolved by the provider ([Manager], [Reconcile]).
    - Providers: adding a cluster is all or nothing; every cluster has accepted
      every index, or the index call that it refused has returned an error, or
      one that is in progress is about to ask it; every index reaches every
      provider, and nothing that was added is lost
      ([Clusters], [Registry], [MultiProvider], [ClustersProvider]); names
      given by the multi provider resolve to the cluster they were given to.
    - Following objects: a reconcile implements [synced] - one name is brought
      to what its object asks for, or dropped with an error - it creates a
      cluster by its indexes, its start, its synchronisation and its engagement,
      in this order, it converges, and
      no interleaving of reconciles and [IndexField] forgets a cluster that
      runs ([KubeconfigProvider], [ClusterAPIProvider]); the maps of the
      inventory provider belong together, and no cluster they know was
      cancelled ([InventoryProvider]); the namespaces, the kind clusters and
      the files are mirrored by the clusters ([NamespaceProvider],
      [KindProvider], [FileProvider]), and the file provider ends exactly with
      its context or its watcher.
    - Namespaces as clusters: the client of a namespace behaves as a client of
      a cluster of its own, and its informers keep stores of that namespace
      ([NamespaceClient]); where it does not, for [Apply] and [DeleteAllOf],
      that is a theorem too.
    - Webhooks: what is asked for is served, nothing served is replaced and no
      path is registered twice; the regular expression of custom paths accepts
      the root and the paths of non-empty segments ([WebhookBuilder]).
    - End to end: an event of a cluster is reconciled in that cluster as long
      as its provider knows it, and an index given to the manager is accepted by
      every cluster of its provider, which can be any of eight ([AnyProvider] in
      [EndToEnd]); a pushed ConfigMap is written to every cluster that was not
      seen to have its data, and pulling it then writes nothing if the reads are
      current ([SyncExample]).
    - The running system: every namespace the provider knows is watched, with
      every source, by every controller, and once the goroutines are through the
      controllers have engaged exactly the namespaces there are ([System]); the
      provider's handlers, which take the lock anew for each access, behave as
      if each ran in one piece when the provider is started once, and do not
      when it is started twice, as an example does ([NamespaceRaces]).
      An object of the shared cluster is reconciled under "default" by the
      cluster of its namespace, and read and written where it is
      ([NamespaceEvents]).
      With the sharded coordinator the engagements follow the namespaces in the
      same way, whatever the Lease API answers and whatever contexts the awares
      make ([ShardedSystem]).
    - Programs: what the exit code of each says, where it says anything, how
      flags are read, and what the
      reconcilers report ([Examples]).
    - Tools: the version check succeeds exactly when the project is in sync
      ([ModCheck]); a reserved port is not granted twice while its file is there
      ([PortAllocator], [PortRaces]).
    - Races: theorems named [..._can_...], [..._is_lost] and the like exhibit
      interleavings with an outcome the code does not intend, among them a
      cluster that runs without its fence, and deadlocks on full channels.

    ** What is not modelled

    Logging and metrics.  controller-runtime, client-go, the API server, the
    file system, the kind tool and clusters themselves are parameters or
    oracles.  Methods that only forward to the embedded host manager are left
    out, as are aliases.  Loggers, schemes and the options of the host manager that
    the examples only pass on are left out of their models.  Data races that Go leaves undefined (a slice read
    without its lock) are not given a meaning; where the code has one it is
    named in the manifest.  Liveness is stated as steps that are enabled, not
    as fairness of the scheduler.  What no definition translates besides are
    declarations without behaviour: interfaces, assertions that a type
    implements one, aliases, setters and getters of one field, and structs
    whose fields are those of a record declared for another provider. *)

From stdpp Require Export base tactics numbers strings list gmap sorting relations.
From Stdlib Require Export ZArith Lia.

Declare Scope mcr_scope.
Delimit Scope mcr_scope with mcr.
Open Scope mcr_scope.

(** ** Results of fallible Go functions

    A Go function returning [(T, error)] returns [Ok v] or [Err e]: the code
    of this repository never reads the value of a call whose error is set. *)
Inductive result (E A : Type) : Type :=
| Ok (a : A)
| Err (e : E).

Arguments Ok {E A} a.
Arguments Err {E A} e.

Definition is_ok {E A} (r : result E A) : bool :=
  match r with Ok _ => true | Err _ => false end.

(** ** State-passing code

    [M S A] is a computation over the state [S]; sequencing is stdpp's
    [x ← m; k]. *)
Definition M (S A : Type) : Type := S → A * S.

#[export] Instance M_ret {S} : MRet (M S) := fun A a s => (a, s).
#[export] Instance M_bind {S} : MBind (M S) :=
  fun A B k m s => let '(a, s') := m s in k a s'.

Definition get {S} : M S S := fun s => (s, s).
Definition put {S} (s : S) : M S unit := fun _ => (tt, s).
Definition gets {S A} (f : S → A) : M S A := fun s => (f s, s).
Definition modify {S} (f : S → S) : M S unit := fun s => (tt, f s).

Lemma get_bind {S A} (k : S → M S A) s : (x ← get; k x) s = k s s.
Proof. done. Qed.

Lemma bind_eq {S A B} (m : M S A) (k : A → M S B) s : (x ← m; k x) s = let '(x, s1) := m s in k x s1.
Proof. done. Qed.

(** Go's [if err := f(); err != nil { return err }]: continue only on success. *)
Definition on_nil {S E} (m : M S (option E)) (k : M S (option E)) : M S (option E) :=
  e ← m; match e with Some e => mret (Some e) | None => k end.

Notation "m ';?' k" := (on_nil m k)
  (at level 100, k at level 200, right associativity) : mcr_scope.

(** A [for _, x := range l] loop whose body may return early with an error. *)
Fixpoint for_range {S E A} (l : list A) (body : A → M S (option E)) : M S (option E) :=
  match l with
  | [] => mret None
  | x :: l => body x ;? for_range l body
  end.

(** A [for _, x := range l] loop without early exit. *)
Fixpoint for_each {S A} (l : list A) (body : A → M S unit) : M S unit :=
  match l with
  | [] => mret tt
  | x :: l => _ ← body x; for_each l body
  end.

(** ** Labelled transition systems

    A concurrent component is an executable partial step function
    [exec : label -> state -> option state]: the label says which goroutine
    moves (and what its environment answers), [None] that it is not enabled. *)
Section LTS.
Context {St L : Type} (exec : L → St → option St).

Fixpoint run (ls : list L) (s : St) : option St :=
  match ls with
  | [] => Some s
  | l :: ls => match exec l s with Some s' => run ls s' | None => None end
  end.

Inductive reachable (init : St → Prop) : St → Prop :=
| reach_init s : init s → reachable init s
| reach_step s l s' : reachable init s → exec l s = Some s' → reachable init s'.

Lemma run_reachable (init : St → Prop) ls s s' :
  reachable init s → run ls s = Some s' → reachable init s'.
Proof.
  revert s; induction ls as [|l ls IH]; intros s Hr Hrun; simplify_eq/=; [done|].
  destruct (exec l s) as [s1|] eqn:E; [|done].
  apply (IH s1); [by eapply reach_step|done].
Qed.

(** Rule induction for invariants. *)
Lemma invariant_reachable (init I : St → Prop) :
  (∀ s, init s → I s) →
  (∀ s l s', I s → exec l s = Some s' → I s') →
  ∀ s, reachable init s → I s.
Proof. intros Hi Hs s; induction 1; eauto. Qed.

Lemma run_app ls1 ls2 s : run (ls1 ++ ls2) s = run ls1 s ≫= run ls2.
Proof.
  revert s; induction ls1 as [|l ls1 IH]; intros s; [done|].
  simpl. by destruct (exec l s).
Qed.
End LTS.

(** ** Sorted key lists: Go's [slices.Sorted(maps.Keys(m))] *)

(** Go orders strings bytewise. *)
Definition string_le (a b : string) : Prop := String.leb a b = true.

#[export] Instance string_le_dec : RelDecision string_le.
Proof. intros a b. unfold string_le. apply _. Defined.

Lemma string_le_total a b : string_le a b ∨ string_le b a.
Proof. apply String.leb_total. Qed.

Lemma ascii_compare_trans c a b d :
  Ascii.compare a b = c → Ascii.compare b d = c → Ascii.compare a d = c.
Proof.
  unfold Ascii.compare. destruct c.
  - rewrite !N.compare_eq_iff. congruence.
  - rewrite !N.compare_lt_iff. lia.
  - rewrite !N.compare_gt_iff. lia.
Qed.

Lemma string_compare_trans a b c :
  String.compare a b ≠ Gt → String.compare b c ≠ Gt → String.compare a c ≠ Gt.
Proof.
  revert b c; induction a as [|x a IH]; intros [|y b] [|z c]; simpl; try done.
  destruct (Ascii.compare x y) eqn:Exy; intros Hab; try done;
    destruct (Ascii.compare y z) eqn:Eyz; intros Hbc; try done.
  - rewrite (ascii_compare_trans Eq x y z Exy Eyz). by eapply IH.
  - apply Ascii.compare_eq_iff in Exy as ->. by rewrite Eyz.
  - apply Ascii.compare_eq_iff in Eyz as ->. by rewrite Exy.
  - by rewrite (ascii_compare_trans Lt x y z Exy Eyz).
Qed.

Lemma string_leb_compare a b : String.leb a b = true ↔ String.compare a b ≠ Gt.
Proof. unfold String.leb. destruct (String.compare a b); split; congruence. Qed.

#[export] Instance string_le_trans : Transitive string_le.
Proof.
  intros a b c. unfold string_le. rewrite !string_leb_compare.
  apply string_compare_trans.
Qed.
#[export] Instance string_le_antisymm : AntiSymm (=) string_le.
Proof. intros a b. apply String.leb_antisym. Qed.
#[export] Instance string_le_Total : Total string_le.
Proof. intros a b. apply string_le_total. Qed.

(** [slices.Sorted(maps.Keys(m))]. *)
Definition sorted_keys {V} (m : gmap string V) : list string :=
  merge_sort string_le ((map_to_list m).*1).

Lemma elem_of_sorted_keys {V} (m : gmap string V) k :
  k ∈ sorted_keys m ↔ is_Some (m !! k).
Proof.
  unfold sorted_keys. rewrite merge_sort_Permutation, list_elem_of_fmap. split.
  - intros ([k' v] & -> & Hin). apply elem_of_map_to_list in Hin. eauto.
  - intros [v Hv]. exists (k, v). split; [done|]. by apply elem_of_map_to_list.
Qed.

Lemma sorted_keys_NoDup {V} (m : gmap string V) : NoDup (sorted_keys m).
Proof. unfold sorted_keys. rewrite merge_sort_Permutation. apply NoDup_fst_map_to_list. Qed.

Lemma sorted_keys_sorted {V} (m : gmap string V) :
  StronglySorted string_le (sorted_keys m).
Proof. apply StronglySorted_merge_sort; apply _. Qed.

(** The sorted key list is determined by the key set. *)
Lemma sorted_keys_ext {V W} (m : gmap string V) (m' : gmap string W) :
  (∀ k, is_Some (m !! k) ↔ is_Some (m' !! k)) → sorted_keys m = sorted_keys m'.
Proof.
  intros Hext. eapply (StronglySorted_unique string_le); try apply sorted_keys_sorted.
  apply NoDup_Permutation; [apply sorted_keys_NoDup..|].
  intros k. by rewrite !elem_of_sorted_keys.
Qed.

(** ** Loops *)

Lemma for_range_app {S E A} (l1 l2 : list A) (body : A → M S (option E)) (s : S) :
  for_range (l1 ++ l2) body s = (for_range l1 body ;? for_range l2 body) s.
Proof.
  revert s; induction l1 as [|x l1 IH]; intros s; [done|].
  simpl. unfold on_nil, mbind, M_bind. destruct (body x s) as [[e|] s1]; [done|].
  rewrite IH. done.
Qed.

(** A loop that preserves a predicate on every iteration preserves it. *)
Lemma for_each_ind {S A} (P : S → Prop) (l : list A) (body : A → M S unit) s :
  (∀ x s, x ∈ l → P s → P (body x s).2) → P s → P (for_each l body s).2.
Proof.
  revert s; induction l as [|x l IH]; intros s Hb Hs; [done|].
  simpl. unfold mbind, M_bind. destruct (body x s) as [[] s1] eqn:E.
  apply IH; [intros; apply Hb; [by right|done]|].
  replace s1 with (body x s).2 by (by rewrite E). apply Hb; [by left|done].
Qed.

Lemma for_range_ind {S E A} (P : S → Prop) (l : list A) (body : A → M S (option E)) s :
  (∀ x s, x ∈ l → P s → P (body x s).2) → P s → P (for_range l body s).2.
Proof.
  revert s; induction l as [|x l IH]; intros s Hb Hs; [done|].
  simpl. unfold on_nil, mbind, M_bind. destruct (body x s) as [e s1] eqn:Eb.
  assert (P s1) as Hs1.
  { replace s1 with (body x s).2 by (by rewrite Eb). apply Hb; [by left|done]. }
  destruct e; [done|]. apply IH; [intros; apply Hb; [by right|done]|done].
Qed.

(** ** Automation *)

(** Unfold the state monad and compute. *)
Ltac run_m :=
  unfold mbind, mret, M_bind, M_ret, on_nil, get, put, gets, modify in *; simpl in *.

Ltac inv H := inversion H; subst; clear H.

Ltac split_ands := repeat match goal with |- _ ∧ _ => split end.

Create HintDb mcr.
#[export] Hint Resolve sorted_keys_NoDup sorted_keys_sorted : mcr.
#[export] Hint Rewrite @elem_of_sorted_keys : mcr.

(** ** Removing one element of a list *)

Lemma elem_of_delete_or {X} (l : list X) j x y : l !! j = Some x → y ∈ l → y = x ∨ y ∈ delete j l.
Proof.
  intros Hx Hy. rewrite delete_take_drop.
  rewrite <-(take_drop_middle l j x Hx) in Hy. set_solver.
Qed.

Lemma elem_of_delete {X} (l : list X) i x y : l !! i = Some x → y ∈ l → y ≠ x → y ∈ delete i l.
Proof.
  intros Hx Hy Hne. rewrite delete_take_drop.
  rewrite <-(take_drop_middle l i x Hx) in Hy. set_solver.
Qed.

Lemma elem_of_delete_sub {X} (l : list X) i y : y ∈ delete i l → y ∈ l.
Proof.
  rewrite delete_take_drop, elem_of_app. intros [Hy|Hy].
  - rewrite <-(take_drop i l). set_solver.
  - rewrite <-(take_drop (S i) l). set_solver.
Qed.
