(* ===== verification/GoErrors.v ===== *)
(** * Go errors

    The part of the standard library's [errors] and [fmt.Errorf] the program
    relies on: sentinel values compared by identity, wrapping with [%w],
    joining, and [errors.Is].  A nil error is [None : option error]. *)

From S2P Require Import Prelude.

(** [Sentinel] is a package-level error variable: [errors.Is] compares it by
    identity, here its name.  [Errorf] is any error value made afresh by
    [errors.New] or by [fmt.Errorf] without [%w].  [Wrap] is [fmt.Errorf] with
    [%w], [Join] is [errors.Join]. *)
Inductive error : Type :=
| Sentinel (name : string)
| Errorf (msg : string)
| Wrap (msg : string) (inner : error)
| Join (errs : list error).

(** [errors.Is(err, target)] for a sentinel target. *)
Fixpoint Is (err : error) (target : string) : bool :=
  match err with
  | Sentinel n => bool_decide (n = target)
  | Errorf _ => false
  | Wrap _ e => Is e target
  | Join es => (fix go es := match es with [] => false | e :: es => Is e target || go es end) es
  end.

(** [errors.Is] on a possibly nil error. *)
Definition IsOpt (err : option error) (target : string) : bool :=
  match err with Some e => Is e target | None => false end.

(** [errors.Join(errs, err)] where [errs] may be nil and [err] is not: the
    joined error is non-nil and holds both. *)
Definition join2 (errs : option error) (err : error) : option error :=
  Some (Join (match errs with Some e => [e; err] | None => [err] end)).

(** Errors of the [context] package. *)
Definition Canceled : error := Sentinel "context.Canceled".

(** A call that returns, or a goroutine that panics. *)
Inductive outcome (A : Type) : Type :=
| Returns (a : A)
| Panics (msg : string).
Arguments Returns {A} _.
Arguments Panics {A} _.

Lemma Is_Wrap m e t : Is (Wrap m e) t = Is e t.
Proof. done. Qed.

Lemma Is_Join es t : Is (Join es) t = existsb (λ e, Is e t) es.
Proof. simpl. induction es as [|e es IH]; [done|]. simpl. by rewrite IH. Qed.

#[export] Hint Rewrite Is_Wrap Is_Join : mcr.
