(* ===== verification/GoContext.v ===== *)
(** * Go contexts

    The standard library's [context] package: a tree of cancellable nodes and
    the values attached along it.  A context is the list of cancellable nodes
    from itself to the root; the store records which of them were cancelled.
    A context is done when one of its nodes was: cancelling a context cancels
    its descendants, not its ancestors or siblings. *)

From S2P Require Import Prelude GoErrors.

(** Keys of [context.WithValue].  Go compares keys by type and value, so a key
    of an unexported type of one package is never equal to another package's. *)
Inductive ctx_key : Type :=
| clusterKey              (** [pkg/context]'s [clusterKeyType("cluster")] *)
| otherKey (name : string).

#[export] Instance ctx_key_eq_dec : EqDecision ctx_key.
Proof. solve_decision. Defined.

Record context := Ctx {
  ctx_nodes : list nat;
  ctx_values : list (ctx_key * string);
}.

#[export] Instance context_eq_dec : EqDecision context.
Proof. solve_decision. Defined.

(** A [context.CancelFunc] is the node it cancels. *)
Definition cancel_func := nat.

Record ctx_store := CtxStore {
  cs_next : nat;             (** next fresh node *)
  cs_cancelled : gset nat;   (** nodes whose cancel function was called *)
}.

Definition empty_store : ctx_store := CtxStore 0 ∅.

Definition Background : context := Ctx [] [].

(** [context.WithCancel(parent)]; [context.WithTimeout] is the same with the
    timer calling the cancel function. *)
Definition WithCancel (parent : context) (cs : ctx_store) : context * cancel_func * ctx_store :=
  let n := cs_next cs in
  (Ctx (n :: ctx_nodes parent) (ctx_values parent), n, CtxStore (S n) (cs_cancelled cs)).

(** Calling a [CancelFunc]; calling it again does nothing. *)
Definition cancel (n : cancel_func) (cs : ctx_store) : ctx_store :=
  CtxStore (cs_next cs) ({[n]} ∪ cs_cancelled cs).

Definition done_ctx (c : context) (cs : ctx_store) : bool :=
  existsb (λ n, bool_decide (n ∈ cs_cancelled cs)) (ctx_nodes c).

(** [ctx.Err()] *)
Definition ctx_Err (c : context) (cs : ctx_store) : option error :=
  if done_ctx c cs then Some Canceled else None.

(** [context.WithValue(ctx, k, v)] and [ctx.Value(k)]. *)
Definition WithValue (c : context) (k : ctx_key) (v : string) : context :=
  Ctx (ctx_nodes c) ((k, v) :: ctx_values c).

Fixpoint assoc_value (l : list (ctx_key * string)) (k : ctx_key) : option string :=
  match l with
  | [] => None
  | (k', v) :: l => if bool_decide (k = k') then Some v else assoc_value l k
  end.

Definition Value (c : context) (k : ctx_key) : option string := assoc_value (ctx_values c) k.

(** Every node of the context has been allocated. *)
Definition ctx_wf (c : context) (cs : ctx_store) : Prop :=
  ∀ n, n ∈ ctx_nodes c → n < cs_next cs.

Definition store_wf (cs : ctx_store) : Prop :=
  ∀ n, n ∈ cs_cancelled cs → n < cs_next cs.

(** ** Lemmas *)

Lemma done_ctx_true c cs :
  done_ctx c cs = true ↔ ∃ n, n ∈ ctx_nodes c ∧ n ∈ cs_cancelled cs.
Proof.
  unfold done_ctx. rewrite existsb_exists. split.
  - intros (n & Hn & Hc%bool_decide_eq_true_1). exists n. by rewrite list_elem_of_In.
  - intros (n & Hn & Hc). exists n. by rewrite <-list_elem_of_In, bool_decide_eq_true_2.
Qed.

Lemma done_ctx_false c cs :
  done_ctx c cs = false ↔ ∀ n, n ∈ ctx_nodes c → n ∉ cs_cancelled cs.
Proof.
  rewrite <-not_true_iff_false, done_ctx_true. naive_solver.
Qed.

Lemma done_Background cs : done_ctx Background cs = false.
Proof. done. Qed.

(** Cancellation is monotone. *)
Lemma cancel_mono n c cs : done_ctx c cs = true → done_ctx c (cancel n cs) = true.
Proof. rewrite !done_ctx_true. simpl. set_solver. Qed.

(** Cancelling a node ends every context below it ... *)
Lemma cancel_done n c cs : n ∈ ctx_nodes c → done_ctx c (cancel n cs) = true.
Proof. intros. rewrite done_ctx_true. exists n. simpl. set_solver. Qed.

(** ... and no other. *)
Lemma cancel_other n c cs : n ∉ ctx_nodes c → done_ctx c (cancel n cs) = done_ctx c cs.
Proof.
  intros Hn. apply eq_true_iff_eq. rewrite !done_ctx_true. simpl. set_solver.
Qed.

Lemma WithCancel_done_parent p cs c n cs' :
  WithCancel p cs = (c, n, cs') → done_ctx p cs' = true → done_ctx c cs' = true.
Proof. intros [= <- <- <-]. rewrite !done_ctx_true. simpl. set_solver. Qed.

(** A fresh child of a live context is live. *)
Lemma WithCancel_live p cs c n cs' :
  store_wf cs → WithCancel p cs = (c, n, cs') →
  done_ctx c cs' = done_ctx p cs.
Proof.
  intros Hwf [= <- <- <-]. apply eq_true_iff_eq. rewrite !done_ctx_true; simpl.
  split; [|set_solver].
  intros (m & Hm & Hc). apply elem_of_cons in Hm as [->|Hm]; [|eauto].
  specialize (Hwf _ Hc). lia.
Qed.

Lemma WithCancel_store_wf p cs c n cs' :
  store_wf cs → WithCancel p cs = (c, n, cs') → store_wf cs'.
Proof. intros Hwf [= <- <- <-] m Hm. specialize (Hwf _ Hm). simpl in *. lia. Qed.

Lemma WithCancel_ctx_wf p cs c n cs' :
  ctx_wf p cs → WithCancel p cs = (c, n, cs') → ctx_wf c cs'.
Proof.
  intros Hwf [= <- <- <-] m. simpl. rewrite elem_of_cons.
  intros [->|Hm]; [lia|]. specialize (Hwf _ Hm). lia.
Qed.

Lemma cancel_store_wf n cs : n < cs_next cs → store_wf cs → store_wf (cancel n cs).
Proof. intros Hn Hwf m. simpl. set_unfold. intros [->|Hm]; [done|by apply Hwf]. Qed.

Lemma empty_store_wf : store_wf empty_store.
Proof. intros n. simpl. set_solver. Qed.

Lemma Value_WithValue_eq c k v : Value (WithValue c k v) k = Some v.
Proof. unfold Value. simpl. by rewrite bool_decide_eq_true_2. Qed.

Lemma Value_WithValue_ne c k k' v : k ≠ k' → Value (WithValue c k' v) k = Value c k.
Proof. intros. unfold Value. simpl. by rewrite bool_decide_eq_false_2. Qed.

#[export] Hint Resolve cancel_mono cancel_done empty_store_wf cancel_store_wf : mcr.
#[export] Hint Resolve WithCancel_store_wf WithCancel_ctx_wf : mcr.
