(* ===== verification/GoNum.v ===== *)
(** * Go integers, time and decimal text

    Machine integers are [Z] with their wrap-around written out.  Times and
    durations count nanoseconds; the zero [time.Time] is [0].  [FormatUint]
    and [ParseUint] are [strconv]'s for base 10. *)

From Stdlib Require Import Ascii.
From S2P Require Import Prelude GoErrors.
Open Scope Z_scope.

Definition uint64 (z : Z) : Z := z mod 2 ^ 64.
Definition uint32 (z : Z) : Z := z mod 2 ^ 32.
Definition int32 (z : Z) : Z := (z + 2 ^ 31) mod 2 ^ 32 - 2 ^ 31.
Definition int64 (z : Z) : Z := (z + 2 ^ 63) mod 2 ^ 64 - 2 ^ 63.

(** [time.Second], [time.Millisecond] in nanoseconds. *)
Definition Second : Z := 1000000000.
Definition Millisecond : Z := 1000000.

(** [int32(d / time.Second)]: Go's integer division truncates. *)
Definition duration_seconds (d : Z) : Z := int32 (Z.quot d Second).

(** [time.Duration(n) * time.Second] for an [int32] [n]. *)
Definition seconds (n : Z) : Z := int64 (n * Second).

(** ** Decimal text *)

Definition digit_char (d : Z) : ascii := Ascii.ascii_of_N (Z.to_N (48 + d)).

Definition digit_val (c : ascii) : option Z :=
  let n := Z.of_N (Ascii.N_of_ascii c) in
  if (48 <=? n) && (n <=? 57) then Some (n - 48) else None.

Fixpoint format_digits (fuel : nat) (n : Z) (acc : string) : string :=
  match fuel with
  | O => acc
  | S fuel =>
      let acc := String (digit_char (n mod 10)) acc in
      if n <? 10 then acc else format_digits fuel (n / 10) acc
  end.

(** [strconv.FormatUint(n, 10)]: a 64-bit number has at most 20 digits. *)
Definition FormatUint (n : Z) : string := format_digits 20 n "".

Fixpoint parse_digits (s : string) (acc : Z) : option Z :=
  match s with
  | EmptyString => Some acc
  | String c s =>
      match digit_val c with
      | Some d => parse_digits s (10 * acc + d)
      | None => None
      end
  end.

(** [strconv.ParseUint(s, 10, bitSize)]: a syntax error on the empty string or
    a character that is not a digit, a range error past [bitSize] bits. *)
Definition ParseUint (s : string) (bitSize : Z) : result error Z :=
  match s with
  | EmptyString => Err (Errorf "invalid syntax")
  | _ => match parse_digits s 0 with
         | None => Err (Errorf "invalid syntax")
         | Some n => if n <? 2 ^ bitSize then Ok n else Err (Errorf "value out of range")
         end
  end.

(** ** Lemmas *)

Lemma uint64_range z : 0 <= uint64 z < 2 ^ 64.
Proof. apply Z.mod_pos_bound. lia. Qed.

Lemma uint64_small z : 0 <= z < 2 ^ 64 → uint64 z = z.
Proof. apply Z.mod_small. Qed.

Lemma int32_range z : - 2 ^ 31 <= int32 z < 2 ^ 31.
Proof. unfold int32. pose proof (Z.mod_pos_bound (z + 2 ^ 31) (2 ^ 32)). lia. Qed.

Lemma int32_small z : - 2 ^ 31 <= z < 2 ^ 31 → int32 z = z.
Proof. intros. unfold int32. rewrite Z.mod_small; lia. Qed.

(** An [int32] number of seconds never overflows a [time.Duration]. *)
Lemma seconds_no_overflow n : - 2 ^ 31 <= n < 2 ^ 31 → seconds n = n * Second.
Proof. intros. unfold seconds, int64, Second. rewrite Z.mod_small; lia. Qed.

Lemma digit_val_char d : 0 <= d < 10 → digit_val (digit_char d) = Some d.
Proof.
  intros. unfold digit_val, digit_char.
  rewrite Ascii.N_ascii_embedding by lia. rewrite Z2N.id by lia.
  destruct (48 <=? 48 + d) eqn:E1, (48 + d <=? 57) eqn:E2; simpl; try lia.
  f_equal. lia.
Qed.

(** Printing then parsing shifts the accumulator and adds the number. *)
Lemma parse_format_digits fuel n acc :
  0 <= n < 10 ^ Z.of_nat fuel → (0 < fuel)%nat →
  ∃ k, ∀ a, parse_digits (format_digits fuel n acc) a = parse_digits acc (a * k + n).
Proof.
  revert n acc; induction fuel as [|fuel IH]; intros n acc Hn Hf; [lia|].
  simpl. pose proof (Z.mod_pos_bound n 10 ltac:(lia)).
  destruct (n <? 10) eqn:E.
  - exists 10. intros a. simpl. rewrite digit_val_char by lia.
    f_equal. rewrite Z.mod_small by lia. lia.
  - rewrite Nat2Z.inj_succ, Z.pow_succ_r in Hn by lia.
    destruct fuel as [|fuel]; [simpl in Hn; lia|].
    destruct (IH (n / 10) (String (digit_char (n mod 10)) acc)) as [k Hk]; [|lia|].
    { split; [apply Z.div_pos; lia|]. apply Z.div_lt_upper_bound; lia. }
    exists (10 * k). intros a. rewrite Hk. simpl. rewrite digit_val_char by lia.
    f_equal. pose proof (Z.div_mod n 10). lia.
Qed.

Lemma format_digits_nonempty fuel n acc :
  (0 < fuel)%nat → format_digits fuel n acc ≠ "".
Proof.
  assert (∀ fuel n acc, acc ≠ "" → format_digits fuel n acc ≠ "") as Hacc.
  { intros f; induction f as [|f IH]; intros m a Ha; [done|].
    simpl. destruct (m <? 10); [done|]. by apply IH. }
  destruct fuel; [lia|]. intros _. simpl. destruct (n <? 10); [done|]. by apply Hacc.
Qed.

(** [ParseUint(FormatUint(n, 10), 10, b)] gives [n] back when [n] fits [b] bits. *)
Lemma ParseUint_FormatUint n b :
  0 <= n < 2 ^ b → n < 2 ^ 64 → ParseUint (FormatUint n) b = Ok n.
Proof.
  intros Hn H64. unfold ParseUint, FormatUint.
  destruct (parse_format_digits 20 n "") as [k Hk]; [lia|lia|].
  pose proof (format_digits_nonempty 20 n "" ltac:(lia)) as Hne.
  specialize (Hk 0). rewrite Z.mul_0_l, Z.add_0_l in Hk.
  destruct (format_digits 20 n "") as [|c s] eqn:E; [done|].
  rewrite Hk. simpl. by rewrite (proj2 (Z.ltb_lt n (2 ^ b))) by lia.
Qed.

Lemma FormatUint_nonempty n : FormatUint n ≠ "".
Proof. apply format_digits_nonempty. lia. Qed.
