(* ===== verification/GoString.v ===== *)
(** * Go strings

    Strings are byte strings.  This file holds [strings.SplitN(s, sep, 2)] and
    the decoding of a string into runes that [for _, r := range s] performs. *)

From Stdlib Require Import Ascii.
From S2P Require Import Prelude.

(** First occurrence of [sep]: the text before it and the text after it. *)
Fixpoint cut (sep s : string) : option (string * string) :=
  if String.prefix sep s
  then Some ("", String.substring (String.length sep) (String.length s) s)
  else match s with
       | EmptyString => None
       | String c s' =>
           match cut sep s' with
           | Some (a, b) => Some (String c a, b)
           | None => None
           end
       end.

(** [strings.SplitN(s, sep, 2)] for a non-empty separator. *)
Definition SplitN2 (s sep : string) : list string :=
  match cut sep s with
  | Some (a, b) => [a; b]
  | None => [s]
  end.

(** [strings.Split(s, sep)] for a separator of one byte. *)
Fixpoint split_char (sep : ascii) (s : string) : list string :=
  match s with
  | EmptyString => [""]
  | String c s =>
      if Ascii.eqb c sep then "" :: split_char sep s
      else match split_char sep s with
           | l :: ls => String c l :: ls
           | [] => [String c ""]
           end
  end.

(** [strings.Join(l, sep)]. *)
Fixpoint join_char (sep : ascii) (l : list string) : string :=
  match l with
  | [] => ""
  | [x] => x
  | x :: l => x +:+ String sep (join_char sep l)
  end.

(** ** Runes *)

Open Scope Z_scope.

Definition byte_val (c : ascii) : Z := Z.of_N (N_of_ascii c).

Definition RuneError : Z := 65533.

Definition in_range (lo hi b : Z) : bool := (lo <=? b) && (b <=? hi).

(** Bytes expected after a leading byte, with the range of the first of them:
    the table of [unicode/utf8]. *)
Definition rune_shape (b0 : Z) : option (nat * Z * Z) :=
  if in_range 194 223 b0 then Some (1%nat, 128, 191)
  else if b0 =? 224 then Some (2%nat, 160, 191)
  else if b0 =? 237 then Some (2%nat, 128, 159)
  else if in_range 225 239 b0 then Some (2%nat, 128, 191)
  else if b0 =? 240 then Some (3%nat, 144, 191)
  else if in_range 241 243 b0 then Some (3%nat, 128, 191)
  else if b0 =? 244 then Some (3%nat, 128, 143)
  else None.

Definition cont (b : Z) : bool := in_range 128 191 b.

(** One rune and the number of bytes it takes; an invalid encoding is
    [RuneError] of width 1. *)
Definition decode_rune (b0 : Z) (rest : list Z) : Z * nat :=
  if b0 <? 128 then (b0, 1%nat) else
  match rune_shape b0, rest with
  | Some (1%nat, lo, hi), b1 :: _ =>
      if in_range lo hi b1 then ((b0 - 192) * 64 + (b1 - 128), 2%nat) else (RuneError, 1%nat)
  | Some (2%nat, lo, hi), b1 :: b2 :: _ =>
      if in_range lo hi b1 && cont b2
      then ((b0 - 224) * 4096 + (b1 - 128) * 64 + (b2 - 128), 3%nat) else (RuneError, 1%nat)
  | Some (3%nat, lo, hi), b1 :: b2 :: b3 :: _ =>
      if in_range lo hi b1 && cont b2 && cont b3
      then ((b0 - 240) * 262144 + (b1 - 128) * 4096 + (b2 - 128) * 64 + (b3 - 128), 4%nat)
      else (RuneError, 1%nat)
  | _, _ => (RuneError, 1%nat)
  end.

(** The fuel is the number of bytes: every rune takes at least one. *)
Fixpoint decode_runes (fuel : nat) (bs : list Z) : list Z :=
  match fuel, bs with
  | S fuel, b0 :: rest =>
      let '(r, w) := decode_rune b0 rest in
      r :: decode_runes fuel (drop (w - 1) rest)
  | _, _ => []
  end.

Fixpoint string_bytes (s : string) : list Z :=
  match s with
  | EmptyString => []
  | String c s => byte_val c :: string_bytes s
  end.

(** The runes [for _, r := range s] visits. *)
Definition range_runes (s : string) : list Z :=
  decode_runes (String.length s) (string_bytes s).

(** [string(runes)] for runes below 128: one byte each. *)
Fixpoint ascii_runes_string (rs : list Z) : string :=
  match rs with
  | [] => EmptyString
  | r :: rs => String (ascii_of_N (Z.to_N r)) (ascii_runes_string rs)
  end.

Close Scope Z_scope.

(** ** Lemmas *)

#[local] Arguments String.append !_ _ / : simpl nomatch.

Lemma append_assoc (a b c : string) : (a +:+ b) +:+ c = a +:+ (b +:+ c).
Proof. induction a as [|x a IH]; [done|]. simpl. by rewrite IH. Qed.

Lemma append_nil_r (a : string) : a +:+ "" = a.
Proof. induction a as [|x a IH]; [done|]. simpl. by rewrite IH. Qed.

Lemma append_cons x (a b : string) : String x a +:+ b = String x (a +:+ b).
Proof. done. Qed.

(** A test that every byte of a string passes. *)
Fixpoint all_chars (p : Ascii.ascii → bool) (s : string) : bool :=
  match s with EmptyString => true | String c s => p c && all_chars p s end.

Lemma all_chars_app f s t : all_chars f (s +:+ t) = all_chars f s && all_chars f t.
Proof. induction s as [|c s IH]; [done|]. rewrite append_cons. simpl. by rewrite IH, andb_assoc. Qed.

Lemma append_inj_r (p a b : string) : p +:+ a = p +:+ b → a = b.
Proof. induction p as [|x p IH]; simpl; [done|]. intros [= H]. by apply IH. Qed.

Lemma prefix_append (a b : string) : String.prefix a (a +:+ b) = true.
Proof.
  induction a as [|x a IH]; [by destruct b|]. simpl. by destruct (ascii_dec x x).
Qed.

Lemma substring_full (s : string) n : String.length s ≤ n → String.substring 0 n s = s.
Proof.
  revert n; induction s as [|x s IH]; intros [|n] Hn; simpl in *; try done; [lia|].
  by rewrite IH by lia.
Qed.

Lemma substring_append (a b : string) n :
  String.length b ≤ n → String.substring (String.length a) n (a +:+ b) = b.
Proof. intros Hn. induction a as [|x a IH]; simpl; [by apply substring_full|done]. Qed.

Lemma length_append (a b : string) :
  String.length (a +:+ b) = String.length a + String.length b.
Proof. induction a as [|x a IH]; simpl; [done|]. by rewrite IH. Qed.

(** The separator starts at no position of [p] when [p] is followed by it:
    then the first cut of [p ++ sep ++ s] is after [p]. *)
Fixpoint no_early_sep (sep p s : string) : bool :=
  match p with
  | EmptyString => true
  | String c p' => negb (String.prefix sep (String c p' +:+ s)) && no_early_sep sep p' s
  end.

Lemma cut_prefix sep t :
  String.prefix sep t = true →
  cut sep t = Some ("", String.substring (String.length sep) (String.length t) t).
Proof. intros Ht. destruct t; cbn [cut]; by rewrite Ht. Qed.

Lemma cut_append sep p s :
  no_early_sep sep p (sep +:+ s) = true → cut sep (p +:+ sep +:+ s) = Some (p, s).
Proof.
  induction p as [|c p IH]; intros Hp.
  - change ("" +:+ sep +:+ s) with (sep +:+ s).
    rewrite cut_prefix by apply prefix_append.
    rewrite substring_append; [done|]. rewrite length_append. lia.
  - cbn [no_early_sep] in Hp. apply andb_true_iff in Hp as [Hc Hp].
    apply negb_true_iff in Hc. rewrite append_cons in Hc |- *.
    cbn [cut]. rewrite Hc. by rewrite IH.
Qed.

(** A text with no occurrence of the separator's first byte is never cut early. *)
Fixpoint has_char (c : ascii) (s : string) : bool :=
  match s with
  | EmptyString => false
  | String x s => bool_decide (x = c) || has_char c s
  end.

Lemma no_early_sep_char c sep p s :
  has_char c p = false → no_early_sep (String c sep) p s = true.
Proof.
  induction p as [|x p IH]; intros Hp; [done|].
  simpl in Hp. apply orb_false_iff in Hp as [Hx Hp]. apply bool_decide_eq_false_1 in Hx.
  simpl. destruct (ascii_dec c x) as [->|]; [done|]. simpl. by apply IH.
Qed.

Lemma substring_enough (u : string) k n m :
  String.length u ≤ n + k → String.length u ≤ m + k →
  String.substring k n u = String.substring k m u.
Proof.
  revert k n m; induction u as [|z u IHu]; intros [|k] n m H1 H2; simpl in *; try done;
    [by destruct n, m| |by apply IHu; lia].
  destruct n, m; simpl; try done; try lia. by rewrite (IHu 0 n m) by lia.
Qed.

Lemma prefix_substring a t :
  String.prefix a t = true →
  t = a +:+ String.substring (String.length a) (String.length t) t.
Proof.
  revert t; induction a as [|x a IHa]; intros [|y t] Ht; simpl in *; try done.
  - by rewrite substring_full.
  - destruct (ascii_dec x y) as [->|]; [|done]. f_equal.
    rewrite (IHa t Ht) at 1. f_equal. apply substring_enough; lia.
Qed.

(** What [cut] returns puts the string back together. *)
Lemma cut_Some sep s a b : cut sep s = Some (a, b) → s = a +:+ sep +:+ b.
Proof.
  revert a b; induction s as [|c s IH]; intros a b.
  - destruct (String.prefix sep "") eqn:Hp.
    + rewrite cut_prefix by done. intros [= <- <-]. by apply prefix_substring in Hp.
    + cbn [cut]. by rewrite Hp.
  - destruct (String.prefix sep (String c s)) eqn:Hp.
    + rewrite cut_prefix by done. intros [= <- <-]. by apply prefix_substring in Hp.
    + cbn [cut]. rewrite Hp. destruct (cut sep s) as [[a' b']|] eqn:Ec; [|done].
      intros [= <- <-]. by rewrite (IH _ _ eq_refl).
Qed.

(** Splitting and joining: what is split joins to itself, and what is joined is
    split into its parts if none holds the separator. *)
Lemma split_char_cons sep s : ∃ x l, split_char sep s = x :: l.
Proof. destruct s as [|c s]; simpl; [by do 2 eexists|]. destruct (Ascii.eqb c sep); [by do 2 eexists|]. destruct (split_char sep s); by do 2 eexists. Qed.

Lemma join_split sep s : join_char sep (split_char sep s) = s.
Proof.
  induction s as [|c s IH]; [done|]. cbn [split_char]. destruct (split_char_cons sep s) as (x & l & Hs). rewrite Hs in IH |- *.
  destruct (Ascii.eqb_spec c sep) as [->|_].
  - change (join_char sep ("" :: x :: l)) with (String sep (join_char sep (x :: l))). by rewrite IH.
  - destruct l as [|y l]; cbn [join_char] in *; [by rewrite IH|]. change (String c x +:+ ?t) with (String c (x +:+ t)). by rewrite IH.
Qed.

Lemma split_char_app sep x s :
  has_char sep x = false →
  split_char sep (x +:+ s) = match split_char sep s with y :: l => (x +:+ y) :: l | [] => [] end.
Proof.
  induction x as [|c x IH]; intros Hx; simpl; [by destruct (split_char_cons sep s) as (y & l & ->)|].
  simpl in Hx. apply orb_false_iff in Hx as [Hc Hx]. apply bool_decide_eq_false_1 in Hc.
  rewrite (proj2 (Ascii.eqb_neq c sep) Hc), (IH Hx). by destruct (split_char_cons sep s) as (y & l & ->).
Qed.

Lemma split_join sep l : l ≠ [] → Forall (λ x, has_char sep x = false) l → split_char sep (join_char sep l) = l.
Proof.
  intros Hl Hf. induction Hf as [|x l Hx Hf IH]; [done|]. destruct l as [|y l].
  - simpl. rewrite <-(append_nil_r x) at 1. rewrite split_char_app by done. simpl. by rewrite append_nil_r.
  - change (join_char sep (x :: y :: l)) with (x +:+ String sep (join_char sep (y :: l))). rewrite split_char_app by done.
    cbn [split_char]. rewrite Ascii.eqb_refl, IH by done. by rewrite append_nil_r.
Qed.

Open Scope Z_scope.

Lemma byte_val_range c : 0 <= byte_val c < 256.
Proof. unfold byte_val. pose proof (N_ascii_bounded c). lia. Qed.

Lemma decode_runes_ascii bs fuel :
  (length bs <= fuel)%nat → Forall (λ b, 0 <= b < 128) bs → decode_runes fuel bs = bs.
Proof.
  revert fuel; induction bs as [|b bs IH]; intros [|fuel] Hl Hb; simpl in *; try done; [lia|].
  inv Hb. unfold decode_rune. rewrite (proj2 (Z.ltb_lt b 128)) by lia.
  simpl. rewrite drop_0. f_equal. apply IH; [lia|done].
Qed.

Lemma string_bytes_length s : length (string_bytes s) = String.length s.
Proof. induction s as [|c s IH]; simpl; [done|]. by rewrite IH. Qed.

Lemma string_bytes_ascii_runes rs :
  Forall (λ r, 0 <= r < 128) rs → string_bytes (ascii_runes_string rs) = rs.
Proof.
  induction 1 as [|r rs Hr _ IH]; [done|]. simpl. rewrite IH. f_equal.
  unfold byte_val. rewrite N_ascii_embedding by lia. lia.
Qed.

(** ASCII text: the runes visited are the runes written. *)
Lemma range_runes_ascii rs :
  Forall (λ r, 0 <= r < 128) rs → range_runes (ascii_runes_string rs) = rs.
Proof.
  intros Hr. unfold range_runes. rewrite string_bytes_ascii_runes by done.
  apply decode_runes_ascii; [|done].
  by rewrite <-string_bytes_length, string_bytes_ascii_runes.
Qed.
