(* ===== verification/Regexp.v ===== *)
(** * Go's regexp: the regular expressions that the program compiles

    A parser of the literals, for the part of Go's syntax that they use -
    groups, alternatives, character classes, [+] and [*], with the whole
    anchored by [^] and [$] -, the language of an expression, and a matcher by
    derivatives that decides it.  What a literal means is thus computed from
    the literal. *)

From S2P Require Import Prelude GoString.

(** A class of characters, by its ranges. *)
Definition char_set : Type := list (Ascii.ascii * Ascii.ascii).

Definition in_range (c : Ascii.ascii) (r : Ascii.ascii * Ascii.ascii) : bool :=
  Nat.leb (Ascii.nat_of_ascii r.1) (Ascii.nat_of_ascii c) && Nat.leb (Ascii.nat_of_ascii c) (Ascii.nat_of_ascii r.2).

Definition in_set (l : char_set) (c : Ascii.ascii) : bool := existsb (in_range c) l.

Inductive regex : Type :=
| RNone
| REps
| RSet (l : char_set)
| RAlt (r1 r2 : regex)
| RSeq (r1 r2 : regex)
| RStar (r : regex).

Definition RPlus (r : regex) : regex := RSeq r (RStar r).

(** ** The language of an expression *)

Inductive lang : regex → string → Prop :=
| lang_eps : lang REps ""
| lang_set l c : in_set l c = true → lang (RSet l) (String c "")
| lang_altl r1 r2 s : lang r1 s → lang (RAlt r1 r2) s
| lang_altr r1 r2 s : lang r2 s → lang (RAlt r1 r2) s
| lang_seq r1 r2 s t : lang r1 s → lang r2 t → lang (RSeq r1 r2) (s +:+ t)
| lang_star_nil r : lang (RStar r) ""
| lang_star_cons r s t : lang r s → lang (RStar r) t → lang (RStar r) (s +:+ t).
#[export] Hint Constructors lang : core.

(** ** Matching *)

Fixpoint nullable (r : regex) : bool :=
  match r with
  | RNone | RSet _ => false
  | REps | RStar _ => true
  | RAlt r1 r2 => nullable r1 || nullable r2
  | RSeq r1 r2 => nullable r1 && nullable r2
  end.

(** What is to follow the character. *)
Fixpoint deriv (c : Ascii.ascii) (r : regex) : regex :=
  match r with
  | RNone | REps => RNone
  | RSet l => if in_set l c then REps else RNone
  | RAlt r1 r2 => RAlt (deriv c r1) (deriv c r2)
  | RSeq r1 r2 =>
      if nullable r1 then RAlt (RSeq (deriv c r1) r2) (deriv c r2) else RSeq (deriv c r1) r2
  | RStar r => RSeq (deriv c r) (RStar r)
  end.

(** [MatchString] of an expression anchored at both ends. *)
Fixpoint MatchString (r : regex) (s : string) : bool :=
  match s with
  | EmptyString => nullable r
  | String c s => MatchString (deriv c r) s
  end.

Lemma nullable_lang r : nullable r = true ↔ lang r "".
Proof.
  split.
  - induction r; simpl; intros H; try done; auto.
    + apply orb_true_iff in H as [?|?]; auto.
    + apply andb_true_iff in H as [H1 H2]. apply (lang_seq _ _ "" ""); auto.
  - intros H. remember "" as s eqn:Hs. induction H; simpl; try done.
    + by rewrite IHlang.
    + rewrite IHlang by done. by rewrite orb_true_r.
    + destruct s; [|done]. simpl in Hs. by rewrite IHlang1, IHlang2.
Qed.

Lemma lang_seq_inv r1 r2 s : lang (RSeq r1 r2) s → ∃ s1 s2, s = s1 +:+ s2 ∧ lang r1 s1 ∧ lang r2 s2.
Proof. inversion 1; subst. by eexists _, _. Qed.

(** A star that matches a character: the first part that is not empty starts with it. *)
Lemma lang_star_step r c s :
  lang (RStar r) (String c s) → ∃ s1 s2, s = s1 +:+ s2 ∧ lang r (String c s1) ∧ lang (RStar r) s2.
Proof.
  remember (RStar r) as r0 eqn:Hr. remember (String c s) as s0 eqn:Hs. intros H. revert c s Hs.
  induction H; try done; injection Hr as ->. intros c s0 Hs. destruct s as [|c1 s1].
  - by apply IHlang2.
  - injection Hs as -> <-. by exists s1, t.
Qed.

Lemma deriv_lang c r s : lang (deriv c r) s ↔ lang r (String c s).
Proof.
  revert s. induction r as [| |l|r1 IH1 r2 IH2|r1 IH1 r2 IH2|r IH]; intros s; simpl.
  - split; by inversion 1.
  - split; by inversion 1.
  - destruct (in_set l c) eqn:Hc; split; inversion 1; subst; auto. congruence.
  - split; inversion 1; subst; [apply lang_altl; by apply IH1|apply lang_altr; by apply IH2|apply lang_altl; by apply IH1|apply lang_altr; by apply IH2].
  - assert (lang (RSeq (deriv c r1) r2) s → lang (RSeq r1 r2) (String c s)) as H1.
    { intros (s1 & s2 & -> & Hs1 & Hs2)%lang_seq_inv. apply (lang_seq _ _ (String c s1)); [by apply IH1|done]. }
    assert (lang (RSeq r1 r2) (String c s) → lang (RSeq (deriv c r1) r2) s ∨ lang r1 "" ∧ lang (deriv c r2) s) as H2.
    { intros ([|c1 s1] & s2 & Hs & Hs1 & Hs2)%lang_seq_inv.
      - right. change ("" +:+ s2) with s2 in Hs. subst s2. split; [done|by apply IH2].
      - left. rewrite append_cons in Hs. injection Hs as -> ->. apply lang_seq; [by apply IH1|done]. }
    destruct (nullable r1) eqn:Hn.
    + split; [inversion 1; subst; [by apply H1|]|].
      * apply (lang_seq _ _ ""); [by apply nullable_lang|by apply IH2].
      * intros [?|[_ ?]]%H2; auto.
    + split; [done|]. intros [?|[He%nullable_lang _]]%H2; [done|congruence].
  - split.
    + intros (s1 & s2 & -> & Hs1 & Hs2)%lang_seq_inv. apply (lang_star_cons _ (String c s1)); [by apply IH|done].
    + intros (s1 & s2 & -> & Hs1 & Hs2)%lang_star_step. apply lang_seq; [by apply IH|done].
Qed.

(** The matcher decides the language. *)
Lemma MatchString_lang r s : MatchString r s = true ↔ lang r s.
Proof.
  revert r. induction s as [|c s IH]; intros r; simpl; [apply nullable_lang|]. by rewrite IH, deriv_lang.
Qed.

(** ** Parsing *)

Definition chr (n : nat) : Ascii.ascii := Ascii.ascii_of_nat n.
Definition c_open := chr 40.
Definition c_close := chr 41.
Definition c_star := chr 42.
Definition c_plus := chr 43.
Definition c_dash := chr 45.
Definition c_lbracket := chr 91.
Definition c_rbracket := chr 93.
Definition c_caret := chr 94.
Definition c_bar := chr 124.
Definition c_dollar := chr 36.

(** Characters with another meaning, which the literals do not use: a dot, a question
    mark, a backslash, braces. *)
Definition not_a_literal (c : Ascii.ascii) : bool :=
  existsb (Ascii.eqb c)
    [c_open; c_close; c_star; c_plus; c_lbracket; c_rbracket; c_caret; c_bar; c_dollar; chr 46; chr 63; chr 92; chr 123; chr 125].

Definition cons_class (r : Ascii.ascii * Ascii.ascii) (p : option (char_set * string)) : option (char_set * string) :=
  match p with Some (l, rest) => Some (r :: l, rest) | None => None end.

(** The rest of a class: a range if a dash and another character follow; a dash is a
    character of its own anywhere else. *)
Fixpoint p_class (s : string) : option (char_set * string) :=
  match s with
  | EmptyString => None
  | String lo s1 =>
      if Ascii.eqb lo c_rbracket then Some ([], s1) else
      if Ascii.eqb lo (chr 92) then None else
      match s1 with
      | String d (String hi s3) =>
          if Ascii.eqb d c_dash && negb (Ascii.eqb hi c_rbracket) then
            if Nat.leb (Ascii.nat_of_ascii lo) (Ascii.nat_of_ascii hi) then cons_class (lo, hi) (p_class s3) else None
          else cons_class (lo, lo) (p_class s1)
      | _ => cons_class (lo, lo) (p_class s1)
      end
  end.

(** [+] or [*] after an atom. *)
Definition p_postfix (r : regex) (s : string) : regex * string :=
  match s with
  | String c rest => if Ascii.eqb c c_plus then (RPlus r, rest) else if Ascii.eqb c c_star then (RStar r, rest) else (r, s)
  | EmptyString => (r, s)
  end.

Definition seq_of (r1 r2 : regex) : regex := match r2 with REps => r1 | _ => RSeq r1 r2 end.

(** Alternatives of sequences of atoms; every call but the first follows a character
    that was consumed or decreases the fuel by one of two. *)
Fixpoint p_alt (n : nat) (s : string) : option (regex * string) :=
  match n with
  | O => None
  | S n =>
      match p_seq n s with
      | Some (r, String c rest) =>
          if Ascii.eqb c c_bar then
            match p_alt n rest with Some (r2, rest2) => Some (RAlt r r2, rest2) | None => None end
          else Some (r, String c rest)
      | p => p
      end
  end
with p_seq (n : nat) (s : string) : option (regex * string) :=
  match n with
  | O => None
  | S n =>
      match s with
      | EmptyString => Some (REps, s)
      | String c _ =>
          if Ascii.eqb c c_bar || Ascii.eqb c c_close then Some (REps, s) else
          match p_atom n s with
          | Some (r, rest) =>
              let '(r, rest) := p_postfix r rest in
              match p_seq n rest with Some (r2, rest2) => Some (seq_of r r2, rest2) | None => None end
          | None => None
          end
      end
  end
with p_atom (n : nat) (s : string) : option (regex * string) :=
  match n with
  | O => None
  | S n =>
      match s with
      | EmptyString => None
      | String c rest =>
          if Ascii.eqb c c_open then
            match p_alt n rest with
            | Some (r, String d rest2) => if Ascii.eqb d c_close then Some (r, rest2) else None
            | _ => None
            end
          else if Ascii.eqb c c_lbracket then
            match rest with
            | EmptyString => None
            | String d _ =>
                if Ascii.eqb d c_caret || Ascii.eqb d c_rbracket then None else
                match p_class rest with Some (l, rest2) => Some (RSet l, rest2) | None => None end
            end
          else if not_a_literal c then None else Some (RSet [(c, c)], rest)
      end
  end.

(** [MustCompile] of a literal [^(...)$]; [None] for others, and where Go panics. *)
Definition MustCompile (literal : string) : option regex :=
  match literal with
  | String c s =>
      if Ascii.eqb c c_caret then
        match p_atom (4 * String.length s) s with
        | Some (r, String d EmptyString) => if Ascii.eqb d c_dollar then Some r else None
        | _ => None
        end
      else None
  | EmptyString => None
  end.

(** ** Reading the language of an expression *)

Definition concat_strings (l : list string) : string := foldr String.append "" l.

Lemma lang_alt_iff r1 r2 s : lang (RAlt r1 r2) s ↔ lang r1 s ∨ lang r2 s.
Proof. split; [inversion 1; auto|intros [?|?]; auto]. Qed.

Lemma lang_seq_iff r1 r2 s : lang (RSeq r1 r2) s ↔ ∃ s1 s2, s = s1 +:+ s2 ∧ lang r1 s1 ∧ lang r2 s2.
Proof. split; [apply lang_seq_inv|]. intros (s1 & s2 & -> & ? & ?). auto. Qed.

Lemma lang_star_iff r s : lang (RStar r) s ↔ ∃ l, Forall (lang r) l ∧ s = concat_strings l.
Proof.
  split.
  - remember (RStar r) as r0 eqn:Hr. induction 1; try done; injection Hr as ->; [by exists []|].
    destruct (IHlang2 eq_refl) as (l & Hl & ->). exists (s :: l). split; [by constructor|done].
  - intros (l & Hl & ->). induction Hl; simpl; auto.
Qed.

Lemma lang_plus_iff r s : lang (RPlus r) s ↔ ∃ l, l ≠ [] ∧ Forall (lang r) l ∧ s = concat_strings l.
Proof.
  unfold RPlus. rewrite lang_seq_iff. split.
  - intros (s1 & s2 & -> & H1 & (l & Hl & ->)%lang_star_iff). exists (s1 :: l). split_ands; [done|by constructor|done].
  - intros ([|s1 l] & Hne & Hl & ->); [done|]. apply Forall_cons in Hl as [H1 Hl].
    exists s1, (concat_strings l). split_ands; [done|done|]. apply lang_star_iff. by exists l.
Qed.

Lemma lang_set_iff l s : lang (RSet l) s ↔ ∃ c, s = String c "" ∧ in_set l c = true.
Proof. split; [inversion 1; subst; by eexists|]. intros (c & -> & ?). auto. Qed.

(** One or more characters of a class. *)
Lemma lang_set_plus_iff l s : lang (RPlus (RSet l)) s ↔ s ≠ "" ∧ all_chars (in_set l) s = true.
Proof.
  rewrite lang_plus_iff. split.
  - intros (ss & Hne & Hl & ->). destruct Hl as [|s1 ss H1 Hl]; [done|].
    assert (all_chars (in_set l) (concat_strings (s1 :: ss)) = true) as Hall.
    { clear Hne. assert (Forall (lang (RSet l)) (s1 :: ss)) as Hf by by constructor. clear -Hf.
      induction Hf as [|x xs (c & -> & Hc)%lang_set_iff _ IH]; [done|]. simpl. by rewrite Hc. }
    split; [|done]. apply lang_set_iff in H1 as (c & -> & _). done.
  - intros [Hne Hall]. assert (∃ ss, Forall (lang (RSet l)) ss ∧ s = concat_strings ss) as (ss & Hss & ->).
    { clear Hne. induction s as [|c s IH]; [by exists []|]. simpl in Hall. apply andb_true_iff in Hall as [Hc Hs].
      destruct (IH Hs) as (ss & Hss & ->). exists (String c "" :: ss). split; [constructor; auto|done]. }
    exists ss. split_ands; [by intros ->|done|done].
Qed.
