(* ===== verification/Multicluster.v ===== *)
(** * pkg/multicluster and pkg/context: names, interfaces, the shared world

    The vocabulary every component uses: cluster names, clusters, the [Aware]
    and [Provider] interfaces, and the world in which code of other modules
    (controller-runtime, client-go) is called. *)

From S2P Require Import Prelude GoErrors GoContext.

(* src: pkg/multicluster/multicluster.go:26-29 ClusterName *)
Definition ClusterName : Type := string.

(* src: pkg/multicluster/multicluster.go:31-34 ClusterName.String *)
Definition ClusterName_String (clusterName : ClusterName) : string := clusterName.

(* src: pkg/multicluster/multicluster.go:36-39 ClusterName.Empty *)
Definition ClusterName_Empty (clusterName : ClusterName) : bool :=
  bool_decide (ClusterName_String clusterName = "").

(* src: pkg/multicluster/errors.go:23-29 ErrClusterNotFound *)
Definition ErrClusterNotFound : error := Sentinel "cluster not found".

(** [errors.Is(err, multicluster.ErrClusterNotFound)] *)
Definition Is_ErrClusterNotFound (e : error) : bool := Is e "cluster not found".

(** A [cluster.Cluster] is an interface value holding a pointer; the code
    compares clusters by identity and otherwise only calls them. *)
Definition cluster : Type := nat.

(* src: pkg/clusters/clusters.go:62-67 Index *)
Record Index := MkIndex {
  Index_Object : string;
  Index_Field : string;
  Index_Extractor : nat;
}.

#[export] Instance Index_eq_dec : EqDecision Index.
Proof. solve_decision. Defined.

(** ** Calls that leave the repository

    What the components call on clusters, on awares they were handed and on
    controllers.  A call is recorded, and the environment answers it: an
    oracle chooses the answer, an optional error, from the calls made so far.
    Answers that are booleans ([WaitForCacheSync]) count a nil error as true. *)
Inductive call : Type :=
| CallStart (cl : cluster) (ctx : context)            (** [cl.Start(ctx)], in a goroutine *)
| CallSync (cl : cluster) (ctx : context)             (** [cl.GetCache().WaitForCacheSync(ctx)] *)
| CallIndex (cl : cluster) (ctx : context) (i : Index) (** [IndexField] on a cluster *)
| CallEngage (a : nat) (ctx : context) (name : ClusterName) (cl : cluster)
                                                       (** [Engage] on aware number [a] *)
| CallWatch (src : nat) (cl : cluster) (ctx : context) (** [TypedController.Watch] of a source *)
| CallWatchPlain (src : nat)                           (** the same, within the controller's own context *)
| CallAdd (r : nat)                                    (** [manager.Manager.Add] *)
| CallStartMgr (ctx : context).                        (** [manager.Manager.Start] *)

#[export] Instance call_eq_dec : EqDecision call.
Proof. solve_decision. Defined.

Definition oracle : Type := list call → call → option error.

Record world := World {
  w_ctxs : ctx_store;
  w_calls : list call;
}.

Definition empty_world : world := World empty_store [].

(** The oracle under which every call succeeds. *)
Definition all_ok : oracle := fun _ _ => None.

Definition ask (o : oracle) (c : call) : M world (option error) :=
  fun w => (o (w_calls w) c, World (w_ctxs w) (w_calls w ++ [c])).

Definition w_WithCancel (parent : context) : M world (context * cancel_func) :=
  fun w => let '(c, n, cs) := WithCancel parent (w_ctxs w) in ((c, n), World cs (w_calls w)).

Definition w_cancel (n : cancel_func) : M world unit :=
  fun w => (tt, World (cancel n (w_ctxs w)) (w_calls w)).

Definition w_Err (c : context) (w : world) : option error := ctx_Err c (w_ctxs w).

(** ** Interfaces *)

(** The [Engage] method of a [multicluster.Aware] value. *)
(* src: pkg/multicluster/multicluster.go:41-61 Aware *)
Definition Aware : Type := context → ClusterName → cluster → M world (option error).

(** Awares that act on more than the world: a state [W] of which the world is a
    part, as when the components that are engaged are modelled themselves. *)
Definition AwareOn (W : Type) : Type := context → ClusterName → cluster → M W (option error).

(** An aware of the environment. *)
Definition ext_aware (o : oracle) (a : nat) : Aware :=
  fun ctx name cl => ask o (CallEngage a ctx name cl).

(** What a provider runs in: the world, and the awares it was handed. *)
Class Surroundings (W : Type) := {
  in_world : ∀ {A}, M world A → M W A;
  aware_Engage : nat → AwareOn W;
}.

(** Awares that belong to the environment. *)
Definition outside (o : oracle) : Surroundings world := {|
  in_world A m := m;
  aware_Engage := ext_aware o;
|}.

(** The [multicluster.Provider] interface over provider states [P]. *)
(* src: pkg/multicluster/multicluster.go:71-87 Provider *)
Class Provider (P : Type) := {
  provider_Get : P → context → ClusterName → result error cluster;
  provider_IndexField : P → context → Index → M world (P * option error);
}.

(** What [Get] promises to the manager and the reconcilers: the cluster known
    under the name, or an error that is [ErrClusterNotFound]. *)
Class ProviderSpec (P : Type) `{Provider P} := {
  known : P → ClusterName → option cluster;
  provider_Get_known p ctx n cl :
    known p n = Some cl → provider_Get p ctx n = Ok cl;
  provider_Get_unknown p ctx n :
    known p n = None →
    ∃ e, provider_Get p ctx n = Err e ∧ Is_ErrClusterNotFound e = true;
}.

(** [multicluster.ProviderRunnable]: its [Start] takes the aware to engage with. *)
(* src: pkg/multicluster/multicluster.go:89-101 ProviderRunnable *)
Class ProviderRunnable (P : Type) := {
  provider_Start : P → context → Aware → M world (option error);
}.

(** ** pkg/context *)

(* src: pkg/context/cluster.go:35-38 WithCluster *)
Definition ctx_WithCluster (ctx : context) (cluster : ClusterName) : context :=
  WithValue ctx clusterKey cluster.

(* src: pkg/context/cluster.go:40-44 ClusterFrom *)
Definition ClusterFrom (ctx : context) : ClusterName * bool :=
  match Value ctx clusterKey with
  | Some cluster => (cluster, true)
  | None => ("", false)
  end.

(** ** Lemmas *)

Lemma ClusterFrom_WithCluster ctx n : ClusterFrom (ctx_WithCluster ctx n) = (n, true).
Proof. unfold ClusterFrom, ctx_WithCluster. by rewrite Value_WithValue_eq. Qed.

Lemma ctx_WithCluster_Err ctx n w : w_Err (ctx_WithCluster ctx n) w = w_Err ctx w.
Proof. done. Qed.

Lemma ask_ctxs o c w : w_ctxs (ask o c w).2 = w_ctxs w.
Proof. done. Qed.

(** Among the calls [l], made after the calls [h], is [c], and it was answered
    [r]; the same of all the calls so far. *)
Definition answered_in (o : oracle) (h l : list call) (c : call) (r : option error) : Prop :=
  ∃ pre, pre ++ [c] `prefix_of` l ∧ o (h ++ pre) c = r.

Definition answered (o : oracle) : list call → call → option error → Prop := answered_in o [].

Lemma answered_in_mono o h l l' c r : l `prefix_of` l' → answered_in o h l c r → answered_in o h l' c r.
Proof. intros Hp (pre & Hpre & Ho). exists pre. split; [by etrans|done]. Qed.

Lemma answered_in_app o h l l' c r : answered_in o (h ++ l) l' c r → answered_in o h (l ++ l') c r.
Proof.
  intros (pre & [k ->] & Ho). exists (l ++ pre). rewrite <-app_assoc in Ho. split; [|done].
  exists k. by rewrite <-!app_assoc.
Qed.

Lemma answered_in_here o h l c : answered_in o h (c :: l) c (o h c).
Proof. exists []. split; [by exists l|by rewrite app_nil_r]. Qed.

Lemma answered_in_called o h l c r : answered_in o h l c r → c ∈ l.
Proof. intros (pre & [k ->] & _). set_solver. Qed.

Lemma answered_mono o calls calls' c r :
  calls `prefix_of` calls' → answered o calls c r → answered o calls' c r.
Proof. apply answered_in_mono. Qed.

Lemma answered_last o pre c : answered o (pre ++ [c]) c (o pre c).
Proof. by exists pre. Qed.

#[export] Hint Rewrite ClusterFrom_WithCluster ctx_WithCluster_Err ask_ctxs : mcr.
