(* ===== verification/Reconcile.v ===== *)
(** * pkg/reconcile: requests that name a cluster, and the not-found wrapper *)

From S2P Require Import Prelude GoErrors GoContext GoString Multicluster.

(** controller-runtime's [reconcile.Request] and [reconcile.Result]. *)
Record cr_Request := MkCrRequest {
  Namespace : string;
  Name : string;
}.

#[export] Instance cr_Request_eq_dec : EqDecision cr_Request.
Proof. solve_decision. Defined.

Record Result := MkResult {
  Requeue : bool;
  RequeueAfter : Z;
}.

(** [reconcile.Result{}] *)
Definition zero_Result : Result := MkResult false 0.

(** [reconcile.TypedReconciler[request]] *)
Definition Reconciler (request : Type) : Type :=
  context → request → M world (Result * option error).

(* src: pkg/reconcile/request.go:29-36 ClusterAware *)
Class ClusterAware (request : Type) := {
  Cluster : request → ClusterName;
  WithCluster : request → ClusterName → request;
  RequestString : request → string;
}.

(** What the handlers rely on: the cluster name is a field of the request. *)
Class ClusterAwareLaws (request : Type) `{ClusterAware request} := {
  Cluster_WithCluster r n : Cluster (WithCluster r n) = n;
  WithCluster_WithCluster r n m : WithCluster (WithCluster r n) m = WithCluster r m;
  WithCluster_Cluster r : WithCluster r (Cluster r) = r;
}.

(** ** Request *)

(* src: pkg/reconcile/request.go:38-44 Request *)
Record Request := MkRequest {
  req_Request : cr_Request;
  req_ClusterName : ClusterName;
}.

#[export] Instance Request_eq_dec : EqDecision Request.
Proof. solve_decision. Defined.

(** [reconcile.Request]'s own [String] method belongs to controller-runtime. *)
Section RequestString.
Variable cr_String : cr_Request → string.

(* src: pkg/reconcile/request.go:46-52 Request.String *)
Definition Request_String (r : Request) : string :=
  if bool_decide (req_ClusterName r = "") then cr_String (req_Request r)
  else "cluster://" +:+ req_ClusterName r +:+ "/" +:+ cr_String (req_Request r).

(* src: pkg/reconcile/request.go:54-57 Request.Cluster *)
Definition Request_Cluster (r : Request) : ClusterName := req_ClusterName r.

(* src: pkg/reconcile/request.go:59-63 Request.WithCluster *)
Definition Request_WithCluster (r : Request) (name : ClusterName) : Request :=
  MkRequest (req_Request r) name.

Definition Request_ClusterAware : ClusterAware Request := {|
  Cluster := Request_Cluster;
  WithCluster := Request_WithCluster;
  RequestString := Request_String;
|}.
End RequestString.

(** ** WithCluster: any request with a cluster name *)

Section Lift.
Context {request : Type} (Sprint : request → string).

(* src: pkg/reconcile/lift.go:25-30 WithCluster *)
Record withCluster := MkWithCluster {
  wc_Request : request;
  wc_ClusterName : ClusterName;
}.

(* src: pkg/reconcile/lift.go:32-38 WithCluster.String *)
Definition withCluster_String (r : withCluster) : string :=
  if bool_decide (wc_ClusterName r = "") then Sprint (wc_Request r)
  else "cluster://" +:+ wc_ClusterName r +:+ "/" +:+ Sprint (wc_Request r).

(* src: pkg/reconcile/lift.go:40-43 WithCluster.Cluster *)
Definition withCluster_Cluster (r : withCluster) : ClusterName := wc_ClusterName r.

(* src: pkg/reconcile/lift.go:45-49 WithCluster.WithCluster *)
Definition withCluster_WithCluster (r : withCluster) (name : ClusterName) : withCluster :=
  MkWithCluster (wc_Request r) name.

Definition withCluster_ClusterAware : ClusterAware withCluster := {|
  Cluster := withCluster_Cluster;
  WithCluster := withCluster_WithCluster;
  RequestString := withCluster_String;
|}.
End Lift.
Arguments withCluster : clear implicits.

(** ** ClusterNotFoundWrapper *)

(* src: pkg/reconcile/wrapper.go:29-32 ClusterNotFoundWrapper *)
Record ClusterNotFoundWrapper (request : Type) := MkWrapper {
  wrapped : Reconciler request;
}.
Arguments MkWrapper {request} _.
Arguments wrapped {request} _.

(* src: pkg/reconcile/wrapper.go:34-37 NewClusterNotFoundWrapper *)
Definition NewClusterNotFoundWrapper {request} (w : Reconciler request) :
  ClusterNotFoundWrapper request := MkWrapper w.

(* src: pkg/reconcile/wrapper.go:39-49 ClusterNotFoundWrapper.Reconcile *)
Definition Wrapper_Reconcile {request} (r : ClusterNotFoundWrapper request) : Reconciler request :=
  fun ctx req =>
    '(res, err) ← wrapped r ctx req;
    if IsOpt err "cluster not found" then mret (zero_Result, None)
    else mret (res, err).

(** ** pkg/context's reconciler *)

(* src: pkg/context/cluster.go:46-53 ReconcilerWithClusterInContext *)
Definition ReconcilerWithClusterInContext (r : Reconciler cr_Request) : Reconciler Request :=
  fun ctx req => r (ctx_WithCluster ctx (req_ClusterName req)) (req_Request req).

(** ** Theorems *)

Lemma Request_laws (cr_String : cr_Request → string) :
  @ClusterAwareLaws Request (Request_ClusterAware cr_String).
Proof. split; by intros []. Qed.

Lemma withCluster_laws {request} (Sprint : request → string) :
  @ClusterAwareLaws (withCluster request) (withCluster_ClusterAware Sprint).
Proof. split; by intros []. Qed.

(** The wrapper hides exactly the not-found outcomes and changes nothing else. *)
Lemma Wrapper_Reconcile_spec {request} (r : Reconciler request) ctx req w :
  Wrapper_Reconcile (NewClusterNotFoundWrapper r) ctx req w =
    let '(res, err, w') := r ctx req w in
    if IsOpt err "cluster not found" then (zero_Result, None, w') else (res, err, w').
Proof.
  unfold Wrapper_Reconcile. run_m. destruct (r ctx req w) as [[res err] w'].
  by destruct (IsOpt err _).
Qed.
