(* ===== verification/Handler.v ===== *)
(** * pkg/handler: lifting event handlers to multi-cluster requests

    Work queues and event handlers belong to client-go and controller-runtime:
    a queue is any type with the operations of
    [workqueue.TypedRateLimitingInterface], a handler any value that, given a
    queue, acts on it.  The repository's code is the queue wrappers that put
    the cluster name into every item, and the handlers that install them. *)

From S2P Require Import Prelude GoContext Multicluster Reconcile.

(** ** Work queues *)

Class RateLimitingQueue (Q item : Type) := {
  q_Add : item → Q → Q;
  q_Len : Q → nat;
  q_Get : Q → (item * bool) * Q;
  q_Done : item → Q → Q;
  q_ShutDown : Q → Q;
  q_ShutDownWithDrain : Q → Q;
  q_ShuttingDown : Q → bool;
  q_AddAfter : item → Z → Q → Q;
  q_AddRateLimited : item → Q → Q;
  q_Forget : item → Q → Q;
  q_NumRequeues : item → Q → nat;
}.

(* src: pkg/handler/lift.go:96-99 clusterQueue *)
Record clusterQueue (Q : Type) := MkClusterQueue {
  cq_q : Q;
  cq_cl : ClusterName;
}.
Arguments MkClusterQueue {Q} _ _.
Arguments cq_q {Q} _.
Arguments cq_cl {Q} _.

Section ClusterQueue.
Context {Q : Type} {RQ : RateLimitingQueue Q Request}.

Definition cq_item (c : clusterQueue Q) (item : cr_Request) : Request :=
  MkRequest item (cq_cl c).

Definition cq_with (c : clusterQueue Q) (q : Q) : clusterQueue Q := MkClusterQueue q (cq_cl c).

(* src: pkg/handler/lift.go:101-103 clusterQueue.Add *)
Definition clusterQueue_Add (item : cr_Request) (c : clusterQueue Q) : clusterQueue Q :=
  cq_with c (q_Add (cq_item c item) (cq_q c)).

(* src: pkg/handler/lift.go:105-107 clusterQueue.Len *)
Definition clusterQueue_Len (c : clusterQueue Q) : nat := q_Len (item:=Request) (cq_q c).

(* src: pkg/handler/lift.go:109-112 clusterQueue.Get *)
Definition clusterQueue_Get (c : clusterQueue Q) : (cr_Request * bool) * clusterQueue Q :=
  let '((it, shutdown), q) := q_Get (cq_q c) in ((req_Request it, shutdown), cq_with c q).

(* src: pkg/handler/lift.go:114-116 clusterQueue.Done *)
Definition clusterQueue_Done (item : cr_Request) (c : clusterQueue Q) : clusterQueue Q :=
  cq_with c (q_Done (cq_item c item) (cq_q c)).

(* src: pkg/handler/lift.go:118-120 clusterQueue.ShutDown *)
Definition clusterQueue_ShutDown (c : clusterQueue Q) : clusterQueue Q :=
  cq_with c (q_ShutDown (item:=Request) (cq_q c)).

(* src: pkg/handler/lift.go:122-124 clusterQueue.ShutDownWithDrain *)
Definition clusterQueue_ShutDownWithDrain (c : clusterQueue Q) : clusterQueue Q :=
  cq_with c (q_ShutDownWithDrain (item:=Request) (cq_q c)).

(* src: pkg/handler/lift.go:126-128 clusterQueue.ShuttingDown *)
Definition clusterQueue_ShuttingDown (c : clusterQueue Q) : bool :=
  q_ShuttingDown (item:=Request) (cq_q c).

(* src: pkg/handler/lift.go:130-132 clusterQueue.AddAfter *)
Definition clusterQueue_AddAfter (item : cr_Request) (duration : Z) (c : clusterQueue Q) :
  clusterQueue Q := cq_with c (q_AddAfter (cq_item c item) duration (cq_q c)).

(* src: pkg/handler/lift.go:134-136 clusterQueue.AddRateLimited *)
Definition clusterQueue_AddRateLimited (item : cr_Request) (c : clusterQueue Q) :
  clusterQueue Q := cq_with c (q_AddRateLimited (cq_item c item) (cq_q c)).

(* src: pkg/handler/lift.go:138-140 clusterQueue.Forget *)
Definition clusterQueue_Forget (item : cr_Request) (c : clusterQueue Q) : clusterQueue Q :=
  cq_with c (q_Forget (cq_item c item) (cq_q c)).

(* src: pkg/handler/lift.go:142-144 clusterQueue.NumRequeues *)
Definition clusterQueue_NumRequeues (item : cr_Request) (c : clusterQueue Q) : nat :=
  q_NumRequeues (cq_item c item) (cq_q c).

#[export] Instance clusterQueue_queue : RateLimitingQueue (clusterQueue Q) cr_Request := {|
  q_Add := clusterQueue_Add;
  q_Len := clusterQueue_Len;
  q_Get := clusterQueue_Get;
  q_Done := clusterQueue_Done;
  q_ShutDown := clusterQueue_ShutDown;
  q_ShutDownWithDrain := clusterQueue_ShutDownWithDrain;
  q_ShuttingDown := clusterQueue_ShuttingDown;
  q_AddAfter := clusterQueue_AddAfter;
  q_AddRateLimited := clusterQueue_AddRateLimited;
  q_Forget := clusterQueue_Forget;
  q_NumRequeues := clusterQueue_NumRequeues;
|}.
End ClusterQueue.

(* src: pkg/handler/inject.go:72-75 clusterInjectingQueue *)
Record clusterInjectingQueue (Q : Type) := MkInjectingQueue {
  iq_q : Q;
  iq_cl : ClusterName;
}.
Arguments MkInjectingQueue {Q} _ _.
Arguments iq_q {Q} _.
Arguments iq_cl {Q} _.

Section InjectingQueue.
Context {Q request : Type} {CA : ClusterAware request} {RQ : RateLimitingQueue Q request}.

Definition iq_with (c : clusterInjectingQueue Q) (q : Q) : clusterInjectingQueue Q :=
  MkInjectingQueue q (iq_cl c).

(* src: pkg/handler/inject.go:77-79 clusterInjectingQueue.Add *)
Definition injectingQueue_Add (item : request) (c : clusterInjectingQueue Q) :
  clusterInjectingQueue Q := iq_with c (q_Add (WithCluster item (iq_cl c)) (iq_q c)).

(* src: pkg/handler/inject.go:81-83 clusterInjectingQueue.Len *)
Definition injectingQueue_Len (c : clusterInjectingQueue Q) : nat :=
  q_Len (item:=request) (iq_q c).

(* src: pkg/handler/inject.go:85-88 clusterInjectingQueue.Get *)
Definition injectingQueue_Get (c : clusterInjectingQueue Q) :
  (request * bool) * clusterInjectingQueue Q :=
  let '((it, shutdown), q) := q_Get (iq_q c) in ((WithCluster it "", shutdown), iq_with c q).

(* src: pkg/handler/inject.go:90-92 clusterInjectingQueue.Done *)
Definition injectingQueue_Done (item : request) (c : clusterInjectingQueue Q) :
  clusterInjectingQueue Q := iq_with c (q_Done (WithCluster item (iq_cl c)) (iq_q c)).

(* src: pkg/handler/inject.go:94-96 clusterInjectingQueue.ShutDown *)
Definition injectingQueue_ShutDown (c : clusterInjectingQueue Q) : clusterInjectingQueue Q :=
  iq_with c (q_ShutDown (item:=request) (iq_q c)).

(* src: pkg/handler/inject.go:98-100 clusterInjectingQueue.ShutDownWithDrain *)
Definition injectingQueue_ShutDownWithDrain (c : clusterInjectingQueue Q) :
  clusterInjectingQueue Q := iq_with c (q_ShutDownWithDrain (item:=request) (iq_q c)).

(* src: pkg/handler/inject.go:102-104 clusterInjectingQueue.ShuttingDown *)
Definition injectingQueue_ShuttingDown (c : clusterInjectingQueue Q) : bool :=
  q_ShuttingDown (item:=request) (iq_q c).

(* src: pkg/handler/inject.go:106-108 clusterInjectingQueue.AddAfter *)
Definition injectingQueue_AddAfter (item : request) (duration : Z) (c : clusterInjectingQueue Q) :
  clusterInjectingQueue Q :=
  iq_with c (q_AddAfter (WithCluster item (iq_cl c)) duration (iq_q c)).

(* src: pkg/handler/inject.go:110-112 clusterInjectingQueue.AddRateLimited *)
Definition injectingQueue_AddRateLimited (item : request) (c : clusterInjectingQueue Q) :
  clusterInjectingQueue Q :=
  iq_with c (q_AddRateLimited (WithCluster item (iq_cl c)) (iq_q c)).

(* src: pkg/handler/inject.go:114-116 clusterInjectingQueue.Forget *)
Definition injectingQueue_Forget (item : request) (c : clusterInjectingQueue Q) :
  clusterInjectingQueue Q := iq_with c (q_Forget (WithCluster item (iq_cl c)) (iq_q c)).

(* src: pkg/handler/inject.go:118-120 clusterInjectingQueue.NumRequeues *)
Definition injectingQueue_NumRequeues (item : request) (c : clusterInjectingQueue Q) : nat :=
  q_NumRequeues (WithCluster item (iq_cl c)) (iq_q c).

#[export] Instance injectingQueue_queue : RateLimitingQueue (clusterInjectingQueue Q) request := {|
  q_Add := injectingQueue_Add;
  q_Len := injectingQueue_Len;
  q_Get := injectingQueue_Get;
  q_Done := injectingQueue_Done;
  q_ShutDown := injectingQueue_ShutDown;
  q_ShutDownWithDrain := injectingQueue_ShutDownWithDrain;
  q_ShuttingDown := injectingQueue_ShuttingDown;
  q_AddAfter := injectingQueue_AddAfter;
  q_AddRateLimited := injectingQueue_AddRateLimited;
  q_Forget := injectingQueue_Forget;
  q_NumRequeues := injectingQueue_NumRequeues;
|}.
End InjectingQueue.

(** ** Event handlers *)

(** controller-runtime's typed events; the code only builds and forwards them. *)
Record CreateEvent (object : Type) := MkCreateEvent { ce_Object : object }.
Record UpdateEvent (object : Type) := MkUpdateEvent { ue_ObjectOld : object; ue_ObjectNew : object }.
Record DeleteEvent (object : Type) := MkDeleteEvent { de_Object : object }.
Record GenericEvent (object : Type) := MkGenericEvent { ge_Object : object }.
Arguments MkCreateEvent {object} _.
Arguments MkUpdateEvent {object} _ _.
Arguments MkDeleteEvent {object} _.
Arguments MkGenericEvent {object} _.
Arguments ce_Object {object} _.
Arguments ue_ObjectOld {object} _.
Arguments ue_ObjectNew {object} _.
Arguments de_Object {object} _.
Arguments ge_Object {object} _.

(** [handler.TypedEventHandler[object, item]]: what each event does to any queue. *)
Record TypedEventHandler (object item : Type) := MkEventHandler {
  h_Create : ∀ Q, RateLimitingQueue Q item → context → CreateEvent object → Q → Q;
  h_Update : ∀ Q, RateLimitingQueue Q item → context → UpdateEvent object → Q → Q;
  h_Delete : ∀ Q, RateLimitingQueue Q item → context → DeleteEvent object → Q → Q;
  h_Generic : ∀ Q, RateLimitingQueue Q item → context → GenericEvent object → Q → Q;
}.
Arguments h_Create {object item} _ Q _ _ _ _.
Arguments h_Update {object item} _ Q _ _ _ _.
Arguments h_Delete {object item} _ Q _ _ _ _.
Arguments h_Generic {object item} _ Q _ _ _ _.

(* src: pkg/handler/lift.go:38-39 TypedEventHandlerFunc *)
Definition TypedEventHandlerFunc (object request : Type) : Type :=
  ClusterName → cluster → TypedEventHandler object request.

(** The client objects of the untyped API. *)
Definition client_Object : Type := string.

(* src: pkg/handler/eventhandler.go:10-11 EventHandler *)
Definition EventHandler : Type := TypedEventHandler client_Object Request.

(* src: pkg/handler/lift.go:35-36 EventHandlerFunc *)
Definition EventHandlerFunc : Type := ClusterName → cluster → EventHandler.

Section ClusterHandler.
Context {object : Type}.

(* src: pkg/handler/lift.go:69-72 clusterHandler *)
Record clusterHandler := MkClusterHandler {
  ch_h : TypedEventHandler object cr_Request;
  ch_clusterName : ClusterName;
}.

(* src: pkg/handler/lift.go:74-77 clusterHandler.Create *)
Definition clusterHandler_Create (e : clusterHandler) (Q : Type) (RQ : RateLimitingQueue Q Request)
  (ctx : context) (evt : CreateEvent object) (q : Q) : Q :=
  cq_q (h_Create (ch_h e) (clusterQueue Q) _ ctx evt (MkClusterQueue q (ch_clusterName e))).

(* src: pkg/handler/lift.go:79-82 clusterHandler.Update *)
Definition clusterHandler_Update (e : clusterHandler) (Q : Type) (RQ : RateLimitingQueue Q Request)
  (ctx : context) (evt : UpdateEvent object) (q : Q) : Q :=
  cq_q (h_Update (ch_h e) (clusterQueue Q) _ ctx evt (MkClusterQueue q (ch_clusterName e))).

(* src: pkg/handler/lift.go:84-87 clusterHandler.Delete *)
Definition clusterHandler_Delete (e : clusterHandler) (Q : Type) (RQ : RateLimitingQueue Q Request)
  (ctx : context) (evt : DeleteEvent object) (q : Q) : Q :=
  cq_q (h_Delete (ch_h e) (clusterQueue Q) _ ctx evt (MkClusterQueue q (ch_clusterName e))).

(* src: pkg/handler/lift.go:89-92 clusterHandler.Generic *)
Definition clusterHandler_Generic (e : clusterHandler) (Q : Type) (RQ : RateLimitingQueue Q Request)
  (ctx : context) (evt : GenericEvent object) (q : Q) : Q :=
  cq_q (h_Generic (ch_h e) (clusterQueue Q) _ ctx evt (MkClusterQueue q (ch_clusterName e))).

Definition clusterHandler_handler (e : clusterHandler) : TypedEventHandler object Request := {|
  h_Create := clusterHandler_Create e;
  h_Update := clusterHandler_Update e;
  h_Delete := clusterHandler_Delete e;
  h_Generic := clusterHandler_Generic e;
|}.

(* src: pkg/handler/lift.go:47-51 TypedForCluster *)
Definition TypedForCluster (h : TypedEventHandler object cr_Request) (clusterName : ClusterName) :
  TypedEventHandler object Request := clusterHandler_handler (MkClusterHandler h clusterName).

(* src: pkg/handler/lift.go:59-65 TypedLift *)
Definition TypedLift (h : TypedEventHandler object cr_Request) : TypedEventHandlerFunc object Request :=
  fun clusterName cl => clusterHandler_handler (MkClusterHandler h clusterName).
End ClusterHandler.
Arguments clusterHandler : clear implicits.

(* src: pkg/handler/lift.go:41-45 ForCluster *)
Definition ForCluster (h : TypedEventHandler client_Object cr_Request) (clusterName : ClusterName) :
  EventHandler := clusterHandler_handler (MkClusterHandler h clusterName).

(* src: pkg/handler/lift.go:53-57 Lift *)
Definition Lift (h : TypedEventHandler client_Object cr_Request) : EventHandlerFunc := TypedLift h.

Section InjectingHandler.
Context {object request : Type} {CA : ClusterAware request}.

(* src: pkg/handler/inject.go:45-48 clusterInjectingHandler *)
Record clusterInjectingHandler := MkInjectingHandler {
  ih_h : TypedEventHandler object request;
  ih_clusterName : ClusterName;
}.

(* src: pkg/handler/inject.go:50-53 clusterInjectingHandler.Create *)
Definition injectingHandler_Create (e : clusterInjectingHandler) (Q : Type)
  (RQ : RateLimitingQueue Q request) (ctx : context) (evt : CreateEvent object) (q : Q) : Q :=
  iq_q (h_Create (ih_h e) (clusterInjectingQueue Q) _ ctx evt (MkInjectingQueue q (ih_clusterName e))).

(* src: pkg/handler/inject.go:55-58 clusterInjectingHandler.Update *)
Definition injectingHandler_Update (e : clusterInjectingHandler) (Q : Type)
  (RQ : RateLimitingQueue Q request) (ctx : context) (evt : UpdateEvent object) (q : Q) : Q :=
  iq_q (h_Update (ih_h e) (clusterInjectingQueue Q) _ ctx evt (MkInjectingQueue q (ih_clusterName e))).

(* src: pkg/handler/inject.go:60-63 clusterInjectingHandler.Delete *)
Definition injectingHandler_Delete (e : clusterInjectingHandler) (Q : Type)
  (RQ : RateLimitingQueue Q request) (ctx : context) (evt : DeleteEvent object) (q : Q) : Q :=
  iq_q (h_Delete (ih_h e) (clusterInjectingQueue Q) _ ctx evt (MkInjectingQueue q (ih_clusterName e))).

(* src: pkg/handler/inject.go:65-68 clusterInjectingHandler.Generic *)
Definition injectingHandler_Generic (e : clusterInjectingHandler) (Q : Type)
  (RQ : RateLimitingQueue Q request) (ctx : context) (evt : GenericEvent object) (q : Q) : Q :=
  iq_q (h_Generic (ih_h e) (clusterInjectingQueue Q) _ ctx evt (MkInjectingQueue q (ih_clusterName e))).

Definition injectingHandler_handler (e : clusterInjectingHandler) :
  TypedEventHandler object request := {|
  h_Create := injectingHandler_Create e;
  h_Update := injectingHandler_Update e;
  h_Delete := injectingHandler_Delete e;
  h_Generic := injectingHandler_Generic e;
|}.

(* src: pkg/handler/inject.go:34-41 TypedInjectCluster *)
Definition TypedInjectCluster (h : TypedEventHandler object request) :
  TypedEventHandlerFunc object request :=
  fun clusterName cl => injectingHandler_handler (MkInjectingHandler h clusterName).
End InjectingHandler.
Arguments clusterInjectingHandler : clear implicits.

(** ** The stock handlers

    The wrapped handlers are controller-runtime's. *)
Section Enqueue.
Context {object request : Type} {CA : ClusterAware request}.
(** [&handler.EnqueueRequestForObject{}], untyped and typed. *)
Variable cr_EnqueueRequestForObject : TypedEventHandler client_Object cr_Request.
Variable cr_TypedEnqueueRequestForObject : TypedEventHandler object cr_Request.
Variable cr_WithLowPriorityWhenUnchanged :
  TypedEventHandler object request → TypedEventHandler object request.
(** [handler.EnqueueRequestsFromMapFunc], untyped and typed. *)
Variable cr_EnqueueRequestsFromMapFunc :
  (context → client_Object → list cr_Request) → TypedEventHandler client_Object cr_Request.
Variable cr_TypedEnqueueRequestsFromMapFunc :
  (context → object → list request) → TypedEventHandler object request.
(** [handler.EnqueueRequestForOwner(cl.GetScheme(), cl.GetRESTMapper(), ownerType, opts...)]. *)
Variable owner_options : Type.
Variable cr_EnqueueRequestForOwner :
  cluster → client_Object → owner_options → TypedEventHandler client_Object cr_Request.
Variable cr_TypedEnqueueRequestForOwner :
  cluster → client_Object → owner_options → TypedEventHandler object cr_Request.

(* src: pkg/handler/enqueue.go:28-32 EnqueueRequestForObject *)
Definition EnqueueRequestForObject : EventHandlerFunc :=
  fun clusterName cl => Lift cr_EnqueueRequestForObject clusterName cl.

(* src: pkg/handler/enqueue.go:34-38 TypedEnqueueRequestForObject *)
Definition TypedEnqueueRequestForObject : TypedEventHandlerFunc object Request :=
  TypedLift cr_TypedEnqueueRequestForObject.

(* src: pkg/handler/enqueue.go:40-46 WithLowPriorityWhenUnchanged *)
Definition WithLowPriorityWhenUnchanged (u : TypedEventHandlerFunc object request) :
  TypedEventHandlerFunc object request :=
  fun clusterName cl => cr_WithLowPriorityWhenUnchanged (u clusterName cl).

(* src: pkg/handler/enqueue_mapped.go:26-30 EnqueueRequestsFromMapFunc *)
Definition EnqueueRequestsFromMapFunc (fn : context → client_Object → list cr_Request) :
  EventHandlerFunc := Lift (cr_EnqueueRequestsFromMapFunc fn).

(* src: pkg/handler/enqueue_mapped.go:32-36 TypedEnqueueRequestsFromMapFunc *)
Definition TypedEnqueueRequestsFromMapFunc (fn : context → object → list request) :
  TypedEventHandlerFunc object request :=
  TypedInjectCluster (cr_TypedEnqueueRequestsFromMapFunc fn).

(* src: pkg/handler/enqueue_mapped.go:38-43 TypedEnqueueRequestsFromMapFuncWithClusterPreservation *)
Definition TypedEnqueueRequestsFromMapFuncWithClusterPreservation
  (fn : context → object → list request) : TypedEventHandler object request :=
  cr_TypedEnqueueRequestsFromMapFunc fn.

(* src: pkg/handler/enqueue_owner.go:28-34 EnqueueRequestForOwner *)
Definition EnqueueRequestForOwner (ownerType : client_Object) (opts : owner_options) :
  EventHandlerFunc :=
  fun clusterName cl => Lift (cr_EnqueueRequestForOwner cl ownerType opts) clusterName cl.

(* src: pkg/handler/enqueue_owner.go:36-42 TypedEnqueueRequestForOwner *)
Definition TypedEnqueueRequestForOwner (ownerType : client_Object) (opts : owner_options) :
  TypedEventHandlerFunc object Request :=
  fun clusterName cl => TypedLift (cr_TypedEnqueueRequestForOwner cl ownerType opts) clusterName cl.
End Enqueue.

(** ** Handler programs

    A specification device: the handlers that use the queue only through its
    interface are the interpretations of programs of queue operations. *)
Inductive qprog (item : Type) : Type :=
| PRet
| PAdd (i : item) (k : qprog item)
| PLen (k : nat → qprog item)
| PGet (k : item → bool → qprog item)
| PDone (i : item) (k : qprog item)
| PShutDown (k : qprog item)
| PShutDownWithDrain (k : qprog item)
| PShuttingDown (k : bool → qprog item)
| PAddAfter (i : item) (d : Z) (k : qprog item)
| PAddRateLimited (i : item) (k : qprog item)
| PForget (i : item) (k : qprog item)
| PNumRequeues (i : item) (k : nat → qprog item).

Arguments PRet {item}.
Arguments PAdd {item} _ _.
Arguments PLen {item} _.
Arguments PGet {item} _.
Arguments PDone {item} _ _.
Arguments PShutDown {item} _.
Arguments PShutDownWithDrain {item} _.
Arguments PShuttingDown {item} _.
Arguments PAddAfter {item} _ _ _.
Arguments PAddRateLimited {item} _ _.
Arguments PForget {item} _ _.
Arguments PNumRequeues {item} _ _.

Fixpoint run_prog {item Q} (RQ : RateLimitingQueue Q item) (p : qprog item) (q : Q) : Q :=
  match p with
  | PRet => q
  | PAdd i k => run_prog RQ k (q_Add i q)
  | PLen k => run_prog RQ (k (q_Len (item:=item) q)) q
  | PGet k => let '((i, b), q) := q_Get q in run_prog RQ (k i b) q
  | PDone i k => run_prog RQ k (q_Done i q)
  | PShutDown k => run_prog RQ k (q_ShutDown (item:=item) q)
  | PShutDownWithDrain k => run_prog RQ k (q_ShutDownWithDrain (item:=item) q)
  | PShuttingDown k => run_prog RQ (k (q_ShuttingDown (item:=item) q)) q
  | PAddAfter i d k => run_prog RQ k (q_AddAfter i d q)
  | PAddRateLimited i k => run_prog RQ k (q_AddRateLimited i q)
  | PForget i k => run_prog RQ k (q_Forget i q)
  | PNumRequeues i k => run_prog RQ (k (q_NumRequeues i q)) q
  end.

(** The program with every item it passes mapped by [f] and every item it
    receives by [g]. *)
Fixpoint map_prog {A B} (f : A → B) (g : B → A) (p : qprog A) : qprog B :=
  match p with
  | PRet => PRet
  | PAdd i k => PAdd (f i) (map_prog f g k)
  | PLen k => PLen (λ n, map_prog f g (k n))
  | PGet k => PGet (λ i b, map_prog f g (k (g i) b))
  | PDone i k => PDone (f i) (map_prog f g k)
  | PShutDown k => PShutDown (map_prog f g k)
  | PShutDownWithDrain k => PShutDownWithDrain (map_prog f g k)
  | PShuttingDown k => PShuttingDown (λ b, map_prog f g (k b))
  | PAddAfter i d k => PAddAfter (f i) d (map_prog f g k)
  | PAddRateLimited i k => PAddRateLimited (f i) (map_prog f g k)
  | PForget i k => PForget (f i) (map_prog f g k)
  | PNumRequeues i k => PNumRequeues (f i) (λ n, map_prog f g (k n))
  end.

(** [passes p i]: some run of [p] hands item [i] to the queue. *)
Inductive passes {A} : qprog A → A → Prop :=
| pass_add i k : passes (PAdd i k) i
| pass_add_k i k j : passes k j → passes (PAdd i k) j
| pass_len n k j : passes (k n) j → passes (PLen k) j
| pass_get i b k j : passes (k i b) j → passes (PGet k) j
| pass_done i k : passes (PDone i k) i
| pass_done_k i k j : passes k j → passes (PDone i k) j
| pass_sd k j : passes k j → passes (PShutDown k) j
| pass_sdd k j : passes k j → passes (PShutDownWithDrain k) j
| pass_sding b k j : passes (k b) j → passes (PShuttingDown k) j
| pass_after i d k : passes (PAddAfter i d k) i
| pass_after_k i d k j : passes k j → passes (PAddAfter i d k) j
| pass_rl i k : passes (PAddRateLimited i k) i
| pass_rl_k i k j : passes k j → passes (PAddRateLimited i k) j
| pass_forget i k : passes (PForget i k) i
| pass_forget_k i k j : passes k j → passes (PForget i k) j
| pass_num i k : passes (PNumRequeues i k) i
| pass_num_k i n k j : passes (k n) j → passes (PNumRequeues i k) j.

(** The handler whose create, update, delete and generic reactions are programs. *)
Definition prog_handler {object item}
  (pc : context → CreateEvent object → qprog item) (pu : context → UpdateEvent object → qprog item)
  (pd : context → DeleteEvent object → qprog item) (pg : context → GenericEvent object → qprog item) :
  TypedEventHandler object item := {|
  h_Create := fun Q RQ ctx e q => run_prog RQ (pc ctx e) q;
  h_Update := fun Q RQ ctx e q => run_prog RQ (pu ctx e) q;
  h_Delete := fun Q RQ ctx e q => run_prog RQ (pd ctx e) q;
  h_Generic := fun Q RQ ctx e q => run_prog RQ (pg ctx e) q;
|}.

(** A program of single-cluster requests, with the name put into each. *)
Definition tag_prog (name : ClusterName) (p : qprog cr_Request) : qprog Request :=
  map_prog (λ r, MkRequest r name) req_Request p.

Definition inject_prog {request} {CA : ClusterAware request} (name : ClusterName)
  (p : qprog request) : qprog request :=
  map_prog (λ r, WithCluster r name) (λ r, WithCluster r "") p.

(** ** Lemmas *)

Lemma run_clusterQueue {Q} (RQ : RateLimitingQueue Q Request) name p q :
  run_prog clusterQueue_queue p (MkClusterQueue q name) =
  MkClusterQueue (run_prog RQ (tag_prog name p) q) name.
Proof.
  unfold tag_prog. revert q; induction p; intros q; simpl; try done;
    try (rewrite <-?IHp, <-?H; done).
  unfold clusterQueue_Get; simpl. destruct (q_Get q) as [[it b] q']. simpl.
  unfold cq_with; simpl. apply H.
Qed.

Lemma run_injectingQueue {Q request} {CA : ClusterAware request}
  (RQ : RateLimitingQueue Q request) name p q :
  run_prog injectingQueue_queue p (MkInjectingQueue q name) =
  MkInjectingQueue (run_prog RQ (inject_prog name p) q) name.
Proof.
  unfold inject_prog. revert q; induction p; intros q; simpl; try done;
    try (rewrite <-?IHp, <-?H; done).
  unfold injectingQueue_Get; simpl. destruct (q_Get q) as [[it b] q']. simpl.
  unfold iq_with; simpl. apply H.
Qed.

Lemma map_prog_passes {A B} (f : A → B) (g : B → A) p j :
  passes (map_prog f g p) j → ∃ i, j = f i ∧ passes p i.
Proof.
  revert j; induction p; intros j Hj; simpl in Hj; inv Hj; eauto using @passes;
    try (edestruct IHp as (? & -> & ?); [eassumption|]; eauto using @passes);
    try (edestruct H as (? & -> & ?); [eassumption|]; eauto using @passes).
Qed.

(** ** Theorems *)

(** C13 (equivalence): a handler lifted to a cluster acts on a multi-cluster
    work queue exactly as the original program with the cluster name put into
    every request it passes, on each of the four events, and every item it
    hands to the queue names that cluster. *)
Theorem TypedLift_tags_every_request {object}
  (pc : context → CreateEvent object → qprog cr_Request)
  (pu : context → UpdateEvent object → qprog cr_Request)
  (pd : context → DeleteEvent object → qprog cr_Request)
  (pg : context → GenericEvent object → qprog cr_Request)
  (name : ClusterName) (cl : cluster) (Q : Type) (RQ : RateLimitingQueue Q Request) ctx (q : Q) :
  let h := TypedLift (prog_handler pc pu pd pg) name cl in
  (∀ e, h_Create h Q RQ ctx e q = run_prog RQ (tag_prog name (pc ctx e)) q) ∧
  (∀ e, h_Update h Q RQ ctx e q = run_prog RQ (tag_prog name (pu ctx e)) q) ∧
  (∀ e, h_Delete h Q RQ ctx e q = run_prog RQ (tag_prog name (pd ctx e)) q) ∧
  (∀ e, h_Generic h Q RQ ctx e q = run_prog RQ (tag_prog name (pg ctx e)) q) ∧
  (∀ p i, passes (tag_prog name p) i → req_ClusterName i = name ∧ passes p (req_Request i)).
Proof.
  intros h. split_ands; try (intros e; simpl; unfold clusterHandler_Create, clusterHandler_Update,
    clusterHandler_Delete, clusterHandler_Generic; simpl; by rewrite run_clusterQueue).
  intros p i Hi. apply map_prog_passes in Hi as (r & -> & Hr). done.
Qed.

(** Complement (equivalence): cluster injection sets the cluster name of every request
    the wrapped handler passes to the queue, whatever name it carried, and
    changes nothing else about the handler. *)
Theorem TypedInjectCluster_sets_cluster {object request} {CA : ClusterAware request}
  {CL : ClusterAwareLaws request}
  (pc : context → CreateEvent object → qprog request)
  (pu : context → UpdateEvent object → qprog request)
  (pd : context → DeleteEvent object → qprog request)
  (pg : context → GenericEvent object → qprog request)
  (name : ClusterName) (cl : cluster) (Q : Type) (RQ : RateLimitingQueue Q request) ctx (q : Q) :
  let h := TypedInjectCluster (prog_handler pc pu pd pg) name cl in
  (∀ e, h_Create h Q RQ ctx e q = run_prog RQ (inject_prog name (pc ctx e)) q) ∧
  (∀ e, h_Update h Q RQ ctx e q = run_prog RQ (inject_prog name (pu ctx e)) q) ∧
  (∀ e, h_Delete h Q RQ ctx e q = run_prog RQ (inject_prog name (pd ctx e)) q) ∧
  (∀ e, h_Generic h Q RQ ctx e q = run_prog RQ (inject_prog name (pg ctx e)) q) ∧
  (∀ p i, passes (inject_prog name p) i →
     Cluster i = name ∧ ∃ r, passes p r ∧ i = WithCluster r name).
Proof.
  intros h. split_ands; try (intros e; simpl; unfold injectingHandler_Create, injectingHandler_Update,
    injectingHandler_Delete, injectingHandler_Generic; simpl; by rewrite run_injectingQueue).
  intros p i Hi. apply map_prog_passes in Hi as (r & -> & Hr).
  rewrite Cluster_WithCluster. eauto.
Qed.

(** A concrete use: mapping an event to two requests of another cluster name
    through an injecting handler. *)
Lemma TypedInjectCluster_sets_cluster_witness :
  ∃ p : qprog Request,
    passes (inject_prog (CA:=Request_ClusterAware (λ _, "")) "east" p)
      (MkRequest (MkCrRequest "ns" "a") "east") ∧
    Cluster (ClusterAware:=Request_ClusterAware (λ _, "")) (MkRequest (MkCrRequest "ns" "a") "east") = "east".
Proof.
  exists (PAdd (MkRequest (MkCrRequest "ns" "a") "west") PRet).
  assert (passes (inject_prog (CA:=Request_ClusterAware (λ _, "")) "east"
    (PAdd (MkRequest (MkCrRequest "ns" "a") "west") PRet))
    (MkRequest (MkCrRequest "ns" "a") "east")) as H by apply pass_add.
  split; [exact H|].
  pose proof (@TypedInjectCluster_sets_cluster unit Request
    (Request_ClusterAware (λ _, "")) (Request_laws (λ _, ""))
    (λ _ _, PRet) (λ _ _, PRet) (λ _ _, PRet) (λ _ _, PRet) "east" 0
    unit (Build_RateLimitingQueue unit Request (λ _ q, q) (λ _, 0)
      (λ q, ((MkRequest (MkCrRequest "" "") "", false), q)) (λ _ q, q) id id (λ _, false)
      (λ _ _ q, q) (λ _ q, q) (λ _ q, q) (λ _ _, 0)) Background tt) as (_ & _ & _ & _ & Hp).
  exact (proj1 (Hp _ _ H)).
Defined.
