(* ===== verification/Sanitize.v ===== *)
(** * pkg/util/sanitize: names for Lease objects *)

From Stdlib Require Import Ascii.
From S2P Require Import Prelude GoString.
Open Scope Z_scope.

(** [(r >= 'a' && r <= 'z') || (r >= '0' && r <= '9')] *)
Definition is_alnum (r : Z) : bool := in_range 97 122 r || in_range 48 57 r.

(** The body of the first loop: lower-case, keep, or replace by ['-']. *)
(* src: pkg/util/sanitize/sanitize.go:7-16 DNS1123 *)
Definition sanitize_rune (r : Z) : Z :=
  if in_range 65 90 r then r + (97 - 65)
  else if is_alnum r || (r =? 45) || (r =? 46) then r
  else 45.

(** [for start < end { ... start++ }] *)
(* src: pkg/util/sanitize/sanitize.go:17-25 DNS1123 *)
Fixpoint trim_start (fuel : nat) (b : list Z) (start end_ : nat) : nat :=
  match fuel with
  | O => start
  | S fuel =>
      if (start <? end_)%nat
      then if is_alnum (nth start b 0) then start else trim_start fuel b (S start) end_
      else start
  end.

(** [for end > start { ... end-- }] *)
(* src: pkg/util/sanitize/sanitize.go:26-32 DNS1123 *)
Fixpoint trim_end (fuel : nat) (b : list Z) (start end_ : nat) : nat :=
  match fuel with
  | O => end_
  | S fuel =>
      if (start <? end_)%nat
      then if is_alnum (nth (end_ - 1) b 0) then end_ else trim_end fuel b start (end_ - 1)
      else end_
  end.

(** Both loops run at most [len(b)] times, the fuel given to them. *)
(* src: pkg/util/sanitize/sanitize.go:3-37 DNS1123 *)
Definition DNS1123 (s : string) : string :=
  let b := map sanitize_rune (range_runes s) in
  let start := trim_start (length b) b 0 (length b) in
  let end_ := trim_end (length b) b start (length b) in
  if (end_ <=? start)%nat then "unknown"
  else ascii_runes_string (take (end_ - start) (drop start b)).

(** What the result of [DNS1123] looks like. *)
Definition allowed (r : Z) : bool := is_alnum r || (r =? 45) || (r =? 46).

Definition sane (rs : list Z) : Prop :=
  rs ≠ [] ∧ Forall (λ r, allowed r = true) rs ∧
  is_alnum (nth 0 rs 0) = true ∧ is_alnum (nth (length rs - 1) rs 0) = true.

(** The Kubernetes rule for a DNS-1123 subdomain: labels separated by dots,
    each starting and ending with an alphanumeric and containing only
    alphanumerics and dashes. *)
Fixpoint labels_ok (rs : list Z) (prev : option Z) : bool :=
  match rs with
  | [] => match prev with Some p => is_alnum p | None => false end
  | r :: rs =>
      if r =? 46
      then match prev with Some p => is_alnum p && labels_ok rs None | None => false end
      else match prev with
           | None => is_alnum r && labels_ok rs (Some r)
           | Some _ => allowed r && labels_ok rs (Some r)
           end
  end.

Definition is_dns1123_subdomain (s : string) : bool := labels_ok (string_bytes s) None.

(** ** Lemmas *)

Lemma in_range_spec lo hi r : in_range lo hi r = true ↔ lo <= r <= hi.
Proof. unfold in_range. rewrite andb_true_iff, !Z.leb_le. done. Qed.

Lemma is_alnum_spec r : is_alnum r = true ↔ 97 <= r <= 122 ∨ 48 <= r <= 57.
Proof. unfold is_alnum. by rewrite orb_true_iff, !in_range_spec. Qed.

Lemma allowed_spec r :
  allowed r = true ↔ (97 <= r <= 122 ∨ 48 <= r <= 57) ∨ r = 45 ∨ r = 46.
Proof. unfold allowed. rewrite !orb_true_iff, is_alnum_spec, !Z.eqb_eq. tauto. Qed.

Lemma sanitize_allowed r : allowed (sanitize_rune r) = true.
Proof.
  rewrite allowed_spec. unfold sanitize_rune.
  destruct (in_range 65 90 r) eqn:E1; [apply in_range_spec in E1; lia|].
  destruct (is_alnum r || (r =? 45) || (r =? 46)) eqn:E2; [|lia].
  by apply allowed_spec.
Qed.

Lemma sanitize_id r : allowed r = true → sanitize_rune r = r.
Proof.
  intros Hr. unfold sanitize_rune. destruct (in_range 65 90 r) eqn:E1.
  - apply in_range_spec in E1. apply allowed_spec in Hr. lia.
  - unfold allowed in Hr. by rewrite Hr.
Qed.

Lemma sanitize_map_id l : Forall (λ r, allowed r = true) l → map sanitize_rune l = l.
Proof. induction 1 as [|x l Hx _ IH]; [done|]. simpl. by rewrite sanitize_id, IH. Qed.

Lemma trim_start_spec fuel b start end_ :
  (start <= end_)%nat → (end_ - start <= fuel)%nat →
  let s := trim_start fuel b start end_ in
  (start <= s <= end_)%nat ∧ ((s < end_)%nat → is_alnum (nth s b 0) = true).
Proof.
  revert start; induction fuel as [|fuel IH]; intros start Hle Hf s; subst s; simpl; [split; lia|].
  destruct (start <? end_)%nat eqn:E; [|apply Nat.ltb_ge in E; split; lia].
  apply Nat.ltb_lt in E. destruct (is_alnum (nth start b 0)) eqn:Ea; [split; [lia|done]|].
  destruct (IH (S start)) as [? ?]; [lia..|]. split; [lia|done].
Qed.

Lemma trim_end_spec fuel b start end_ :
  (start <= end_)%nat → (end_ - start <= fuel)%nat →
  let e := trim_end fuel b start end_ in
  (start <= e <= end_)%nat ∧ ((start < e)%nat → is_alnum (nth (e - 1) b 0) = true).
Proof.
  revert end_; induction fuel as [|fuel IH]; intros end_ Hle Hf e; subst e; simpl; [split; lia|].
  destruct (start <? end_)%nat eqn:E; [|apply Nat.ltb_ge in E; split; lia].
  apply Nat.ltb_lt in E. destruct (is_alnum (nth (end_ - 1) b 0)) eqn:Ea; [split; [lia|done]|].
  destruct (IH (end_ - 1)%nat) as [? ?]; [lia..|]. split; [lia|done].
Qed.

Lemma nth_take_drop (b : list Z) s n i :
  (i < n)%nat → nth i (take n (drop s b)) 0 = nth (s + i) b 0.
Proof.
  intros Hi. rewrite !nth_lookup. rewrite lookup_take_lt by done. by rewrite lookup_drop.
Qed.

Lemma unknown_sane : sane (string_bytes "unknown").
Proof. split; [done|]. split; [repeat constructor|done]. Qed.

Lemma allowed_ascii rs : Forall (λ r, allowed r = true) rs → Forall (λ r, 0 <= r < 128) rs.
Proof. intros Ha. eapply Forall_impl; [exact Ha|]. intros r Hr%allowed_spec. lia. Qed.

Lemma DNS1123_shape s :
  ∃ rs, DNS1123 s = ascii_runes_string rs ∧ sane rs.
Proof.
  unfold DNS1123. set (b := map sanitize_rune (range_runes s)).
  assert (Forall (λ r, allowed r = true) b) as Hb.
  { apply Forall_forall. intros r Hr. apply list_elem_of_fmap in Hr as (x & -> & _).
    apply sanitize_allowed. }
  destruct (trim_start_spec (length b) b 0 (length b)) as [Hs1 Hs2]; [lia..|].
  set (st := trim_start (length b) b 0 (length b)) in *.
  destruct (trim_end_spec (length b) b st (length b)) as [He1 He2]; [lia..|].
  set (en := trim_end (length b) b st (length b)) in *.
  destruct (en <=? st)%nat eqn:E.
  - exists (string_bytes "unknown"). split; [done|apply unknown_sane].
  - apply Nat.leb_gt in E. exists (take (en - st) (drop st b)). split; [done|].
    assert (length (take (en - st) (drop st b)) = en - st)%nat as Hlen.
    { rewrite length_take, length_drop. lia. }
    split; [|split; [by apply Forall_take, Forall_drop|split]].
    + intros Hnil. rewrite Hnil in Hlen. simpl in Hlen. lia.
    + rewrite nth_take_drop by lia. rewrite Nat.add_0_r. apply Hs2. lia.
    + rewrite Hlen, nth_take_drop by lia.
      replace (st + (en - st - 1))%nat with (en - 1)%nat by lia. apply He2. lia.
Qed.

Lemma sane_bytes rs : sane rs → string_bytes (ascii_runes_string rs) = rs.
Proof. intros (_ & Ha & _). by apply string_bytes_ascii_runes, allowed_ascii. Qed.

Lemma DNS1123_fixed rs : sane rs → DNS1123 (ascii_runes_string rs) = ascii_runes_string rs.
Proof.
  intros (Hne & Ha & Hfst & Hlst). unfold DNS1123.
  rewrite range_runes_ascii by (by apply allowed_ascii).
  rewrite sanitize_map_id by done.
  destruct rs as [|r rs]; [done|]. simpl length in *. cbn [trim_start].
  simpl (0 <? _)%nat. cbn [nth] in Hfst |- *. rewrite Hfst.
  cbn [trim_end]. simpl (0 <? _)%nat. rewrite Hlst. simpl. by rewrite firstn_all.
Qed.

(** ** Theorems *)

(** Complement (functional): whatever the input, [DNS1123] returns a non-empty name of
    lower-case letters, digits, dashes and dots that begins and ends with an
    alphanumeric, and sanitizing it again changes nothing. *)
Theorem DNS1123_sane_idempotent s :
  sane (string_bytes (DNS1123 s)) ∧ DNS1123 (DNS1123 s) = DNS1123 s.
Proof.
  destruct (DNS1123_shape s) as (rs & -> & Hrs). rewrite sane_bytes by done.
  split; [done|]. by apply DNS1123_fixed.
Qed.

(** Complement (error): [DNS1123] is not injective, so two cluster names can share a
    fence name, and its result need not be a DNS-1123 subdomain: an empty label
    and a label that starts with a dash both go through. *)
Theorem DNS1123_collides_and_admits_bad_labels :
  DNS1123 "team/a" = DNS1123 "Team_a" ∧
  is_dns1123_subdomain (DNS1123 "a..b") = false ∧
  is_dns1123_subdomain (DNS1123 "a.-b") = false ∧
  is_dns1123_subdomain (DNS1123 "a.b-c") = true.
Proof. vm_compute. done. Qed.
