(* ===== verification/Sharder.v ===== *)
(** * pkg/manager/coordinator/sharded/sharder: rendezvous hashing *)

From Stdlib Require Import Znumtheory Zpow_facts.
From S2P Require Import Prelude GoNum GoString.
Open Scope Z_scope.

(* src: pkg/manager/coordinator/sharded/sharder/sharder.go:19-32 PeerInfo *)
Record PeerInfo := MkPeer {
  ID : string;
  Weight : Z;   (** a [uint32] *)
}.

#[export] Instance PeerInfo_eq_dec : EqDecision PeerInfo.
Proof. solve_decision. Defined.

(** The [Sharder] interface: does the local peer own the cluster? *)
(* src: pkg/manager/coordinator/sharded/sharder/sharder.go:34-45 Sharder *)
Definition Sharder : Type := string → list PeerInfo → PeerInfo → bool.

(** ** hash/fnv's 64-bit FNV-1a *)

Definition fnv_offset64 : Z := 14695981039346656037.
Definition fnv_prime64 : Z := 1099511628211.

Definition fnv_byte (h b : Z) : Z := uint64 (Z.lxor h b * fnv_prime64).

(* src: pkg/manager/coordinator/sharded/sharder/hrw.go:80-86 hash64 *)
Definition hash64 (s : string) : Z := fold_left fnv_byte (string_bytes s) fnv_offset64.

(** ** HRW *)

(** [if p.Weight == 0 { p.Weight = 1 }] *)
Definition norm_weight (p : PeerInfo) : PeerInfo :=
  if Weight p =? 0 then MkPeer (ID p) 1 else p.

(** [score *= uint64(p.Weight)] *)
Definition weighted (h w : Z) : Z := uint64 (h * w).

(* src: pkg/manager/coordinator/sharded/sharder/hrw.go:67-71 HRW.ShouldOwn *)
Definition score (clusterID : string) (p : PeerInfo) : Z :=
  weighted (hash64 (clusterID +:+ "|" +:+ ID p)) (Weight (norm_weight p)).

(* src: pkg/manager/coordinator/sharded/sharder/hrw.go:66-76 HRW.ShouldOwn *)
Definition hrw_step (clusterID : string) (acc : PeerInfo * Z) (p : PeerInfo) : PeerInfo * Z :=
  let '(best, bestScore) := acc in
  if bestScore <=? score clusterID p then (norm_weight p, score clusterID p) else (best, bestScore).

Definition hrw_best (clusterID : string) (peers : list PeerInfo) : PeerInfo * Z :=
  fold_left (hrw_step clusterID) peers (MkPeer "" 0, 0).

(* src: pkg/manager/coordinator/sharded/sharder/hrw.go:40-78 HRW.ShouldOwn *)
Definition HRW_ShouldOwn : Sharder := fun clusterID peers self =>
  match peers with
  | [] => true
  | _ => bool_decide (ID (hrw_best clusterID peers).1 = ID self)
  end.

(* src: pkg/manager/coordinator/sharded/sharder/hrw.go:37-38 NewHRW *)
Definition NewHRW : Sharder := HRW_ShouldOwn.

(** What the coordinator needs of a sharder: over a common snapshot of
    uniquely identified peers, exactly one peer owns each cluster. *)
Class ExactlyOneOwner (sh : Sharder) : Prop :=
  exactly_one_owner c peers :
    peers ≠ [] → NoDup (map ID peers) →
    ∃ p, p ∈ peers ∧ sh c peers p = true ∧ ∀ q, q ∈ peers → sh c peers q = true → q = p.

(** Distinct peers have distinct scores. *)
Definition distinct_scores (c : string) (peers : list PeerInfo) : Prop :=
  ∀ p q, p ∈ peers → q ∈ peers → score c p = score c q → ID p = ID q.

(** ** Lemmas *)

Lemma score_range c p : 0 <= score c p < 2 ^ 64.
Proof. apply uint64_range. Qed.

Lemma norm_weight_ID p : ID (norm_weight p) = ID p.
Proof. unfold norm_weight. by destruct (Weight p =? 0). Qed.

(** The fold keeps the maximum and a peer that attains it. *)
Lemma hrw_fold_spec c peers best bs :
  let r := fold_left (hrw_step c) peers (best, bs) in
  bs <= r.2 ∧ (∀ p, p ∈ peers → score c p <= r.2) ∧
  (r = (best, bs) ∨ ∃ p, p ∈ peers ∧ ID r.1 = ID p ∧ r.2 = score c p).
Proof.
  revert best bs; induction peers as [|p peers IH]; intros best bs r; subst r; simpl.
  { split_ands; [lia|set_solver|by left]. }
  destruct (bs <=? score c p) eqn:E.
  - destruct (IH (norm_weight p) (score c p)) as (H1 & H2 & H3). simpl in *.
    split_ands.
    + apply Z.leb_le in E. lia.
    + intros q [->|Hq]%elem_of_cons; [done|by apply H2].
    + right. destruct H3 as [->|(q & Hq & ? & ?)].
      * exists p. split_ands; [by left|apply norm_weight_ID|done].
      * exists q. split_ands; [by right|done|done].
  - apply Z.leb_gt in E. destruct (IH best bs) as (H1 & H2 & H3). simpl in *.
    split_ands; [done| |].
    + intros q [->|Hq]%elem_of_cons; [lia|by apply H2].
    + destruct H3 as [->|(q & Hq & ? & ?)]; [by left|]. right. exists q.
      split_ands; [by right|done|done].
Qed.

Lemma hrw_best_spec c peers :
  peers ≠ [] →
  ∃ p, p ∈ peers ∧ ID (hrw_best c peers).1 = ID p ∧ (hrw_best c peers).2 = score c p ∧
    ∀ q, q ∈ peers → score c q <= score c p.
Proof.
  intros Hne. destruct peers as [|p0 peers]; [done|]. unfold hrw_best.
  simpl. rewrite (proj2 (Z.leb_le 0 (score c p0))) by (pose proof (score_range c p0); lia).
  destruct (hrw_fold_spec c peers (norm_weight p0) (score c p0)) as (H1 & H2 & H3).
  destruct H3 as [Heq|(q & Hq & Hid & Hs)].
  - exists p0. rewrite Heq in *. split_ands; [by left|apply norm_weight_ID|done|].
    intros q [->|Hq]%elem_of_cons; [done|by apply H2].
  - exists q. rewrite <-Hs. split_ands; [by right|done|done|].
    intros q' [->|Hq']%elem_of_cons; [done|by apply H2].
Qed.

(** A peer of maximal score is the winner when scores are distinct. *)
Lemma hrw_best_unique c peers p :
  distinct_scores c peers → p ∈ peers → (∀ q, q ∈ peers → score c q <= score c p) →
  ID (hrw_best c peers).1 = ID p.
Proof.
  intros Hd Hp Hmax.
  destruct (hrw_best_spec c peers) as (w & Hw & -> & _ & Hwmax); [by intros ->; set_solver|].
  apply Hd; [done..|]. specialize (Hmax w Hw). specialize (Hwmax p Hp). lia.
Qed.

Lemma ShouldOwn_iff c peers self :
  peers ≠ [] → HRW_ShouldOwn c peers self = true ↔ ID (hrw_best c peers).1 = ID self.
Proof. intros. destruct peers; [done|]. apply bool_decide_eq_true. Qed.

Lemma ID_inj_in peers p q :
  NoDup (map ID peers) → p ∈ peers → q ∈ peers → ID p = ID q → p = q.
Proof.
  intros Hnd Hp Hq Heq.
  apply list_elem_of_lookup in Hp as [i Hi], Hq as [j Hj].
  assert (i = j) as ->; [|congruence].
  eapply (NoDup_lookup (map ID peers)); [done| |].
  - rewrite list_lookup_fmap, Hi. done.
  - rewrite list_lookup_fmap, Hj. simpl. by rewrite Heq.
Qed.

Lemma odd_weight_rel_prime w : Z.odd w = true → rel_prime (2 ^ 64) w.
Proof.
  intros Hw. apply rel_prime_sym, rel_prime_Zpower_r; [lia|].
  apply rel_prime_sym, prime_rel_prime; [apply prime_2|].
  intros [k ->]. by rewrite Z.odd_mul, andb_false_r in Hw.
Qed.

Lemma odd_weight_inverse w : Z.odd w = true → ∃ v, (v * w) mod 2 ^ 64 = 1.
Proof.
  intros Hw. destruct (rel_prime_bezout _ _ (odd_weight_rel_prime w Hw)) as [u v Huv].
  exists v. replace (v * w) with (1 + - u * 2 ^ 64) by lia.
  rewrite Z.mod_add by lia. done.
Qed.

Lemma hrw_one_owner c peers :
  peers ≠ [] → NoDup (map ID peers) →
  ∃ p, p ∈ peers ∧ HRW_ShouldOwn c peers p = true ∧
    ∀ q, q ∈ peers → HRW_ShouldOwn c peers q = true → q = p.
Proof.
  intros Hne Hnd. destruct (hrw_best_spec c peers Hne) as (p & Hp & Hid & _).
  exists p. split_ands; [done| |].
  - by apply ShouldOwn_iff.
  - intros q Hq Hown. apply ShouldOwn_iff in Hown; [|done].
    eapply ID_inj_in; [done..|]. congruence.
Qed.

#[export] Instance HRW_ExactlyOneOwner : ExactlyOneOwner HRW_ShouldOwn.
Proof. intros c peers. apply hrw_one_owner. Qed.

(** Multiplying by an odd weight permutes the 64-bit scores. *)
Lemma odd_mul_inj a b w :
  0 <= a < 2 ^ 64 → 0 <= b < 2 ^ 64 → Z.odd w = true →
  uint64 (a * w) = uint64 (b * w) → a = b.
Proof.
  intros Ha Hb Hw Heq. unfold uint64 in Heq.
  assert ((2 ^ 64 | (a - b) * w)) as Hdiv.
  { apply Z.mod_divide; [lia|]. rewrite Z.mul_sub_distr_r, Zminus_mod, Heq, Z.sub_diag. done. }
  pose proof (odd_weight_rel_prime w Hw) as Hg.
  rewrite Z.mul_comm in Hdiv. apply Gauss in Hdiv as [k Hk]; [|done]. nia.
Qed.

Lemma hrw_order_independent c peers peers' self :
  distinct_scores c peers → peers ≡ₚ peers' →
  HRW_ShouldOwn c peers self = HRW_ShouldOwn c peers' self.
Proof.
  intros Hd Hperm. destruct (decide (peers = [])) as [->|Hne].
  { apply Permutation_nil in Hperm as ->. done. }
  assert (peers' ≠ []) as Hne'.
  { intros ->. by apply Permutation_nil_r in Hperm. }
  apply eq_true_iff_eq. rewrite !ShouldOwn_iff by done.
  destruct (hrw_best_spec c peers' Hne') as (p & Hp & -> & _ & Hmax).
  rewrite (hrw_best_unique c peers p); [done|done|by rewrite Hperm|].
  intros q Hq. apply Hmax. by rewrite <-Hperm.
Qed.

(** Raising the best score only matters if it stays the best. *)
Lemma hrw_fold_raise c l best bs new ns :
  bs <= ns →
  fold_left (hrw_step c) l (new, ns) = (new, ns) ∨
  fold_left (hrw_step c) l (new, ns) = fold_left (hrw_step c) l (best, bs).
Proof.
  revert best bs. induction l as [|p l IH]; intros best bs Hle; [by left|]. simpl.
  destruct (Z.leb_spec ns (score c p)).
  - right. by rewrite (proj2 (Z.leb_le bs (score c p))) by lia.
  - destruct (bs <=? score c p); apply IH; lia.
Qed.

(** A peer anywhere in the snapshot is the best, or makes no difference. *)
Lemma hrw_best_insert c l1 new l2 :
  ID (hrw_best c (l1 ++ new :: l2)).1 = ID new ∨ hrw_best c (l1 ++ new :: l2) = hrw_best c (l1 ++ l2).
Proof.
  unfold hrw_best. rewrite !fold_left_app. simpl. destruct (fold_left (hrw_step c) l1 _) as [best bs]. simpl.
  destruct (Z.leb_spec bs (score c new)) as [Hle|]; [|by right].
  destruct (hrw_fold_raise c l2 best bs (norm_weight new) (score c new) Hle) as [->|?]; [left|by right].
  apply norm_weight_ID.
Qed.

Lemma hrw_insert c l1 new l2 :
  HRW_ShouldOwn c (l1 ++ new :: l2) new = true ∨
  ∀ self, HRW_ShouldOwn c (l1 ++ new :: l2) self = HRW_ShouldOwn c (l1 ++ l2) self.
Proof.
  assert (l1 ++ new :: l2 ≠ []) as Hne by (by destruct l1).
  destruct (decide (l1 ++ l2 = [])) as [[-> ->]%app_eq_nil|Hne'].
  { left. apply ShouldOwn_iff; [done|]. destruct (hrw_best_spec c ([] ++ [new]) Hne) as (p & Hp & -> & _).
    by apply list_elem_of_singleton in Hp as ->. }
  destruct (hrw_best_insert c l1 new l2) as [Hnew|Heq]; [left; by apply ShouldOwn_iff|right].
  intros self. apply eq_true_iff_eq. by rewrite !ShouldOwn_iff, Heq by done.
Qed.

(** ** Theorems *)

(** C27 (functional): over any non-empty snapshot of peers with distinct IDs,
    exactly one peer's [ShouldOwn] answers true, whatever the hashes and weights. *)
Theorem HRW_exactly_one_owner c peers :
  peers ≠ [] → NoDup (map ID peers) →
  ∃ p, p ∈ peers ∧ HRW_ShouldOwn c peers p = true ∧
    ∀ q, q ∈ peers → HRW_ShouldOwn c peers q = true → q = p.
Proof. apply hrw_one_owner. Qed.

(** Complement (equivalence): when no two peers tie, the decision does not depend on
    the order of the snapshot, so peers that list the same membership in
    different orders agree. *)
Theorem HRW_order_independent c peers peers' self :
  distinct_scores c peers → peers ≡ₚ peers' →
  HRW_ShouldOwn c peers self = HRW_ShouldOwn c peers' self.
Proof. apply hrw_order_independent. Qed.

(** C28 (functional): minimal disruption.  When one peer joins, anywhere in the
    snapshot, or leaves it, either that peer is the owner - with it in the
    snapshot - or every peer's answer is the same with it as without it: no
    cluster moves between two other peers.  This holds for all hashes and
    weights, ties included, as long as the other peers are listed in the same
    order; when no two peers tie, also if they are listed in any other. *)
Theorem HRW_minimal_disruption c l1 new l2 :
  (HRW_ShouldOwn c (l1 ++ new :: l2) new = true ∨
   ∀ self, HRW_ShouldOwn c (l1 ++ new :: l2) self = HRW_ShouldOwn c (l1 ++ l2) self) ∧
  (distinct_scores c (l1 ++ new :: l2) → ∀ with_new without,
   with_new ≡ₚ l1 ++ new :: l2 → without ≡ₚ l1 ++ l2 →
   HRW_ShouldOwn c with_new new = true ∨ ∀ self, HRW_ShouldOwn c with_new self = HRW_ShouldOwn c without self).
Proof.
  split; [apply hrw_insert|]. intros Hd with_new without Hw Hwo.
  assert (distinct_scores c (l1 ++ l2)) as Hd'.
  { intros p q Hp Hq. apply Hd; set_solver. }
  assert (∀ self, HRW_ShouldOwn c with_new self = HRW_ShouldOwn c (l1 ++ new :: l2) self) as Hw'.
  { intros self. symmetry. by apply hrw_order_independent. }
  destruct (hrw_insert c l1 new l2) as [Hn|Hn]; [left; by rewrite Hw'|right]. intros self.
  rewrite Hw', Hn. by apply hrw_order_independent.
Qed.

(** C38 (bounds): the weighted score is reduced modulo 2^64.  An odd weight
    therefore only permutes the 64-bit scores: every score comes from exactly
    one hash, and no peer is favoured.  Raising a weight from 1 to 2 can lose a
    cluster, and with weight 2^31 two peers can tie, after which each order of
    the same snapshot elects another owner. *)
Theorem HRW_weight_wraps :
  (∀ w s, Z.odd w = true → 0 <= s < 2 ^ 64 →
     ∃ h, 0 <= h < 2 ^ 64 ∧ weighted h w = s ∧
       ∀ h', 0 <= h' < 2 ^ 64 → weighted h' w = s → h' = h) ∧
  (let a w := MkPeer "peer-0" w in let b := MkPeer "peer-1" 1 in
   HRW_ShouldOwn "jungle" [a 1; b] (a 1) = true ∧
   HRW_ShouldOwn "jungle" [a 2; b] (a 2) = false) ∧
  (let a := MkPeer "peer-exgvnt" (2 ^ 31) in let b := MkPeer "peer-m99dby" (2 ^ 31) in
   HRW_ShouldOwn "zoo" [a; b] a = false ∧ HRW_ShouldOwn "zoo" [b; a] a = true).
Proof.
  split_ands; [|by vm_compute..].
  intros w s Hw Hs. destruct (odd_weight_inverse w Hw) as [v Hv].
  exists (uint64 (s * v)). assert (weighted (uint64 (s * v)) w = s) as Heq.
  { unfold weighted, uint64. rewrite Z.mul_mod_idemp_l by lia.
    rewrite <-Z.mul_assoc, <-Z.mul_mod_idemp_r, Hv, Z.mul_1_r by lia. by apply Z.mod_small. }
  split_ands; [apply uint64_range..|done|].
  intros h' Hh' Hh. eapply odd_mul_inj; [done|apply uint64_range|done|].
  unfold weighted in *. congruence.
Qed.

(** ** Witnesses *)

Definition two_peers : list PeerInfo := [MkPeer "peer-0" 1; MkPeer "peer-1" 1].

Lemma two_peers_distinct : distinct_scores "zoo" two_peers.
Proof.
  intros p q Hp Hq. unfold two_peers in *.
  apply elem_of_cons in Hp as [->|Hp%list_elem_of_singleton];
    apply elem_of_cons in Hq as [->|Hq%list_elem_of_singleton]; subst; intros Hs; try reflexivity;
    vm_compute in Hs; discriminate.
Qed.

Lemma HRW_exactly_one_owner_witness :
  ∃ p, p ∈ two_peers ∧ HRW_ShouldOwn "zoo" two_peers p = true ∧
    ∀ q, q ∈ two_peers → HRW_ShouldOwn "zoo" two_peers q = true → q = p.
Proof. apply (HRW_exactly_one_owner "zoo" two_peers); [done|]. by apply (bool_decide_unpack _). Defined.

Lemma HRW_order_independent_witness :
  HRW_ShouldOwn "zoo" two_peers (MkPeer "peer-1" 1) =
  HRW_ShouldOwn "zoo" (reverse two_peers) (MkPeer "peer-1" 1).
Proof.
  apply (HRW_order_independent "zoo" two_peers (reverse two_peers)).
  - exact two_peers_distinct.
  - by rewrite reverse_Permutation.
Defined.

Lemma HRW_minimal_disruption_witness :
  HRW_ShouldOwn "zoo" two_peers (MkPeer "peer-0" 1) = false ∧
  ∀ self, HRW_ShouldOwn "zoo" (reverse two_peers) self = HRW_ShouldOwn "zoo" [MkPeer "peer-1" 1] self.
Proof.
  assert (HRW_ShouldOwn "zoo" (reverse two_peers) (MkPeer "peer-0" 1) = false) as Hf by (vm_compute; reflexivity).
  split; [vm_compute; reflexivity|].
  destruct (proj2 (HRW_minimal_disruption "zoo" [] (MkPeer "peer-0" 1) [MkPeer "peer-1" 1]) two_peers_distinct
    (reverse two_peers) [MkPeer "peer-1" 1]) as [Hn|Hn].
  - by rewrite reverse_Permutation.
  - reflexivity.
  - rewrite Hf in Hn. discriminate.
  - exact Hn.
Defined.
