(* ===== verification/LeaseAPI.v ===== *)
(** * The Lease API of the host cluster

    The coordinator keeps its fences and its membership in
    [coordination.k8s.io] Lease objects, which it reads and writes through a
    controller-runtime client.  Neither is code of the repository: the client
    is a class of operations on an abstract server, and [LeaseLaws] states the
    documented behaviour the program relies on.  [store_client] is a concrete
    server, used to show that the laws can hold and to run examples.

    A Lease carries a resource version.  A create succeeds only on a free
    name, an update only against the version it was read at; a call that
    returns an error may have been applied or not.  A read may be stale, as
    reads through an informer cache are. *)

From S2P Require Import Prelude GoErrors GoNum.
Open Scope Z_scope.

Definition key : Type := string * string.   (** namespace, name *)

(** [coordinationv1.Lease]: metadata, then spec. *)
Record Lease := MkLease {
  l_key : key;
  l_version : nat;
  l_labels : gmap string string;
  l_annotations : option (gmap string string);   (** a nil or non-nil map *)
  l_holder : option string;
  l_duration : option Z;                         (** [*int32], seconds *)
  l_acquire : option Z;
  l_renew : option Z;
}.

(** What a [Get] returns, classified as the code does with
    [apierrors.IsNotFound]. *)
Inductive get_result : Type :=
| Found (l : Lease)
| NotFound
| GetError (e : error).

Class LeaseClient (A : Type) := {
  lease_Get : key → M A get_result;
  lease_Create : Lease → M A (option error);
  lease_Update : Lease → M A (option error);
  lease_List : string → gmap string string → M A (result error (list Lease));
}.

(** [metav1.MicroTime] is serialised in microseconds. *)
Definition micro (t : Z) : Z := t / 1000 * 1000.

(** The object the server stores for a write, under its new version. *)
Definition image (v : nat) (l : Lease) : Lease :=
  MkLease (l_key l) v (l_labels l) (l_annotations l) (l_holder l) (l_duration l)
    (micro <$> l_acquire l) (micro <$> l_renew l).

(** Label selection of [client.MatchingLabels]. *)
Definition matches (sel labels : gmap string string) : bool :=
  forallb (λ kv, bool_decide (labels !! kv.1 = Some kv.2)) (map_to_list sel).

Class LeaseLaws (A : Type) {C : LeaseClient A} := {
  stored : A → key → option Lease;
  next_version : A → nat;
  stored_version a k l : stored a k = Some l → l_key l = k ∧ (l_version l < next_version a)%nat;
  Get_law a k r a' :
    lease_Get k a = (r, a') →
    (∀ k', stored a' k' = stored a k') ∧ (next_version a <= next_version a')%nat ∧
    ∀ l, r = Found l → l_key l = k ∧ (l_version l < next_version a)%nat ∧
      ∀ cur, stored a k = Some cur → l_version cur = l_version l → cur = l;
  Create_law a l e a' :
    lease_Create l a = (e, a') →
    (next_version a <= next_version a')%nat ∧
    ((∃ v, (next_version a <= v)%nat ∧ stored a (l_key l) = None ∧
       ∀ k', stored a' k' = if decide (k' = l_key l) then Some (image v l) else stored a k') ∨
     (e ≠ None ∧ ∀ k', stored a' k' = stored a k'));
  Update_law a l e a' :
    lease_Update l a = (e, a') →
    (next_version a <= next_version a')%nat ∧
    ((∃ v old, (next_version a <= v)%nat ∧ stored a (l_key l) = Some old ∧
       l_version old = l_version l ∧
       ∀ k', stored a' k' = if decide (k' = l_key l) then Some (image v l) else stored a k') ∨
     (e ≠ None ∧ ∀ k', stored a' k' = stored a k'));
}.

(** ** A concrete server

    A map of Leases, a version counter, and a schedule of faults: each call
    takes the next one. *)
Inductive fault : Type :=
| NoFault
| FailBefore   (** the call fails and has no effect *)
| FailAfter.   (** the call takes effect and its answer is lost *)

Record store := MkStore {
  st_leases : list (key * Lease);
  st_next : nat;
  st_faults : list fault;
}.

Definition lookup_lease (ls : list (key * Lease)) (k : key) : option Lease :=
  match find (λ p, bool_decide (p.1 = k)) ls with Some p => Some p.2 | None => None end.

Definition take_fault (s : store) : fault * store :=
  match st_faults s with
  | [] => (NoFault, s)
  | f :: fs => (f, MkStore (st_leases s) (st_next s) fs)
  end.

Definition write_lease (l : Lease) (s : store) : store :=
  MkStore ((l_key l, image (st_next s) l) ::
             filter (λ p, p.1 ≠ l_key l) (st_leases s)) (S (st_next s)) (st_faults s).

Definition store_Get (k : key) : M store get_result := fun s =>
  let '(f, s) := take_fault s in
  match f with
  | NoFault => (match lookup_lease (st_leases s) k with Some l => Found l | None => NotFound end, s)
  | _ => (GetError (Errorf "unavailable"), s)
  end.

Definition guarded_write (ok : store → bool) (conflict : string) (l : Lease) :
  M store (option error) := fun s =>
  let '(f, s) := take_fault s in
  if ok s then
    match f with
    | NoFault => (None, write_lease l s)
    | FailBefore => (Some (Errorf "unavailable"), s)
    | FailAfter => (Some (Errorf "timeout"), write_lease l s)
    end
  else (Some (Errorf conflict), s).

Definition store_Create (l : Lease) : M store (option error) :=
  guarded_write (λ s, match lookup_lease (st_leases s) (l_key l) with None => true | _ => false end)
    "already exists" l.

Definition store_Update (l : Lease) : M store (option error) :=
  guarded_write (λ s, match lookup_lease (st_leases s) (l_key l) with
                      | Some old => bool_decide (l_version old = l_version l)
                      | None => false end)
    "conflict" l.

Definition store_List (ns : string) (sel : gmap string string) : M store (result error (list Lease)) :=
  fun s =>
  let '(f, s) := take_fault s in
  match f with
  | NoFault => (Ok (filter (λ l, (l_key l).1 = ns ∧ matches sel (l_labels l) = true)
                      (map snd (st_leases s))), s)
  | _ => (Err (Errorf "unavailable"), s)
  end.

#[export] Instance store_client : LeaseClient store := {|
  lease_Get := store_Get;
  lease_Create := store_Create;
  lease_Update := store_Update;
  lease_List := store_List;
|}.

(** The leases of a store are below its version counter and under their keys. *)
Definition store_ok (s : store) : Prop :=
  ∀ k l, lookup_lease (st_leases s) k = Some l → l_key l = k ∧ (l_version l < st_next s)%nat.

(** ** Lemmas *)

Lemma lookup_write l s k :
  lookup_lease (st_leases (write_lease l s)) k =
  if decide (k = l_key l) then Some (image (st_next s) l) else lookup_lease (st_leases s) k.
Proof.
  unfold lookup_lease, write_lease; simpl. destruct (decide (k = l_key l)) as [->|Hne].
  { by rewrite bool_decide_eq_true_2. }
  rewrite bool_decide_eq_false_2 by done.
  induction (st_leases s) as [|[k' l'] ls IH]; simpl; [done|].
  rewrite filter_cons. simpl. destruct (decide (k' ≠ l_key l)) as [Hk'|Hk']; simpl.
  - destruct (bool_decide (k' = k)); [done|apply IH].
  - rewrite bool_decide_eq_false_2; [apply IH|]. intros ->. by apply Hk'.
Qed.

Lemma take_fault_spec s f s' :
  take_fault s = (f, s') → st_leases s' = st_leases s ∧ st_next s' = st_next s.
Proof. unfold take_fault. destruct (st_faults s); by intros [= <- <-]. Qed.

Lemma micro_le t : micro t <= t.
Proof. unfold micro. pose proof (Z.mul_div_le t 1000). lia. Qed.

Lemma micro_mono t t' : t <= t' → micro t <= micro t'.
Proof. intros. unfold micro. pose proof (Z.div_le_mono t t' 1000 ltac:(lia) ltac:(lia)). lia. Qed.

(** The concrete server, restricted to its well-formed states, obeys the laws. *)
Record wf_store := MkWf { ws_store : store; ws_ok : store_ok ws_store }.

Lemma store_ok_faults s f s' : take_fault s = (f, s') → store_ok s → store_ok s'.
Proof.
  intros Ht Hok k l. destruct (take_fault_spec _ _ _ Ht) as [-> ->]. apply Hok.
Qed.

Lemma store_ok_write l s : store_ok s → store_ok (write_lease l s).
Proof.
  intros Hok k l'. rewrite lookup_write. simpl. case_decide as Hk.
  - intros [= <-]. simpl. split; [done|lia].
  - intros Hl. destruct (Hok _ _ Hl). split; [done|lia].
Qed.

Lemma store_Get_ok k s : store_ok s → store_ok (store_Get k s).2.
Proof.
  intros Hok. unfold store_Get. destruct (take_fault s) as [f s'] eqn:E.
  pose proof (store_ok_faults _ _ _ E Hok). by destruct f.
Qed.

Lemma guarded_write_ok ok c l s : store_ok s → store_ok (guarded_write ok c l s).2.
Proof.
  intros Hok. unfold guarded_write. destruct (take_fault s) as [f s'] eqn:E.
  pose proof (store_ok_faults _ _ _ E Hok). destruct (ok s'), f; simpl; auto using store_ok_write.
Qed.

Lemma store_Create_ok l s : store_ok s → store_ok (store_Create l s).2.
Proof. apply guarded_write_ok. Qed.

Lemma store_Update_ok l s : store_ok s → store_ok (store_Update l s).2.
Proof. apply guarded_write_ok. Qed.

Lemma store_List_ok ns sel s : store_ok s → store_ok (store_List ns sel s).2.
Proof.
  intros Hok. unfold store_List. destruct (take_fault s) as [f s'] eqn:E.
  pose proof (store_ok_faults _ _ _ E Hok). by destruct f.
Qed.

#[export] Instance wf_store_client : LeaseClient wf_store := {|
  lease_Get k w := ((store_Get k (ws_store w)).1, MkWf _ (store_Get_ok k _ (ws_ok w)));
  lease_Create l w := ((store_Create l (ws_store w)).1, MkWf _ (store_Create_ok l _ (ws_ok w)));
  lease_Update l w := ((store_Update l (ws_store w)).1, MkWf _ (store_Update_ok l _ (ws_ok w)));
  lease_List ns sel w := ((store_List ns sel (ws_store w)).1, MkWf _ (store_List_ok ns sel _ (ws_ok w)));
|}.

Lemma guarded_write_law ok c l s e s' :
  guarded_write ok c l s = (e, s') →
  (∃ s1, st_leases s1 = st_leases s ∧ st_next s1 = st_next s ∧ ok s1 = true ∧
     s' = write_lease l s1) ∨
  (e ≠ None ∧ st_leases s' = st_leases s ∧ st_next s' = st_next s).
Proof.
  unfold guarded_write. destruct (take_fault s) as [f s1] eqn:E.
  apply take_fault_spec in E as [H1 H2].
  destruct (ok s1) eqn:Eok, f; intros [= <- <-]; eauto 10; by right.
Qed.

#[export] Program Instance wf_store_laws : LeaseLaws wf_store := {|
  stored w k := lookup_lease (st_leases (ws_store w)) k;
  next_version w := st_next (ws_store w);
|}.
Next Obligation. intros a k l Hl. by apply (ws_ok a). Qed.
Next Obligation.
  intros [s Hs] k r a'. simpl. intros [= <- <-]. simpl.
  unfold store_Get. destruct (take_fault s) as [f s'] eqn:E.
  apply take_fault_spec in E as [H1 H2].
  assert (∀ k', lookup_lease (st_leases s') k' = lookup_lease (st_leases s) k') as Hl by (by rewrite H1).
  destruct f; simpl; (split; [by apply Hl|]; split; [lia|]); try done.
  intros l. rewrite Hl. destruct (lookup_lease (st_leases s) k) as [l0|] eqn:El; [|done].
  intros [= ->]. destruct (Hs _ _ El). split_ands; [done|lia|].
  intros cur [= ->]. done.
Qed.
Next Obligation.
  intros [s Hs] l e a'. simpl. intros [= <- <-]. simpl.
  destruct (store_Create l s) as [e s'] eqn:E. simpl.
  destruct (guarded_write_law _ _ _ _ _ _ E) as [(s1 & H1 & H2 & Hok & ->)|(? & H1 & H2)].
  - split; [simpl; lia|]. left. exists (st_next s). split; [lia|].
    rewrite H1 in Hok. destruct (lookup_lease (st_leases s) (l_key l)); [done|].
    split; [done|]. intros k'. by rewrite lookup_write, H1, H2.
  - split; [lia|]. right. by rewrite H1.
Qed.
Next Obligation.
  intros [s Hs] l e a'. simpl. intros [= <- <-]. simpl.
  destruct (store_Update l s) as [e s'] eqn:E. simpl.
  destruct (guarded_write_law _ _ _ _ _ _ E) as [(s1 & H1 & H2 & Hok & ->)|(? & H1 & H2)].
  - split; [simpl; lia|]. left. rewrite H1 in Hok.
    destruct (lookup_lease (st_leases s) (l_key l)) as [old|] eqn:Eo; [|done].
    apply bool_decide_eq_true_1 in Hok. exists (st_next s), old.
    split_ands; [lia|done|done|]. intros k'. by rewrite lookup_write, H1, H2.
  - split; [lia|]. right. by rewrite H1.
Qed.

Lemma empty_store_ok fs : store_ok (MkStore [] 0 fs).
Proof. by intros k l. Qed.

Definition empty_leases (fs : list fault) : wf_store := MkWf (MkStore [] 0 fs) (empty_store_ok fs).
