(* ===== verification/LeaseGuard.v ===== *)
(** * pkg/manager/coordinator/sharded/leaseguard.go: fencing with one Lease

    A [leaseGuard] holds a Lease as a fence for one cluster: [TryAcquire]
    creates or adopts it and starts a renew loop, the loop renews it every
    [renew] and gives up on the first failure, [Release] clears the holder.

    The operations are sequential code over [env]: the Lease API, the context
    store, the clock reading of the operation and the renew loops started.
    Every call of the API takes a context: under one that is done it fails
    without reaching the server, as the client's calls do.
    What they write is decided by [acquire_create], [acquire_adopt],
    [renew_write] and [release_write], which the interleaved model of
    [Fence.v] shares. *)

From S2P Require Import Prelude GoErrors GoContext GoNum LeaseAPI.
Open Scope Z_scope.

(** The client is the instance of [LeaseClient]; [onLost] is represented by
    the cluster its closure captures. *)
(* src: pkg/manager/coordinator/sharded/leaseguard.go:31-67 leaseGuard *)
Record leaseGuard := MkGuard {
  g_ns : string;
  g_nm : string;
  g_id : string;
  g_ldur : Z;
  g_renew : Z;
  g_onLost : option string;
  g_held : bool;
  g_cancel : option cancel_func;
}.

(* src: pkg/manager/coordinator/sharded/leaseguard.go:69-72 newLeaseGuard *)
Definition newLeaseGuard (ns name id : string) (ldur renew : Z) (onLost : option string) : leaseGuard :=
  MkGuard ns name id ldur renew onLost false None.

Definition g_key (g : leaseGuard) : key := (g_ns g, g_nm g).

Definition set_held (h : bool) (cancel : option cancel_func) (g : leaseGuard) : leaseGuard :=
  MkGuard (g_ns g) (g_nm g) (g_id g) (g_ldur g) (g_renew g) (g_onLost g) h cancel.

(** ** Decisions *)

(* src: pkg/manager/coordinator/sharded/leaseguard.go:201-206 expired *)
Definition expired (ls : Lease) (now : Z) : bool :=
  match l_renew ls, l_duration ls with
  | Some r, Some d => r + seconds d <? now
  | _, _ => true
  end.

Definition holder_is (ls : Lease) (id : string) : bool := bool_decide (l_holder ls = Some id).

(** The Lease written when none exists. *)
(* src: pkg/manager/coordinator/sharded/leaseguard.go:85-99 leaseGuard.TryAcquire *)
Definition acquire_create (g : leaseGuard) (now : Z) : Lease :=
  MkLease (g_key g) 0 ∅ None (Some (g_id g)) (Some (duration_seconds (g_ldur g)))
    (Some now) (Some now).

(** The Lease written over an existing one, if it may be adopted. *)
(* src: pkg/manager/coordinator/sharded/leaseguard.go:105-122 leaseGuard.TryAcquire *)
Definition acquire_adopt (g : leaseGuard) (now : Z) (ls : Lease) : option Lease :=
  let ho := default "" (l_holder ls) in
  if negb (bool_decide (ho = "")) && negb (bool_decide (ho = g_id g)) && negb (expired ls now)
  then None
  else Some (MkLease (l_key ls) (l_version ls) (l_labels ls) (l_annotations ls)
               (Some (g_id g)) (Some (duration_seconds (g_ldur g)))
               (if negb (bool_decide (ho = g_id g)) || bool_decide (l_acquire ls = None)
                then Some now else l_acquire ls)
               (Some now)).

(** The renewed Lease, unless another holder is observed. *)
(* src: pkg/manager/coordinator/sharded/leaseguard.go:164-172 leaseGuard.renewOnce *)
Definition renew_write (g : leaseGuard) (now : Z) (ls : Lease) : option Lease :=
  if bool_decide (l_holder ls ≠ None) && negb (holder_is ls (g_id g)) && negb (expired ls now)
  then None
  else Some (MkLease (l_key ls) (l_version ls) (l_labels ls) (l_annotations ls)
               (Some (g_id g)) (Some (duration_seconds (g_ldur g))) (l_acquire ls) (Some now)).

(** The cleared Lease, if we still own it. *)
(* src: pkg/manager/coordinator/sharded/leaseguard.go:192-195 leaseGuard.Release *)
Definition release_write (g : leaseGuard) (ls : Lease) : option Lease :=
  if holder_is ls (g_id g)
  then Some (MkLease (l_key ls) (l_version ls) (l_labels ls) (l_annotations ls)
               (Some "") (l_duration ls) (l_acquire ls) (l_renew ls))
  else None.

(** ** Operations *)
Section operations.
Context {A : Type} {LC : LeaseClient A}.

Record env := Env {
  e_api : A;
  e_ctxs : ctx_store;
  e_now : Z;
  e_loops : list (context * key);   (** renew loops started *)
}.

Definition api {B} (m : M A B) : M env B := fun e =>
  let '(b, a) := m (e_api e) in (b, Env a (e_ctxs e) (e_now e) (e_loops e)).

(** Calls with a context. *)
Definition api_Get (ctx : context) (k : key) : M env get_result := fun e =>
  match ctx_Err ctx (e_ctxs e) with
  | Some err => (GetError err, e)
  | None => api (lease_Get k) e
  end.

Definition api_write (ctx : context) (m : M A (option error)) : M env (option error) := fun e =>
  match ctx_Err ctx (e_ctxs e) with
  | Some err => (Some err, e)
  | None => api m e
  end.

(** [context.WithCancel(context.Background())], then [go g.renewLoop(rctx, key)]. *)
(* src: pkg/manager/coordinator/sharded/leaseguard.go:128-133 leaseGuard.TryAcquire *)
Definition start_renewer (g : leaseGuard) : M env (bool * leaseGuard) := fun e =>
  let '(rctx, cancel, cs) := WithCancel Background (e_ctxs e) in
  ((true, set_held true (Some cancel) g),
   Env (e_api e) cs (e_now e) (e_loops e ++ [(rctx, g_key g)])).

(* src: pkg/manager/coordinator/sharded/leaseguard.go:74-134 leaseGuard.TryAcquire *)
Definition TryAcquire (ctx : context) (g : leaseGuard) : M env (bool * leaseGuard) :=
  if g_held g then mret (true, g) else
  now ← gets e_now;
  r ← api_Get ctx (g_key g);
  match r with
  | NotFound =>
      err ← api_write ctx (lease_Create (acquire_create g now));
      match err with Some _ => mret (false, g) | None => start_renewer g end
  | GetError _ => mret (false, g)
  | Found ls =>
      match acquire_adopt g now ls with
      | None => mret (false, g)
      | Some ls =>
          err ← api_write ctx (lease_Update ls);
          match err with Some _ => mret (false, g) | None => start_renewer g end
      end
  end.

(* src: pkg/manager/coordinator/sharded/leaseguard.go:158-177 leaseGuard.renewOnce *)
Definition renewOnce (ctx : context) (g : leaseGuard) (k : key) : M env bool :=
  now ← gets e_now;
  r ← api_Get ctx k;
  match r with
  | Found ls =>
      match renew_write g now ls with
      | None => mret false
      | Some ls =>
          err ← api_write ctx (lease_Update ls);
          mret (match err with Some _ => false | None => true end)
      end
  | _ => mret false
  end.

(** [if g.cancel != nil { g.cancel() }] *)
(* src: pkg/manager/coordinator/sharded/leaseguard.go:184-186 leaseGuard.Release *)
Definition stop_loop (g : leaseGuard) : M env unit := fun e =>
  (tt, Env (e_api e) (match g_cancel g with Some n => cancel n (e_ctxs e) | None => e_ctxs e end)
         (e_now e) (e_loops e)).

(* src: pkg/manager/coordinator/sharded/leaseguard.go:179-199 leaseGuard.Release *)
Definition Release (ctx : context) (g : leaseGuard) : M env leaseGuard :=
  if negb (g_held g) then mret g else
  _ ← stop_loop g;
  let g := set_held false (g_cancel g) g in
  r ← api_Get ctx (g_key g);
  match r with
  | Found ls =>
      match release_write g ls with
      | Some ls => _ ← api_write ctx (lease_Update ls); mret g
      | None => mret g
      end
  | _ => mret g
  end.

(** One iteration of the loop: which case of the select fires.  [true] when
    the loop goes on.  [onLost] runs on the caller's state. *)
Inductive loop_event : Type := LoopDone | LoopTick.

(* src: pkg/manager/coordinator/sharded/leaseguard.go:136-156 leaseGuard.renewLoop *)
Definition renewLoop_iter (onLost : M env unit) (ctx : context) (g : leaseGuard) (k : key) (ev : loop_event) :
  M env (bool * leaseGuard) :=
  match ev with
  | LoopDone => mret (false, g)
  | LoopTick =>
      ok ← renewOnce ctx g k;
      if ok : bool then mret (true, g) else
      _ ← match g_onLost g with Some _ => onLost | None => mret tt end;
      g ← Release Background g;
      mret (false, g)
  end.

End operations.

Arguments env : clear implicits.

(** ** Lemmas *)

Lemma expired_false ls now :
  expired ls now = false ↔
  ∃ r d, l_renew ls = Some r ∧ l_duration ls = Some d ∧ now <= r + seconds d.
Proof.
  unfold expired. destruct (l_renew ls), (l_duration ls); split; try done;
    [rewrite Z.ltb_ge|intros (?&?&?&?&?)..]; [naive_solver| |..]; naive_solver lia.
Qed.

Lemma expired_micro_le ls now now' : now <= now' → expired ls now = true → expired ls now' = true.
Proof. unfold expired. destruct (l_renew ls), (l_duration ls); try done. rewrite !Z.ltb_lt. lia. Qed.

(** A Lease is adopted when it is free, expired or ours; the adopted Lease is
    ours, renewed now, under the version that was read. *)
Lemma acquire_adopt_Some g now ls l :
  acquire_adopt g now ls = Some l →
  l_key l = l_key ls ∧ l_version l = l_version ls ∧
  l_holder l = Some (g_id g) ∧ l_duration l = Some (duration_seconds (g_ldur g)) ∧
  l_renew l = Some now ∧
  (default "" (l_holder ls) = "" ∨ l_holder ls = Some (g_id g) ∨ expired ls now = true).
Proof.
  unfold acquire_adopt. destruct (l_holder ls) as [h|] eqn:Eh; simpl.
  - destruct (bool_decide_reflect (h = "")), (bool_decide_reflect (h = g_id g)),
      (expired ls now); simpl; intros [= <-]; simpl; naive_solver.
  - intros [= <-]. naive_solver.
Qed.

Lemma acquire_adopt_None g now ls :
  acquire_adopt g now ls = None ↔
  ∃ h, l_holder ls = Some h ∧ h ≠ "" ∧ h ≠ g_id g ∧ expired ls now = false.
Proof.
  unfold acquire_adopt. destruct (l_holder ls) as [h|]; simpl.
  - destruct (bool_decide_reflect (h = "")), (bool_decide_reflect (h = g_id g)),
      (expired ls now); simpl; naive_solver.
  - split; [done|naive_solver].
Qed.

Lemma adopt_blocked g now ls :
  default "" (l_holder ls) ∉ [""; g_id g] → expired ls now = false → acquire_adopt g now ls = None.
Proof.
  intros Hn Hx. apply acquire_adopt_None. destruct (l_holder ls) as [h|]; simpl in *; set_unfold; naive_solver.
Qed.

Lemma renew_write_Some g now ls l :
  renew_write g now ls = Some l →
  l_key l = l_key ls ∧ l_version l = l_version ls ∧
  l_holder l = Some (g_id g) ∧ l_duration l = Some (duration_seconds (g_ldur g)) ∧
  l_renew l = Some now ∧
  (l_holder ls = None ∨ l_holder ls = Some (g_id g) ∨ expired ls now = true).
Proof.
  unfold renew_write, holder_is. destruct (l_holder ls) as [h|]; simpl.
  - destruct (bool_decide_reflect (Some h ≠ None)), (bool_decide_reflect (Some h = Some (g_id g))),
      (expired ls now); simpl; naive_solver.
  - naive_solver.
Qed.

Lemma release_write_Some g ls l :
  release_write g ls = Some l →
  l_key l = l_key ls ∧ l_version l = l_version ls ∧ l_holder l = Some "" ∧
  l_renew l = l_renew ls ∧ l_duration l = l_duration ls ∧ l_acquire l = l_acquire ls ∧
  l_holder ls = Some (g_id g).
Proof. unfold release_write, holder_is. case_bool_decide; naive_solver. Qed.

(** Under a context that is done nothing is called; otherwise it is the call. *)
Lemma api_Get_eq `{LC : LeaseClient A} ctx k (e : env A) :
  api_Get ctx k e = if done_ctx ctx (e_ctxs e) then (GetError Canceled, e) else api (lease_Get k) e.
Proof. unfold api_Get, ctx_Err. by destruct (done_ctx ctx (e_ctxs e)). Qed.

Lemma api_write_eq {A} ctx m (e : env A) :
  api_write ctx m e = if done_ctx ctx (e_ctxs e) then (Some Canceled, e) else api m e.
Proof. unfold api_write, ctx_Err. by destruct (done_ctx ctx (e_ctxs e)). Qed.

Lemma TryAcquire_done `{LC : LeaseClient A} ctx g (e : env A) :
  g_held g = false → done_ctx ctx (e_ctxs e) = true → TryAcquire ctx g e = ((false, g), e).
Proof. intros Hh Hd. unfold TryAcquire. rewrite Hh. run_m. by rewrite api_Get_eq, Hd. Qed.

Lemma renewOnce_done `{LC : LeaseClient A} ctx g k (e : env A) :
  done_ctx ctx (e_ctxs e) = true → renewOnce ctx g k e = (false, e).
Proof. intros Hd. unfold renewOnce. run_m. by rewrite api_Get_eq, Hd. Qed.

(** Under a live context they are the plain calls. *)
Lemma TryAcquire_live `{LC : LeaseClient A} ctx g (e : env A) :
  g_held g = false → done_ctx ctx (e_ctxs e) = false →
  TryAcquire ctx g e =
  (let '(r, a) := lease_Get (g_key g) (e_api e) in
   let e := Env a (e_ctxs e) (e_now e) (e_loops e) in
   match (match r with
          | NotFound => Some (lease_Create (acquire_create g (e_now e)))
          | GetError _ => None
          | Found ls => lease_Update <$> acquire_adopt g (e_now e) ls
          end) with
   | None => ((false, g), e)
   | Some m => let '(err, a) := m a in
               let e := Env a (e_ctxs e) (e_now e) (e_loops e) in
               match err with Some _ => ((false, g), e) | None => start_renewer g e end
   end).
Proof.
  intros Hh Hd. unfold TryAcquire. rewrite Hh. run_m. rewrite api_Get_eq, Hd. unfold api.
  destruct (lease_Get (g_key g) (e_api e)) as [[ls| |er] a1]; simpl.
  - destruct (acquire_adopt g (e_now e) ls) as [l|]; simpl; [|done]. rewrite api_write_eq. simpl. rewrite Hd.
    unfold api. simpl. by destruct (lease_Update l a1) as [[er|] a2].
  - rewrite api_write_eq. simpl. rewrite Hd. unfold api. simpl. by destruct (lease_Create _ a1) as [[er|] a2].
  - done.
Qed.

Lemma renewOnce_live `{LC : LeaseClient A} ctx g k (e : env A) :
  done_ctx ctx (e_ctxs e) = false →
  renewOnce ctx g k e =
  (let '(r, a) := lease_Get k (e_api e) in
   match (match r with Found ls => renew_write g (e_now e) ls | _ => None end) with
   | None => (false, Env a (e_ctxs e) (e_now e) (e_loops e))
   | Some l => let '(err, a) := lease_Update l a in
               (match err with Some _ => false | None => true end, Env a (e_ctxs e) (e_now e) (e_loops e))
   end).
Proof.
  intros Hd. unfold renewOnce. run_m. rewrite api_Get_eq, Hd. unfold api.
  destruct (lease_Get k (e_api e)) as [[ls| |er] a1]; simpl; [|done..].
  destruct (renew_write g (e_now e) ls) as [l|]; simpl; [|done]. rewrite api_write_eq. simpl. rewrite Hd.
  unfold api. simpl. by destruct (lease_Update l a1) as [er a2].
Qed.

(** What a held guard does when released: its loop is stopped first. *)
Lemma Release_eq `{LC : LeaseClient A} ctx g (e : env A) :
  Release ctx g e =
  if g_held g then
    let g := set_held false (g_cancel g) g in
    let e := (stop_loop g e).2 in
    if done_ctx ctx (e_ctxs e) then (g, e) else
    let '(r, a) := lease_Get (g_key g) (e_api e) in
    (g, Env (match (match r with Found ls => release_write g ls | _ => None end) with
             | None => a
             | Some l => (lease_Update l a).2
             end) (e_ctxs e) (e_now e) (e_loops e))
  else (g, e).
Proof.
  unfold Release. destruct (g_held g); [|done]. cbn [negb]. cbv zeta. rewrite bind_eq. unfold stop_loop at 1. cbv beta iota.
  set (g' := set_held false (g_cancel g) g). change (stop_loop g' e) with (stop_loop g e).
  unfold stop_loop. cbn [snd]. set (e1 := Env _ _ _ _). rewrite bind_eq, api_Get_eq.
  destruct (done_ctx ctx (e_ctxs e1)) eqn:Hd; [done|]. unfold api.
  destruct (lease_Get (g_key g') (e_api e1)) as [[ls| |er] a1]; [|done..].
  destruct (release_write g' ls) as [l|]; [|done]. rewrite bind_eq, api_write_eq. cbn [e_ctxs]. rewrite Hd. unfold api. cbn [e_api].
  by destruct (lease_Update l a1).
Qed.

Lemma Release_unheld `{LC : LeaseClient A} ctx g (e : env A) : g_held (Release ctx g e).1 = false.
Proof.
  rewrite Release_eq. destruct (g_held g) eqn:Hh; [|done]. cbv zeta. destruct (done_ctx _ _); [done|].
  by destruct (lease_Get _ _).
Qed.

(** ** Properties *)
Section properties.
Context {A : Type} {LC : LeaseClient A} {LL : LeaseLaws A}.

(** The Lease under [k] is the guard's, renewed at [now]. *)
Definition owns (g : leaseGuard) (now : Z) (a : A) (k : key) : Prop :=
  ∃ l, stored a k = Some l ∧ l_holder l = Some (g_id g) ∧
       l_duration l = Some (duration_seconds (g_ldur g)) ∧ l_renew l = Some (micro now).

Lemma write_owns g now (a a' : A) l v k :
  (∀ k', stored a' k' = if decide (k' = l_key l) then Some (image v l) else stored a k') →
  l_key l = k → l_holder l = Some (g_id g) →
  l_duration l = Some (duration_seconds (g_ldur g)) → l_renew l = Some now →
  owns g now a' k.
Proof.
  intros Hst Hk Hh Hd Hr. exists (image v l).
  rewrite Hst, decide_True by done. simpl. by rewrite Hr.
Qed.

(** Complement (functional): an unheld guard's [TryAcquire] that returns true has written
    the Lease under the guard's name, with its holder, its duration in whole
    seconds and the current time in microseconds, and has started exactly one
    renew loop with a fresh context; one that returns false leaves the guard
    and the loops as they were, and under a context that is done it returns
    false without a call.  In all cases no other Lease changes, and a Lease
    found held by another holder and unexpired is never overwritten. *)
Theorem TryAcquire_takes_the_lease ctx g (e : env A) b g' e' :
  g_held g = false →
  TryAcquire ctx g e = ((b, g'), e') →
  (done_ctx ctx (e_ctxs e) = true → b = false ∧ e' = e) ∧
  (∀ k, k ≠ g_key g → stored (e_api e') k = stored (e_api e) k) ∧
  (b = true →
     owns g (e_now e) (e_api e') (g_key g) ∧
     g' = set_held true (Some (cs_next (e_ctxs e))) g ∧
     e_loops e' = e_loops e ++ [(Ctx [cs_next (e_ctxs e)] [], g_key g)]) ∧
  (b = false → g' = g ∧ e_loops e' = e_loops e ∧ e_ctxs e' = e_ctxs e) ∧
  (∀ l a, lease_Get (g_key g) (e_api e) = (Found l, a) →
     default "" (l_holder l) ∉ [""; g_id g] → expired l (e_now e) = false →
     b = false ∧ (done_ctx ctx (e_ctxs e) = false → e_api e' = a)).
Proof.
  intros Hh. destruct (done_ctx ctx (e_ctxs e)) eqn:Hd.
  { rewrite TryAcquire_done by done. intros [= <- <- <-]. by split_ands. }
  rewrite TryAcquire_live by done. intros E. split; [done|]. revert E.
  destruct (lease_Get (g_key g) (e_api e)) as [r a1] eqn:EG.
  pose proof (Get_law _ _ _ _ EG) as (Hg1 & _ & HgF).
  destruct r as [ls| |er]; simpl.
  - destruct (HgF _ eq_refl) as (Hk & _ & _).
    destruct (acquire_adopt g (e_now e) ls) as [l|] eqn:EA; simpl.
    + destruct (acquire_adopt_Some _ _ _ _ EA) as (Hlk & _ & Hlh & Hld & Hlr & Hwhy).
      destruct (lease_Update l a1) as [er a2] eqn:EU.
      pose proof (Update_law _ _ _ _ EU) as (_ & [(v & old & _ & _ & _ & Hst)|[Her Hst]]).
      * assert (∀ k, k ≠ g_key g → stored a2 k = stored (e_api e) k) as Hoth.
        { intros k Hne. rewrite Hst, decide_False by congruence. apply Hg1. }
        destruct er as [er|]; simpl; intros [= <- <- <-]; simpl; split_ands; try done.
        -- intros l' a [= <- _] Hn Hx. simpl in EA. by rewrite (adopt_blocked _ _ _ Hn Hx) in EA.
        -- intros _. split_ands; [|done..]. eapply write_owns; [exact Hst|congruence|done..].
        -- intros l' a [= <- _] Hn Hx. simpl in EA. by rewrite (adopt_blocked _ _ _ Hn Hx) in EA.
      * destruct er as [er|]; [|done]. intros [= <- <- <-]; simpl. split_ands; try done.
        -- intros k _. rewrite Hst. apply Hg1.
        -- intros l' a [= <- _] Hn Hx. simpl in EA. by rewrite (adopt_blocked _ _ _ Hn Hx) in EA.
    + intros [= <- <- <-]; simpl. split_ands; try done; try (intros; apply Hg1).
      by intros l a [= <- <-].
  - destruct (lease_Create (acquire_create g (e_now e)) a1) as [er a2] eqn:EC.
    pose proof (Create_law _ _ _ _ EC) as (_ & [(v & _ & _ & Hst)|[Her Hst]]).
    + assert (∀ k, k ≠ g_key g → stored a2 k = stored (e_api e) k) as Hoth.
      { intros k Hne. rewrite Hst, decide_False by done. apply Hg1. }
      destruct er as [er|]; simpl; intros [= <- <- <-]; simpl; split_ands; try done.
      intros _. split_ands; [|done..]. by eapply write_owns.
    + destruct er as [er|]; [|done]. intros [= <- <- <-]; simpl. split_ands; try done.
      intros k _. rewrite Hst. apply Hg1.
  - intros [= <- <- <-]; simpl. split_ands; try done; intros; apply Hg1.
Qed.

Lemma renewOnce_writes ctx g k (e : env A) b e' :
  renewOnce ctx g k e = (b, e') →
  (∀ k', k' ≠ k → stored (e_api e') k' = stored (e_api e) k') ∧
  (b = true → owns g (e_now e) (e_api e') k) ∧
  (stored (e_api e') k = stored (e_api e) k ∨
     ∃ l, stored (e_api e) k = Some l ∧
       (l_holder l = None ∨ l_holder l = Some (g_id g) ∨ expired l (e_now e) = true)) ∧
  e_loops e' = e_loops e ∧ e_ctxs e' = e_ctxs e.
Proof.
  destruct (done_ctx ctx (e_ctxs e)) eqn:Hd.
  { rewrite renewOnce_done by done. intros [= <- <-]. split_ands; try done; auto. }
  rewrite renewOnce_live by done.
  destruct (lease_Get k (e_api e)) as [r a1] eqn:EG.
  pose proof (Get_law _ _ _ _ EG) as (Hg1 & _ & HgF).
  destruct r as [ls| |er]; simpl; [|intros [= <- <-]; split_ands; try done; auto..].
  destruct (HgF _ eq_refl) as (Hk & _ & Hcur).
  destruct (renew_write g (e_now e) ls) as [l|] eqn:EA; simpl; [|intros [= <- <-]; split_ands; try done; auto].
  destruct (renew_write_Some _ _ _ _ EA) as (Hlk & Hlv & Hlh & Hld & Hlr & Hwhy).
  destruct (lease_Update l a1) as [er a2] eqn:EU.
  pose proof (Update_law _ _ _ _ EU) as (_ & [(v & old & _ & Hold & Hov & Hst)|[Her Hst]]).
  - intros [= <- <-]; simpl. split_ands; [| | |done..].
    + intros k' Hne. rewrite Hst, decide_False by congruence. apply Hg1.
    + intros _. eapply write_owns; [exact Hst|congruence|done..].
    + right. rewrite Hlk, Hk, Hg1 in Hold. assert (old = ls) as -> by (apply Hcur; congruence). eauto.
  - destruct er; [|done]. intros [= <- <-]; simpl.
    split_ands; try done; [intros k' _|left]; by rewrite Hst.
Qed.

(** Complement (functional): [Release] leaves the guard unheld and its renew loop's
    context cancelled; it changes no Lease but the guard's, and that one only
    while the guard holds it: a Lease another peer has taken since is left
    alone, and ours keeps its renew and acquire times and loses its holder. *)
Theorem Release_clears_only_ours ctx g (e : env A) g' e' :
  Release ctx g e = (g', e') →
  g_held g' = false ∧ (g_held g = false → e' = e) ∧
  (∀ n, g_held g = true → g_cancel g = Some n → n ∈ cs_cancelled (e_ctxs e')) ∧
  (∀ k, k ≠ g_key g → stored (e_api e') k = stored (e_api e) k) ∧
  (stored (e_api e') (g_key g) = stored (e_api e) (g_key g) ∨
   ∃ l v, stored (e_api e) (g_key g) = Some l ∧ l_holder l = Some (g_id g) ∧
     stored (e_api e') (g_key g) =
       Some (MkLease (l_key l) v (l_labels l) (l_annotations l) (Some "") (l_duration l)
               (micro <$> l_acquire l) (micro <$> l_renew l))).
Proof.
  rewrite Release_eq. destruct (g_held g) eqn:Hh; [|intros [= <- <-]; split_ands; try done; auto].
  cbv zeta. unfold stop_loop. cbn [snd e_ctxs e_api e_now e_loops].
  set (cs := match g_cancel _ with Some n => cancel n (e_ctxs e) | None => e_ctxs e end).
  assert (∀ n, g_cancel g = Some n → n ∈ cs_cancelled cs) as Hcs.
  { intros n Hn. subst cs. simpl. rewrite Hn. simpl. set_solver. }
  destruct (done_ctx ctx cs); [intros [= <- <-]; simpl; split_ands; try done; auto|].
  change (g_key (set_held false (g_cancel g) g)) with (g_key g).
  destruct (lease_Get (g_key g) (e_api e)) as [r a1] eqn:EG.
  pose proof (Get_law _ _ _ _ EG) as (Hg1 & _ & HgF).
  destruct r as [ls| |er]; simpl; [|intros [= <- <-]; simpl; split_ands; try done; auto..].
  destruct (HgF _ eq_refl) as (Hk & _ & Hcur).
  unfold release_write at 1; simpl. fold (release_write g ls).
  destruct (release_write g ls) as [l|] eqn:EA; simpl;
    [|intros [= <- <-]; simpl; split_ands; try done; auto].
  destruct (lease_Update l a1) as [er a2] eqn:EU.
  intros [= <- <-]; simpl. pose proof EA as (Hlk & Hlv & _ & _ & _ & _ & Hls)%release_write_Some.
  pose proof (Update_law _ _ _ _ EU) as (_ & [(v & old & _ & Hold & Hov & Hst)|[_ Hst]]).
  - split_ands; try done; [by auto| |].
    + intros k Hne. rewrite Hst, decide_False by congruence. apply Hg1.
    + right. rewrite Hlk, Hk, Hg1 in Hold. assert (old = ls) as -> by (apply Hcur; congruence).
      exists ls, v. split_ands; [done..|]. rewrite Hst, decide_True by congruence.
      unfold release_write, holder_is in EA. rewrite bool_decide_eq_true_2 in EA by done.
      by injection EA as <-.
  - split_ands; try done; [by auto|intros; rewrite Hst; apply Hg1|left; rewrite Hst; apply Hg1].
Qed.

(** Complement (error): a tick of the renew loop that goes on has renewed the Lease at
    the current time and left the guard alone; otherwise the loop ends, after
    [onLost], with the guard released.  One failed read or write is enough. *)
Theorem renewLoop_gives_up_on_first_error onLost ctx g (e : env A) go g' e' :
  renewLoop_iter onLost ctx g (g_key g) LoopTick e = ((go, g'), e') →
  (go = true → g' = g ∧ owns g (e_now e) (e_api e') (g_key g)) ∧
  (go = false → g_held g' = false ∧
     (g_onLost g ≠ None → ∃ e1, (g', e') = Release Background g (onLost e1).2)) ∧
  (∀ er a, lease_Get (g_key g) (e_api e) = (GetError er, a) → go = false).
Proof.
  unfold renewLoop_iter. unfold mbind at 1, M_bind at 1.
  destruct (renewOnce ctx g (g_key g) e) as [ok e1] eqn:ER.
  pose proof (renewOnce_writes _ _ _ _ _ _ ER) as (_ & Hown & _).
  assert (∀ er a, lease_Get (g_key g) (e_api e) = (GetError er, a) → ok = false) as Herr.
  { intros er a Hg. revert ER. destruct (done_ctx ctx (e_ctxs e)) eqn:Hd; [rewrite renewOnce_done by done|rewrite renewOnce_live, Hg by done];
      by intros [= <- <-]. }
  destruct ok; [intros [= <- <- <-]; split_ands; try done; by auto|].
  unfold mbind at 1, M_bind at 1.
  assert (∃ e2, (match g_onLost g with Some _ => onLost | None => mret tt end) e1 = (tt, e2) ∧
    (g_onLost g ≠ None → e2 = (onLost e1).2)) as (e2 & -> & He2).
  { destruct (g_onLost g); [destruct (onLost e1) as [[] e2]|]; eexists; by split. }
  unfold mbind, M_bind, mret, M_ret. destruct (Release Background g e2) as [g2 e3] eqn:EL.
  intros [= <- <- <-]. split_ands; try done; [intros _].
  split; [|intros Hl; exists e1; rewrite <-He2 by done; by rewrite EL].
  replace g2 with (Release Background g e2).1 by (by rewrite EL). apply Release_unheld.
Qed.
End properties.

Lemma acquire_adopt_free g now ls :
  default "" (l_holder ls) = "" ∨ l_holder ls = Some (g_id g) ∨ expired ls now = true →
  ∃ l, acquire_adopt g now ls = Some l.
Proof.
  intros Hw. destruct (acquire_adopt g now ls) as [l|] eqn:E; [by exists l|].
  apply acquire_adopt_None in E as (h & Hh & ? & ? & Hx). rewrite Hh in Hw. simpl in Hw.
  naive_solver congruence.
Qed.

(** A fence that is free for the guard is acquired from a server that answers. *)
Lemma TryAcquire_free ctx g (e : env store) :
  g_held g = false → done_ctx ctx (e_ctxs e) = false → st_faults (e_api e) = [] → store_ok (e_api e) →
  (∀ l, lookup_lease (st_leases (e_api e)) (g_key g) = Some l →
     default "" (l_holder l) = "" ∨ l_holder l = Some (g_id g) ∨ expired l (e_now e) = true) →
  ∃ l, TryAcquire ctx g e = start_renewer g (Env (write_lease l (e_api e)) (e_ctxs e) (e_now e) (e_loops e)) ∧
    l_key l = g_key g ∧ l_holder l = Some (g_id g) ∧ l_duration l = Some (duration_seconds (g_ldur g)) ∧
    l_renew l = Some (e_now e).
Proof.
  intros Hh Hd Hf Hok Hfree. rewrite TryAcquire_live by done. simpl.
  unfold store_Get, take_fault. rewrite Hf.
  destruct (lookup_lease _ (g_key g)) as [l|] eqn:El; simpl.
  - destruct (acquire_adopt_free _ _ _ (Hfree _ eq_refl)) as [l' Hl']. rewrite Hl'.
    destruct (acquire_adopt_Some _ _ _ _ Hl') as (Hk & Hv & Hh' & Hd' & Hr & _).
    destruct (Hok _ _ El) as [Hkey _]. exists l'. simpl.
    unfold store_Update, guarded_write, take_fault. rewrite Hf.
    rewrite Hk, Hkey, El, Hv, bool_decide_eq_true_2 by done. by split_ands.
  - exists (acquire_create g (e_now e)). simpl. unfold store_Create, guarded_write, take_fault. rewrite Hf. simpl.
    rewrite El. by split_ands.
Qed.

(** C31 (functional): against a server that answers, with a context that is live, a guard
    takes the fence whenever there is no Lease, or the Lease has no holder, or
    is its own, or has expired: a crashed or released holder is replaced by the
    first attempt after the Lease ran out.  Taking it means that the stored
    Lease now names this guard as its holder, with the guard's duration and
    renewed now (in microseconds), no other Lease having changed; that the
    guard is held; and that exactly one renew loop was started, whose context
    is live and is what the guard will cancel. *)
Theorem free_fence_is_taken_over ctx g (e : env store) :
  g_held g = false → done_ctx ctx (e_ctxs e) = false → store_wf (e_ctxs e) →
  st_faults (e_api e) = [] → store_ok (e_api e) →
  (∀ l, lookup_lease (st_leases (e_api e)) (g_key g) = Some l →
     default "" (l_holder l) = "" ∨ l_holder l = Some (g_id g) ∨ expired l (e_now e) = true) →
  let '((b, g'), e') := TryAcquire ctx g e in
  b = true ∧ g_held g' = true ∧
  (∃ l, lookup_lease (st_leases (e_api e')) (g_key g) = Some l ∧ l_holder l = Some (g_id g) ∧
     l_duration l = Some (duration_seconds (g_ldur g)) ∧ l_renew l = Some (micro (e_now e))) ∧
  (∀ k, k ≠ g_key g → lookup_lease (st_leases (e_api e')) k = lookup_lease (st_leases (e_api e)) k) ∧
  ∃ rctx n, e_loops e' = e_loops e ++ [(rctx, g_key g)] ∧ g_cancel g' = Some n ∧
    ctx_nodes rctx = [n] ∧ done_ctx rctx (e_ctxs e') = false.
Proof.
  intros Hh Hd Hwf Hf Hok Hfree. destruct (TryAcquire_free ctx g e Hh Hd Hf Hok Hfree) as (l & -> & Hk & Hl & Hdur & Hr).
  unfold start_renewer, WithCancel. cbn [e_ctxs e_api e_now e_loops]. split_ands; [done|done|..].
  - rewrite lookup_write, decide_True by done. eexists. split; [done|]. simpl. rewrite Hr. by split_ands.
  - intros k Hne. rewrite lookup_write, decide_False; [done|congruence].
  - do 2 eexists. split_ands; [done|done|done|]. apply done_ctx_false. simpl.
    intros n ->%list_elem_of_singleton Hc. apply Hwf in Hc. simpl in Hc. lia.
Qed.

(** ** Witnesses *)

Definition zoo_guard : leaseGuard :=
  newLeaseGuard "kube-system" "mcr-shard-zoo" "peer-0" (20 * Second) (10 * Second) (Some "zoo").

Definition zoo_env (fs : list fault) (now : Z) : env wf_store := Env (empty_leases fs) empty_store now [].

Lemma TryAcquire_takes_the_lease_witness :
  (TryAcquire Background zoo_guard (zoo_env [] 5000000)).1.1 = true ∧
  owns zoo_guard 5000000 (e_api (TryAcquire Background zoo_guard (zoo_env [] 5000000)).2) (g_key zoo_guard).
Proof.
  split; [by vm_compute|].
  eapply (TryAcquire_takes_the_lease Background zoo_guard (zoo_env [] 5000000)); reflexivity.
Defined.

Lemma Release_clears_only_ours_witness :
  let r := TryAcquire Background zoo_guard (zoo_env [] 5000000) in
  let r' := Release Background r.1.2 r.2 in
  g_held r.1.2 = true ∧ g_held r'.1 = false.
Proof.
  split; [by vm_compute|].
  eapply (Release_clears_only_ours _ _ _ _ _ (surjective_pairing _)).
Defined.

Lemma renewLoop_gives_up_on_first_error_witness :
  let r := TryAcquire Background zoo_guard (zoo_env [NoFault; NoFault; FailBefore] 5000000) in
  (renewLoop_iter (mret tt) Background r.1.2 (g_key zoo_guard) LoopTick r.2).1.1 = false ∧
  g_held (renewLoop_iter (mret tt) Background r.1.2 (g_key zoo_guard) LoopTick r.2).1.2 = false.
Proof.
  intros r. split; [by vm_compute|].
  eapply (renewLoop_gives_up_on_first_error (mret tt) Background r.1.2 r.2); by vm_compute.
Defined.

(** Peer 0 takes over 20 seconds and a microsecond after peer 1's last renewal. *)
Definition zoo_held_store : store :=
  MkStore [(g_key zoo_guard, MkLease (g_key zoo_guard) 0 ∅ None (Some "peer-1") (Some 20) (Some 0) (Some 0))] 1 [].

Lemma free_fence_is_taken_over_witness :
  (TryAcquire Background zoo_guard (Env zoo_held_store empty_store (20 * Second) [])).1.1 = false ∧
  ∃ l, lookup_lease (st_leases (e_api (TryAcquire Background zoo_guard (Env zoo_held_store empty_store (20 * Second + 1000) [])).2))
         (g_key zoo_guard) = Some l ∧ l_holder l = Some "peer-0".
Proof.
  split; [by vm_compute|]. set (e := Env zoo_held_store empty_store (20 * Second + 1000) []).
  assert (store_ok (e_api e)) as Hok.
  { intros k l. unfold lookup_lease. simpl. case_bool_decide as Hk; [|done].
    intros [= <-]. simpl. split; [done|lia]. }
  assert (∀ l, lookup_lease (st_leases (e_api e)) (g_key zoo_guard) = Some l →
     default "" (l_holder l) = "" ∨ l_holder l = Some (g_id zoo_guard) ∨ expired l (e_now e) = true) as Hfree.
  { intros l Hl. vm_compute in Hl. injection Hl as <-. right; right. by vm_compute. }
  pose proof (free_fence_is_taken_over Background zoo_guard e eq_refl eq_refl empty_store_wf eq_refl Hok Hfree) as H.
  destruct (TryAcquire Background zoo_guard e) as [[b g'] e']. destruct H as (_ & _ & (l & Hl & Hh & _) & _).
  exists l. split; [exact Hl|exact Hh].
Defined.
