(* ===== verification/Fence.v ===== *)
(** * The fences of all processes, interleaved

    Several processes run the operations of [LeaseGuard.v] against one Lease
    API.  A step of the transition system is one clock advance or one API call
    of one goroutine; between two calls of an operation any other goroutine
    may move.  The decisions are those of the sequential code, and
    [acquire_steps_refine] shows that running an acquisition's steps without
    interference is [TryAcquire].

    A guard in flight has at most one [TryAcquire] (its caller holds the
    coordinator's lock), and any number of renewals and releases.  [strict]
    adds the documented contract of the guard - one goroutine at a time per
    fence - to [TryAcquire]: it waits for a release in flight.  A failed
    renewal starts the release at once.

    [p_claim] is a ghost: the renew time of the last write that the guard saw
    succeed since it took the fence.  Clocks are one global clock. *)

From S2P Require Import Prelude GoErrors GoContext GoNum LeaseAPI LeaseGuard.
Open Scope Z_scope.

Inductive acq_op : Type :=
| AcqGet (now : Z)
| AcqCreate (now : Z)
| AcqUpdate (now : Z) (l : Lease).

Inductive ren_op : Type :=
| RenGet (now : Z)
| RenUpdate (now : Z) (l : Lease).

Inductive rel_op : Type :=
| RelGet
| RelUpdate (l : Lease).

Record proc := MkProc {
  p_g : leaseGuard;
  p_loop : bool;              (** a renew loop has been started *)
  p_acq : option acq_op;
  p_ren : list ren_op;
  p_rel : list rel_op;
  p_claim : option Z;
}.

Inductive flabel : Type :=
| FTick (d : Z)               (** time passes *)
| FAcquire (i : nat)          (** [TryAcquire] is called *)
| FAcqStep (i : nat)          (** its next API call *)
| FRenew (i : nat)            (** a renew loop's ticker fires *)
| FRenStep (i n : nat)        (** the next API call of renewal [n] *)
| FRelease (i : nat)          (** [Release] is called *)
| FRelStep (i n : nat).       (** the next API call of release [n] *)

Section fence.
Context {A : Type} {LC : LeaseClient A}.

Record fstate := MkF {
  f_api : A;
  f_now : Z;
  f_procs : gmap nat proc;
}.

Definition with_p (s : fstate) (i : nat) (a : A) (p : proc) : fstate :=
  MkF a (f_now s) (<[i := p]> (f_procs s)).

(** The fence is taken: [g.held = true], and what follows in [TryAcquire]. *)
Definition p_taken (p : proc) (now : Z) : proc :=
  MkProc (set_held true (g_cancel (p_g p)) (p_g p)) true None (p_ren p) (p_rel p) (Some (micro now)).

Definition p_set_acq (p : proc) (o : option acq_op) : proc :=
  MkProc (p_g p) (p_loop p) o (p_ren p) (p_rel p) (p_claim p).

Definition p_set_ren (p : proc) (l : list ren_op) : proc :=
  MkProc (p_g p) (p_loop p) (p_acq p) l (p_rel p) (p_claim p).

Definition p_set_rel (p : proc) (l : list rel_op) : proc :=
  MkProc (p_g p) (p_loop p) (p_acq p) (p_ren p) l (p_claim p).

(** [Release]: a no-op unless held; otherwise [g.held = false] and the calls follow. *)
Definition p_release (p : proc) : proc :=
  if g_held (p_g p) then
    MkProc (set_held false (g_cancel (p_g p)) (p_g p)) (p_loop p) (p_acq p) (p_ren p)
      (p_rel p ++ [RelGet]) None
  else p.

(** A renewal that succeeded extends the claim of a guard that is held. *)
Definition p_renewed (p : proc) (now : Z) : proc :=
  MkProc (p_g p) (p_loop p) (p_acq p) (p_ren p) (p_rel p)
    (if g_held (p_g p) then Some (micro now) else p_claim p).

(* src: pkg/manager/coordinator/sharded/leaseguard.go:77-134 leaseGuard.TryAcquire *)
Definition acq_step (a : A) (p : proc) (o : acq_op) : A * proc :=
  match o with
  | AcqGet now =>
      let '(r, a) := lease_Get (g_key (p_g p)) a in
      (a, match r with
          | NotFound => p_set_acq p (Some (AcqCreate now))
          | GetError _ => p_set_acq p None
          | Found ls =>
              match acquire_adopt (p_g p) now ls with
              | Some l => p_set_acq p (Some (AcqUpdate now l))
              | None => p_set_acq p None
              end
          end)
  | AcqCreate now =>
      let '(e, a) := lease_Create (acquire_create (p_g p) now) a in
      (a, match e with None => p_taken p now | Some _ => p_set_acq p None end)
  | AcqUpdate now l =>
      let '(e, a) := lease_Update l a in
      (a, match e with None => p_taken p now | Some _ => p_set_acq p None end)
  end.

(** [p] has renewal [o] already taken off its list; [k] puts it back. *)
(* src: pkg/manager/coordinator/sharded/leaseguard.go:138-177 leaseGuard.renewLoop *)
Definition ren_step (a : A) (p : proc) (o : ren_op) (rest : list ren_op) : A * proc :=
  let p := p_set_ren p rest in
  match o with
  | RenGet now =>
      let '(r, a) := lease_Get (g_key (p_g p)) a in
      (a, match r with
          | Found ls =>
              match renew_write (p_g p) now ls with
              | Some l => p_set_ren p (RenUpdate now l :: rest)
              | None => p_release p
              end
          | _ => p_release p
          end)
  | RenUpdate now l =>
      let '(e, a) := lease_Update l a in
      (a, match e with None => p_renewed p now | Some _ => p_release p end)
  end.

(* src: pkg/manager/coordinator/sharded/leaseguard.go:180-199 leaseGuard.Release *)
Definition rel_step (a : A) (p : proc) (o : rel_op) (rest : list rel_op) : A * proc :=
  let p := p_set_rel p rest in
  match o with
  | RelGet =>
      let '(r, a) := lease_Get (g_key (p_g p)) a in
      (a, match r with
          | Found ls =>
              match release_write (p_g p) ls with
              | Some l => p_set_rel p (RelUpdate l :: rest)
              | None => p
              end
          | _ => p
          end)
  | RelUpdate l => let '(_, a) := lease_Update l a in (a, p)
  end.

Definition fexec (strict : bool) (lab : flabel) (s : fstate) : option fstate :=
  match lab with
  | FTick d => if 0 <=? d then Some (MkF (f_api s) (f_now s + d) (f_procs s)) else None
  | FAcquire i =>
      p ← f_procs s !! i;
      if g_held (p_g p) then Some s else
      match p_acq p, strict, p_rel p with
      | Some _, _, _ => None
      | None, true, _ :: _ => None
      | None, _, _ => Some (with_p s i (f_api s) (p_set_acq p (Some (AcqGet (f_now s)))))
      end
  | FAcqStep i =>
      p ← f_procs s !! i; o ← p_acq p;
      let '(a, p') := acq_step (f_api s) p o in Some (with_p s i a p')
  | FRenew i =>
      p ← f_procs s !! i;
      if p_loop p then Some (with_p s i (f_api s) (p_set_ren p (p_ren p ++ [RenGet (f_now s)])))
      else None
  | FRenStep i n =>
      p ← f_procs s !! i; o ← p_ren p !! n;
      let '(a, p') := ren_step (f_api s) p o (delete n (p_ren p)) in Some (with_p s i a p')
  | FRelease i =>
      p ← f_procs s !! i; Some (with_p s i (f_api s) (p_release p))
  | FRelStep i n =>
      p ← f_procs s !! i; o ← p_rel p !! n;
      let '(a, p') := rel_step (f_api s) p o (delete n (p_rel p)) in Some (with_p s i a p')
  end.

(** The guard believes, and may believe, that it has the fence: it is held,
    and the Lease it last wrote has not expired. *)
Definition holds (now : Z) (p : proc) : bool :=
  g_held (p_g p) &&
  match p_claim p with
  | Some r => now <=? r + seconds (duration_seconds (g_ldur (p_g p)))
  | None => false
  end.

Definition idle (g : leaseGuard) : proc := MkProc g false None [] [] None.

(** Initially every guard is as [newLeaseGuard] makes it, and guards of one
    Lease belong to different processes. *)
Definition finit (s : fstate) : Prop :=
  (∀ i p, f_procs s !! i = Some p → p = idle (p_g p) ∧ g_held (p_g p) = false ∧ g_id (p_g p) ≠ "") ∧
  (∀ i j p q, f_procs s !! i = Some p → f_procs s !! j = Some q → i ≠ j →
     g_key (p_g p) = g_key (p_g q) → g_id (p_g p) ≠ g_id (p_g q)).

End fence.

Arguments fstate : clear implicits.

(** ** The invariant *)
Section invariant.
Context {A : Type} {LC : LeaseClient A} {LL : LeaseLaws A}.
Implicit Types (a : A) (p q : proc) (s : fstate A).

(** [l0] was read under [k], and is still what the server stores if its
    version is. *)
Definition read_ok a (k : key) (l0 : Lease) : Prop :=
  l_key l0 = k ∧ (l_version l0 < next_version a)%nat ∧
  ∀ cur, stored a k = Some cur → l_version cur = l_version l0 → cur = l0.

(** A later state of the server: what changed has a new version. *)
Definition evolves a a' : Prop :=
  (next_version a <= next_version a')%nat ∧
  ∀ k, stored a' k = stored a k ∨ ∃ l, stored a' k = Some l ∧ (next_version a <= l_version l)%nat.

(** A Lease that process [id] may write over at time [now]. *)
Definition takeable (id : string) (now : Z) (old : Lease) : Prop :=
  l_holder old = None ∨ l_holder old = Some "" ∨ l_holder old = Some id ∨ expired old now = true.

Definition touches (id : string) (k : key) (now : Z) a a' : Prop :=
  evolves a a' ∧ (∀ k', k' ≠ k → stored a' k' = stored a k') ∧
  (stored a' k = stored a k ∨ ∀ old, stored a k = Some old → takeable id now old).

Definition acq_ok a (now : Z) p : Prop :=
  match p_acq p with
  | None => True
  | Some (AcqGet t) | Some (AcqCreate t) => t <= now
  | Some (AcqUpdate t l) => t <= now ∧ ∃ l0, read_ok a (g_key (p_g p)) l0 ∧ acquire_adopt (p_g p) t l0 = Some l
  end.

Definition ren_ok a (now : Z) p (o : ren_op) : Prop :=
  match o with
  | RenGet t => t <= now
  | RenUpdate t l => t <= now ∧ ∃ l0, read_ok a (g_key (p_g p)) l0 ∧ renew_write (p_g p) t l0 = Some l
  end.

Definition rel_ok a p (o : rel_op) : Prop :=
  match o with
  | RelGet => True
  | RelUpdate l => ∃ l0, read_ok a (g_key (p_g p)) l0 ∧ release_write (p_g p) l0 = Some l
  end.

(** The claim is backed by the stored Lease. *)
Definition claim_ok a (now : Z) p : Prop :=
  holds now p = true →
  ∃ l, stored a (g_key (p_g p)) = Some l ∧ l_holder l = Some (g_id (p_g p)) ∧
    l_duration l = Some (duration_seconds (g_ldur (p_g p))) ∧ l_renew l = p_claim p.

(** Under the contract, a guard being acquired or held has no release in flight. *)
Definition turn_ok p : Prop :=
  (p_acq p ≠ None → g_held (p_g p) = false) ∧
  (p_acq p ≠ None ∨ g_held (p_g p) = true → p_rel p = []).

Record proc_ok a (now : Z) p : Prop := {
  po_acq : acq_ok a now p;
  po_ren : Forall (ren_ok a now p) (p_ren p);
  po_rel : Forall (rel_ok a p) (p_rel p);
  po_claim : claim_ok a now p;
  po_turn : turn_ok p;
}.

Definition fence_inv s : Prop :=
  (∀ i p, f_procs s !! i = Some p → proc_ok (f_api s) (f_now s) p ∧ g_id (p_g p) ≠ "") ∧
  (∀ i j p q, f_procs s !! i = Some p → f_procs s !! j = Some q → i ≠ j →
     g_key (p_g p) = g_key (p_g q) → g_id (p_g p) ≠ g_id (p_g q)).

(** *** The server *)

Lemma evolves_refl a : evolves a a.
Proof. split; [lia|by left]. Qed.

Lemma read_ok_evolves a a' k l : evolves a a' → read_ok a k l → read_ok a' k l.
Proof.
  intros [Hn Hst] (Hk & Hv & Hcur). split; [done|]. split; [lia|].
  intros cur Hc Heq. destruct (Hst k) as [Hs|(l' & Hl' & Hge)]; [apply Hcur; congruence|].
  simplify_eq. lia.
Qed.

Lemma write_evolves a a' l v :
  (next_version a <= next_version a')%nat → (next_version a <= v)%nat →
  (∀ k', stored a' k' = if decide (k' = l_key l) then Some (image v l) else stored a k') →
  evolves a a'.
Proof.
  intros Hn Hv Hst. split; [done|]. intros k. rewrite Hst. case_decide; [right|by left].
  by exists (image v l).
Qed.

Lemma quiet_touches id k now a a' :
  (next_version a <= next_version a')%nat → (∀ k', stored a' k' = stored a k') → touches id k now a a'.
Proof. intros Hn Hst. unfold touches, evolves. split_ands; auto. Qed.

Lemma Get_touches id now a k r a' :
  lease_Get k a = (r, a') → touches id k now a a' ∧ ∀ l, r = Found l → read_ok a' k l.
Proof.
  intros HG. destruct (Get_law _ _ _ _ HG) as (Hst & Hn & Hf). split.
  - by apply quiet_touches.
  - intros l Hl. destruct (Hf l Hl) as (? & ? & Hcur). unfold read_ok. split_ands; [done|lia|].
    intros cur. rewrite Hst. apply Hcur.
Qed.

Lemma Create_touches id now a l e a' :
  lease_Create l a = (e, a') →
  touches id (l_key l) now a a' ∧ (e = None → ∃ v, stored a' (l_key l) = Some (image v l)).
Proof.
  intros HC. destruct (Create_law _ _ _ _ HC) as (Hn & [(v & Hv & Hnone & Hst)|[He Hst]]).
  - split; [|intros _; exists v; by rewrite Hst, decide_True].
    unfold touches. split_ands; [by eapply write_evolves| |right; congruence].
    intros k' Hne. by rewrite Hst, decide_False.
  - split; [|done]. by apply quiet_touches.
Qed.

Lemma Update_touches id now a k l0 l e a' :
  lease_Update l a = (e, a') → read_ok a k l0 → l_key l = l_key l0 → l_version l = l_version l0 →
  takeable id now l0 →
  touches id k now a a' ∧ (e = None → ∃ v, stored a' k = Some (image v l)).
Proof.
  intros HU (Hk0 & _ & Hcur) Hk Hv Ht. assert (l_key l = k) as Hlk by congruence.
  destruct (Update_law _ _ _ _ HU) as (Hn & [(v & old & Hge & Hold & Hov & Hst)|[He Hst]]).
  - rewrite Hlk in Hold. assert (old = l0) as -> by (apply Hcur; congruence).
    split; [|intros _; exists v; rewrite Hst, decide_True; congruence].
    unfold touches. split_ands; [by eapply write_evolves| |right; intros o Ho; congruence].
    intros k' Hne. rewrite Hst, decide_False; congruence.
  - split; [|done]. by apply quiet_touches.
Qed.

(** *** Another process *)

Lemma acq_ok_evolves a a' now now' p :
  evolves a a' → now <= now' → acq_ok a now p → acq_ok a' now' p.
Proof.
  unfold acq_ok. intros He Hle. destruct (p_acq p) as [[t|t|t l]|]; [lia..| |done].
  intros (? & l0 & ? & ?). split; [lia|]. eauto using read_ok_evolves.
Qed.

Lemma ren_ok_evolves a a' now now' p o :
  evolves a a' → now <= now' → ren_ok a now p o → ren_ok a' now' p o.
Proof.
  intros He Hle. destruct o as [t|t l]; simpl; [lia|].
  intros (? & l0 & ? & ?). split; [lia|]. eauto using read_ok_evolves.
Qed.

Lemma rel_ok_evolves a a' p o : evolves a a' → rel_ok a p o → rel_ok a' p o.
Proof. intros He. destruct o; simpl; [done|]. naive_solver eauto using read_ok_evolves. Qed.

Lemma holds_mono now now' p : now <= now' → holds now' p = true → holds now p = true.
Proof.
  unfold holds. intros. destruct (g_held (p_g p)), (p_claim p); simpl in *; try done. lia.
Qed.

(** What a process may write never breaks the claim of another one. *)
Lemma claim_ok_touches id k now a a' q :
  touches id k now a a' → g_id (p_g q) ≠ "" → (g_key (p_g q) = k → g_id (p_g q) ≠ id) →
  claim_ok a now q → claim_ok a' now q.
Proof.
  intros (_ & Hoth & Hk) Hne Hid Hc Hh. destruct (Hc Hh) as (l & Hl & Hlh & Hld & Hlr).
  destruct (decide (g_key (p_g q) = k)) as [Heq|Hneq]; [|exists l; by rewrite Hoth].
  subst k. destruct Hk as [Hk|Ht]; [exists l; by rewrite Hk|].
  specialize (Hid eq_refl). exfalso. destruct (Ht _ Hl) as [?|[?|[?|Hx]]]; [congruence..|].
  unfold holds in Hh. unfold expired in Hx. rewrite Hlr, Hld in Hx.
  destruct (g_held (p_g q)), (p_claim q); simpl in Hh; [|done..]. lia.
Qed.

Lemma proc_ok_other id k now a a' q :
  touches id k now a a' → g_id (p_g q) ≠ "" → (g_key (p_g q) = k → g_id (p_g q) ≠ id) →
  proc_ok a now q → proc_ok a' now q.
Proof.
  intros Ht Hne Hid [H1 H2 H3 H4 H5]. pose proof Ht as (He & _). split; [|..|done].
  - eapply acq_ok_evolves; [done| |done]; lia.
  - eapply Forall_impl; [exact H2|]. intros o Ho. eapply ren_ok_evolves; [done| |done]. lia.
  - eapply Forall_impl; [exact H3|]. eauto using rel_ok_evolves.
  - by eapply claim_ok_touches.
Qed.

(** *** The moving process *)

Lemma proc_ok_self id k now a a' p :
  touches id k now a a' → stored a' (g_key (p_g p)) = stored a (g_key (p_g p)) →
  proc_ok a now p → proc_ok a' now p.
Proof.
  intros (He & _) Hst [H1 H2 H3 H4 H5]. split; [|..|done].
  - eapply acq_ok_evolves; [done| |done]; lia.
  - eapply Forall_impl; [exact H2|]. intros o Ho. eapply ren_ok_evolves; [done| |done]. lia.
  - eapply Forall_impl; [exact H3|]. eauto using rel_ok_evolves.
  - intros Hh. destruct (H4 Hh) as (l & ? & ?). exists l. by rewrite Hst.
Qed.

(** Everything but the claim survives any step of the server. *)
Lemma proc_ok_evolves a a' now p :
  evolves a a' → proc_ok a now p → claim_ok a' now p → proc_ok a' now p.
Proof.
  intros He [H1 H2 H3 H4 H5] Hc. split; [|..|done|done].
  - eapply acq_ok_evolves; [done| |done]; lia.
  - eapply Forall_impl; [exact H2|]. intros o Ho. eapply ren_ok_evolves; [done| |done]. lia.
  - eapply Forall_impl; [exact H3|]. eauto using rel_ok_evolves.
Qed.

Lemma unheld_claim_ok a now p : g_held (p_g p) = false → claim_ok a now p.
Proof. intros Hh Hc. unfold holds in Hc. by rewrite Hh in Hc. Qed.

Lemma p_release_ok a now p : proc_ok a now p → proc_ok a now (p_release p).
Proof.
  intros Hp. unfold p_release. destruct (g_held (p_g p)) eqn:Hh; [|done].
  destruct Hp as [H1 H2 H3 H4 [H5 H6]].
  assert (p_acq p = None) as Hacq by (destruct (p_acq p); [by rewrite H5 in Hh|done]).
  split; simpl.
  - exact H1.
  - exact H2.
  - apply Forall_app. split; [exact H3|by repeat constructor].
  - by apply unheld_claim_ok.
  - split; simpl; [done|]. intros [?|?]; [by rewrite Hacq in *|done].
Qed.

Lemma p_release_g p : g_id (p_g (p_release p)) = g_id (p_g p) ∧ g_key (p_g (p_release p)) = g_key (p_g p).
Proof. unfold p_release. by destruct (g_held (p_g p)). Qed.

Lemma p_taken_ok a a' now t l v p :
  evolves a a' → proc_ok a now p → p_acq p ≠ None →
  stored a' (g_key (p_g p)) = Some (image v l) → l_holder l = Some (g_id (p_g p)) →
  l_duration l = Some (duration_seconds (g_ldur (p_g p))) → l_renew l = Some t →
  proc_ok a' now (p_taken p t).
Proof.
  intros He [H1 H2 H3 H4 [H5 H6]] Hacq Hst Hh Hd Hr. split; simpl; try done.
  - eapply Forall_impl; [exact H2|]. intros o Ho. eapply (ren_ok_evolves a a' now now p); [done|lia|done].
  - by rewrite (H6 (or_introl Hacq)).
  - intros _. exists (image v l). simpl. rewrite Hr. done.
  - split; simpl; [done|]. intros _. by apply H6; left.
Qed.

Lemma p_set_acq_ok a now p o :
  proc_ok a now p → acq_ok a now (p_set_acq p o) → p_acq p ≠ None → proc_ok a now (p_set_acq p o).
Proof.
  intros [H1 H2 H3 H4 [H5 H6]] Ho Hp. split; simpl; try done.
  split; simpl; [by intros _; apply H5|]. intros _. apply H6. by left.
Qed.

Lemma p_set_ren_ok a now p l :
  proc_ok a now p → Forall (ren_ok a now p) l → proc_ok a now (p_set_ren p l).
Proof. intros [H1 H2 H3 H4 H5] Hl. by split. Qed.

Lemma p_set_rel_ok a now p l :
  proc_ok a now p → Forall (rel_ok a p) l → p_rel p ≠ [] → proc_ok a now (p_set_rel p l).
Proof.
  intros [H1 H2 H3 H4 [H5 H6]] Hl Hne. split; try done.
  split; simpl; [done|]. intros Hor. by destruct Hne; apply H6.
Qed.

(** Another process may not be hurt; this one stays well formed. *)
Definition step_ok a a' (now : Z) p p' : Prop :=
  touches (g_id (p_g p)) (g_key (p_g p)) now a a' ∧ proc_ok a' now p' ∧
  g_id (p_g p') = g_id (p_g p) ∧ g_key (p_g p') = g_key (p_g p).

Lemma acq_takeable g t now l0 l :
  t <= now → acquire_adopt g t l0 = Some l → takeable (g_id g) now l0.
Proof.
  intros Ht (_ & _ & _ & _ & _ & Hw)%acquire_adopt_Some. unfold takeable.
  destruct Hw as [Hd|[Hd|Hd]]; [|by auto|right; right; right; by eapply expired_micro_le].
  destruct (l_holder l0); simpl in *; subst; auto.
Qed.

Lemma ren_takeable g t now l0 l :
  t <= now → renew_write g t l0 = Some l → takeable (g_id g) now l0.
Proof.
  intros Ht (_ & _ & _ & _ & _ & Hw)%renew_write_Some. unfold takeable.
  destruct Hw as [Hd|[Hd|Hd]]; [by auto..|right; right; right; by eapply expired_micro_le].
Qed.

Lemma acq_step_ok a now p o a' p' :
  p_acq p = Some o → proc_ok a now p → acq_step a p o = (a', p') → step_ok a a' now p p'.
Proof.
  intros Ho Hp Hs. assert (p_acq p ≠ None) as Hne by congruence.
  pose proof (po_acq _ _ _ Hp) as Hacq. unfold acq_ok in Hacq. rewrite Ho in Hacq.
  destruct o as [t|t|t l]; simpl in Hs.
  - destruct (lease_Get _ a) as [r a1] eqn:EG. injection Hs as <- Hp'.
    destruct (Get_touches (g_id (p_g p)) now _ _ _ _ EG) as [Ht Hf].
    assert (proc_ok a1 now p) as Hp1.
    { eapply proc_ok_self; [exact Ht| |done]. by destruct (Get_law _ _ _ _ EG). }
    split; [done|]. destruct r as [ls| |e]; [|subst p'..].
    + destruct (acquire_adopt (p_g p) t ls) as [l|] eqn:EA; subst p'; split; try done;
        apply p_set_acq_ok; try done.
      split; [done|]. exists ls. by split; [apply Hf|].
    + split; [by apply p_set_acq_ok|done].
    + split; [by apply p_set_acq_ok|done].
  - destruct (lease_Create _ a) as [e a1] eqn:EC. injection Hs as <- Hp'.
    destruct (Create_touches (g_id (p_g p)) now _ _ _ _ EC) as [Ht Hf].
    split; [exact Ht|]. pose proof (proj1 Ht) as He. destruct e; subst p'.
    + split; [|done]. apply p_set_acq_ok; try done.
      eapply proc_ok_evolves; [done..|]. apply unheld_claim_ok. by apply (po_turn _ _ _ Hp).
    + split; [|done]. destruct (Hf eq_refl) as [v Hv]. by eapply p_taken_ok.
  - destruct Hacq as (Htn & l0 & Hr & HA). destruct (lease_Update l a) as [e a1] eqn:EU.
    injection Hs as <- Hp'. pose proof HA as (Hk & Hv & Hh & Hd & Hrn & _)%acquire_adopt_Some.
    destruct (Update_touches (g_id (p_g p)) now _ _ _ _ _ _ EU Hr Hk Hv) as [Ht Hf].
    { by eapply acq_takeable. }
    split; [exact Ht|]. pose proof (proj1 Ht) as He. destruct e; subst p'.
    + split; [|done]. apply p_set_acq_ok; try done.
      eapply proc_ok_evolves; [done..|]. apply unheld_claim_ok. by apply (po_turn _ _ _ Hp).
    + split; [|done]. destruct (Hf eq_refl) as [w Hw]. by eapply p_taken_ok.
Qed.

Lemma p_release_unheld p : g_held (p_g (p_release p)) = false.
Proof. unfold p_release. by destruct (g_held (p_g p)) eqn:Hh. Qed.

Lemma p_release_step_ok a a' now p p0 :
  touches (g_id (p_g p0)) (g_key (p_g p0)) now a a' → p_g p = p_g p0 →
  proc_ok a now p → step_ok a a' now p0 (p_release p).
Proof.
  intros Ht Hg Hp. split; [done|]. rewrite <-Hg. split; [|apply p_release_g].
  eapply proc_ok_evolves; [apply Ht|by apply p_release_ok|].
  apply unheld_claim_ok, p_release_unheld.
Qed.

Lemma ren_step_ok a now p o rest a' p' :
  proc_ok a now p → ren_ok a now p o → Forall (ren_ok a now p) rest →
  ren_step a p o rest = (a', p') → step_ok a a' now p p'.
Proof.
  intros Hp Ho Hrest Hs.
  assert (proc_ok a now (p_set_ren p rest)) as Hp1 by (by apply p_set_ren_ok).
  destruct o as [t|t l]; simpl in Hs.
  - destruct (lease_Get _ a) as [r a1] eqn:EG. injection Hs as <- Hp'.
    destruct (Get_touches (g_id (p_g p)) now _ _ _ _ EG) as [Ht Hf].
    destruct r as [ls| |e]; [|subst p'; by apply p_release_step_ok..].
    destruct (renew_write (p_g p) t ls) as [l|] eqn:EA; subst p'; [|by apply p_release_step_ok].
    split; [done|]. split; [|done].
    assert (stored a1 (g_key (p_g p)) = stored a (g_key (p_g p))) as Hst.
    { by destruct (Get_law _ _ _ _ EG). }
    assert (proc_ok a1 now (p_set_ren p rest)) as Hp2 by (by eapply proc_ok_self).
    assert (proc_ok a1 now p) as Hp3 by (by eapply proc_ok_self).
    apply (p_set_ren_ok _ _ p); [done|]. constructor; [|apply (po_ren _ _ _ Hp2)].
    split; [done|]. exists ls. by split; [apply Hf|].
  - destruct Ho as (Htn & l0 & Hr & HA). destruct (lease_Update l a) as [e a1] eqn:EU.
    injection Hs as <- Hp'. pose proof HA as (Hk & Hv & Hh & Hd & Hrn & _)%renew_write_Some.
    destruct (Update_touches (g_id (p_g p)) now _ _ _ _ _ _ EU Hr Hk Hv) as [Ht Hf].
    { by eapply ren_takeable. }
    destruct e; subst p'; [by apply p_release_step_ok|].
    split; [done|]. split; [|done]. destruct (Hf eq_refl) as [w Hw].
    unfold p_renewed. simpl.
    destruct (g_held (p_g p)) eqn:Hheld; simpl.
    + destruct Hp1 as [H1 H2 H3 _ H5]. pose proof (proj1 Ht) as He. split; simpl; try done.
      * eapply (acq_ok_evolves a a1 now now (p_set_ren p rest)); [done|lia|done].
      * eapply Forall_impl; [exact H2|]. intros o Ho. eapply (ren_ok_evolves a a1 now now p); [done|lia|done].
      * eapply Forall_impl; [exact H3|]. intros o Ho. by eapply (rel_ok_evolves a a1 p).
      * intros _. exists (image w l). simpl. rewrite Hrn. done.
    + eapply proc_ok_evolves; [apply Ht|exact Hp1|]. by apply unheld_claim_ok.
Qed.

Lemma rel_step_ok a now p o rest a' p' :
  proc_ok a now p → p_rel p ≠ [] → rel_ok a p o → Forall (rel_ok a p) rest →
  rel_step a p o rest = (a', p') → step_ok a a' now p p'.
Proof.
  intros Hp Hne Ho Hrest Hs.
  assert (proc_ok a now (p_set_rel p rest)) as Hp1 by (by apply p_set_rel_ok).
  assert (g_held (p_g p) = false) as Hheld.
  { destruct (g_held (p_g p)) eqn:Hh; [|done]. destruct Hne. apply (po_turn _ _ _ Hp). by right. }
  destruct o as [|l]; simpl in Hs.
  - destruct (lease_Get _ a) as [r a1] eqn:EG. injection Hs as <- Hp'.
    destruct (Get_touches (g_id (p_g p)) now _ _ _ _ EG) as [Ht Hf].
    assert (stored a1 (g_key (p_g p)) = stored a (g_key (p_g p))) as Hst.
    { by destruct (Get_law _ _ _ _ EG). }
    assert (proc_ok a1 now (p_set_rel p rest)) as Hp2 by (by eapply proc_ok_self).
    assert (proc_ok a1 now p) as Hp3 by (by eapply proc_ok_self).
    split; [done|]. destruct r as [ls| |e]; [|by subst p'..].
    destruct (release_write (p_g p) ls) as [l|] eqn:EA; subst p'; [|done]. split; [|done].
    apply (p_set_rel_ok _ _ p); [done| |done]. constructor; [|apply (po_rel _ _ _ Hp2)].
    exists ls. by split; [apply Hf|].
  - destruct Ho as (l0 & Hr & HA). destruct (lease_Update l a) as [e a1] eqn:EU.
    injection Hs as <- Hp'. pose proof HA as (Hk & Hv & _ & _ & _ & _ & Hh)%release_write_Some.
    destruct (Update_touches (g_id (p_g p)) now _ _ _ _ _ _ EU Hr Hk Hv) as [Ht Hf].
    { right; right; by left. }
    subst p'. split; [done|]. split; [|done].
    eapply proc_ok_evolves; [apply Ht|done|]. by apply unheld_claim_ok.
Qed.

Lemma with_p_inv s i a' p p' :
  fence_inv s → f_procs s !! i = Some p → step_ok (f_api s) a' (f_now s) p p' →
  fence_inv (with_p s i a' p').
Proof.
  intros [HI HD] Hi (Ht & Hp' & Hid & Hk). split; simpl.
  - intros j q. rewrite lookup_insert_Some. intros [[<- <-]|[Hne Hj]].
    + split; [done|]. rewrite Hid. by apply (HI i).
    + destruct (HI _ _ Hj). split; [|done]. eapply proc_ok_other; [done..| |done].
      intros Heq. by eapply (HD j i).
  - intros j1 j2 q1 q2. rewrite !lookup_insert_Some.
    intros [[<- <-]|[Hne1 Hj1]] [[<- <-]|[Hne2 Hj2]] Hne; [done|rewrite ?Hid, ?Hk..]; by eauto.
Qed.

Lemma local_step_ok s i p p' :
  fence_inv s → f_procs s !! i = Some p → proc_ok (f_api s) (f_now s) p' →
  g_id (p_g p') = g_id (p_g p) → g_key (p_g p') = g_key (p_g p) →
  fence_inv (with_p s i (f_api s) p').
Proof.
  intros HI Hi Hp Hid Hk. eapply with_p_inv; [done..|]. split; [|done]. by apply quiet_touches.
Qed.

Lemma fence_inv_tick d s : 0 <= d → fence_inv s → fence_inv (MkF (f_api s) (f_now s + d) (f_procs s)).
Proof.
  intros Hd [HI HD]. split; [|done]. intros i p Hp. destruct (HI _ _ Hp) as [[H1 H2 H3 H4 H5] Hid].
  split; [|done]. split; simpl; [| |done| |done].
  - eapply acq_ok_evolves; [apply evolves_refl| |done]. lia.
  - eapply Forall_impl; [exact H2|]. intros o Ho.
    eapply ren_ok_evolves; [apply evolves_refl| |done]. lia.
  - intros Hh. apply H4. eapply holds_mono; [|done]. lia.
Qed.

Lemma fence_inv_step lab s s' : fence_inv s → fexec true lab s = Some s' → fence_inv s'.
Proof.
  intros HI Hs. destruct lab as [d|i|i|i|i n|i|i n]; simpl in Hs.
  - destruct (Z.leb_spec 0 d); [|done]. injection Hs as <-. by apply fence_inv_tick.
  - destruct (f_procs s !! i) as [p|] eqn:Hp; [|done]. simpl in Hs.
    destruct (g_held (p_g p)) eqn:Hh; [by simplify_eq|].
    destruct (p_acq p) eqn:Ha; [done|]. destruct (p_rel p) eqn:Hr; [|done]. injection Hs as <-.
    destruct (proj1 HI _ _ Hp) as [[H1 H2 H3 H4 H5] Hid].
    eapply local_step_ok; [done|done| |done..]. split; simpl; try done.
    unfold acq_ok. simpl. lia.
  - destruct (f_procs s !! i) as [p|] eqn:Hp; [|done]. simpl in Hs.
    destruct (p_acq p) as [o|] eqn:Ha; [|done]. simpl in Hs.
    destruct (acq_step (f_api s) p o) as [a' p'] eqn:E. injection Hs as <-.
    eapply with_p_inv; [done..|]. eapply acq_step_ok; [done| |done]. by apply (proj1 HI i).
  - destruct (f_procs s !! i) as [p|] eqn:Hp; [|done]. simpl in Hs.
    destruct (p_loop p); [|done]. injection Hs as <-.
    destruct (proj1 HI _ _ Hp) as [Hok _].
    eapply local_step_ok; [done..| |done|done]. apply p_set_ren_ok; [done|].
    apply Forall_app. split; [apply Hok|]. repeat constructor. simpl. lia.
  - destruct (f_procs s !! i) as [p|] eqn:Hp; [|done]. simpl in Hs.
    destruct (p_ren p !! n) as [o|] eqn:Ho; [|done]. simpl in Hs.
    destruct (ren_step _ p o _) as [a' p'] eqn:E. injection Hs as <-.
    destruct (proj1 HI _ _ Hp) as [Hok _].
    eapply with_p_inv; [done..|]. eapply ren_step_ok; [done| | |done].
    + eapply Forall_lookup_1; [apply Hok|done].
    + apply Forall_delete, Hok.
  - destruct (f_procs s !! i) as [p|] eqn:Hp; [|done]. simpl in Hs. injection Hs as <-.
    eapply local_step_ok; [done|done| |apply p_release_g..]. by apply p_release_ok, (proj1 HI i).
  - destruct (f_procs s !! i) as [p|] eqn:Hp; [|done]. simpl in Hs.
    destruct (p_rel p !! n) as [o|] eqn:Ho; [|done]. simpl in Hs.
    destruct (rel_step _ p o _) as [a' p'] eqn:E. injection Hs as <-.
    destruct (proj1 HI _ _ Hp) as [Hok _].
    eapply with_p_inv; [done..|]. eapply rel_step_ok; [done| | | |done].
    + intros Hnil. by rewrite Hnil in Ho.
    + eapply Forall_lookup_1; [apply Hok|done].
    + apply Forall_delete, Hok.
Qed.

Lemma fence_inv_init s : finit s → fence_inv s.
Proof.
  intros [HI HD]. split; [|done]. intros i p Hp. destruct (HI _ _ Hp) as (-> & Hh & Hid). simpl in *.
  split; [|done]. split; simpl; try done.
  by apply unheld_claim_ok.
Qed.

(** C1 (safety): however the API calls of the processes interleave, whatever
    calls fail and whatever stale Leases are read, two processes never hold
    the fence of one Lease at the same time: at most one guard is held and has
    an unexpired Lease.  This needs the guard's contract: no [TryAcquire]
    while a release of the same guard is in flight. *)
Theorem fence_mutual_exclusion s i j p q :
  reachable (fexec true) finit s →
  f_procs s !! i = Some p → f_procs s !! j = Some q → i ≠ j →
  g_key (p_g p) = g_key (p_g q) →
  holds (f_now s) p = true → holds (f_now s) q = false.
Proof.
  intros Hr Hi Hj Hne Hk Hp. apply not_true_is_false. intros Hq.
  assert (fence_inv s) as [HI HD].
  { eapply (invariant_reachable (fexec true) finit fence_inv); [|..|done].
    - apply fence_inv_init.
    - intros s1 lab s2. apply fence_inv_step. }
  destruct (HI _ _ Hi) as [[_ _ _ Hcp _] _]. destruct (HI _ _ Hj) as [[_ _ _ Hcq _] _].
  destruct (Hcp Hp) as (l & Hl & Hh & _). destruct (Hcq Hq) as (l' & Hl' & Hh' & _).
  apply (HD _ _ _ _ Hi Hj Hne Hk). congruence.
Qed.
End invariant.

(** ** The sequential code is a run of the steps *)
Section refinement.
Context {A : Type} {LC : LeaseClient A}.

(** The clock and the server of a single process [i] whose guard is [g]. *)
Definition solo (i : nat) (p : proc) (a : A) (now : Z) : fstate A := MkF a now {[i := p]}.

(** [TryAcquire]'s steps, as many as there are API calls to make. *)
Definition acquire_run (i : nat) (s : fstate A) : option (fstate A) :=
  s ← fexec true (FAcquire i) s;
  s ← fexec true (FAcqStep i) s;
  match fexec true (FAcqStep i) s with Some s' => Some s' | None => Some s end.

Lemma fexec_solo_begin i p a now :
  g_held (p_g p) = false → p_acq p = None → p_rel p = [] →
  fexec true (FAcquire i) (solo i p a now) = Some (solo i (p_set_acq p (Some (AcqGet now))) a now).
Proof.
  intros Hh Ha Hr. unfold solo, with_p. simpl. rewrite lookup_singleton_eq. simpl.
  rewrite Hh, Ha, Hr. unfold with_p. simpl. by rewrite insert_singleton_eq.
Qed.

Lemma fexec_solo_step i p a now :
  fexec true (FAcqStep i) (solo i p a now) =
  match p_acq p with
  | Some o => Some (solo i (acq_step a p o).2 (acq_step a p o).1 now)
  | None => None
  end.
Proof.
  unfold solo. simpl. rewrite lookup_singleton_eq. simpl. destruct (p_acq p) as [o|]; simpl; [|done].
  destruct (acq_step a p o). unfold with_p. simpl. by rewrite insert_singleton_eq.
Qed.

Lemma acquire_run_solo i p a now :
  g_held (p_g p) = false → p_acq p = None → p_rel p = [] →
  acquire_run i (solo i p a now) =
  let r := acq_step a (p_set_acq p (Some (AcqGet now))) (AcqGet now) in
  match p_acq r.2 with
  | Some o => Some (solo i (acq_step r.1 r.2 o).2 (acq_step r.1 r.2 o).1 now)
  | None => Some (solo i r.2 r.1 now)
  end.
Proof.
  intros Hh Ha Hr. unfold acquire_run. rewrite fexec_solo_begin by done. cbn [mbind option_bind].
  rewrite fexec_solo_step. cbn [mbind option_bind p_acq p_set_acq]. rewrite fexec_solo_step.
  cbv zeta. by destruct (p_acq (acq_step _ _ _).2).
Qed.

(** Complement (refinement): the two translations of [TryAcquire] agree, the one in one
    piece and the one by calls: an uninterrupted run of the steps of an
    acquisition from an idle guard ends with the server that the sequential
    [TryAcquire] under a live context leaves, no operation in flight, and the
    guard held exactly when [TryAcquire] returns true. *)
Theorem acquire_steps_refine ctx i g (e : env A) :
  g_held g = false → done_ctx ctx (e_ctxs e) = false →
  let '((b, g'), e') := TryAcquire ctx g e in
  ∃ p, acquire_run i (solo i (idle g) (e_api e) (e_now e)) = Some (solo i p (e_api e') (e_now e')) ∧
    g_held (p_g p) = b ∧ g_held g' = b ∧ p_acq p = None ∧
    p_claim p = if b then Some (micro (e_now e)) else None.
Proof.
  intros Hh Hd.
  pose proof (acquire_run_solo i (idle g) (e_api e) (e_now e) Hh eq_refl eq_refl) as Hrun.
  set (R := acquire_run _ _) in *. clearbody R.
  rewrite TryAcquire_live by done. simpl in Hrun.
  destruct (lease_Get (g_key g) (e_api e)) as [r a1]. simpl in *.
  destruct r as [ls| |er]; simpl in *.
  - destruct (acquire_adopt g (e_now e) ls) as [l|]; simpl in *.
    + destruct (lease_Update l a1) as [er a2]. destruct er; simpl in *; eexists; rewrite Hrun; by rewrite ?Hh.
    + eexists; rewrite Hrun; by rewrite ?Hh.
  - destruct (lease_Create (acquire_create g (e_now e)) a1) as [er a2].
    destruct er; simpl in *; eexists; rewrite Hrun; by rewrite ?Hh.
  - eexists; rewrite Hrun; by rewrite ?Hh.
Qed.
End refinement.

(** ** Without the contract *)

Definition guard_of (id : string) : leaseGuard :=
  newLeaseGuard "kube-system" "mcr-shard-zoo" id (20 * Second) (10 * Second) (Some "zoo").

Definition two_procs : fstate wf_store :=
  MkF (empty_leases []) 1000000 {[0%nat := idle (guard_of "peer-0"); 1%nat := idle (guard_of "peer-1")]}.

Lemma two_procs_init : finit two_procs.
Proof.
  split.
  - intros i p. unfold two_procs; simpl. rewrite lookup_insert_Some, lookup_singleton_Some.
    intros [[_ <-]|[_ [_ <-]]]; done.
  - intros i j p q. unfold two_procs; simpl. rewrite !lookup_insert_Some, !lookup_singleton_Some.
    intros [[<- <-]|[_ [<- <-]]] [[<- <-]|[_ [<- <-]]] Hne _; simpl; congruence.
Qed.

Definition holds_at (s : fstate wf_store) (i : nat) : bool :=
  match f_procs s !! i with Some p => holds (f_now s) p | None => false end.

(** Peer 0 takes the fence, releases it and takes it again before the release
    has read the Lease; the release then clears the Lease of the second
    acquisition, and peer 1 takes it. *)
Definition race_labels : list flabel :=
  [FAcquire 0; FAcqStep 0; FAcqStep 0; FTick Second;
   FRelease 0; FAcquire 0; FAcqStep 0; FAcqStep 0;
   FRelStep 0 0; FRelStep 0 0;
   FAcquire 1; FAcqStep 1; FAcqStep 1].

Definition race_end : fstate wf_store := default two_procs (run (fexec false) race_labels two_procs).

(** Complement (safety): the contract is needed.  When [TryAcquire] may be called while a
    release of the same guard is in flight - the coordinator starts releases
    with [go] and does not wait for them - two processes come to hold the fence
    of one cluster at the same time. *)
Theorem fence_needs_the_contract :
  ∃ (s : fstate wf_store) p q,
    reachable (fexec false) finit s ∧
    f_procs s !! 0%nat = Some p ∧ f_procs s !! 1%nat = Some q ∧
    g_key (p_g p) = g_key (p_g q) ∧ g_id (p_g p) ≠ g_id (p_g q) ∧
    holds (f_now s) p = true ∧ holds (f_now s) q = true.
Proof.
  exists race_end. destruct (f_procs race_end !! 0%nat) as [p|] eqn:Hp; [|by vm_compute in Hp].
  destruct (f_procs race_end !! 1%nat) as [q|] eqn:Hq; [|by vm_compute in Hq].
  exists p, q. split.
  { apply (run_reachable (fexec false) finit race_labels two_procs).
    - apply reach_init, two_procs_init.
    - unfold race_end. destruct (run _ _ _) eqn:E; [done|].
      assert (is_Some (run (fexec false) race_labels two_procs)) as [? ?] by (by vm_compute; eexists).
      congruence. }
  vm_compute in Hp, Hq. injection Hp as <-. injection Hq as <-. by vm_compute.
Qed.

(** ** Witnesses *)

Definition strict_labels : list flabel :=
  [FAcquire 0; FAcqStep 0; FAcqStep 0; FAcquire 1; FAcqStep 1].

Lemma fence_mutual_exclusion_witness :
  holds_at (default two_procs (run (fexec true) strict_labels two_procs)) 0 = true ∧
  holds_at (default two_procs (run (fexec true) strict_labels two_procs)) 1 = false.
Proof.
  split; [by vm_compute|].
  destruct (run (fexec true) strict_labels two_procs) as [s|] eqn:E; [|by vm_compute in E].
  simpl. unfold holds_at.
  destruct (f_procs s !! 0%nat) as [p|] eqn:Hp; [|by vm_compute in E; injection E as <-; vm_compute in Hp].
  destruct (f_procs s !! 1%nat) as [q|] eqn:Hq; [|done].
  eapply (fence_mutual_exclusion s 0 1 p q); [|done|done|done|..].
  - eapply run_reachable; [apply reach_init, two_procs_init|exact E].
  - vm_compute in E. injection E as <-. vm_compute in Hp, Hq. injection Hp as <-. by injection Hq as <-.
  - vm_compute in E. injection E as <-. vm_compute in Hp. injection Hp as <-. by vm_compute.
Defined.

Lemma acquire_steps_refine_witness :
  g_held zoo_guard = false ∧
  ∃ p, acquire_run 0 (solo 0 (idle zoo_guard) (e_api (zoo_env [] 5000000)) 5000000) =
         Some (solo 0 p (e_api (TryAcquire Background zoo_guard (zoo_env [] 5000000)).2) 5000000) ∧
       g_held (p_g p) = true.
Proof.
  split; [reflexivity|].
  destruct (acquire_steps_refine Background 0 zoo_guard (zoo_env [] 5000000) eq_refl eq_refl) as (p & Hp & Hh & _).
  by exists p.
Defined.
