(* ===== verification/Peers.v ===== *)
(** * pkg/manager/coordinator/sharded/peers: membership by Leases

    Each process publishes itself as a labelled Lease carrying its weight and
    lists the Leases of the others; a Lease whose holder is empty or that has
    expired is not a peer. *)

From S2P Require Import Prelude GoErrors GoNum GoString LeaseAPI Sanitize Sharder.
Open Scope Z_scope.

Definition labelPartOf : string := "app.kubernetes.io/part-of".
Definition labelPeer : string := "mcr.sigs.k8s.io/peer".
Definition labelPrefix : string := "mcr.sigs.k8s.io/prefix".
Definition annotWeight : string := "mcr.sigs.k8s.io/weight".
Definition partOfValue : string := "multicluster-runtime".
(* src: pkg/manager/coordinator/sharded/peers/registry.go:40-47 defaultWeight *)
Definition defaultWeight : Z := 1.

(** The client is the instance of [LeaseClient]; the logger is left out. *)
(* src: pkg/manager/coordinator/sharded/peers/registry.go:60-74 leaseRegistry *)
Record leaseRegistry := MkRegistry {
  r_ns : string;
  r_namePrefix : string;
  r_self : PeerInfo;
  r_peers : gmap string PeerInfo;
  r_ttl : Z;
  r_renew : Z;
  r_releaseOnCancel : bool;
}.

(* src: pkg/manager/coordinator/sharded/peers/registry.go:76-77 Option *)
Definition Option : Type := leaseRegistry → leaseRegistry.

(* src: pkg/manager/coordinator/sharded/peers/registry.go:79-84 WithReleaseOnCancel *)
Definition WithReleaseOnCancel (on : bool) : Option := fun r =>
  MkRegistry (r_ns r) (r_namePrefix r) (r_self r) (r_peers r) (r_ttl r) (r_renew r) on.

(** [hostname] is what [os.Hostname] returns, empty on an error. *)
(* src: pkg/manager/coordinator/sharded/peers/registry.go:98-127 NewLeaseRegistryWithOptions *)
Definition NewLeaseRegistryWithOptions (hostname : string) (ns namePrefix selfID : string) (weight : Z)
    (opts : list Option) : leaseRegistry :=
  let selfID :=
    if bool_decide (selfID = "")
    then (if bool_decide (hostname = "") then "unknown" else hostname)
    else selfID in
  let selfID := DNS1123 selfID in
  let weight := if weight =? 0 then defaultWeight else weight in
  let r := MkRegistry ns namePrefix (MkPeer selfID weight) ∅ (30 * Second) (10 * Second) false in
  fold_left (λ r o, o r) opts r.

(* src: pkg/manager/coordinator/sharded/peers/registry.go:86-96 NewLeaseRegistry *)
Definition NewLeaseRegistry (hostname : string) (ns namePrefix selfID : string) (weight : Z) : leaseRegistry :=
  NewLeaseRegistryWithOptions hostname ns namePrefix selfID weight [].

(* src: pkg/manager/coordinator/sharded/peers/registry.go:129-129 leaseRegistry.Self *)
Definition Self (r : leaseRegistry) : PeerInfo := r_self r.

(** Go iterates over the map in no particular order; this is one of the orders. *)
(* src: pkg/manager/coordinator/sharded/peers/registry.go:131-139 leaseRegistry.Snapshot *)
Definition Snapshot (r : leaseRegistry) : list PeerInfo := (map_to_list (r_peers r)).*2.

Definition peer_key (r : leaseRegistry) : key :=
  (r_ns r, r_namePrefix r +:+ "-" +:+ ID (r_self r)).

Definition peer_selector (r : leaseRegistry) : gmap string string :=
  {[labelPeer := "true"; labelPrefix := r_namePrefix r]}.

(** The Lease created when there is none. *)
(* src: pkg/manager/coordinator/sharded/peers/registry.go:206-224 leaseRegistry.renewSelfLease *)
Definition self_create (r : leaseRegistry) (now : Z) : Lease :=
  MkLease (peer_key r) 0
    {[labelPartOf := partOfValue; labelPeer := "true"; labelPrefix := r_namePrefix r]}
    (Some {[annotWeight := FormatUint (uint64 (Weight (r_self r)))]})
    (Some (ID (r_self r))) (Some (duration_seconds (r_ttl r))) None (Some now).

(** The Lease written over an existing one. *)
(* src: pkg/manager/coordinator/sharded/peers/registry.go:230-238 leaseRegistry.renewSelfLease *)
Definition self_update (r : leaseRegistry) (now : Z) (lease : Lease) : Lease :=
  MkLease (l_key lease) (l_version lease) (l_labels lease)
    (Some (<[annotWeight := FormatUint (uint64 (Weight (r_self r)))]> (default ∅ (l_annotations lease))))
    (Some (ID (r_self r))) (Some (duration_seconds (r_ttl r))) (l_acquire lease) (Some now).

(** The weight annotation, [defaultWeight] when missing, malformed or zero. *)
(* src: pkg/manager/coordinator/sharded/peers/registry.go:278-284 leaseRegistry.refreshPeers *)
Definition lease_weight (l : Lease) : Z :=
  let wStr := default "" (default ∅ (l_annotations l) !! annotWeight) in
  if negb (bool_decide (wStr = "")) then
    match ParseUint wStr 32 with
    | Ok w64 => if 0 <? w64 then uint32 w64 else defaultWeight
    | Err _ => defaultWeight
    end
  else defaultWeight.

(** The peer a Lease stands for, if it is live. *)
(* src: pkg/manager/coordinator/sharded/peers/registry.go:261-286 leaseRegistry.refreshPeers *)
Definition live_peer (now : Z) (l : Lease) : option PeerInfo :=
  match l_holder l with
  | None => None
  | Some id =>
      if bool_decide (id = "") then None else
      match l_renew l, l_duration l with
      | Some renew, Some dur =>
          if renew + seconds dur <? now then None else Some (MkPeer id (lease_weight l))
      | _, _ => None
      end
  end.

(** [next], before the process adds itself. *)
(* src: pkg/manager/coordinator/sharded/peers/registry.go:257-287 leaseRegistry.refreshPeers *)
Definition collect_peers (now : Z) (items : list Lease) : gmap string PeerInfo :=
  fold_left (λ next l, match live_peer now l with
                       | Some p => <[ID p := p]> next
                       | None => next
                       end) items ∅.

Definition set_peers (peers : gmap string PeerInfo) (r : leaseRegistry) : leaseRegistry :=
  MkRegistry (r_ns r) (r_namePrefix r) (r_self r) peers (r_ttl r) (r_renew r) (r_releaseOnCancel r).

Section operations.
Context {A : Type} {LC : LeaseClient A}.

(* src: pkg/manager/coordinator/sharded/peers/registry.go:196-241 leaseRegistry.renewSelfLease *)
Definition renewSelfLease (r : leaseRegistry) (now : Z) : M A (option error) :=
  res ← lease_Get (peer_key r);
  match res with
  | NotFound => lease_Create (self_create r now)
  | GetError err => mret (Some err)
  | Found lease => lease_Update (self_update r now lease)
  end.

(* src: pkg/manager/coordinator/sharded/peers/registry.go:243-296 leaseRegistry.refreshPeers *)
Definition refreshPeers (r : leaseRegistry) (now : Z) : M A (option error * leaseRegistry) :=
  res ← lease_List (r_ns r) (peer_selector r);
  match res with
  | Err err => mret (Some err, r)
  | Ok items =>
      let next := collect_peers now items in
      let next := <[ID (r_self r) := MkPeer (ID (r_self r)) (Weight (r_self r))]> next in
      mret (None, set_peers next r)
  end.

(** [releaseTimeout] only bounds the calls. *)
(* src: pkg/manager/coordinator/sharded/peers/registry.go:169-194 leaseRegistry.release *)
Definition release (r : leaseRegistry) : M A unit :=
  res ← lease_Get (peer_key r);
  match res with
  | Found lease =>
      if bool_decide (l_holder lease = Some (ID (r_self r))) then
        _ ← lease_Update (MkLease (l_key lease) (l_version lease) (l_labels lease)
               (l_annotations lease) (Some "") (l_duration lease) (l_acquire lease) (l_renew lease));
        mret tt
      else mret tt
  | _ => mret tt
  end.

(** One pass of the loop: the clock readings of the renewal and of the listing.
    Errors are logged and retried by the next pass. *)
(* src: pkg/manager/coordinator/sharded/peers/registry.go:149-155 leaseRegistry.Run *)
Definition Run_pass (r : leaseRegistry) (t : Z * Z) : M A leaseRegistry :=
  _ ← renewSelfLease r t.1;
  res ← refreshPeers r t.2;
  mret res.2.

(** [Run]: a first pass, one more for each tick in [ticks], then the context ends. *)
(* src: pkg/manager/coordinator/sharded/peers/registry.go:141-167 leaseRegistry.Run *)
Fixpoint Run (r : leaseRegistry) (t : Z * Z) (ticks : list (Z * Z)) : M A (option error * leaseRegistry) :=
  r ← Run_pass r t;
  match ticks with
  | [] => _ ← (if r_releaseOnCancel r then release r else mret tt); mret (Some Canceled, r)
  | t :: ticks => Run r t ticks
  end.

End operations.

(** What the coordinator needs of a [Registry]: its snapshot lists each peer
    once, under its own identity. *)
(* src: pkg/manager/coordinator/sharded/peers/registry.go:49-58 Registry *)
Class Registry (R : Type) := {
  reg_Self : R → PeerInfo;
  reg_Snapshot : R → list PeerInfo;
}.

#[export] Instance leaseRegistry_Registry : Registry leaseRegistry := {|
  reg_Self := Self;
  reg_Snapshot := Snapshot;
|}.

(** ** Lemmas *)

Definition peers_ok (m : gmap string PeerInfo) : Prop :=
  ∀ id p, m !! id = Some p → ID p = id ∧ 1 <= Weight p < 2 ^ 32.

Lemma lease_weight_range l : 1 <= lease_weight l < 2 ^ 32.
Proof.
  unfold lease_weight, defaultWeight. case_bool_decide; simpl; [lia|].
  destruct (ParseUint _ 32) as [w|e] eqn:E; [|lia]. destruct (0 <? w) eqn:Hw; [|lia].
  unfold ParseUint in E. destruct (default _ _) as [|c s]; [done|].
  destruct (parse_digits _ 0) as [n|]; [|done]. destruct (n <? 2 ^ 32) eqn:Hn; [|done].
  injection E as ->. unfold uint32. rewrite Z.mod_small; lia.
Qed.

Lemma live_peer_Some now l p :
  live_peer now l = Some p ↔
  ID p ≠ "" ∧ l_holder l = Some (ID p) ∧ Weight p = lease_weight l ∧
  ∃ r d, l_renew l = Some r ∧ l_duration l = Some d ∧ now <= r + seconds d.
Proof.
  unfold live_peer. split.
  - destruct (l_holder l) as [id|]; [|done]. case_bool_decide; [done|].
    destruct (l_renew l) as [r|], (l_duration l) as [d|]; try done.
    destruct (Z.ltb_spec (r + seconds d) now); [done|]. intros [= <-]. simpl. eauto 10.
  - intros (Hne & -> & Hw & r & d & -> & -> & Hle). rewrite bool_decide_eq_false_2 by done.
    destruct (Z.ltb_spec (r + seconds d) now); [lia|]. destruct p; simpl in *. by subst.
Qed.

Lemma collect_peers_app now items l :
  collect_peers now (items ++ [l]) =
  match live_peer now l with
  | Some p => <[ID p := p]> (collect_peers now items)
  | None => collect_peers now items
  end.
Proof. unfold collect_peers. by rewrite fold_left_app. Qed.

Lemma collect_peers_ok now items : peers_ok (collect_peers now items).
Proof.
  induction items as [|l items IH] using rev_ind; [by intros id p|].
  rewrite collect_peers_app. destruct (live_peer now l) as [p|] eqn:El; [|done].
  apply live_peer_Some in El as (_ & _ & Hw & _).
  intros id q. rewrite lookup_insert_Some. intros [[<- <-]|[_ ?]]; [|by apply IH].
  rewrite Hw. split; [done|apply lease_weight_range].
Qed.

Lemma collect_peers_lookup now items id :
  collect_peers now items !! id = last (filter (λ p, ID p = id) (omap (live_peer now) items)).
Proof.
  induction items as [|l items IH] using rev_ind; [done|].
  rewrite collect_peers_app, omap_app, filter_app. simpl.
  destruct (live_peer now l) as [p|]; simpl; [|by rewrite app_nil_r].
  rewrite filter_cons, filter_nil. destruct (decide (ID p = id)) as [<-|Hne].
  - by rewrite lookup_insert_eq, last_snoc.
  - by rewrite lookup_insert_ne, app_nil_r.
Qed.

Lemma Snapshot_elem r p : peers_ok (r_peers r) → p ∈ Snapshot r ↔ r_peers r !! ID p = Some p.
Proof.
  intros Hok. unfold Snapshot. rewrite list_elem_of_fmap. split.
  - intros ([id q] & -> & Hq%elem_of_map_to_list). simpl. by rewrite (proj1 (Hok _ _ Hq)).
  - intros Hp. exists (ID p, p). by rewrite elem_of_map_to_list.
Qed.

Lemma Snapshot_NoDup r : peers_ok (r_peers r) → NoDup (map ID (Snapshot r)).
Proof.
  intros Hok. unfold Snapshot.
  replace (map ID ((map_to_list (r_peers r)).*2)) with ((map_to_list (r_peers r)).*1);
    [apply NoDup_fst_map_to_list|].
  change (map ID) with (fmap (M:=list) ID). rewrite <-list_fmap_compose. apply list_fmap_ext. intros i [id p] Hi.
  apply list_elem_of_lookup_2, elem_of_map_to_list in Hi. symmetry. by apply (Hok id).
Qed.

(** The registry's identity is fixed, and a non-empty snapshot contains it. *)
Definition registry_ok (r : leaseRegistry) : Prop :=
  peers_ok (r_peers r) ∧ 1 <= Weight (r_self r) < 2 ^ 32 ∧
  (r_peers r = ∅ ∨ r_peers r !! ID (r_self r) = Some (r_self r)).

Lemma refreshed_ok r now items :
  registry_ok r →
  registry_ok (set_peers (<[ID (r_self r) := MkPeer (ID (r_self r)) (Weight (r_self r))]>
                            (collect_peers now items)) r).
Proof.
  intros (_ & Hw & _). unfold registry_ok. split; [|split; [done|]]; simpl.
  - intros id p. rewrite lookup_insert_Some. intros [[<- <-]|[_ Hp]]; [done|].
    by apply (collect_peers_ok now items).
  - right. rewrite lookup_insert_eq. by destruct (r_self r).
Qed.

Lemma New_ok hostname ns pre id w on :
  0 <= w < 2 ^ 32 →
  registry_ok (NewLeaseRegistryWithOptions hostname ns pre id w [WithReleaseOnCancel on]).
Proof.
  intros Hw. unfold NewLeaseRegistryWithOptions, registry_ok; simpl. split; [done|split; [|by left]].
  unfold defaultWeight. destruct (Z.eqb_spec w 0); lia.
Qed.

Section client.
Context {A : Type} {LC : LeaseClient A}.

Lemma Run_pass_ok r t (a : A) : registry_ok r → registry_ok (Run_pass r t a).1.
Proof.
  intros Hr. unfold Run_pass, refreshPeers. run_m.
  destruct (renewSelfLease r t.1 a) as [e a1].
  destruct (lease_List (r_ns r) (peer_selector r) a1) as [[items|er] a2]; simpl; [|done].
  by apply refreshed_ok.
Qed.

Lemma Run_ok r t ticks (a : A) : registry_ok r → registry_ok (Run r t ticks a).1.2.
Proof.
  revert r t a. induction ticks as [|t' ticks IH]; intros r t a Hr; simpl; run_m;
    pose proof (Run_pass_ok r t a Hr) as Hp; destruct (Run_pass r t a) as [r1 a1].
  - by destruct ((if r_releaseOnCancel r1 then release r1 else _) a1).
  - by apply IH.
Qed.

(** C30 (invariant): whatever the Lease API answers, throughout [Run] the snapshot
    lists every peer once, with a weight of 1 to 2^32-1, and contains the
    process itself as soon as it is not empty. *)
Theorem Run_keeps_the_snapshot_well_formed hostname ns pre id w on t ticks (a : A) :
  0 <= w < 2 ^ 32 →
  let r := (Run (NewLeaseRegistryWithOptions hostname ns pre id w [WithReleaseOnCancel on])
              t ticks a).1.2 in
  NoDup (map ID (Snapshot r)) ∧
  (∀ p, p ∈ Snapshot r → 1 <= Weight p < 2 ^ 32) ∧
  (Snapshot r = [] ∨ Self r ∈ Snapshot r).
Proof.
  intros Hw r. destruct (Run_ok _ t ticks a (New_ok hostname ns pre id w on Hw)) as (Hok & _ & Hs).
  fold r in Hok, Hs. split_ands.
  - by apply Snapshot_NoDup.
  - intros p Hp%(Snapshot_elem _ _ Hok). by apply (Hok _ _ Hp).
  - unfold Self. destruct Hs as [Hs|Hs]; [left; unfold Snapshot; by rewrite Hs|right].
    by apply Snapshot_elem.
Qed.

(** Complement (functional): a refresh whose listing succeeds replaces the snapshot by
    exactly the live listed Leases - the last one for each holder - and the
    process itself under its own weight; one whose listing fails keeps it. *)
Theorem refreshPeers_collects_live_leases r now (a : A) :
  let res := lease_List (r_ns r) (peer_selector r) a in
  let '((err, r'), a') := refreshPeers r now a in
  a' = res.2 ∧ r_self r' = r_self r ∧
  match res.1 with
  | Err e => err = Some e ∧ r' = r
  | Ok items =>
      err = None ∧ r_peers r' !! ID (r_self r) = Some (r_self r) ∧
      ∀ id, id ≠ ID (r_self r) →
        r_peers r' !! id = last (filter (λ p, ID p = id) (omap (live_peer now) items))
  end.
Proof.
  unfold refreshPeers. run_m. destruct (lease_List _ _ a) as [[items|e] a1]; simpl; [|done].
  split_ands; [done..| |].
  - rewrite lookup_insert_eq. by destruct (r_self r).
  - intros id Hne. rewrite lookup_insert_ne by done. apply collect_peers_lookup.
Qed.
End client.

(** A Lease published by a process stands for it as long as it lasts. *)
Lemma published_live r now now' v l :
  ID (r_self r) ≠ "" → 1 <= Weight (r_self r) < 2 ^ 32 → r_ttl r = 30 * Second → now' <= micro now + 30 * Second →
  l_holder l = Some (ID (r_self r)) → l_renew l = Some now → l_duration l = Some (duration_seconds (r_ttl r)) →
  default ∅ (l_annotations l) !! annotWeight = Some (FormatUint (uint64 (Weight (r_self r)))) →
  live_peer now' (image v l) = Some (r_self r).
Proof.
  intros Hid Hw Httl Hle Hh Hr Hd Ha. apply live_peer_Some. split_ands; [done|done| |].
  - unfold lease_weight. simpl. rewrite Ha. simpl.
    rewrite bool_decide_eq_false_2 by apply FormatUint_nonempty. simpl.
    rewrite uint64_small, ParseUint_FormatUint by lia.
    destruct (Z.ltb_spec 0 (Weight (r_self r))); [|lia]. unfold uint32. symmetry. apply Z.mod_small. lia.
  - assert (seconds (duration_seconds (r_ttl r)) = 30 * Second) as Hs by (rewrite Httl; by vm_compute).
    simpl. rewrite Hr. eexists _, _. split_ands; [done..|]. lia.
Qed.

Lemma self_create_matches r now : matches (peer_selector r) (l_labels (self_create r now)) = true.
Proof.
  unfold matches. apply forallb_forall. intros [k w] Hin%list_elem_of_In%elem_of_map_to_list. apply bool_decide_eq_true. simpl.
  unfold peer_selector in Hin. apply lookup_insert_Some in Hin as [[<- <-]|[Hne Hin]].
  - rewrite lookup_insert_ne by done. by rewrite lookup_insert_eq.
  - apply lookup_singleton_Some in Hin as [<- <-]. do 2 rewrite lookup_insert_ne by done. by rewrite lookup_singleton_eq.
Qed.

(** C26 (roundtrip): a process is seen by the others under the identity and the
    weight it published, until its Lease expires: the weight survives the
    decimal annotation and its 32-bit parse, on the Lease created as on the one
    updated. *)
Theorem published_peer_is_read_back r now now' v lease :
  ID (r_self r) ≠ "" → 1 <= Weight (r_self r) < 2 ^ 32 → r_ttl r = 30 * Second →
  now' <= micro now + 30 * Second →
  live_peer now' (image v (self_create r now)) = Some (r_self r) ∧
  live_peer now' (image v (self_update r now lease)) = Some (r_self r) ∧
  matches (peer_selector r) (l_labels (self_create r now)) = true.
Proof.
  intros Hid Hw Httl Hle. split_ands; [..|apply self_create_matches].
  - by apply (published_live r now).
  - apply (published_live r now); try done. simpl. by rewrite lookup_insert_eq.
Qed.

Lemma live_items_None now items id :
  (∀ l, l ∈ items → l_holder l ≠ Some id) →
  last (filter (λ p, ID p = id) (omap (live_peer now) items)) = None.
Proof.
  intros Hno. apply last_None.
  destruct (filter _ _) as [|p ps] eqn:E; [done|exfalso].
  assert (p ∈ p :: ps) as Hin by left. rewrite <-E in Hin.
  apply list_elem_of_filter in Hin as [Hid Hp].
  apply list_elem_of_omap in Hp as (l & Hl & Hlp). apply live_peer_Some in Hlp as (_ & Hh & _).
  apply (Hno l Hl). congruence.
Qed.

(** Complement (liveness): once a process that holds its Lease has released it, the next
    refresh of every other process drops it, without waiting for the ttl. *)
Theorem released_peer_is_dropped r r2 now l (s : store) :
  st_faults s = [] → store_ok s →
  lookup_lease (st_leases s) (peer_key r) = Some l → l_holder l = Some (ID (r_self r)) →
  ID (r_self r) ≠ "" → ID (r_self r2) ≠ ID (r_self r) →
  (∀ k l', (k, l') ∈ st_leases s → l_holder l' = Some (ID (r_self r)) → k = peer_key r) →
  let '((err, r2'), _) := refreshPeers r2 now (release r s).2 in
  err = None ∧ r_peers r2' !! ID (r_self r) = None.
Proof.
  intros Hf Hok Hl Hh Hne Hid Hown. destruct (Hok _ _ Hl) as [Hkey _].
  set (l0 := MkLease (l_key l) (l_version l) (l_labels l) (l_annotations l) (Some "")
               (l_duration l) (l_acquire l) (l_renew l)).
  assert ((release r s).2 = write_lease l0 s) as ->.
  { unfold release. run_m. unfold store_Get, take_fault. rewrite Hf, Hl. simpl.
    rewrite bool_decide_eq_true_2 by done. simpl.
    unfold store_Update, guarded_write, take_fault. simpl.
    rewrite Hf, Hkey, Hl, bool_decide_eq_true_2 by done. subst l0. by rewrite Hkey. }
  unfold refreshPeers. run_m. unfold store_List, take_fault. simpl. rewrite Hf. simpl.
  split; [done|]. rewrite lookup_insert_ne by done. rewrite collect_peers_lookup.
  apply live_items_None. intros l' [_ Hin]%list_elem_of_filter.
  apply list_elem_of_In in Hin as [<-|([k l1] & <- & Hin)%in_map_iff]; simpl.
  - congruence.
  - apply list_elem_of_In, list_elem_of_filter in Hin as [Hk Hin]. simpl in Hk.
    intros Hh'. apply Hk. rewrite Hkey. by eapply Hown.
Qed.

(** ** Witnesses *)

Definition peer (id : string) (w : Z) : leaseRegistry :=
  NewLeaseRegistryWithOptions "" "kube-system" "mcr-peer" id w [WithReleaseOnCancel true].

Lemma Run_keeps_the_snapshot_well_formed_witness :
  let r := (Run (peer "peer-0" 3) (0, 1) [(10, 11)] (MkStore [] 0 [])).1.2 in
  Snapshot r = [MkPeer "peer-0" 3] ∧ NoDup (map ID (Snapshot r)).
Proof.
  split; [by vm_compute|].
  apply (Run_keeps_the_snapshot_well_formed "" "kube-system" "mcr-peer" "peer-0" 3 true (0, 1) [(10, 11)]
           (MkStore [] 0 [])). lia.
Defined.

Lemma published_peer_is_read_back_witness :
  live_peer 0 (image 7 (self_create (peer "peer-0" 4294967295) 0)) = Some (MkPeer "peer-0" 4294967295).
Proof.
  apply (published_peer_is_read_back (peer "peer-0" 4294967295) 0 0 7 (self_create (peer "peer-0" 1) 0));
    vm_compute; intuition congruence.
Defined.

Lemma released_peer_is_dropped_witness :
  let s := (renewSelfLease (peer "peer-0" 1) 0 (MkStore [] 0 [])).2 in
  r_peers (refreshPeers (peer "peer-1" 1) 1 s).1.2 !! "peer-0" = Some (MkPeer "peer-0" 1) ∧
  r_peers (refreshPeers (peer "peer-1" 1) 1 (release (peer "peer-0" 1) s).2).1.2 !! "peer-0" = None.
Proof.
  intros s. split; [by vm_compute|].
  pose proof (released_peer_is_dropped (peer "peer-0" 1) (peer "peer-1" 1) 1
    (default (self_create (peer "peer-0" 1) 0) (lookup_lease (st_leases s) (peer_key (peer "peer-0" 1)))) s) as H.
  destruct (refreshPeers (peer "peer-1" 1) 1 (release (peer "peer-0" 1) s).2) as [[e r'] s'].
  apply H; try by vm_compute.
  - intros k l. unfold lookup_lease. simpl. case_bool_decide as Hk; [|done].
    intros [= <-]. split; [done|simpl; lia].
  - intros k l' Hin. apply elem_of_cons in Hin as [[= -> ->]|Hin]; [done|by apply elem_of_nil in Hin].
Defined.
