(* ===== verification/Coordinator.v ===== *)
(** * pkg/manager/coordinator/sharded: the sharded coordinator

    The coordinator keeps one engagement per cluster and decides, on every
    recompute, which clusters this process runs: those the sharder assigns to
    it and whose fence it could take.

    The operations are computations over [cstate]: the Lease API, the world of
    contexts and aware calls, the clock, the fields of the Coordinator that its
    mutex guards, the guards (shared by pointer between engagements, renew
    loops and pending releases) and the goroutines that were started.  [cexec]
    interleaves the goroutines: a step of one is the section it executes under
    the mutex, one operation of a guard, or one call of an aware. *)

From S2P Require Import Prelude GoErrors GoContext GoNum Multicluster Sanitize Sharder LeaseAPI LeaseGuard Peers.
Open Scope Z_scope.

(* src: pkg/manager/coordinator/sharded/coordinator.go:37-84 Config *)
Record Config := MkConfig {
  FenceNS : string;
  FencePrefix : string;
  PerClusterLease : bool;
  LeaseDuration : Z;
  LeaseRenew : Z;
  FenceThrottle : Z;
  PeerPrefix : string;
  PeerWeight : Z;
  PeerReleaseOnCancel : bool;
  Probe : Z;
  Rehash : Z;
}.

(* src: pkg/manager/coordinator/sharded/coordinator.go:168-175 defaultConfig *)
Definition defaultConfig : Config :=
  MkConfig "kube-system" "mcr-shard" true
    (20 * Second) (10 * Second) (750 * Millisecond)
    "mcr-peer" 1 false
    (5 * Second) (15 * Second).

(** The peer registry: the Lease-based one, or one injected with
    [WithPeerRegistry], of which only [Self] is known. *)
Inductive registry : Type :=
| LeaseRegistry (r : leaseRegistry)
| InjectedRegistry (self : PeerInfo).

Definition registry_Self (r : registry) : PeerInfo :=
  match r with LeaseRegistry r => Self r | InjectedRegistry self => self end.

(** The fields set up by [New]; the mutable ones are in [cstate]. *)
(* src: pkg/manager/coordinator/sharded/coordinator.go:98-110 Coordinator *)
Record Coordinator := MkCoordinator {
  co_sharder : Sharder;
  co_peers : option registry;
  co_self : PeerInfo;
  co_cfg : Config;
}.

(* src: pkg/manager/coordinator/sharded/coordinator.go:86-87 Option *)
Definition Option : Type := Coordinator → Coordinator.

Definition with_cfg (f : Config → Config) : Option := fun c =>
  MkCoordinator (co_sharder c) (co_peers c) (co_self c) (f (co_cfg c)).

(** A nil sharder is ignored. *)
(* src: pkg/manager/coordinator/sharded/options.go:26-33 WithSharder *)
Definition WithSharder (s : option Sharder) : Option := fun c =>
  match s with
  | Some s => MkCoordinator s (co_peers c) (co_self c) (co_cfg c)
  | None => c
  end.

(* src: pkg/manager/coordinator/sharded/options.go:35-41 WithPeerWeight *)
Definition WithPeerWeight (w : Z) : Option := with_cfg (λ g,
  MkConfig (FenceNS g) (FencePrefix g) (PerClusterLease g) (LeaseDuration g) (LeaseRenew g)
    (FenceThrottle g) (PeerPrefix g) w (PeerReleaseOnCancel g) (Probe g) (Rehash g)).

(* src: pkg/manager/coordinator/sharded/options.go:43-51 WithPeerReleaseOnCancel *)
Definition WithPeerReleaseOnCancel (on : bool) : Option := with_cfg (λ g,
  MkConfig (FenceNS g) (FencePrefix g) (PerClusterLease g) (LeaseDuration g) (LeaseRenew g)
    (FenceThrottle g) (PeerPrefix g) (PeerWeight g) on (Probe g) (Rehash g)).

(* src: pkg/manager/coordinator/sharded/options.go:53-59 WithShardLease *)
Definition WithShardLease (ns name : string) : Option := with_cfg (λ g,
  MkConfig ns name (PerClusterLease g) (LeaseDuration g) (LeaseRenew g)
    (FenceThrottle g) (PeerPrefix g) (PeerWeight g) (PeerReleaseOnCancel g) (Probe g) (Rehash g)).

(* src: pkg/manager/coordinator/sharded/options.go:61-66 WithPerClusterLease *)
Definition WithPerClusterLease (on : bool) : Option := with_cfg (λ g,
  MkConfig (FenceNS g) (FencePrefix g) on (LeaseDuration g) (LeaseRenew g)
    (FenceThrottle g) (PeerPrefix g) (PeerWeight g) (PeerReleaseOnCancel g) (Probe g) (Rehash g)).

(* src: pkg/manager/coordinator/sharded/options.go:68-74 WithSynchronizationIntervals *)
Definition WithSynchronizationIntervals (probe rehash : Z) : Option := with_cfg (λ g,
  MkConfig (FenceNS g) (FencePrefix g) (PerClusterLease g) (LeaseDuration g) (LeaseRenew g)
    (FenceThrottle g) (PeerPrefix g) (PeerWeight g) (PeerReleaseOnCancel g) probe rehash).

(* src: pkg/manager/coordinator/sharded/options.go:76-83 WithLeaseTimings *)
Definition WithLeaseTimings (duration renew throttle : Z) : Option := with_cfg (λ g,
  MkConfig (FenceNS g) (FencePrefix g) (PerClusterLease g) duration renew
    throttle (PeerPrefix g) (PeerWeight g) (PeerReleaseOnCancel g) (Probe g) (Rehash g)).

(** A nil registry is ignored. *)
(* src: pkg/manager/coordinator/sharded/options.go:85-95 WithPeerRegistry *)
Definition WithPeerRegistry (reg : option registry) : Option := fun c =>
  match reg with
  | Some reg => MkCoordinator (co_sharder c) (Some reg) (registry_Self reg) (co_cfg c)
  | None => c
  end.

(* src: pkg/manager/coordinator/sharded/options.go:97-102 withConfig *)
Definition withConfig (cfg : Config) : Option := with_cfg (λ _, cfg).

(* src: pkg/manager/coordinator/sharded/coordinator.go:144-166 New *)
Definition New (hostname : string) (opts : list Option) : Coordinator :=
  let c := MkCoordinator NewHRW None (MkPeer "" 0) defaultConfig in
  let c := fold_left (λ c o, o c) opts c in
  let peers :=
    match co_peers c with
    | Some r => r
    | None => LeaseRegistry (NewLeaseRegistryWithOptions hostname (FenceNS (co_cfg c))
                (PeerPrefix (co_cfg c)) "" (PeerWeight (co_cfg c))
                [WithReleaseOnCancel (PeerReleaseOnCancel (co_cfg c))])
    end in
  MkCoordinator (co_sharder c) (Some peers) (registry_Self peers) (co_cfg c).

(* src: pkg/manager/coordinator/sharded/coordinator.go:177-182 Coordinator.fenceName *)
Definition fenceName (c : Coordinator) (cluster : string) : string :=
  if PerClusterLease (co_cfg c)
  then FencePrefix (co_cfg c) +:+ "-" +:+ DNS1123 cluster
  else FencePrefix (co_cfg c).

(** ** State *)

(** [time.Time{}], before every clock reading. *)
Definition zero_time : Z := 0.

(** An engagement object; [en_token] is its address, and the fence is a
    pointer into [c_guards]. *)
(* src: pkg/manager/coordinator/sharded/coordinator.go:120-142 engagement *)
Record engagement := MkEngagement {
  en_token : nat;
  en_name : ClusterName;
  en_cl : cluster;
  en_ctx : option context;
  en_cancel : option cancel_func;
  en_started : bool;
  en_fence : option nat;
  en_nextTry : Z;
}.

(** A goroutine and where it is. *)
Inductive task : Type :=
| TCleanup (pctx : context) (key : ClusterName) (token : nat)   (** waits for [pctx] *)
| TRecompute (parent : context)                                  (** [go c.recompute(parent)] *)
| TBegin (ctx : context)                                         (** [Runnable], before its first recompute *)
| TRunnable (ctx : context)                                      (** its loop *)
| TStart (ctx : context) (name : ClusterName) (cl : cluster)     (** [go c.startForCluster] *)
| TEngage (ctx : context) (name : ClusterName) (cl : cluster) (todo : list Aware)
                                                                 (** its loop over the awares *)
| TStartFailed (name : ClusterName)                              (** its section under the lock *)
| TRenew (ctx : context) (guard : nat)                           (** a renew loop *)
| TLost (guard : nat)                                            (** a renew loop whose renewal failed *)
| TRelease (ctx : context) (guard : nat).                        (** [fence.Release(ctx)] *)

Section coordinator.
Context {A : Type} {LC : LeaseClient A} (c : Coordinator).

(* src: pkg/manager/coordinator/sharded/coordinator.go:112-118 Coordinator *)
Record cstate := CState {
  c_api : A;
  c_world : world;
  c_now : Z;
  c_engaged : gmap ClusterName engagement;
  c_awares : list Aware;
  c_guards : list leaseGuard;
  c_fresh : nat;              (** next address of an engagement *)
  c_tasks : list task;
}.

Definition set_world (w : world) (s : cstate) : cstate :=
  CState (c_api s) w (c_now s) (c_engaged s) (c_awares s) (c_guards s) (c_fresh s) (c_tasks s).
Definition set_engaged (m : gmap ClusterName engagement) (s : cstate) : cstate :=
  CState (c_api s) (c_world s) (c_now s) m (c_awares s) (c_guards s) (c_fresh s) (c_tasks s).
Definition set_tasks (ts : list task) (s : cstate) : cstate :=
  CState (c_api s) (c_world s) (c_now s) (c_engaged s) (c_awares s) (c_guards s) (c_fresh s) ts.
Definition set_guards (gs : list leaseGuard) (s : cstate) : cstate :=
  CState (c_api s) (c_world s) (c_now s) (c_engaged s) (c_awares s) gs (c_fresh s) (c_tasks s).

Definition lift_world {B} (m : M world B) : M cstate B := fun s =>
  let '(b, w) := m (c_world s) in (b, set_world w s).

Definition put_engm (name : ClusterName) (e : engagement) : M cstate unit :=
  modify (λ s, set_engaged (<[name := e]> (c_engaged s)) s).

Definition spawn (t : task) : M cstate unit :=
  modify (λ s, set_tasks (c_tasks s ++ [t]) s).

(** Run an operation of guard number [gid]; the renew loops it starts become
    goroutines. *)
Definition on_guard {B} (gid : nat) (dflt : B) (op : leaseGuard → M (env A) (B * leaseGuard)) :
  M cstate B := fun s =>
  match c_guards s !! gid with
  | None => (dflt, s)
  | Some g =>
      let '((b, g'), e) := op g (Env (c_api s) (w_ctxs (c_world s)) (c_now s) []) in
      (b, CState (e_api e) (World (e_ctxs e) (w_calls (c_world s))) (c_now s) (c_engaged s)
            (c_awares s) (<[gid := g']> (c_guards s)) (c_fresh s)
            (c_tasks s ++ map (λ l, TRenew l.1 gid) (e_loops e)))
  end.

Definition cancel_opt (n : option cancel_func) : M cstate unit :=
  match n with Some n => lift_world (w_cancel n) | None => mret tt end.

Definition new_guard (g : leaseGuard) : M cstate nat := fun s =>
  (length (c_guards s), set_guards (c_guards s ++ [g]) s).

(** ** Operations *)

(** What [recompute] collects for after the loop. *)
Record plan := MkPlan {
  pl_stops : list cancel_func;
  pl_starts : list (context * ClusterName * cluster);
}.

(* src: pkg/manager/coordinator/sharded/coordinator.go:297-316 Coordinator.recompute *)
Definition ensure_fence (name : ClusterName) (engm : engagement) : M cstate (nat * engagement) :=
  match en_fence engm with
  | Some gid => mret (gid, engm)
  | None =>
      gid ← new_guard (newLeaseGuard (FenceNS (co_cfg c)) (fenceName c (ClusterName_String name))
                         (ID (co_self c)) (LeaseDuration (co_cfg c)) (LeaseRenew (co_cfg c)) (Some name));
      let engm := MkEngagement (en_token engm) (en_name engm) (en_cl engm) (en_ctx engm)
                    (en_cancel engm) (en_started engm) (Some gid) (en_nextTry engm) in
      _ ← put_engm name engm;
      mret (gid, engm)
  end.

(** The body of the loop over [c.engaged]. *)
(* src: pkg/manager/coordinator/sharded/coordinator.go:292-348 Coordinator.recompute *)
Definition recompute_one (parent : context) (peers : list PeerInfo) (now : Z) (pl : plan)
    (name : ClusterName) : M cstate plan :=
  engaged ← gets c_engaged;
  match engaged !! name with
  | None => mret pl
  | Some engm =>
      let should := co_sharder c (ClusterName_String name) peers (co_self c) in
      if should && negb (en_started engm) then
        f ← ensure_fence name engm;
        let '(gid, engm) := f in
        if now <? en_nextTry engm then mret pl else
        ok ← on_guard gid false (TryAcquire parent);
        if negb ok then
          _ ← put_engm name (MkEngagement (en_token engm) (en_name engm) (en_cl engm) (en_ctx engm)
                 (en_cancel engm) (en_started engm) (en_fence engm) (now + FenceThrottle (co_cfg c)));
          mret pl
        else
          cc ← lift_world (w_WithCancel parent);
          let '(ctx, cancel) := cc in
          _ ← put_engm name (MkEngagement (en_token engm) (en_name engm) (en_cl engm) (Some ctx)
                 (Some cancel) true (en_fence engm) (en_nextTry engm));
          mret (MkPlan (pl_stops pl) (pl_starts pl ++ [(ctx, en_name engm, en_cl engm)]))
      else if negb should && en_started engm then
        let stops := match en_cancel engm with Some n => pl_stops pl ++ [n] | None => pl_stops pl end in
        _ ← match en_fence engm with Some gid => spawn (TRelease parent gid) | None => mret tt end;
        _ ← put_engm name (MkEngagement (en_token engm) (en_name engm) (en_cl engm) (en_ctx engm)
               None false (en_fence engm) zero_time);
        mret (MkPlan stops (pl_starts pl))
      else mret pl
  end.

Fixpoint recompute_loop (parent : context) (peers : list PeerInfo) (now : Z) (order : list ClusterName)
    (pl : plan) : M cstate plan :=
  match order with
  | [] => mret pl
  | name :: order => pl ← recompute_one parent peers now pl name; recompute_loop parent peers now order pl
  end.

(** [order] is the order in which Go iterates over the map. *)
(* src: pkg/manager/coordinator/sharded/coordinator.go:276-355 Coordinator.recompute *)
Definition recompute (order : list ClusterName) (peers : list PeerInfo) (parent : context) : M cstate unit :=
  now ← gets c_now;
  pl ← recompute_loop parent peers now order (MkPlan [] []);
  _ ← for_each (pl_stops pl) (λ n, lift_world (w_cancel n));
  for_each (pl_starts pl) (λ st, spawn (TStart st.1.1 st.1.2 st.2)).

(* src: pkg/manager/coordinator/sharded/coordinator.go:300-309 Coordinator.recompute *)
Definition onLost (cluster : ClusterName) : M cstate unit :=
  engaged ← gets c_engaged;
  match engaged !! cluster with
  | Some ee =>
      match en_started ee, en_cancel ee with
      | true, Some n =>
          _ ← lift_world (w_cancel n);
          put_engm cluster (MkEngagement (en_token ee) (en_name ee) (en_cl ee) (en_ctx ee)
            (en_cancel ee) false (en_fence ee) (en_nextTry ee))
      | _, _ => mret tt
      end
  | None => mret tt
  end.

(** A new engagement: not started, no context, its fence given. *)
Definition new_engagement (name : ClusterName) (cl : cluster) (fence : option nat) : M cstate engagement :=
  fun s => let e := MkEngagement (c_fresh s) name cl None None false fence zero_time in
    (e, CState (c_api s) (c_world s) (c_now s) (c_engaged s) (c_awares s) (c_guards s)
          (S (c_fresh s)) (c_tasks s)).

(* src: pkg/manager/coordinator/sharded/coordinator.go:207-274 Coordinator.Engage *)
Definition Engage (parent : context) (name : ClusterName) (cl : cluster) : M cstate (option error) :=
  err ← gets (λ s, w_Err parent (c_world s));
  match err with
  | Some err => mret (Some err)
  | None =>
      engaged ← gets c_engaged;
      newEng ← match engaged !! name with
               | Some cur =>
                   _ ← cancel_opt (en_cancel cur);
                   new_engagement name cl (en_fence cur)
               | None => new_engagement name cl None
               end;
      _ ← put_engm name newEng;
      _ ← spawn (TCleanup parent name (en_token newEng));
      _ ← spawn (TRecompute parent);
      mret None
  end.

(** The goroutine waiting for the parent context, once it is done. *)
(* src: pkg/manager/coordinator/sharded/coordinator.go:231-245 Coordinator.Engage *)
Definition cleanup (key : ClusterName) (token : nat) : M cstate unit :=
  engaged ← gets c_engaged;
  match engaged !! key with
  | Some ee =>
      if bool_decide (en_token ee = token) then
        _ ← (if en_started ee then cancel_opt (en_cancel ee) else mret tt);
        _ ← match en_fence ee with Some gid => spawn (TRelease Background gid) | None => mret tt end;
        modify (λ s, set_engaged (delete key (c_engaged s)) s)
      else mret tt
  | None => mret tt
  end.

(** [a.Engage(ctx, name, cl)] *)
Definition engage_aware (ctx : context) (name : ClusterName) (cl : cluster) (a : Aware) :
  M cstate (option error) := lift_world (a ctx name cl).

(** The range over [c.awares] is over the slice there is when it starts. *)
(* src: pkg/manager/coordinator/sharded/coordinator.go:357-371 Coordinator.startForCluster *)
Definition startForCluster (ctx : context) (name : ClusterName) (cl : cluster) : M cstate unit :=
  awares ← gets c_awares;
  spawn (TEngage ctx name cl awares).

(** One iteration: the next aware, and then the rest, or the section that marks
    the cluster stopped. *)
(* src: pkg/manager/coordinator/sharded/coordinator.go:358-370 Coordinator.startForCluster *)
Definition start_iter (ctx : context) (name : ClusterName) (cl : cluster) (todo : list Aware) : M cstate unit :=
  match todo with
  | [] => mret tt
  | a :: todo =>
      err ← engage_aware ctx name cl a;
      match err with
      | None => spawn (TEngage ctx name cl todo)
      | Some _ => spawn (TStartFailed name)
      end
  end.

(* src: pkg/manager/coordinator/sharded/coordinator.go:362-367 Coordinator.startForCluster *)
Definition start_failed (name : ClusterName) : M cstate unit :=
  engaged ← gets c_engaged;
  match engaged !! name with
  | Some engm =>
      match en_cancel engm with
      | Some n =>
          _ ← lift_world (w_cancel n);
          put_engm name (MkEngagement (en_token engm) (en_name engm) (en_cl engm) (en_ctx engm)
            (en_cancel engm) false (en_fence engm) (en_nextTry engm))
      | None => mret tt
      end
  | None => mret tt
  end.

(* src: pkg/manager/coordinator/sharded/coordinator.go:373-376 Coordinator.AddAware *)
Definition AddAware (r : Aware) : M cstate unit :=
  modify (λ s, CState (c_api s) (c_world s) (c_now s) (c_engaged s) (c_awares s ++ [r])
                 (c_guards s) (c_fresh s) (c_tasks s)).

Definition Release_op (ctx : context) (g : leaseGuard) : M (env A) (unit * leaseGuard) :=
  g ← Release ctx g; mret (tt, g).

Definition renew_op (ctx : context) (k : key) (g : leaseGuard) : M (env A) (bool * leaseGuard) :=
  ok ← renewOnce ctx g k; mret (ok, g).

End coordinator.

Arguments cstate : clear implicits.

(** ** Goroutines *)

Inductive clabel (A : Type) : Type :=
| CTick (d : Z)                                              (** time passes *)
| CApi (a : A)                                               (** other clients of the server *)
| CNewCtx (parent : context)                                 (** the caller makes a context ... *)
| CCancelCtx (n : cancel_func)                               (** ... and cancels it *)
| CAddAware (r : Aware)
| CEngage (parent : context) (name : ClusterName) (cl : cluster)
| CRunnable (ctx : context)                                  (** the manager starts [Runnable] *)
| CRun (i : nat) (order : list ClusterName) (peers : list PeerInfo)
                                                             (** goroutine [i] moves *)
| CStop (i : nat)                                            (** loop [i] sees its context done *)
| CPeersEnd (i : nat).                                       (** loop [i] receives what the registry's [Run] returned *)

Arguments CTick {A} _. Arguments CApi {A} _. Arguments CNewCtx {A} _. Arguments CCancelCtx {A} _.
Arguments CAddAware {A} _. Arguments CEngage {A} _ _ _. Arguments CRunnable {A} _.
Arguments CRun {A} _ _ _. Arguments CStop {A} _. Arguments CPeersEnd {A} _.

Section goroutines.
Context {A : Type} {LC : LeaseClient A} (c : Coordinator).

Definition c_done (ctx : context) (s : cstate A) : bool := done_ctx ctx (w_ctxs (c_world s)).

(** A tick of the renew loop of a guard ... *)
(* src: pkg/manager/coordinator/sharded/leaseguard.go:145-147 leaseGuard.renewLoop *)
Definition renew_tick (ctx : context) (gid : nat) : M (cstate A) unit :=
  gs ← gets c_guards;
  match gs !! gid with
  | None => mret tt
  | Some g =>
      ok ← on_guard gid false (renew_op ctx (g_key g));
      if ok : bool then spawn (TRenew ctx gid) else spawn (TLost gid)
  end.

(** ... and what follows one that failed: [onLost], and then the release. *)
(* src: pkg/manager/coordinator/sharded/leaseguard.go:147-153 leaseGuard.renewLoop *)
Definition renew_lost (gid : nat) : M (cstate A) unit :=
  gs ← gets c_guards;
  match gs !! gid with
  | None => mret tt
  | Some g =>
      _ ← match g_onLost g with Some cluster => onLost cluster | None => mret tt end;
      spawn (TRelease Background gid)
  end.

(** The registry's [Run], which [Runnable] starts under [ctx], may have
    returned: the Lease registry's returns when its context is done only, an
    injected one whenever it likes. *)
(* src: pkg/manager/coordinator/sharded/peers/registry.go:157-163 leaseRegistry.Run *)
Definition peers_Run_returns (ctx : context) (s : cstate A) : bool :=
  match co_peers c with
  | Some (InjectedRegistry _) => true
  | _ => c_done ctx s
  end.

(** The goroutine's section, itself taken off [c_tasks]; [None] when blocked. *)
Definition run_task (t : task) (order : list ClusterName) (peers : list PeerInfo) (s : cstate A) :
  option (cstate A) :=
  let order_ok := bool_decide (merge_sort string_le order = sorted_keys (c_engaged s)) in
  match t with
  | TCleanup pctx key token =>
      if c_done pctx s then Some (cleanup key token s).2 else None
  | TRecompute parent => if order_ok then Some (recompute c order peers parent s).2 else None
  | TBegin ctx | TRunnable ctx =>
      if order_ok then Some ((_ ← recompute c order peers ctx; spawn (TRunnable ctx)) s).2 else None
  | TStart ctx name cl => Some (startForCluster ctx name cl s).2
  | TEngage ctx name cl todo => Some (start_iter ctx name cl todo s).2
  | TStartFailed name => Some (start_failed name s).2
  | TRenew ctx gid => Some (renew_tick ctx gid s).2
  | TLost gid => Some (renew_lost gid s).2
  | TRelease ctx gid => Some (on_guard gid tt (Release_op ctx) s).2
  end.

(** [Runnable] starts the registry, recomputes, and then recomputes on every
    tick, until its context is done or the registry ends; the registry's passes
    are those of [Peers.v], and what a recompute sees of them is the snapshot it
    is given. *)
(* src: pkg/manager/coordinator/sharded/coordinator.go:184-205 Coordinator.Runnable *)
Definition Runnable (ctx : context) : M (cstate A) unit := spawn (TBegin ctx).

Definition cexec (l : clabel A) (s : cstate A) : option (cstate A) :=
  match l with
  | CTick d =>
      if 0 <=? d then Some (CState (c_api s) (c_world s) (c_now s + d) (c_engaged s) (c_awares s)
                              (c_guards s) (c_fresh s) (c_tasks s)) else None
  | CApi a => Some (CState a (c_world s) (c_now s) (c_engaged s) (c_awares s)
                      (c_guards s) (c_fresh s) (c_tasks s))
  | CNewCtx parent => Some (lift_world (w_WithCancel parent) s).2
  | CCancelCtx n => Some (lift_world (w_cancel n) s).2
  | CAddAware r => Some (AddAware r s).2
  | CEngage parent name cl => Some (Engage parent name cl s).2
  | CRunnable ctx => Some (Runnable ctx s).2
  | CRun i order peers =>
      t ← c_tasks s !! i; run_task t order peers (set_tasks (delete i (c_tasks s)) s)
  | CStop i =>
      t ← c_tasks s !! i;
      match t with
      | TRunnable ctx | TRenew ctx _ =>
          if c_done ctx s then Some (set_tasks (delete i (c_tasks s)) s) else None
      | _ => None
      end
  | CPeersEnd i =>
      t ← c_tasks s !! i;
      match t with
      | TRunnable ctx =>
          if peers_Run_returns ctx s then Some (set_tasks (delete i (c_tasks s)) s) else None
      | _ => None
      end
  end.

(** The Coordinator as [New] leaves it: nothing engaged, nothing running. *)
Definition cinit (s : cstate A) : Prop :=
  c_engaged s = ∅ ∧ c_guards s = [] ∧ c_tasks s = [] ∧ c_now s > zero_time.
End goroutines.

(** ** Lemmas on the operations *)
Section lemmas.
Context {A : Type} {LC : LeaseClient A} (c : Coordinator).
Implicit Types (s : cstate A).

(** Guards are never forgotten, and recompute never lets go of one. *)
Definition keeps_held (gs gs' : list leaseGuard) : Prop :=
  ∀ gid g, gs !! gid = Some g →
    ∃ g', gs' !! gid = Some g' ∧ (g_held g = true → g_held g' = true) ∧
      g_key g' = g_key g ∧ g_id g' = g_id g ∧ g_onLost g' = g_onLost g.

Lemma keeps_held_refl gs : keeps_held gs gs.
Proof. intros gid g Hg. by exists g. Qed.

Lemma keeps_held_trans gs1 gs2 gs3 : keeps_held gs1 gs2 → keeps_held gs2 gs3 → keeps_held gs1 gs3.
Proof.
  intros H1 H2 gid g Hg. destruct (H1 _ _ Hg) as (g2 & Hg2 & Hh2 & ? & ? & ?).
  destruct (H2 _ _ Hg2) as (g3 & Hg3 & Hh3 & ? & ? & ?). exists g3. split_ands; [done|auto|congruence..].
Qed.

Lemma TryAcquire_guard ctx g (e : env A) b g' e' :
  TryAcquire ctx g e = ((b, g'), e') →
  g_held g' = b ∧ (g_held g = true → b = true) ∧
  g_key g' = g_key g ∧ g_id g' = g_id g ∧ g_onLost g' = g_onLost g.
Proof.
  destruct (g_held g) eqn:Hh; [unfold TryAcquire; rewrite Hh; run_m; by intros [= <- <- <-]|].
  destruct (done_ctx ctx (e_ctxs e)) eqn:Hd; [rewrite TryAcquire_done by done; by intros [= <- <- <-]|].
  rewrite TryAcquire_live by done.
  destruct (lease_Get (g_key g) (e_api e)) as [r a1]. cbv zeta.
  destruct (match r with Found _ => _ | NotFound => _ | GetError _ => _ end) as [m|]; [|by intros [= <- <- <-]].
  destruct (m _) as [[er|] a2]; simpl; by intros [= <- <- <-].
Qed.

(** An acquisition touches the server, the contexts, its guard and the renew loops. *)
Lemma on_guard_TryAcquire ctx gid s ok s' :
  on_guard gid false (TryAcquire ctx) s = (ok, s') →
  c_engaged s' = c_engaged s ∧ c_now s' = c_now s ∧ c_fresh s' = c_fresh s ∧ c_awares s' = c_awares s ∧
  (∃ ts, c_tasks s' = c_tasks s ++ ts) ∧ keeps_held (c_guards s) (c_guards s') ∧
  length (c_guards s') = length (c_guards s) ∧
  (ok = true → ∃ g, c_guards s' !! gid = Some g ∧ g_held g = true).
Proof.
  unfold on_guard. destruct (c_guards s !! gid) as [g|] eqn:Hg.
  2:{ intros [= <- <-]. split_ands; try done; [exists []; by rewrite app_nil_r|apply keeps_held_refl]. }
  destruct (TryAcquire ctx g _) as [[b g'] e'] eqn:ET. intros [= <- <-]; simpl.
  destruct (TryAcquire_guard _ _ _ _ _ _ ET) as (Hb & Hh & Hk & Hid & Hol).
  assert (gid < length (c_guards s))%nat as Hlt by (by eapply lookup_lt_Some).
  split_ands; try done.
  - by eexists.
  - intros gid' g0 Hg0. destruct (decide (gid = gid')) as [<-|Hne].
    + exists g'. rewrite list_lookup_insert_eq by done. rewrite Hg in Hg0. injection Hg0 as <-.
      split_ands; [done| |done..]. intros Hheld. rewrite Hb. by apply Hh.
    + exists g0. by rewrite list_lookup_insert_ne.
  - apply length_insert.
  - intros ->. exists g'. by rewrite list_lookup_insert_eq.
Qed.

Definition should (peers : list PeerInfo) (name : ClusterName) : bool :=
  co_sharder c (ClusterName_String name) peers (co_self c).

(** Guard [gid] is the fence of cluster [name]. *)
Definition fence_ok (s : cstate A) (name : ClusterName) (gid : nat) : Prop :=
  ∃ g, c_guards s !! gid = Some g ∧ g_key g = (FenceNS (co_cfg c), fenceName c (ClusterName_String name)) ∧
    g_id g = ID (co_self c) ∧ g_onLost g = Some name.

(** What recompute decided about one entry, from [s] to [s']. *)
Definition entry_decided (parent : context) (peers : list PeerInfo) (now : Z) (pl : plan) (name : ClusterName)
    (s' : cstate A) (e e' : engagement) : Prop :=
  en_token e' = en_token e ∧ en_name e' = en_name e ∧ en_cl e' = en_cl e ∧
  (∀ gid, en_fence e' = Some gid → en_fence e = Some gid ∨ fence_ok s' name gid) ∧
  if should peers name then
    if en_started e then e' = e else
    if en_started e' then
      en_nextTry e <= now ∧
      ∃ ctx n gid g, en_ctx e' = Some ctx ∧ en_cancel e' = Some n ∧ en_fence e' = Some gid ∧
        c_guards s' !! gid = Some g ∧ g_held g = true ∧ (ctx, en_name e, en_cl e) ∈ pl_starts pl
    else (now < en_nextTry e ∧ en_nextTry e' = en_nextTry e) ∨
         en_nextTry e' = now + FenceThrottle (co_cfg c)
  else if en_started e then
    en_started e' = false ∧ en_cancel e' = None ∧ en_nextTry e' = zero_time ∧
    (∀ n, en_cancel e = Some n → n ∈ pl_stops pl) ∧
    (∀ gid, en_fence e = Some gid → TRelease parent gid ∈ c_tasks s')
  else e' = e.

Definition decided (parent : context) (peers : list PeerInfo) (now : Z) (pl : plan) (s s' : cstate A) (name : ClusterName) : Prop :=
  match c_engaged s !! name with
  | Some e => ∃ e', c_engaged s' !! name = Some e' ∧ entry_decided parent peers now pl name s' e e'
  | None => c_engaged s' !! name = None
  end.

Lemma fence_ok_keeps s s' name gid :
  keeps_held (c_guards s) (c_guards s') → fence_ok s name gid → fence_ok s' name gid.
Proof.
  intros Hk (g & Hg & ? & ? & ?). destruct (Hk _ _ Hg) as (g' & Hg' & _ & ? & ? & ?).
  exists g'. split_ands; [done|congruence..].
Qed.

(** What every step of the loop leaves alone or only extends. *)
Record grows (pl pl' : plan) (s s' : cstate A) : Prop := {
  gr_now : c_now s' = c_now s;
  gr_fresh : c_fresh s' = c_fresh s;
  gr_awares : c_awares s' = c_awares s;
  gr_guards : keeps_held (c_guards s) (c_guards s');
  gr_tasks : ∀ t, t ∈ c_tasks s → t ∈ c_tasks s';
  gr_stops : ∀ n, n ∈ pl_stops pl → n ∈ pl_stops pl';
  gr_starts : ∀ st, st ∈ pl_starts pl → st ∈ pl_starts pl';
}.

Lemma grows_refl pl s : grows pl pl s s.
Proof. split; auto using keeps_held_refl. Qed.

Lemma grows_trans pl1 pl2 pl3 s1 s2 s3 : grows pl1 pl2 s1 s2 → grows pl2 pl3 s2 s3 → grows pl1 pl3 s1 s3.
Proof.
  intros [????? ??] [????? ??]. split; [congruence..|by eapply keeps_held_trans| | |]; auto.
Qed.

Lemma decided_grows parent peers now pl pl' s s1 s2 name :
  grows pl pl' s1 s2 → c_engaged s2 !! name = c_engaged s1 !! name →
  decided parent peers now pl s s1 name → decided parent peers now pl' s s2 name.
Proof.
  intros Hg He. unfold decided. destruct (c_engaged s !! name) as [e|]; [|by rewrite He].
  intros (e' & He' & Ht & Hn & Hcl & Hf & Hd). exists e'. rewrite He. split; [done|].
  unfold entry_decided. split_ands; [done..| |].
  { intros gid [?|?]%Hf; [by left|right]. eapply fence_ok_keeps; [apply (gr_guards _ _ _ _ Hg)|done]. }
  destruct (should peers name), (en_started e); try done.
  - destruct (en_started e'); [|done].
    destruct Hd as (? & ctx & n & gid & g & ? & ? & ? & Hgid & Hheld & ?).
    destruct (gr_guards _ _ _ _ Hg _ _ Hgid) as (g' & ? & ? & _).
    split; [done|]. exists ctx, n, gid, g'. split_ands; auto. by apply (gr_starts _ _ _ _ Hg).
  - destruct Hd as (? & ? & ? & Hs & Hr). split_ands; [done..| |].
    + intros n Hc. apply (gr_stops _ _ _ _ Hg). auto.
    + intros gid Hc. apply (gr_tasks _ _ _ _ Hg). auto.
Qed.

(** Taking a look at the fence: it exists afterwards, and is otherwise as before. *)
Lemma ensure_fence_spec name e s gid e' s' pl :
  c_engaged s !! name = Some e →
  ensure_fence c name e s = ((gid, e'), s') →
  grows pl pl s s' ∧ (∀ n, n ≠ name → c_engaged s' !! n = c_engaged s !! n) ∧
  c_engaged s' !! name = Some e' ∧ en_fence e' = Some gid ∧
  en_token e' = en_token e ∧ en_name e' = en_name e ∧ en_cl e' = en_cl e ∧
  en_started e' = en_started e ∧ en_nextTry e' = en_nextTry e ∧
  (en_fence e = Some gid ∨ fence_ok s' name gid).
Proof.
  intros He. unfold ensure_fence, put_engm, new_guard. destruct (en_fence e) as [g|] eqn:Hf; run_m.
  - intros [= <- <- <-]. split_ands; auto using grows_refl.
  - intros [= <- <- <-]; simpl. split_ands; try done.
    + split; simpl; auto. intros gid g Hg. exists g. rewrite lookup_app_l; [done|by eapply lookup_lt_Some].
    + intros n Hne. by rewrite lookup_insert_ne.
    + by rewrite lookup_insert_eq.
    + right. eexists. simpl. by rewrite lookup_app_r, Nat.sub_diag by lia.
Qed.

Lemma spawn_release ctx (f : option nat) s :
  (match f with Some gid => spawn (TRelease ctx gid) | None => mret tt end) s =
  (tt, set_tasks (c_tasks s ++ match f with Some gid => [TRelease ctx gid] | None => [] end) s).
Proof. destruct f; [done|]. unfold set_tasks. run_m. rewrite app_nil_r. by destruct s. Qed.

Lemma recompute_one_spec parent peers now pl name s pl' s' :
  recompute_one c parent peers now pl name s = (pl', s') →
  grows pl pl' s s' ∧ (∀ n, n ≠ name → c_engaged s' !! n = c_engaged s !! n) ∧
  decided parent peers now pl' s s' name.
Proof.
  unfold recompute_one, decided, entry_decided. unfold mbind at 1, M_bind at 1, gets at 1.
  destruct (c_engaged s !! name) as [e|] eqn:He; [|run_m; intros [= <- <-]; auto using grows_refl].
  fold (should peers name). destruct (should peers name) eqn:Hsh, (en_started e) eqn:Hst; simpl;
    try (run_m; intros [= <- <-]; split; [apply grows_refl|split; [done|]];
         exists e; rewrite ?Hst; split_ands; by auto).
  - unfold mbind at 1, M_bind at 1. destruct (ensure_fence c name e s) as [[gid e1] s1] eqn:EF.
    destruct (ensure_fence_spec _ _ _ _ _ _ pl He EF) as (Hg1 & Ho1 & He1 & Hf1 & Ht & Hn & Hcl & Hs1 & Hnt & Hfo).
    destruct (Z.ltb_spec now (en_nextTry e1)) as [Hlt|Hge].
    { run_m. intros [= <- <-]. split_ands; [done..|]. exists e1. rewrite Hs1, Hst.
      split_ands; try done; [intros ?; rewrite Hf1; by intros [= <-]|left; split; [lia|done]]. }
    unfold mbind at 1, M_bind at 1. destruct (on_guard gid false (TryAcquire parent) s1) as [ok s2] eqn:EA.
    destruct (on_guard_TryAcquire _ _ _ _ _ EA) as (He2 & Hn2 & Hfr2 & Ha2 & [ts Hts2] & Hg2 & Hlen2 & Hheld).
    assert (∀ gid', en_fence e1 = Some gid' → en_fence e = Some gid' ∨ fence_ok s2 name gid') as Hf2.
    { intros gid'. rewrite Hf1. intros [= <-]. destruct Hfo as [?|Hfo]; [by left|right].
      by eapply fence_ok_keeps. }
    destruct ok; simpl.
    + destruct (Hheld eq_refl) as (g & Hgid & Hgh). unfold lift_world, put_engm, w_WithCancel. run_m.
      intros [= <- <-]; simpl. split_ands.
      * eapply grows_trans; [exact Hg1|]. split; simpl; try done; [by rewrite Hts2; set_solver|set_solver].
      * intros n Hne. rewrite lookup_insert_ne by done. rewrite He2. by apply Ho1.
      * eexists. rewrite lookup_insert_eq. split; [done|]. simpl. split_ands; [done..|lia|].
        eexists _, _, gid, g. rewrite Hn, Hcl. split_ands; [done..|set_solver].
    + unfold put_engm. run_m. intros [= <- <-]; simpl. split_ands.
      * eapply grows_trans; [exact Hg1|]. split; simpl; try done. by rewrite Hts2; set_solver.
      * intros n Hne. rewrite lookup_insert_ne by done. rewrite He2. by apply Ho1.
      * eexists. rewrite lookup_insert_eq. split; [done|]. simpl. rewrite Hs1, Hst.
        split_ands; try done. by right.
  - unfold mbind at 1, M_bind at 1. rewrite spawn_release. unfold put_engm. run_m.
    intros [= <- <-]; simpl. split_ands.
    + split; simpl; auto using keeps_held_refl; [set_solver|]. destruct (en_cancel e); set_solver.
    + intros n Hne. by rewrite lookup_insert_ne.
    + eexists. rewrite lookup_insert_eq. split; [done|]. simpl. split_ands; try done.
      * by auto.
      * intros n ->. set_solver.
      * intros gid ->. set_solver.
Qed.

Lemma recompute_loop_spec parent peers now order pl s pl' s' :
  NoDup order → recompute_loop c parent peers now order pl s = (pl', s') →
  grows pl pl' s s' ∧ (∀ n, n ∉ order → c_engaged s' !! n = c_engaged s !! n) ∧
  ∀ n, n ∈ order → decided parent peers now pl' s s' n.
Proof.
  intros Hnd. revert pl s. induction Hnd as [|name order Hni Hnd IH]; intros pl s.
  - run_m. intros [= <- <-]. split_ands; [apply grows_refl|done|by intros n ?%elem_of_nil].
  - cbn [recompute_loop]. unfold mbind, M_bind.
    destruct (recompute_one c parent peers now pl name s) as [pl1 s1] eqn:E1. intros E2.
    destruct (recompute_one_spec _ _ _ _ _ _ _ _ E1) as (Hg1 & Ho1 & Hd1).
    destruct (IH _ _ E2) as (Hg2 & Ho2 & Hd2). split_ands.
    + by eapply grows_trans.
    + intros n Hn. rewrite Ho2, Ho1; set_solver.
    + intros n [->|Hn]%elem_of_cons; [by eapply decided_grows; [|apply Ho2|]|].
      specialize (Hd2 n Hn). unfold decided in Hd2 |- *. by rewrite Ho1 in Hd2 by congruence.
Qed.

Lemma cancel_all_spec ns s :
  for_each ns (λ n, lift_world (w_cancel n)) s =
  (tt, set_world (World (CtxStore (cs_next (w_ctxs (c_world s)))
                           (list_to_set (reverse ns) ∪ cs_cancelled (w_ctxs (c_world s))))
                        (w_calls (c_world s))) s).
Proof.
  revert s. induction ns as [|n ns IH]; intros s.
  - run_m. f_equal. destruct s as [a [[nx cs] cls] ???]; simpl. unfold set_world; simpl. do 3 f_equal. set_solver.
  - cbn [for_each]. unfold mbind, M_bind, lift_world at 1, w_cancel at 1. rewrite IH.
    unfold set_world; simpl. do 4 f_equal. rewrite reverse_cons, list_to_set_app_L. set_solver.
Qed.

Lemma spawn_all_spec sts s :
  for_each sts (λ st : context * ClusterName * cluster, spawn (TStart st.1.1 st.1.2 st.2)) s =
  (tt, set_tasks (c_tasks s ++ map (λ st, TStart st.1.1 st.1.2 st.2) sts) s).
Proof.
  revert s. induction sts as [|st sts IH]; intros s.
  - run_m. rewrite app_nil_r. by destruct s.
  - cbn [for_each]. unfold mbind, M_bind, spawn at 1. run_m. rewrite IH. unfold set_tasks; simpl.
    by rewrite <-app_assoc.
Qed.

Lemma recompute_spec order peers parent s :
  NoDup order →
  let s' := (recompute c order peers parent s).2 in
  ∃ pl s1, grows (MkPlan [] []) pl s s1 ∧
    (∀ n, n ∉ order → c_engaged s1 !! n = c_engaged s !! n) ∧
    (∀ n, n ∈ order → decided parent peers (c_now s) pl s s1 n) ∧
    c_engaged s' = c_engaged s1 ∧ c_guards s' = c_guards s1 ∧ c_now s' = c_now s ∧
    c_fresh s' = c_fresh s ∧
    (∀ t, t ∈ c_tasks s1 → t ∈ c_tasks s') ∧
    (∀ n, n ∈ pl_stops pl → n ∈ cs_cancelled (w_ctxs (c_world s'))) ∧
    (∀ st, st ∈ pl_starts pl → TStart st.1.1 st.1.2 st.2 ∈ c_tasks s').
Proof.
  intros Hnd s'.
  destruct (recompute_loop c parent peers (c_now s) order (MkPlan [] []) s) as [pl s1] eqn:EL.
  destruct (recompute_loop_spec _ _ _ _ _ _ _ _ Hnd EL) as (Hg & Ho & Hd).
  assert (recompute c order peers parent s =
    for_each (pl_starts pl) (λ st, spawn (TStart st.1.1 st.1.2 st.2))
      (for_each (pl_stops pl) (λ n, lift_world (w_cancel n)) s1).2) as Hr.
  { unfold recompute, mbind, M_bind, gets. by rewrite EL, cancel_all_spec. }
  subst s'. rewrite Hr, cancel_all_spec. cbn [snd]. rewrite spawn_all_spec. simpl.
  exists pl, s1. split_ands; try done.
  - apply (gr_now _ _ _ _ Hg).
  - apply (gr_fresh _ _ _ _ Hg).
  - set_solver.
  - intros n Hn. rewrite elem_of_union, elem_of_list_to_set, elem_of_reverse. by left.
  - intros st Hst. apply elem_of_app. right. apply list_elem_of_fmap. by exists st.
Qed.
End lemmas.

(** ** Properties of recompute *)
Section recompute_properties.
Context {A : Type} {LC : LeaseClient A} (c : Coordinator).

(** C2 (functional): for every engaged cluster, recompute starts it - a goroutine
    engages the awares on the cluster's new context - only if the sharder
    assigns it to this process, its retry time has come and its fence is held;
    it leaves a running cluster that is still ours alone; and a running cluster
    that is not ours any more is stopped: its context is cancelled and its
    fence released.  A failed attempt is not repeated before the throttle. *)
Theorem recompute_decides order peers parent (s : cstate A) name e :
  NoDup order → name ∈ order → c_engaged s !! name = Some e →
  let s' := (recompute c order peers parent s).2 in
  ∃ e', c_engaged s' !! name = Some e' ∧ en_token e' = en_token e ∧ en_cl e' = en_cl e ∧
    (should c peers name = true → en_started e = true → e' = e) ∧
    (should c peers name = true → en_started e = false → en_started e' = true →
       en_nextTry e <= c_now s ∧
       ∃ ctx gid g, en_ctx e' = Some ctx ∧ en_fence e' = Some gid ∧
         c_guards s' !! gid = Some g ∧ g_held g = true ∧
         TStart ctx (en_name e) (en_cl e) ∈ c_tasks s') ∧
    (should c peers name = true → en_started e = false → en_started e' = false →
       c_now s < en_nextTry e ∨ en_nextTry e' = c_now s + FenceThrottle (co_cfg c)) ∧
    (should c peers name = false → en_started e = true →
       en_started e' = false ∧
       (∀ n, en_cancel e = Some n → n ∈ cs_cancelled (w_ctxs (c_world s'))) ∧
       (∀ gid, en_fence e = Some gid → TRelease parent gid ∈ c_tasks s')) ∧
    (should c peers name = false → en_started e = false → e' = e).
Proof.
  intros Hnd Hin He s'.
  destruct (recompute_spec c order peers parent s Hnd)
    as (pl & s1 & Hg & _ & Hd & Heng & Hgs & _ & _ & Hts & Hst & Hsp).
  fold s' in Heng, Hgs, Hts, Hst, Hsp. specialize (Hd _ Hin). unfold decided in Hd.
  rewrite He in Hd. destruct Hd as (e' & He' & Ht & Hn & Hcl & _ & Hd). exists e'. rewrite Heng, Hgs.
  destruct (should c peers name), (en_started e) eqn:Hse; split_ands; try done.
  - intros _ _ Hs. rewrite Hs in Hd. destruct Hd as (Hle & ctx & n & gid & g & ? & ? & ? & ? & ? & Hpl).
    split; [done|]. exists ctx, gid, g. split_ands; try done. apply (Hsp _ Hpl).
  - intros _ _ Hs. rewrite Hs in Hd. destruct Hd as [[? ?]|?]; auto.
  - intros _ _. destruct Hd as (? & _ & _ & ? & ?). split_ands; auto.
Qed.

(** Complement (safety): coordinators that decide on the same snapshot of peers never both
    run a cluster: with a sharder that gives each cluster exactly one owner,
    after each of two different peers has recomputed, at most one of them has
    the cluster started. *)
Theorem one_coordinator_runs_a_cluster (c1 c2 : Coordinator) order1 order2 peers ctx1 ctx2
    (s1 s2 : cstate A) name e1 e2 :
  ExactlyOneOwner (co_sharder c1) → co_sharder c2 = co_sharder c1 →
  NoDup (map ID peers) → co_self c1 ∈ peers → co_self c2 ∈ peers → co_self c1 ≠ co_self c2 →
  NoDup order1 → NoDup order2 → name ∈ order1 → name ∈ order2 →
  c_engaged (recompute c1 order1 peers ctx1 s1).2 !! name = Some e1 →
  c_engaged (recompute c2 order2 peers ctx2 s2).2 !! name = Some e2 →
  en_started e1 = true → en_started e2 = false.
Proof.
  intros Hone Hsh Hnd Hin1 Hin2 Hne Ho1 Ho2 Hn1 Hn2 He1 He2 Hst1.
  assert (∀ (cc : Coordinator) order ctx (s : cstate A) e, NoDup order → name ∈ order →
    c_engaged (recompute cc order peers ctx s).2 !! name = Some e → en_started e = true →
    should cc peers name = true) as Hkey.
  { intros cc order ctx s e Hnd' Hin He Hst.
    destruct (recompute_spec cc order peers ctx s Hnd')
      as (pl & s3 & _ & _ & Hd & Heng & _). specialize (Hd _ Hin). unfold decided in Hd.
    rewrite Heng in He. destruct (c_engaged s !! name) as [e0|]; [|congruence].
    destruct Hd as (e' & He' & _ & _ & _ & _ & Hd). simplify_eq.
    destruct (should cc peers name); [done|]. destruct (en_started e0) eqn:H0; [|congruence].
    by destruct Hd as [Hd _]; rewrite Hst in Hd. }
  apply not_true_is_false. intros Hst2.
  pose proof (Hkey _ _ _ _ _ Ho1 Hn1 He1 Hst1) as H1. pose proof (Hkey _ _ _ _ _ Ho2 Hn2 He2 Hst2) as H2.
  unfold should in H1, H2. rewrite Hsh in H2.
  assert (peers ≠ []) as Hnil by (intros ->; by apply elem_of_nil in Hin1).
  destruct (Hone (ClusterName_String name) peers Hnil Hnd) as (p & _ & _ & Hu).
  apply Hne. by rewrite (Hu _ Hin1 H1), (Hu _ Hin2 H2).
Qed.
End recompute_properties.

(** ** The invariant of the goroutines *)
Section coordinator_invariant.
Context {A : Type} {LC : LeaseClient A} (c : Coordinator).
Implicit Types (s : cstate A).

Definition started_ok (e : engagement) : Prop :=
  en_started e = true → is_Some (en_ctx e) ∧ is_Some (en_cancel e) ∧ is_Some (en_fence e).

(** What is known of the call that made the engagement with a token: its
    context, name and cluster. *)
Context (engaged_by : context → ClusterName → cluster → nat → Prop).

(** An entry is under its name, a goroutine waits for the context it was engaged
    with to clean it up, a started one has a context and a fence, and the fence
    is the cluster's. *)
Definition entry_inv s (name : ClusterName) (e : engagement) : Prop :=
  en_name e = name ∧ (en_token e < c_fresh s)%nat ∧
  (∃ pctx, engaged_by pctx name (en_cl e) (en_token e) ∧ TCleanup pctx name (en_token e) ∈ c_tasks s) ∧
  started_ok e ∧ (∀ gid, en_fence e = Some gid → fence_ok c s name gid).

Definition cinv s : Prop := ∀ name e, c_engaged s !! name = Some e → entry_inv s name e.

(** The guards keep their identities. *)
Definition same_guards (gs gs' : list leaseGuard) : Prop :=
  ∀ gid g, gs !! gid = Some g →
    ∃ g', gs' !! gid = Some g' ∧ g_key g' = g_key g ∧ g_id g' = g_id g ∧ g_onLost g' = g_onLost g.

Lemma keeps_held_same gs gs' : keeps_held gs gs' → same_guards gs gs'.
Proof. intros Hk gid g Hg. destruct (Hk _ _ Hg) as (g' & ? & _ & ?). by exists g'. Qed.

Lemma same_guards_refl gs : same_guards gs gs.
Proof. intros gid g Hg. by exists g. Qed.

Lemma fence_ok_same s s' name gid :
  same_guards (c_guards s) (c_guards s') → fence_ok c s name gid → fence_ok c s' name gid.
Proof.
  intros Hk (g & Hg & ? & ? & ?). destruct (Hk _ _ Hg) as (g' & Hg' & ? & ? & ?).
  exists g'. split_ands; [done|congruence..].
Qed.

Lemma cinv_step s s' :
  cinv s → (c_fresh s <= c_fresh s')%nat →
  (∀ p k t, TCleanup p k t ∈ c_tasks s → TCleanup p k t ∈ c_tasks s') →
  same_guards (c_guards s) (c_guards s') →
  (∀ name e', c_engaged s' !! name = Some e' → ∃ e, c_engaged s !! name = Some e ∧
     en_name e' = en_name e ∧ en_cl e' = en_cl e ∧ en_token e' = en_token e ∧ (started_ok e → started_ok e') ∧
     (∀ gid, en_fence e' = Some gid → en_fence e = Some gid ∨ fence_ok c s' name gid)) →
  cinv s'.
Proof.
  intros HI Hfr Hts Hgs Hen name e' He'. destruct (Hen _ _ He') as (e & He & Hn & Hcl & Ht & Hst & Hf).
  destruct (HI _ _ He) as (? & ? & (p & Hby & Hp) & Hs & Hg). unfold entry_inv. split_ands.
  - congruence.
  - lia.
  - exists p. rewrite Ht, Hcl. split; [done|by apply Hts].
  - by apply Hst.
  - intros gid [?|?]%Hf; [|done]. eapply fence_ok_same; [done|by apply Hg].
Qed.

(** A step that leaves the entries alone. *)
Lemma cinv_frame s s' :
  cinv s → c_engaged s' = c_engaged s → (c_fresh s <= c_fresh s')%nat →
  (∀ p k t, TCleanup p k t ∈ c_tasks s → TCleanup p k t ∈ c_tasks s') →
  same_guards (c_guards s) (c_guards s') → cinv s'.
Proof.
  intros HI He Hfr Hts Hgs. eapply cinv_step; [done..|].
  intros name e. rewrite He. intros Hn. exists e. split_ands; auto.
Qed.

(** A step that marks one entry as not started. *)
Lemma cinv_stop_entry s name e n w :
  cinv s → c_engaged s !! name = Some e →
  cinv (set_engaged (<[name := MkEngagement (en_token e) (en_name e) (en_cl e) (en_ctx e) n
          false (en_fence e) (en_nextTry e)]> (c_engaged s)) (set_world w s)).
Proof.
  intros HI He. eapply (cinv_step s); simpl; [done|lia|done|apply same_guards_refl|].
  intros name' e'. rewrite lookup_insert_Some. intros [[<- <-]|[_ He']]; [exists e|exists e'];
    split_ands; simpl; auto; by intros.
Qed.

Lemma recompute_cinv order peers parent s :
  order ≡ₚ (map_to_list (c_engaged s)).*1 → cinv s → cinv (recompute c order peers parent s).2.
Proof.
  intros Hord HI.
  assert (NoDup order) as Hnd by (rewrite Hord; apply NoDup_fst_map_to_list).
  destruct (recompute_spec c order peers parent s Hnd)
    as (pl & s1 & Hg & Ho & Hd & Heng & Hgs & Hnow & Hfr & Hts & _).
  eapply (cinv_step s); [done|lia|intros; apply Hts, (gr_tasks _ _ _ _ Hg); done
                        |rewrite Hgs; apply keeps_held_same, Hg|].
  intros name e'. rewrite Heng. intros He'.
  assert (fence_ok c s1 name = fence_ok c (recompute c order peers parent s).2 name) as <-.
  { unfold fence_ok. by rewrite Hgs. }
  destruct (decide (name ∈ order)) as [Hin|Hout].
  2:{ exists e'. rewrite <-Ho by done. split_ands; auto. }
  specialize (Hd _ Hin). unfold decided in Hd. destruct (c_engaged s !! name) as [e|]; [|congruence].
  destruct Hd as (e1 & He1 & Ht & Hn & Hcl & Hf & Hd). simplify_eq. exists e. split_ands; try done.
  intros Hst. destruct (should c peers name), (en_started e); try (by subst).
  - intros Hs. rewrite Hs in Hd. destruct Hd as (_ & ctx & n & gid & g & -> & -> & -> & _). eauto.
  - intros Hs. destruct Hd as [Hd _]. congruence.
Qed.

Lemma Engage_cinv parent name cl s :
  (w_Err parent (c_world s) = None → engaged_by parent name cl (c_fresh s)) →
  cinv s → cinv (Engage parent name cl s).2.
Proof.
  intros Hby HI. unfold Engage. run_m. destruct (w_Err parent (c_world s)); simpl; [done|]. specialize (Hby eq_refl).
  assert (∀ w f, (∀ gid, f = Some gid → fence_ok c s name gid) →
    cinv (CState (c_api s) w (c_now s)
            (<[name := MkEngagement (c_fresh s) name cl None None false f zero_time]> (c_engaged s))
            (c_awares s) (c_guards s) (S (c_fresh s))
            ((c_tasks s ++ [TCleanup parent name (c_fresh s)]) ++ [TRecompute parent]))) as Hnew.
  { intros w f Hf name' e'. simpl. rewrite lookup_insert_Some. intros [[<- <-]|[_ He']].
    - unfold entry_inv. split_ands; simpl; [done|lia|exists parent; split; [done|set_solver]|by intros|apply Hf].
    - destruct (HI _ _ He') as (? & ? & (p & ? & ?) & ? & ?). unfold entry_inv. split_ands; simpl; [done|lia| |done|done].
      exists p. split; [done|set_solver]. }
  destruct (c_engaged s !! name) as [cur|] eqn:Hc; simpl.
  - unfold cancel_opt, lift_world, w_cancel, new_engagement. destruct (en_cancel cur); run_m;
      apply Hnew; by apply (HI name cur).
  - by apply Hnew.
Qed.

Lemma onLost_cinv name s : cinv s → cinv (onLost name s).2.
Proof.
  intros HI. unfold onLost. run_m. destruct (c_engaged s !! name) as [e|] eqn:He; [|done].
  destruct (en_started e), (en_cancel e); try done. unfold lift_world, w_cancel, put_engm. run_m.
  by apply cinv_stop_entry.
Qed.

Lemma spawn_cinv t s : cinv s → cinv (spawn t s).2.
Proof. intros HI. eapply (cinv_frame s); simpl; auto using same_guards_refl. set_solver. Qed.

Lemma start_iter_cinv ctx name cl todo s : cinv s → cinv (start_iter ctx name cl todo s).2.
Proof.
  intros HI. destruct todo as [|a todo]; [done|]. unfold start_iter, engage_aware, lift_world.
  unfold mbind, M_bind. destruct (a ctx name cl (c_world s)) as [r w]. simpl.
  assert (cinv (set_world w s)) as HI1 by (eapply (cinv_frame s); simpl; auto using same_guards_refl).
  destruct r; by apply (spawn_cinv _ (set_world w s)).
Qed.

Lemma start_failed_cinv name s : cinv s → cinv (start_failed name s).2.
Proof.
  intros HI. unfold start_failed. run_m.
  destruct (c_engaged s !! name) as [e|] eqn:He; [|done]. destruct (en_cancel e) as [n|]; [|done].
  unfold lift_world, w_cancel, put_engm. run_m. by apply (cinv_stop_entry s).
Qed.

Lemma on_guard_cinv {B} gid (d : B) op s :
  (∀ g e, let '((_, g'), _) := op g e in
     g_key g' = g_key g ∧ g_id g' = g_id g ∧ g_onLost g' = g_onLost g) →
  cinv s → cinv (on_guard gid d op s).2.
Proof.
  intros Hop HI. unfold on_guard. destruct (c_guards s !! gid) as [g|] eqn:Hg; [|done].
  specialize (Hop g (Env (c_api s) (w_ctxs (c_world s)) (c_now s) [])).
  destruct (op g _) as [[b g'] e']. simpl. eapply (cinv_frame s); simpl; [done..|set_solver|].
  intros gid' g0 Hg0. destruct (decide (gid = gid')) as [<-|Hne].
  - exists g'. rewrite list_lookup_insert_eq by (by eapply lookup_lt_Some).
    rewrite Hg in Hg0. by injection Hg0 as <-.
  - exists g0. by rewrite list_lookup_insert_ne.
Qed.

Lemma Release_fields ctx g (e : env A) :
  g_key (Release ctx g e).1 = g_key g ∧ g_id (Release ctx g e).1 = g_id g ∧
  g_onLost (Release ctx g e).1 = g_onLost g.
Proof.
  rewrite Release_eq. destruct (g_held g); [|done]. cbv zeta. destruct (done_ctx _ _); [done|].
  by destruct (lease_Get _ _).
Qed.

Lemma renew_tick_cinv ctx gid s : cinv s → cinv (renew_tick ctx gid s).2.
Proof.
  intros HI. unfold renew_tick. run_m. destruct (c_guards s !! gid) as [g|]; [|done].
  assert (cinv (on_guard gid false (renew_op ctx (g_key g)) s).2) as H1.
  { apply on_guard_cinv; [|done]. intros g0 e. unfold renew_op. run_m. by destruct (renewOnce ctx g0 _ e). }
  destruct (on_guard gid false (renew_op ctx (g_key g)) s) as [[] s1]; by apply (spawn_cinv _ s1).
Qed.

Lemma renew_lost_cinv gid s : cinv s → cinv (renew_lost gid s).2.
Proof.
  intros HI. unfold renew_lost. run_m. destruct (c_guards s !! gid) as [g|]; [|done].
  destruct (g_onLost g) as [n|]; [|by apply (spawn_cinv _ s)].
  pose proof (onLost_cinv n s HI) as H2. destruct (onLost n s) as [u s2].
  by apply (spawn_cinv _ s2).
Qed.

Lemma take_task_cinv i t s :
  c_tasks s !! i = Some t → (∀ p k n, t ≠ TCleanup p k n) → cinv s →
  cinv (set_tasks (delete i (c_tasks s)) s).
Proof.
  intros Ht Hne HI. eapply (cinv_frame s); simpl; [done..| |apply same_guards_refl].
  intros p k n Hin. eapply elem_of_delete; [done..|]. intros <-. by eapply Hne.
Qed.

Lemma cleanup_hit key e s :
  c_engaged s !! key = Some e →
  let s' := (cleanup key (en_token e) s).2 in
  c_engaged s' = delete key (c_engaged s) ∧ c_guards s' = c_guards s ∧ c_fresh s' = c_fresh s ∧
  (∀ t, t ∈ c_tasks s → t ∈ c_tasks s') ∧
  (∀ n, en_started e = true → en_cancel e = Some n → n ∈ cs_cancelled (w_ctxs (c_world s'))) ∧
  (∀ gid, en_fence e = Some gid → TRelease Background gid ∈ c_tasks s').
Proof.
  intros He s'. subst s'. unfold cleanup, cancel_opt, lift_world, w_cancel, spawn. run_m. rewrite He.
  rewrite bool_decide_eq_true_2 by done.
  destruct (en_started e), (en_cancel e) as [n|], (en_fence e) as [gid|]; simpl; split_ands; set_solver.
Qed.

Lemma cleanup_miss key token s :
  (∀ e, c_engaged s !! key = Some e → en_token e ≠ token) → (cleanup key token s).2 = s.
Proof.
  intros Hm. unfold cleanup. run_m. destruct (c_engaged s !! key) as [e|]; [|done].
  by rewrite bool_decide_eq_false_2 by (by apply Hm).
Qed.

Lemma cleanup_cinv i pctx key token s :
  c_tasks s !! i = Some (TCleanup pctx key token) → cinv s →
  cinv (cleanup key token (set_tasks (delete i (c_tasks s)) s)).2.
Proof.
  intros Ht HI. set (s0 := set_tasks _ s).
  assert (∀ name e, c_engaged s0 !! name = Some e → (name = key → en_token e ≠ token) →
    entry_inv s0 name e) as Hothers.
  { intros name e He Hne. destruct (HI _ _ He) as (? & ? & (p & Hby & Hp) & ? & ?).
    unfold entry_inv. split_ands; try done. exists p. split; [done|]. eapply elem_of_delete; [done..|].
    intros [= -> -> Hx]. by apply Hne. }
  assert ((∃ e, c_engaged s0 !! key = Some e ∧ en_token e = token) ∨
          ∀ e, c_engaged s0 !! key = Some e → en_token e ≠ token) as [(e & He & <-)|Hno].
  { destruct (c_engaged s0 !! key) as [e|]; [|by right].
    destruct (decide (en_token e = token)); [left|right]; naive_solver. }
  - destruct (cleanup_hit key e s0 He) as (Heng & Hgs & Hfr & Hts & _).
    intros name e'. rewrite Heng. rewrite lookup_delete_Some. intros [Hne He'].
    destruct (Hothers _ _ He') as (? & ? & (p & ? & ?) & ? & Hf); [congruence|].
    unfold entry_inv, fence_ok. rewrite Hfr, Hgs. split_ands; try done. exists p. auto.
  - rewrite cleanup_miss by done. intros name e He. apply Hothers; [done|].
    intros ->. by apply Hno.
Qed.

Lemma order_perm (order : list ClusterName) s :
  merge_sort string_le order = sorted_keys (c_engaged s) → order ≡ₚ (map_to_list (c_engaged s)).*1.
Proof.
  intros Hm. rewrite <-(merge_sort_Permutation string_le order), Hm. apply merge_sort_Permutation.
Qed.

Lemma run_task_cinv i t order peers s s' :
  c_tasks s !! i = Some t → cinv s →
  run_task c t order peers (set_tasks (delete i (c_tasks s)) s) = Some s' → cinv s'.
Proof.
  intros Ht HI Hr.
  assert (∀ ctx, (if bool_decide (merge_sort string_le order = sorted_keys (c_engaged s))
      then Some ((_ ← recompute c order peers ctx; spawn (TRunnable ctx)) (set_tasks (delete i (c_tasks s)) s)).2
      else None) = Some s' → cinv (set_tasks (delete i (c_tasks s)) s) → cinv s') as Hloop.
  { intros ctx Hx HI1. case_bool_decide as Ho; [|done]. injection Hx as <-. run_m.
    pose proof (recompute_cinv order peers ctx _ (order_perm _ (set_tasks (delete i (c_tasks s)) s) Ho) HI1) as H2.
    destruct (recompute c order peers ctx _) as [[] s2]. by apply (spawn_cinv _ s2). }
  destruct t as [p k n|parent|ctx|ctx|ctx n cl|ctx n cl todo|n|ctx gid|gid|ctx gid];
    [|assert (cinv (set_tasks (delete i (c_tasks s)) s)) as HI1 by (by eapply take_task_cinv)..];
    unfold run_task in Hr.
  - destruct (c_done _ _); [|done]. injection Hr as <-. by eapply cleanup_cinv.
  - clear Hloop. case_bool_decide as Ho; [|done]. injection Hr as <-. apply recompute_cinv; [|done].
    by apply order_perm in Ho.
  - by eapply Hloop.
  - by eapply Hloop.
  - injection Hr as <-. by apply (spawn_cinv _ (set_tasks (delete i (c_tasks s)) s)).
  - injection Hr as <-. by apply start_iter_cinv.
  - injection Hr as <-. by apply start_failed_cinv.
  - injection Hr as <-. by apply renew_tick_cinv.
  - injection Hr as <-. by apply renew_lost_cinv.
  - injection Hr as <-. apply on_guard_cinv; [|done]. intros g e. unfold Release_op. run_m.
    pose proof (Release_fields ctx g e) as Hf. by destruct (Release ctx g e).
Qed.

Lemma cexec_cinv l s s' :
  (∀ parent name cl, l = CEngage parent name cl → w_Err parent (c_world s) = None →
     engaged_by parent name cl (c_fresh s)) →
  cinv s → cexec c l s = Some s' → cinv s'.
Proof.
  intros Hby HI Hs. destruct l as [d|a|p|n|r|parent name cl|ctx|i order peers|i|i]; simpl in Hs.
  - destruct (0 <=? d); [|done]. by injection Hs as <-.
  - by injection Hs as <-.
  - injection Hs as <-. eapply (cinv_frame s); simpl; auto using same_guards_refl.
  - injection Hs as <-. eapply (cinv_frame s); simpl; auto using same_guards_refl.
  - by injection Hs as <-.
  - injection Hs as <-. apply Engage_cinv; [|done]. intros He. by apply (Hby parent name cl eq_refl).
  - injection Hs as <-. by apply (spawn_cinv _ s).
  - destruct (c_tasks s !! i) as [t|] eqn:Ht; [|done]. by eapply run_task_cinv.
  - destruct (c_tasks s !! i) as [t|] eqn:Ht; [|done]. simpl in Hs.
    destruct t; try done; (destruct (c_done _ s); [|done]); injection Hs as <-;
      by eapply take_task_cinv.
  - destruct (c_tasks s !! i) as [t|] eqn:Ht; [|done]. simpl in Hs.
    destruct t; try done; (destruct (peers_Run_returns c _ s); [|done]); injection Hs as <-;
      by eapply take_task_cinv.
Qed.
End coordinator_invariant.

(** Nothing known of the calls. *)
Definition somehow (pctx : context) (name : ClusterName) (cl : cluster) (token : nat) : Prop := True.

Section engaged_by.
Context {A : Type} {LC : LeaseClient A} (c : Coordinator).
Implicit Types (s : cstate A).

(** In the run [ls] from [s0], [Engage] was called with these arguments, on a
    context that was live, when [token] was the next address. *)
Definition called_in (s0 : cstate A) (ls : list (clabel A)) (pctx : context) (name : ClusterName)
    (cl : cluster) (token : nat) : Prop :=
  ∃ ls1 ls2 s1, ls = ls1 ++ CEngage pctx name cl :: ls2 ∧ run (cexec c) ls1 s0 = Some s1 ∧
    w_Err pctx (c_world s1) = None ∧ c_fresh s1 = token.

Lemma cinv_weaken (R R' : context → ClusterName → cluster → nat → Prop) s :
  (∀ p n cl t, R p n cl t → R' p n cl t) → cinv c R s → cinv c R' s.
Proof.
  intros HR HI name e He. destruct (HI _ _ He) as (? & ? & (p & ? & ?) & ? & ?).
  unfold entry_inv. split_ands; try done. exists p. auto.
Qed.

Lemma cinv_run s0 ls s : cinit s0 → run (cexec c) ls s0 = Some s → cinv c (called_in s0 ls) s.
Proof.
  intros H0. revert s. induction ls as [|l ls IH] using rev_ind; intros s Hr.
  - injection Hr as <-. intros name e. destruct H0 as (He & _). by rewrite He.
  - rewrite run_app in Hr. destruct (run (cexec c) ls s0) as [s1|] eqn:Hs1; [|done]. simpl in Hr.
    destruct (cexec c l s1) as [s2|] eqn:Hs2; [|done]. injection Hr as <-.
    eapply cexec_cinv; [| |exact Hs2].
    + intros parent name cl -> Hw. by exists ls, [], s1.
    + eapply cinv_weaken; [|by apply IH]. intros p n cl t (ls1 & ls2 & s3 & -> & ? & ? & ?).
      exists ls1, (ls2 ++ [l]), s3. by rewrite <-app_assoc.
Qed.

(** C12 (invariant): after any run of the coordinator, every engaged cluster is under
    its own name and was engaged by a call of [Engage] of that run, with this
    name and cluster and on a context that was live then; a goroutine waits for
    exactly that call's context; and once that context is done the goroutine
    can run, and running it forgets the cluster, cancels the context of a
    started one and starts the release of its fence.  A started cluster always
    has a context and a fence, and its fence is the guard of this process for
    this cluster's Lease. *)
Theorem engaged_clusters_are_cleaned_up s0 ls s name e :
  cinit s0 → run (cexec c) ls s0 = Some s → c_engaged s !! name = Some e →
  en_name e = name ∧
  (en_started e = true → ∃ ctx n gid g, en_ctx e = Some ctx ∧ en_cancel e = Some n ∧
     en_fence e = Some gid ∧ c_guards s !! gid = Some g ∧ g_id g = ID (co_self c) ∧
     g_key g = (FenceNS (co_cfg c), fenceName c name)) ∧
  ∃ ls1 pctx ls2 s1 i,
    ls = ls1 ++ CEngage pctx name (en_cl e) :: ls2 ∧ run (cexec c) ls1 s0 = Some s1 ∧
    c_done pctx s1 = false ∧ en_token e = c_fresh s1 ∧
    c_tasks s !! i = Some (TCleanup pctx name (en_token e)) ∧
    (c_done pctx s = true →
     ∃ s', cexec c (CRun i [] []) s = Some s' ∧ c_engaged s' = delete name (c_engaged s) ∧
       (∀ n, en_started e = true → en_cancel e = Some n → n ∈ cs_cancelled (w_ctxs (c_world s'))) ∧
       (∀ gid, en_fence e = Some gid → TRelease Background gid ∈ c_tasks s')).
Proof.
  intros H0 Hr He. destruct (cinv_run s0 ls s H0 Hr _ _ He) as (Hn & _ & (pctx & Hby & Hp) & Hst & Hf).
  split; [done|]. split.
  - intros Hs. destruct (Hst Hs) as ([ctx Hc] & [n Hcn] & [gid Hg]).
    destruct (Hf _ Hg) as (g & ? & ? & ? & _). by exists ctx, n, gid, g.
  - destruct Hby as (ls1 & ls2 & s1 & -> & Hs1 & Hw & Hfr).
    apply list_elem_of_lookup in Hp as [i Hi]. exists ls1, pctx, ls2, s1, i. split_ands; try done.
    { unfold w_Err, ctx_Err in Hw. unfold c_done. by destruct (done_ctx _ _). }
    intros Hd.
    destruct (cleanup_hit name e (set_tasks (delete i (c_tasks s)) s) He) as (Heng & _ & _ & _ & Hcan & Hrel).
    eexists. simpl. rewrite Hi. simpl. unfold c_done in *. simpl. rewrite Hd. by split_ands.
Qed.
End engaged_by.

(** ** Engage *)
Section engage_properties.
Context {A : Type} {LC : LeaseClient A}.

(** Complement (functional): [Engage] on a live context replaces the engagement of the name
    by a fresh one that is not started, keeps the fence of the one it replaces
    and cancels that one's context, leaves the other clusters alone, and starts
    the cleanup and a recompute; on a context that is done it changes nothing. *)
Theorem Engage_replaces_and_keeps_the_fence parent name cl (s : cstate A) err s' :
  Engage parent name cl s = (err, s') →
  match w_Err parent (c_world s) with
  | Some e => err = Some e ∧ s' = s
  | None =>
      let token := c_fresh s in
      let cur := c_engaged s !! name in
      err = None ∧
      c_engaged s' !! name = Some (MkEngagement token name cl None None false (cur ≫= en_fence) zero_time) ∧
      (∀ n, n ≠ name → c_engaged s' !! n = c_engaged s !! n) ∧
      (∀ n, cur ≫= en_cancel = Some n → n ∈ cs_cancelled (w_ctxs (c_world s'))) ∧
      c_tasks s' = c_tasks s ++ [TCleanup parent name token; TRecompute parent] ∧
      c_guards s' = c_guards s ∧ c_api s' = c_api s
  end.
Proof.
  unfold Engage. run_m. destruct (w_Err parent (c_world s)); simpl; [by intros [= <- <-]|].
  unfold cancel_opt, new_engagement, lift_world, w_cancel.
  destruct (c_engaged s !! name) as [cur|]; [destruct (en_cancel cur) as [n|] eqn:Hc|]; run_m;
    intros [= <- <-]; simpl; rewrite lookup_insert_eq, <-?app_assoc; split_ands; try done;
    try (intros n' Hne; by rewrite lookup_insert_ne); rewrite ?Hc.
  - intros ? [= <-]. set_solver.
  - intros ? [=].
Qed.
End engage_properties.
