(* ===== verification/CoordinatorRaces.v ===== *)
(** * pkg/manager/coordinator/sharded: witnesses and races

    A concrete coordinator over the concrete Lease server, the reachable states
    that the interleavings of its goroutines produce, and the witnesses of
    [Coordinator.v]. *)

From S2P Require Import Prelude GoErrors GoContext GoNum Multicluster Sharder LeaseAPI LeaseGuard Peers Coordinator.
Open Scope Z_scope.

Definition co0 : Coordinator := New "peer-0" [].
Definition co1 : Coordinator := New "peer-1" [].

(** A started process whose Lease server goes through the faults [fs]. *)
Definition proc0 (fs : list fault) : cstate store :=
  CState (MkStore [] 0 fs) empty_world 1 ∅ [] [] 0 [].

Lemma proc0_init fs : cinit (proc0 fs).
Proof. done. Qed.

Definition ctx_of (n : nat) : context := Ctx [n] [].

Definition run0 (fs : list fault) (ls : list (clabel store)) : cstate store :=
  default (proc0 fs) (run (cexec co0) ls (proc0 fs)).

Definition enabled (fs : list fault) (ls : list (clabel store)) : bool :=
  match run (cexec co0) ls (proc0 fs) with Some _ => true | None => false end.

Lemma run0_reachable fs ls : enabled fs ls = true → reachable (cexec co0) cinit (run0 fs ls).
Proof.
  unfold enabled, run0. destruct (run (cexec co0) ls (proc0 fs)) as [s|] eqn:E; [intros _|done].
  eapply run_reachable; [apply reach_init, (proc0_init fs)|exact E].
Qed.

(** A started cluster that is still ours is left alone by every recompute. *)
Lemma recompute_keeps_started {A} {LC : LeaseClient A} (c : Coordinator) order peers parent (s : cstate A) name e :
  NoDup order → should c peers name = true → c_engaged s !! name = Some e → en_started e = true →
  c_engaged (recompute c order peers parent s).2 !! name = Some e.
Proof.
  intros Hnd Hsh He Hst.
  destruct (recompute_spec c order peers parent s Hnd) as (pl & s1 & _ & Ho & Hd & -> & _).
  destruct (decide (name ∈ order)) as [Hin|Hout]; [|by rewrite Ho].
  specialize (Hd _ Hin). unfold decided in Hd. rewrite He in Hd.
  destruct Hd as (e' & -> & _ & _ & _ & _ & Hd). rewrite Hsh, Hst in Hd. by subst.
Qed.

Lemma no_task (f : task → bool) t ts : forallb f ts && negb (f t) = true → t ∉ ts.
Proof.
  intros [Hf Hn]%andb_prop Hin. rewrite forallb_forall in Hf.
  apply list_elem_of_In in Hin. by rewrite (Hf _ Hin) in Hn.
Qed.

Definition not_renew (t : task) : bool := match t with TRenew _ _ => false | _ => true end.
Definition not_release (t : task) : bool := match t with TRelease _ _ => false | _ => true end.

(** ** A renewal fails while a recompute is due

    [onLost] marks the cluster stopped; before the renew loop goes on to
    [Release], a recompute finds the guard still held and starts the cluster
    again; then the release clears the Lease. *)
Definition lost_faults : list fault := [NoFault; NoFault; FailBefore].

Definition lost_labels : list (clabel store) :=
  [CNewCtx Background; CEngage (ctx_of 0) "zoo" 7%nat;
   CRun 1 ["zoo"] [co_self co0];     (* TryAcquire creates the Lease; the cluster starts *)
   CTick (10 * Second);
   CRun 1 [] [];                     (* the renewal fails *)
   CRun 2 [] [];                     (* onLost *)
   CRunnable (ctx_of 0);
   CRun 3 ["zoo"] [co_self co0];     (* the guard is held: the cluster starts again *)
   CRun 2 [] []].                    (* the release *)


(** ** A cluster is started on another cluster's context

    Engaging "zoo" kicks off a recompute under zoo's context, which starts
    every cluster that is due, "ant" included. *)
Definition parent_labels : list (clabel store) :=
  [CNewCtx Background; CNewCtx Background;
   CEngage (ctx_of 0) "zoo" 7%nat; CEngage (ctx_of 1) "ant" 8%nat;
   CRun 1 ["ant"; "zoo"] [co_self co0];
   CCancelCtx 0%nat;                   (* zoo is removed *)
   CRun 0 [] []].                    (* and cleaned up *)

(** Complement (liveness): a cluster can be stopped by the removal of another one and
    never be started again: the coordinator reaches a state in which "zoo" is
    gone, and "ant", whose own context is live and which is still assigned to
    this process and fenced, counts as started on a context that is done; every
    further recompute leaves it so. *)
Theorem cluster_can_die_with_another :
  ∃ (s : cstate store) e g ctx,
    reachable (cexec co0) cinit s ∧
    c_engaged s !! "zoo" = None ∧ c_engaged s !! "ant" = Some e ∧
    TCleanup (ctx_of 1) "ant" (en_token e) ∈ c_tasks s ∧ c_done (ctx_of 1) s = false ∧
    should co0 [co_self co0] "ant" = true ∧
    en_started e = true ∧ en_ctx e = Some ctx ∧ c_done ctx s = true ∧
    (∃ gid, en_fence e = Some gid ∧ c_guards s !! gid = Some g ∧ g_held g = true) ∧
    (∀ order parent, NoDup order →
       c_engaged (recompute co0 order [co_self co0] parent s).2 !! "ant" = Some e).
Proof.
  set (s := run0 [] parent_labels).
  destruct (c_engaged s !! "ant") as [e|] eqn:He; [|by vm_compute in He].
  destruct (c_guards s !! 0%nat) as [g|] eqn:Hg; [|by vm_compute in Hg].
  destruct (en_ctx e) as [ctx|] eqn:Hc; [|by vm_compute in He; injection He as <-].
  exists s, e, g, ctx.
  assert (en_started e = true) as Hst by (vm_compute in He; by injection He as <-).
  split; [apply run0_reachable; by vm_compute|]. split; [by vm_compute|]. split; [exact He|]. split_ands.
  - vm_compute in He. injection He as <-. apply list_elem_of_lookup. exists 0%nat. by vm_compute.
  - by vm_compute.
  - by vm_compute.
  - exact Hst.
  - exact Hc.
  - vm_compute in He. injection He as <-. vm_compute in Hc. injection Hc as <-. by vm_compute.
  - exists 0%nat. vm_compute in He. injection He as <-. vm_compute in Hg. by injection Hg as <-.
  - intros order parent Hnd. apply recompute_keeps_started; [exact Hnd|by vm_compute|exact He|exact Hst].
Qed.

(** ** A re-engaged cluster moves away

    Re-engaging "zoo" keeps its fence and marks it not started; when the next
    recompute no longer assigns it to this process, nothing releases the fence. *)
Definition other_peer : PeerInfo := MkPeer "peer-9" 1.

Definition leak_labels : list (clabel store) :=
  [CNewCtx Background; CNewCtx Background;
   CEngage (ctx_of 0) "zoo" 7%nat;
   CRun 1 ["zoo"] [co_self co0];
   CEngage (ctx_of 1) "zoo" 7%nat;   (* re-engaged: the fence is kept *)
   CRun 4 ["zoo"] [other_peer]].     (* now another peer's *)

(** Complement (liveness): a fence can be kept by a process that does not run the cluster
    and is not to: the coordinator reaches a state in which "zoo" is not
    started and assigned to another peer, while its guard is held, its renew
    loop is live and no release is pending; every further recompute under that
    assignment changes nothing, so the other peer cannot take the fence. *)
Theorem fence_can_be_kept_for_nothing :
  ∃ (s : cstate store) e g,
    reachable (cexec co0) cinit s ∧
    c_engaged s !! "zoo" = Some e ∧ en_started e = false ∧
    should co0 [other_peer] "zoo" = false ∧
    en_fence e = Some 0%nat ∧ c_guards s !! 0%nat = Some g ∧ g_held g = true ∧
    (∃ ctx, TRenew ctx 0 ∈ c_tasks s ∧ c_done ctx s = false) ∧
    (∀ ctx gid, TRelease ctx gid ∉ c_tasks s) ∧
    (∀ parent, (recompute co0 ["zoo"] [other_peer] parent s).2 = s).
Proof.
  set (s := run0 [] leak_labels).
  destruct (c_engaged s !! "zoo") as [e|] eqn:He; [|by vm_compute in He].
  destruct (c_guards s !! 0%nat) as [g|] eqn:Hg; [|by vm_compute in Hg].
  exists s, e, g. split; [apply run0_reachable; by vm_compute|].
  split; [exact He|]. vm_compute in He. injection He as <-. split_ands.
  - by vm_compute.
  - by vm_compute.
  - by vm_compute.
  - exact Hg.
  - vm_compute in Hg. by injection Hg as <-.
  - exists (ctx_of 2). split; [|by vm_compute]. apply list_elem_of_lookup. exists 1%nat. by vm_compute.
  - intros ctx gid. apply (no_task not_release). by vm_compute.
  - intros parent. by vm_compute.
Qed.

(** ** Witnesses *)

(** "zoo" engaged and due. *)
Definition due (fs : list fault) : cstate store :=
  run0 fs [CNewCtx Background; CEngage (ctx_of 0) "zoo" 7%nat].

Definition zoo_engagement (s : cstate store) : engagement :=
  default (MkEngagement 0 "" 0%nat None None false None 0) (c_engaged s !! "zoo").

Lemma recompute_decides_witness :
  let s' := (recompute co0 ["zoo"] [co_self co0] (ctx_of 0) (due [])).2 in
  should co0 [co_self co0] "zoo" = true ∧ en_started (zoo_engagement s') = true ∧
  ∃ e', c_engaged s' !! "zoo" = Some e' ∧ en_token e' = 0%nat.
Proof.
  intros s'. split; [by vm_compute|]. split; [by vm_compute|].
  destruct (recompute_decides co0 ["zoo"] [co_self co0] (ctx_of 0) (due []) "zoo" (zoo_engagement (due [])))
    as (e' & He' & Ht & _).
  - apply NoDup_singleton.
  - by left.
  - by vm_compute.
  - exists e'. split; [exact He'|]. rewrite Ht. by vm_compute.
Defined.

(** Two processes; "zoo" is peer 1's under the common snapshot. *)
Definition snapshot2 : list PeerInfo := [co_self co0; MkPeer "peer-1" 1].

Definition co_1 : Coordinator := MkCoordinator (co_sharder co0) (co_peers co0) (MkPeer "peer-1" 1) (co_cfg co0).

Lemma one_coordinator_runs_a_cluster_witness :
  let e0 := zoo_engagement (recompute co0 ["zoo"] snapshot2 (ctx_of 0) (due [])).2 in
  let e1 := zoo_engagement (recompute co_1 ["zoo"] snapshot2 (ctx_of 0) (due [])).2 in
  en_started e1 = true ∧ en_started e0 = false.
Proof.
  split; [by vm_compute|].
  eapply (one_coordinator_runs_a_cluster co_1 co0 ["zoo"] ["zoo"] snapshot2 (ctx_of 0) (ctx_of 0)
    (due []) (due []) "zoo").
  - apply HRW_ExactlyOneOwner.
  - reflexivity.
  - by apply (bool_decide_unpack _); vm_compute.
  - by right; left.
  - by left.
  - intros H. by vm_compute in H.
  - apply NoDup_singleton.
  - apply NoDup_singleton.
  - by left.
  - by left.
  - by vm_compute.
  - by vm_compute.
  - by vm_compute.
Defined.

(** "zoo" engaged, and its context done. *)
Definition over_labels : list (clabel store) :=
  [CNewCtx Background; CEngage (ctx_of 0) "zoo" 7%nat; CRun 1 ["zoo"] [co_self co0]; CCancelCtx 0%nat].

Definition engage_ctx (l : clabel store) : option context :=
  match l with CEngage pctx _ _ => Some pctx | _ => None end.

Lemma engaged_clusters_are_cleaned_up_witness :
  let s := run0 [] over_labels in
  c_engaged s !! "zoo" = Some (zoo_engagement s) ∧ en_started (zoo_engagement s) = true ∧
  ∃ i s', cexec co0 (CRun i [] []) s = Some s' ∧ c_engaged s' = delete "zoo" (c_engaged s).
Proof.
  intros s. split; [by vm_compute|]. split; [by vm_compute|].
  assert (run (cexec co0) over_labels (proc0 []) = Some s) as Hrun by (by vm_compute).
  assert (c_engaged s !! "zoo" = Some (zoo_engagement s)) as He by (by vm_compute).
  destruct (engaged_clusters_are_cleaned_up co0 (proc0 []) over_labels s "zoo" (zoo_engagement s) (proc0_init []) Hrun He)
    as (_ & _ & ls1 & pctx & ls2 & s1 & i & Hls & _ & _ & _ & _ & Hdone).
  assert (pctx = ctx_of 0) as ->.
  { apply (f_equal (omap engage_ctx)) in Hls. rewrite omap_app in Hls. cbn in Hls.
    by destruct (omap engage_ctx ls1) as [|? []]; injection Hls. }
  destruct Hdone as (s' & Hs' & Hd & _); [by vm_compute|]. exists i, s'. exact (conj Hs' Hd).
Defined.

Lemma Engage_replaces_and_keeps_the_fence_witness :
  (Engage (ctx_of 0) "zoo" 7%nat (due [])).1 = None ∧
  en_token (zoo_engagement (Engage (ctx_of 0) "zoo" 7%nat (due [])).2) = 1%nat.
Proof.
  pose proof (Engage_replaces_and_keeps_the_fence (ctx_of 0) "zoo" 7%nat (due []) _ _ (surjective_pairing _)) as H.
  split; [apply H|]. by vm_compute.
Defined.
