(* ===== verification/ProcessGroup.v ===== *)
(** * A group of processes that share the clusters

    Several processes, each with its peer registry
    ([sharded/peers/registry.go]) and its coordinator
    ([sharded/coordinator.go]), against one Lease server and one clock.  A step
    of [gexec] is a step of one process: of its registry's loop, which publishes
    the process and lists the others in turn, or of its coordinator, whose
    recomputations read the registry's snapshot.  A process that has crashed is
    one that takes no more steps.

    The first part shows what the coordinator does to the server: it writes the
    fences of clusters and nothing else; and what a recomputation does when the
    server answers.  The second part puts the components together: whatever has
    happened, the processes that are left can take over, and as long as they see
    the same peers they exclude each other. *)

From S2P Require Import Prelude GoErrors GoContext GoNum Multicluster Sanitize Sharder LeaseAPI LeaseGuard Peers Coordinator CoordinatorRaces.
Open Scope Z_scope.

(** ** What a call does to the server *)

(** Only the Leases [P] change. *)
Record moves (P : key → Prop) (a a' : store) : Prop := {
  mv_ok : store_ok a';
  mv_same k : ¬ P k → lookup_lease (st_leases a') k = lookup_lease (st_leases a) k;
  mv_faults : st_faults a = [] → st_faults a' = [];
}.

Lemma moves_refl P a : store_ok a → moves P a a.
Proof. by split. Qed.

Lemma moves_trans P a1 a2 a3 : moves P a1 a2 → moves P a2 a3 → moves P a1 a3.
Proof. intros [O1 S1 F1] [O2 S2 F2]. split; [done| |auto]. intros k Hk. by rewrite S2, S1. Qed.

Lemma moves_sub (P Q : key → Prop) a a' : (∀ k, P k → Q k) → moves P a a' → moves Q a a'.
Proof. intros HPQ [O S F]. split; [done| |done]. intros k Hk. apply S. intros Hp. by apply Hk, HPQ. Qed.

Lemma take_fault_moves P a f a' : take_fault a = (f, a') → store_ok a → moves P a a'.
Proof.
  intros E Hok. destruct (take_fault_spec _ _ _ E) as [Hl Hn]. split.
  - by eapply store_ok_faults.
  - by rewrite Hl.
  - intros Hf. unfold take_fault in E. rewrite Hf in E. by injection E as _ <-.
Qed.

Lemma write_moves (P : key → Prop) l a : P (l_key l) → store_ok a → moves P a (write_lease l a).
Proof.
  intros HP Hok. split; [by apply store_ok_write| |done].
  intros k Hk. rewrite lookup_write, decide_False; [done|]. by intros ->.
Qed.

Lemma Get_moves P k a : store_ok a → moves P a (store_Get k a).2.
Proof.
  intros Hok. unfold store_Get. destruct (take_fault a) as [f a1] eqn:E.
  pose proof (take_fault_moves P _ _ _ E Hok). by destruct f.
Qed.

Lemma Get_found k a l a' : store_Get k a = (Found l, a') → lookup_lease (st_leases a) k = Some l.
Proof.
  unfold store_Get. destruct (take_fault a) as [f a1] eqn:E. apply take_fault_spec in E as [Hl _].
  destruct f; [|done..]. rewrite Hl. destruct (lookup_lease _ k); [|done]. by intros [= <- _].
Qed.

Lemma guarded_write_moves (P : key → Prop) ok conflict l a :
  P (l_key l) → store_ok a → moves P a (guarded_write ok conflict l a).2.
Proof.
  intros HP Hok. unfold guarded_write. destruct (take_fault a) as [f a1] eqn:E.
  pose proof (take_fault_moves P _ _ _ E Hok) as H1.
  destruct (ok a1), f; simpl; try done; (eapply moves_trans; [exact H1|]; apply write_moves; [done|apply H1]).
Qed.

Lemma Create_moves (P : key → Prop) l a : P (l_key l) → store_ok a → moves P a (store_Create l a).2.
Proof. apply guarded_write_moves. Qed.

Lemma Update_moves (P : key → Prop) l a : P (l_key l) → store_ok a → moves P a (store_Update l a).2.
Proof. apply guarded_write_moves. Qed.

(** A Lease is read and written back, or not. *)
Lemma read_write_moves (P : key → Prop) k a a1 ls l :
  P k → store_ok a → store_Get k a = (Found ls, a1) → l_key l = l_key ls → moves P a (store_Update l a1).2.
Proof.
  intros HP Hok EG Hk. pose proof (Get_moves P k a Hok) as HG. rewrite EG in HG. simpl in HG.
  destruct (Hok _ _ (Get_found _ _ _ _ EG)) as [Hls _].
  eapply moves_trans; [exact HG|]. apply Update_moves; [congruence|apply HG].
Qed.

#[local] Arguments store_Get : simpl never.
#[local] Arguments store_Create : simpl never.
#[local] Arguments store_Update : simpl never.

(** An operation of a guard whose Lease is one of [P]. *)
Definition guard_moves {B} (P : key → Prop) (op : leaseGuard → M (env store) (B * leaseGuard)) : Prop :=
  ∀ g e, P (g_key g) → store_ok (e_api e) →
    g_key (op g e).1.2 = g_key g ∧ moves P (e_api e) (e_api (op g e).2).

Lemma TryAcquire_moves P ctx : guard_moves P (TryAcquire (A:=store) ctx).
Proof.
  intros g e HP Hok. destruct (g_held g) eqn:Hh; [unfold TryAcquire; rewrite Hh; by split; [|apply moves_refl]|].
  destruct (done_ctx ctx (e_ctxs e)) eqn:Hd; [rewrite TryAcquire_done by done; by split; [|apply moves_refl]|].
  rewrite TryAcquire_live by done.
  pose proof (Get_moves P (g_key g) (e_api e) Hok) as HG. pose proof (λ l ls a1, read_write_moves P (g_key g) (e_api e) a1 ls l HP Hok) as HU.
  simpl. destruct (store_Get (g_key g) (e_api e)) as [[ls| |er] a1]; simpl in *; [| |done].
  - destruct (acquire_adopt g (e_now e) ls) as [l|] eqn:EA; [|done].
    specialize (HU l ls a1 eq_refl (proj1 (acquire_adopt_Some _ _ _ _ EA))).
    simpl. by destruct (store_Update l a1) as [[er|] a2]; split.
  - pose proof (Create_moves P (acquire_create g (e_now e)) a1 HP (mv_ok _ _ _ HG)) as HC.
    apply (moves_trans _ _ _ _ HG) in HC. simpl. by destruct (store_Create _ a1) as [[er|] a2]; split.
Qed.

Lemma renewOnce_moves (P : key → Prop) ctx k g (e : env store) :
  P k → store_ok (e_api e) → moves P (e_api e) (e_api (renewOnce ctx g k e).2).
Proof.
  intros HP Hok. destruct (done_ctx ctx (e_ctxs e)) eqn:Hd; [rewrite renewOnce_done by done; by apply moves_refl|].
  rewrite renewOnce_live by done. simpl.
  pose proof (Get_moves P k (e_api e) Hok) as HG. pose proof (λ l ls a1, read_write_moves P k (e_api e) a1 ls l HP Hok) as HU.
  destruct (store_Get k (e_api e)) as [[ls| |er] a1]; simpl in *; [|done..].
  destruct (renew_write g (e_now e) ls) as [l|] eqn:EA; [|done].
  specialize (HU l ls a1 eq_refl (proj1 (renew_write_Some _ _ _ _ EA))). simpl. by destruct (store_Update l a1).
Qed.

Lemma renew_op_moves (P : key → Prop) ctx k : P k → guard_moves P (renew_op (A:=store) ctx k).
Proof.
  intros HP g e _ Hok. pose proof (renewOnce_moves P ctx k g e HP Hok) as Hm. unfold renew_op. run_m.
  by destruct (renewOnce ctx g k e).
Qed.

Lemma Release_op_moves P ctx : guard_moves P (Release_op (A:=store) ctx).
Proof.
  intros g e HP Hok. unfold Release_op. rewrite bind_eq, Release_eq. unfold stop_loop. destruct (g_held g); simpl; [|by split; [|apply moves_refl]].
  destruct (done_ctx ctx _); simpl; [by split; [|apply moves_refl]|].
  change (g_key (set_held false (g_cancel g) g)) with (g_key g).
  pose proof (Get_moves P (g_key g) (e_api e) Hok) as HG. pose proof (λ l ls a1, read_write_moves P (g_key g) (e_api e) a1 ls l HP Hok) as HU.
  destruct (store_Get (g_key g) (e_api e)) as [[ls| |er] a1]; simpl in *; [|done..].
  destruct (release_write _ ls) as [l|] eqn:EA; [|done].
  specialize (HU l ls a1 eq_refl (proj1 (release_write_Some _ _ _ EA))). simpl. by destruct (store_Update l a1); split.
Qed.

(** ** What the coordinator does to the server *)
Section tidy.
Context (c : Coordinator).

Definition fence_key (name : ClusterName) : key := (FenceNS (co_cfg c), fenceName c (ClusterName_String name)).
Definition is_fence (k : key) : Prop := ∃ name, k = fence_key name.

Definition guards_ok (s : cstate store) : Prop := ∀ gid g, c_guards s !! gid = Some g → is_fence (g_key g).

(** A computation that writes fences only and makes guards of fences only. *)
Definition tidy {B} (m : M (cstate store) B) : Prop :=
  ∀ s, guards_ok s → store_ok (c_api s) → guards_ok (m s).2 ∧ moves is_fence (c_api s) (c_api (m s).2).

Lemma tidy_ret {B} (b : B) : tidy (mret b).
Proof. intros s HG Hok. split; [done|by apply moves_refl]. Qed.

Lemma tidy_gets {B} (f : cstate store → B) : tidy (gets f).
Proof. intros s HG Hok. split; [done|by apply moves_refl]. Qed.

Lemma tidy_bind {B B'} (m : M (cstate store) B) (k : B → M (cstate store) B') :
  tidy m → (∀ b, tidy (k b)) → tidy (b ← m; k b).
Proof.
  intros Hm Hk s HG Hok. rewrite bind_eq. destruct (Hm s HG Hok) as [HG1 HM1]. destruct (m s) as [b s1]. simpl in *.
  destruct (Hk b s1 HG1 (mv_ok _ _ _ HM1)) as [HG2 HM2]. split; [done|by eapply moves_trans].
Qed.

Lemma tidy_modify f : (∀ s, c_guards (f s) = c_guards s ∧ c_api (f s) = c_api s) → tidy (modify f).
Proof.
  intros Hf s HG Hok. destruct (Hf s) as [E1 E2]. unfold modify. simpl. rewrite E2. split; [|by apply moves_refl].
  intros gid g. rewrite E1. apply HG.
Qed.

Lemma tidy_lift {B} (m : M world B) : tidy (lift_world m).
Proof. intros s HG Hok. unfold lift_world. destruct (m (c_world s)). split; [done|by apply moves_refl]. Qed.

Lemma tidy_put name e : tidy (put_engm name e).
Proof. by apply tidy_modify. Qed.

Lemma tidy_spawn t : tidy (spawn t).
Proof. by apply tidy_modify. Qed.

Lemma tidy_cancel n : tidy (cancel_opt n).
Proof. destruct n; [apply tidy_lift|apply tidy_ret]. Qed.

Lemma tidy_guard {B} gid (d : B) op : guard_moves is_fence op → tidy (on_guard gid d op).
Proof.
  intros Hop s HG Hok. unfold on_guard. destruct (c_guards s !! gid) as [g|] eqn:Hg; [|split; [done|by apply moves_refl]].
  destruct (Hop g (Env (c_api s) (w_ctxs (c_world s)) (c_now s) []) (HG _ _ Hg) Hok) as [Hk Hm].
  destruct (op g _) as [[b g'] e]. simpl in *. split; [|done].
  intros gid' g0 [(-> & <- & _)|[_ Hg0]]%list_lookup_insert_Some; [rewrite Hk; by eapply HG|by eapply HG].
Qed.

Lemma tidy_new_guard g : is_fence (g_key g) → tidy (new_guard g).
Proof.
  intros Hg s HG Hok. split; [|by apply moves_refl]. intros gid g0 [Hx|[_ Hx]]%lookup_app_Some; [by eapply HG|].
  by apply list_lookup_singleton_Some in Hx as [_ <-].
Qed.

Lemma tidy_for_each {X} (l : list X) body : (∀ x, tidy (body x)) → tidy (for_each l body).
Proof. intros Hb. induction l as [|x l IH]; simpl; [apply tidy_ret|]. apply tidy_bind; [apply Hb|done]. Qed.

Lemma tidy_for_range {X} (l : list X) (body : X → M (cstate store) (option error)) :
  (∀ x, tidy (body x)) → tidy (for_range l body).
Proof.
  intros Hb. induction l as [|x l IH]; simpl; [apply tidy_ret|]. unfold on_nil. apply tidy_bind; [apply Hb|].
  intros [e|]; [apply tidy_ret|done].
Qed.
End tidy.

#[local] Hint Resolve tidy_ret tidy_gets tidy_lift tidy_put tidy_spawn tidy_cancel TryAcquire_moves Release_op_moves : tidy.

(** Follow the code: sequences, branches, and the leaves above. *)
Ltac tidying :=
  repeat first
    [ progress cbv zeta | progress cbn beta iota
    | apply tidy_bind; [|intros ?]
    | apply tidy_for_each; intros ? | apply tidy_for_range; intros ?
    | apply tidy_guard
    | match goal with |- tidy _ (match ?x with _ => _ end) => destruct x end
    | solve [auto with tidy] ].

Section coordinator_tidy.
Context (c : Coordinator).

Lemma ensure_fence_tidy name e : tidy c (ensure_fence c name e).
Proof.
  unfold ensure_fence. destruct (en_fence e); [apply tidy_ret|]. apply tidy_bind; [|intros gid; tidying].
  apply tidy_new_guard. by exists name.
Qed.

Lemma recompute_tidy order peers parent : tidy c (recompute c order peers parent).
Proof.
  unfold recompute. tidying. generalize (MkPlan [] []). induction order as [|name order IH]; intros pl; simpl; [apply tidy_ret|].
  apply tidy_bind; [|done]. unfold recompute_one. pose proof ensure_fence_tidy. tidying.
Qed.

Lemma onLost_tidy name : tidy c (onLost name).
Proof. unfold onLost. tidying. Qed.

Lemma renew_tick_tidy ctx gid : tidy c (renew_tick ctx gid).
Proof.
  assert (∀ g, is_fence c (g_key g) → tidy c (ok ← on_guard gid false (renew_op ctx (g_key g)); if ok : bool then spawn (TRenew ctx gid) else
      spawn (TLost gid))) as Hgo.
  { intros g Hk. pose proof (renew_op_moves (is_fence c) ctx (g_key g) Hk). tidying. }
  intros s HG. unfold renew_tick. rewrite bind_eq. unfold gets. cbv beta iota.
  destruct (c_guards s !! gid) as [g|] eqn:Hg; [|by apply (tidy_ret c tt s)]. apply (Hgo g (HG gid g Hg) s); done.
Qed.

Lemma renew_lost_tidy gid : tidy c (renew_lost gid).
Proof. unfold renew_lost. pose proof onLost_tidy. tidying. Qed.

Lemma Engage_tidy parent name cl : tidy c (Engage parent name cl).
Proof.
  unfold Engage. assert (∀ f, tidy c (new_engagement name cl f)) by (intros f s HG Hok; split; [done|by apply moves_refl]). tidying.
Qed.

Lemma cleanup_tidy name t : tidy c (cleanup name t).
Proof. unfold cleanup. tidying. by apply tidy_modify. Qed.

Lemma startForCluster_tidy ctx name cl : tidy c (startForCluster ctx name cl).
Proof. unfold startForCluster. tidying. Qed.

Lemma start_iter_tidy ctx name cl todo : tidy c (start_iter ctx name cl todo).
Proof. unfold start_iter, engage_aware. tidying. Qed.

Lemma start_failed_tidy name : tidy c (start_failed name).
Proof. unfold start_failed. tidying. Qed.

(** A step of the coordinator writes the fences of clusters, and nothing else. *)
Definition its_own (l : clabel store) : bool := match l with CTick _ | CApi _ => false | _ => true end.

Lemma tidy_step {B} (m : M (cstate store) B) s0 s s' :
  tidy c m → c_guards s = c_guards s0 → c_api s = c_api s0 → guards_ok c s0 → store_ok (c_api s0) → Some (m s).2 = Some s' →
  guards_ok c s' ∧ moves (is_fence c) (c_api s0) (c_api s').
Proof. intros Hm E1 E2 HG Hok [= <-]. rewrite <-E2. apply Hm; [unfold guards_ok; by rewrite E1|by rewrite E2]. Qed.

Lemma run_task_tidy t order peers s0 s s' :
  c_guards s = c_guards s0 → c_api s = c_api s0 → guards_ok c s0 → store_ok (c_api s0) → run_task c t order peers s = Some s' →
  guards_ok c s' ∧ moves (is_fence c) (c_api s0) (c_api s').
Proof.
  intros E1 E2 HG Hok Hs. 
  assert (∀ ctx, tidy c (_ ← recompute c order peers ctx; spawn (TRunnable ctx))) as Hloop.
  { intros ctx. apply tidy_bind; [apply recompute_tidy|intros _; apply tidy_spawn]. }
  destruct t as [p k n|parent|ctx|ctx|ctx n cl|ctx n cl todo|n|ctx gid|gid|ctx gid]; unfold run_task in Hs.
  - destruct (c_done p s); [|done]. eapply (tidy_step (cleanup k n)); eauto using cleanup_tidy.
  - destruct (bool_decide _); [|done]. eapply (tidy_step (recompute c order peers parent)); eauto using recompute_tidy.
  - destruct (bool_decide _); [|done]. by eapply (tidy_step (_ ← recompute c order peers ctx; spawn (TRunnable ctx))).
  - destruct (bool_decide _); [|done]. by eapply (tidy_step (_ ← recompute c order peers ctx; spawn (TRunnable ctx))).
  - eapply (tidy_step (startForCluster ctx n cl)); eauto using startForCluster_tidy.
  - eapply (tidy_step (start_iter ctx n cl todo)); eauto using start_iter_tidy.
  - eapply (tidy_step (start_failed n)); eauto using start_failed_tidy.
  - eapply (tidy_step (renew_tick ctx gid)); eauto using renew_tick_tidy.
  - eapply (tidy_step (renew_lost gid)); eauto using renew_lost_tidy.
  - eapply (tidy_step (on_guard gid tt (Release_op ctx))); [|done..]. apply tidy_guard, Release_op_moves.
Qed.

Lemma cexec_tidy l s s' :
  its_own l = true → guards_ok c s → store_ok (c_api s) → cexec c l s = Some s' →
  guards_ok c s' ∧ moves (is_fence c) (c_api s) (c_api s').
Proof.
  intros Hown HG Hok Hs. destruct l as [d|a|p|n|r|parent name cl|ctx|i order peers|i|i]; try done; simpl in Hs.
  - eapply (tidy_step (lift_world (w_WithCancel p)) s s); eauto using tidy_lift.
  - eapply (tidy_step (lift_world (w_cancel n)) s s); eauto using tidy_lift.
  - eapply (tidy_step (AddAware r) s s); eauto. by apply tidy_modify.
  - eapply (tidy_step (Engage parent name cl) s s); eauto using Engage_tidy.
  - eapply (tidy_step (spawn (TBegin ctx)) s s); eauto using tidy_spawn.
  - destruct (c_tasks s !! i) as [t|]; [|done]. by eapply (run_task_tidy t order peers s (set_tasks (delete i (c_tasks s)) s)).
  - destruct (c_tasks s !! i) as [t|]; [|done]. simpl in Hs.
    destruct t; try done; (destruct (c_done _ s); [|done]); injection Hs as <-; (split; [done|by apply moves_refl]).
  - destruct (c_tasks s !! i) as [t|]; [|done]. simpl in Hs.
    destruct t; try done; (destruct (peers_Run_returns c _ s); [|done]); injection Hs as <-; (split; [done|by apply moves_refl]).
Qed.
End coordinator_tidy.

(** ** A recomputation against a server that answers *)
Section starts.
Context (c : Coordinator).

Lemma on_guard_acquires ctx gid (s : cstate store) g :
  c_guards s !! gid = Some g → c_done ctx s = false → st_faults (c_api s) = [] → store_ok (c_api s) →
  (∀ l, lookup_lease (st_leases (c_api s)) (g_key g) = Some l → expired l (c_now s) = true) →
  ∃ s', on_guard gid false (TryAcquire ctx) s = (true, s') ∧ c_engaged s' = c_engaged s.
Proof.
  intros Hg Hlive Hf Hok Hx. unfold on_guard. rewrite Hg. set (e := Env _ _ _ _).
  assert ((TryAcquire ctx g e).1.1 = true) as Hb.
  { destruct (g_held g) eqn:Hh; [unfold TryAcquire; by rewrite Hh|].
    destruct (TryAcquire_free ctx g e) as (l & -> & _); [done..| |done].
    intros l Hl. right. right. by apply Hx. }
  destruct (TryAcquire ctx g e) as [[b g'] e']. simpl in Hb. subst b. by eexists.
Qed.

(** A cluster that is ours, due, and whose fence has run out is started. *)
Lemma recompute_one_starts parent peers pl name (s : cstate store) e :
  c_engaged s !! name = Some e → en_started e = false → should c peers name = true → en_nextTry e <= c_now s →
  (∀ gid, en_fence e = Some gid → fence_ok c s name gid) → c_done parent s = false →
  st_faults (c_api s) = [] → store_ok (c_api s) →
  (∀ l, lookup_lease (st_leases (c_api s)) (fence_key c name) = Some l → expired l (c_now s) = true) →
  ∃ e', c_engaged (recompute_one c parent peers (c_now s) pl name s).2 !! name = Some e' ∧ en_started e' = true.
Proof.
  intros He Hst Hsh Htry Hf Hlive Hfl Hok Hx. unfold recompute_one. rewrite bind_eq. unfold gets. cbv beta iota.
  rewrite He, Hst. fold (should c peers name). rewrite Hsh. cbn [negb andb]. rewrite bind_eq.
  assert (∃ gid e1 s1 g, ensure_fence c name e s = ((gid, e1), s1) ∧ en_nextTry e1 = en_nextTry e ∧ c_now s1 = c_now s ∧
    c_api s1 = c_api s ∧ c_world s1 = c_world s ∧ c_guards s1 !! gid = Some g ∧ g_key g = fence_key c name) as (gid & e1 & s1 & g & -> & Ht & Hn & Ha & Hw & Hg & Hk).
  { unfold ensure_fence. destruct (en_fence e) as [gid|] eqn:Hfe.
    - destruct (Hf gid eq_refl) as (g & Hg & Hk & _). by exists gid, e, s, g.
    - eexists _, _, _, _. split; [reflexivity|]. split_ands; try reflexivity; [simpl; by apply list_lookup_middle|done]. }
  cbv beta iota. rewrite Ht. destruct (Z.ltb_spec (c_now s) (en_nextTry e)); [lia|]. rewrite bind_eq.
  destruct (on_guard_acquires parent gid s1 g Hg) as (s2 & -> & Heq); [unfold c_done; by rewrite Hw|by rewrite Ha|by rewrite Ha|by rewrite Ha, Hn, Hk|].
  cbn [negb]. rewrite bind_eq. destruct (lift_world (w_WithCancel parent) s2) as [[ctx n] s3]. cbv beta iota.
  unfold put_engm. run_m. rewrite lookup_insert_eq. by eexists.
Qed.

Lemma recompute_engaged order peers parent (s : cstate store) :
  c_engaged (recompute c order peers parent s).2 = c_engaged (recompute_loop c parent peers (c_now s) order (MkPlan [] []) s).2.
Proof.
  unfold recompute. rewrite bind_eq. unfold gets. cbv beta iota. rewrite bind_eq.
  destruct (recompute_loop _ _ _ _ _ _ s) as [pl s1]. rewrite bind_eq, cancel_all_spec. by rewrite spawn_all_spec.
Qed.

(** The recomputation that looks at it first. *)
Lemma recompute_starts order peers parent (s : cstate store) name e :
  cinv c somehow s → c_done parent s = false → NoDup (name :: order) → c_engaged s !! name = Some e → should c peers name = true →
  en_nextTry e <= c_now s → st_faults (c_api s) = [] → store_ok (c_api s) →
  (∀ l, lookup_lease (st_leases (c_api s)) (fence_key c name) = Some l → expired l (c_now s) = true) →
  let s' := (recompute c (name :: order) peers parent s).2 in
  ∃ e', c_engaged s' !! name = Some e' ∧ en_started e' = true ∧ en_cl e' = en_cl e ∧
    (en_started e = true → e' = e) ∧
    (en_started e = false → ∃ ctx gid g, en_ctx e' = Some ctx ∧ en_fence e' = Some gid ∧
       c_guards s' !! gid = Some g ∧ g_held g = true ∧ TStart ctx name (en_cl e) ∈ c_tasks s').
Proof.
  intros HI Hlive Hnd He Hsh Htry Hf Hok Hx s'. destruct (HI name e He) as (Hname & _ & _ & _ & Hfe).
  destruct (recompute_spec c (name :: order) peers parent s Hnd) as (pl & s1 & _ & _ & Hd & Heng & Hgs & _ & _ & _ & _ & Hsp).
  fold s' in Heng, Hgs, Hsp. specialize (Hd name ltac:(by left)). unfold decided in Hd. rewrite He in Hd.
  destruct Hd as (e' & He' & _ & _ & Hcl & _ & Hd). rewrite Hsh in Hd. exists e'. rewrite Heng. split; [done|].
  destruct (en_started e) eqn:Hst; [subst e'; split_ands; try done; by rewrite Hst|].
  assert (en_started e' = true) as Hst'.
  { destruct (recompute_one_starts parent peers (MkPlan [] []) name s e He Hst Hsh Htry Hfe Hlive Hf Hok Hx) as (e1 & He1 & Hs1).
    unfold s' in Heng. rewrite recompute_engaged in Heng. cbn [recompute_loop] in Heng. rewrite bind_eq in Heng.
    destruct (recompute_one _ _ _ _ _ name s) as [pl1 s2]. simpl in He1.
    destruct (recompute_loop c parent peers (c_now s) order pl1 s2) as [pl2 s3] eqn:EL. apply NoDup_cons in Hnd as [Hni Hnd].
    destruct (recompute_loop_spec c _ _ _ _ _ _ _ _ Hnd EL) as (_ & Ho & _). simpl in Heng.
    rewrite <-Heng, Ho, He1 in He' by done. by injection He' as <-. }
  rewrite Hst' in Hd. destruct Hd as (_ & ctx & n & gid & g & ? & ? & ? & ? & ? & Hpl). split_ands; try done.
  intros _. exists ctx, gid, g. rewrite Hgs. split_ands; try done. rewrite <-Hname. apply (Hsp _ Hpl).
Qed.

(** A cluster that is not ours does not run afterwards. *)
Lemma recompute_stops order peers parent (s : cstate store) name e' :
  NoDup order → name ∈ order → should c peers name = false →
  c_engaged (recompute c order peers parent s).2 !! name = Some e' → en_started e' = false.
Proof.
  intros Hnd Hin Hsh. destruct (recompute_spec c order peers parent s Hnd) as (pl & s1 & _ & _ & Hd & -> & _).
  specialize (Hd name Hin). unfold decided in Hd. intros He'. destruct (c_engaged s !! name) as [e|]; [|congruence].
  destruct Hd as (e1 & He1 & _ & _ & _ & _ & Hd). rewrite Hsh in Hd. assert (e1 = e') as -> by congruence.
  destruct (en_started e) eqn:Hst; [by destruct Hd|by subst].
Qed.
End starts.

(** ** A cluster that does not run, and is not ours, is not started *)
Section idle.
Context (c : Coordinator) (name : ClusterName).

Definition idle (s : cstate store) : Prop := ∀ e, c_engaged s !! name = Some e → en_started e = false.

Definition keeps_idle {B} (m : M (cstate store) B) : Prop := ∀ s, idle s → idle (m s).2.

Lemma idle_bind {B B'} (m : M (cstate store) B) (k : B → M (cstate store) B') :
  keeps_idle m → (∀ b, keeps_idle (k b)) → keeps_idle (b ← m; k b).
Proof.
  intros Hm Hk s Hs. rewrite bind_eq. specialize (Hm s Hs). destruct (m s) as [b s1]. by apply Hk.
Qed.

Lemma idle_same {B} (m : M (cstate store) B) : (∀ s, c_engaged (m s).2 = c_engaged s) → keeps_idle m.
Proof. intros Hm s Hs e. rewrite Hm. apply Hs. Qed.

Lemma idle_ret {B} (b : B) : keeps_idle (mret b).
Proof. by apply idle_same. Qed.

Lemma idle_gets {B} (f : cstate store → B) : keeps_idle (gets f).
Proof. by apply idle_same. Qed.

Lemma idle_lift {B} (m : M world B) : keeps_idle (lift_world m).
Proof. apply idle_same. intros s. unfold lift_world. by destruct (m (c_world s)). Qed.

Lemma idle_spawn t : keeps_idle (spawn t).
Proof. by apply idle_same. Qed.

Lemma idle_cancel n : keeps_idle (cancel_opt n).
Proof. destruct n; [apply idle_lift|apply idle_ret]. Qed.

Lemma idle_guard {B} gid (d : B) op : keeps_idle (on_guard gid d op).
Proof.
  apply idle_same. intros s. unfold on_guard. destruct (c_guards s !! gid) as [g|]; [|done]. by destruct (op g _) as [[b g'] e].
Qed.

Lemma idle_put nm e : en_started e = false → keeps_idle (put_engm nm e).
Proof. intros He s Hs e'. simpl. intros [[_ <-]|[_ Hl]]%lookup_insert_Some; [done|by apply Hs]. Qed.

Lemma idle_for_range {X} (l : list X) (body : X → M (cstate store) (option error)) :
  (∀ x, keeps_idle (body x)) → keeps_idle (for_range l body).
Proof.
  intros Hb. induction l as [|x l IH]; simpl; [apply idle_ret|]. unfold on_nil. apply idle_bind; [apply Hb|].
  intros [e|]; [apply idle_ret|done].
Qed.
End idle.

#[local] Hint Resolve idle_ret idle_gets idle_lift idle_spawn idle_cancel idle_guard : idle.

Ltac idling :=
  repeat first
    [ progress cbv zeta | progress cbn beta iota
    | apply idle_bind; [|intros ?] | apply idle_for_range; intros ? | apply idle_put; reflexivity
    | match goal with |- keeps_idle _ (match ?x with _ => _ end) => destruct x end
    | solve [auto with idle] ].

Section stays_idle.
Context (c : Coordinator) (name : ClusterName).

Lemma onLost_idle nm : keeps_idle name (onLost nm).
Proof. unfold onLost. idling. Qed.

Lemma start_iter_idle ctx nm cl todo : keeps_idle name (start_iter ctx nm cl todo).
Proof. unfold start_iter, engage_aware. idling. Qed.

Lemma start_failed_idle nm : keeps_idle name (start_failed nm).
Proof. unfold start_failed. idling. Qed.

Lemma cleanup_idle nm t : keeps_idle name (cleanup nm t).
Proof.
  unfold cleanup. idling. intros s Hs en. simpl. intros [_ Hl]%lookup_delete_Some. by apply Hs.
Qed.

Lemma renew_tick_idle ctx gid : keeps_idle name (renew_tick ctx gid).
Proof. unfold renew_tick. idling. Qed.

Lemma renew_lost_idle gid : keeps_idle name (renew_lost gid).
Proof. unfold renew_lost. pose proof onLost_idle. idling. Qed.

Lemma Engage_idle parent nm cl : keeps_idle name (Engage parent nm cl).
Proof.
  unfold Engage. apply idle_bind; [apply idle_gets|intros [e|]; [apply idle_ret|]]. apply idle_bind; [apply idle_gets|intros m].
  assert (∀ f, keeps_idle name (newEng ← new_engagement nm cl f; _ ← put_engm nm newEng; _ ← spawn (TCleanup parent nm (en_token newEng));
    _ ← spawn (TRecompute parent); mret (None : option error))) as Hrest.
  { intros f s Hs e. rewrite bind_eq. unfold new_engagement, put_engm, spawn. run_m.
    intros [[_ <-]|[_ Hl]]%lookup_insert_Some; [done|by apply Hs]. }
  intros s Hs. rewrite bind_eq. destruct (m !! nm) as [cur|]; [rewrite bind_eq|]; [|apply (Hrest None s Hs)].
  pose proof (idle_cancel name (en_cancel cur) s Hs) as Hs1. destruct (cancel_opt (en_cancel cur) s) as [u s1]. apply (Hrest (en_fence cur) s1 Hs1).
Qed.

(** A recomputation that does not find it ours leaves it idle, even if it ran. *)
Lemma recompute_idle order peers parent s :
  merge_sort string_le order = sorted_keys (c_engaged s) → should c peers name = false → idle name (recompute c order peers parent s).2.
Proof.
  intros Ho%order_perm Hsh e He. assert (NoDup order) as Hnd by (rewrite Ho; apply NoDup_fst_map_to_list).
  destruct (recompute_spec c order peers parent s Hnd) as (pl & s1 & _ & Hout & Hd & Heng & _). rewrite Heng in He.
  destruct (decide (name ∈ order)) as [Hin|Hno].
  - specialize (Hd name Hin). unfold decided in Hd. destruct (c_engaged s !! name) as [e0|]; [|congruence].
    destruct Hd as (e1 & He1 & _ & _ & _ & _ & Hd). rewrite Hsh in Hd. assert (e1 = e) as -> by congruence.
    destruct (en_started e0) eqn:Hst; [by destruct Hd|by subst].
  - rewrite Hout in He by done. exfalso. apply Hno. rewrite Ho. apply list_elem_of_fmap. exists (name, e).
    split; [done|]. by apply elem_of_map_to_list.
Qed.

(** Is the goroutine a recomputation? *)
Definition is_recompute (t : task) : bool := match t with TRecompute _ | TBegin _ | TRunnable _ => true | _ => false end.

Lemma run_task_idle t order peers s s' :
  should c peers name = false → run_task c t order peers s = Some s' →
  (is_recompute t = true ∨ idle name s) → idle name s'.
Proof.
  intros Hsh Hr Hor. destruct t as [p k n|parent|ctx|ctx|ctx n cl|ctx n cl todo|n|ctx gid|gid|ctx gid]; unfold run_task in Hr;
    try (destruct Hor as [?|Hs]; [done|]).
  - destruct (c_done p s); [|done]. injection Hr as <-. by apply cleanup_idle.
  - case_bool_decide; [|done]. injection Hr as <-. by apply recompute_idle.
  - case_bool_decide; [|done]. injection Hr as <-. rewrite bind_eq. pose proof (recompute_idle order peers ctx s) as Hx.
    destruct (recompute c order peers ctx s) as [u s1]. apply idle_spawn. by apply Hx.
  - case_bool_decide; [|done]. injection Hr as <-. rewrite bind_eq. pose proof (recompute_idle order peers ctx s) as Hx.
    destruct (recompute c order peers ctx s) as [u s1]. apply idle_spawn. by apply Hx.
  - by injection Hr as <-.
  - injection Hr as <-. by apply start_iter_idle.
  - injection Hr as <-. by apply start_failed_idle.
  - injection Hr as <-. by apply renew_tick_idle.
  - injection Hr as <-. by apply renew_lost_idle.
  - injection Hr as <-. by apply idle_guard.
Qed.

Lemma cexec_idle l s s' :
  its_own l = true → (∀ i order peers, l = CRun i order peers → should c peers name = false) →
  cexec c l s = Some s' → idle name s → idle name s'.
Proof.
  intros Hown Hsh Hs Hid. destruct l as [d|a|p|n|r|parent nm cl|ctx|i order peers|i|i]; try done; simpl in Hs.
  - injection Hs as <-. by apply (idle_lift name (w_WithCancel p)).
  - injection Hs as <-. by apply (idle_lift name (w_cancel n)).
  - by injection Hs as <-.
  - injection Hs as <-. by apply Engage_idle.
  - by injection Hs as <-.
  - destruct (c_tasks s !! i) as [t|]; [|done]. eapply (run_task_idle t order peers); [by eapply Hsh|exact Hs|by right].
  - destruct (c_tasks s !! i) as [t|]; [|done]. simpl in Hs. destruct t; try done; (destruct (c_done _ s); [|done]); by injection Hs as <-.
  - destruct (c_tasks s !! i) as [t|]; [|done]. simpl in Hs. destruct t; try done; (destruct (peers_Run_returns c _ s); [|done]); by injection Hs as <-.
Qed.
End stays_idle.

(** Orders in which Go may iterate over a map. *)
Lemma order_sorted {V} (m : gmap string V) : merge_sort string_le (sorted_keys m) = sorted_keys m.
Proof.
  eapply (StronglySorted_unique string_le); [apply StronglySorted_merge_sort; apply _|apply sorted_keys_sorted|].
  apply merge_sort_Permutation.
Qed.

Lemma order_first {V} (m : gmap string V) name :
  is_Some (m !! name) →
  let order := name :: filter (λ k, k ≠ name) (sorted_keys m) in NoDup order ∧ merge_sort string_le order = sorted_keys m.
Proof.
  intros Hm order. assert (NoDup order) as Hnd.
  { constructor; [by intros [? _]%list_elem_of_filter|]. apply NoDup_filter, sorted_keys_NoDup. }
  split; [done|]. eapply (StronglySorted_unique string_le); [apply StronglySorted_merge_sort; apply _|apply sorted_keys_sorted|].
  rewrite merge_sort_Permutation. apply NoDup_Permutation; [done|apply sorted_keys_NoDup|].
  intros k. unfold order. rewrite elem_of_cons, list_elem_of_filter. destruct (decide (k = name)) as [->|]; [|naive_solver].
  rewrite elem_of_sorted_keys. naive_solver.
Qed.

(** ** The group *)

(** Where the loop of a registry's [Run] is. *)
Inductive reg_pc : Type := RRenew | RRefresh | REnded.

Record gproc := MkProc { gp_reg : leaseRegistry; gp_pc : reg_pc; gp_st : cstate store }.

Record group := MkGroup { grp_api : store; grp_now : Z; grp_procs : list gproc }.

Inductive glabel : Type :=
| GTick (d : Z)                                        (** time passes *)
| GPeers (i : nat)                                     (** the registry of process [i] publishes or lists *)
| GLeave (i : nat)                                     (** its context has ended *)
| GRun (i k : nat) (order : list ClusterName) (peers : list PeerInfo)
                                                       (** goroutine [k] moves; it reads the snapshot, in some order *)
| GDo (i : nat) (l : clabel store).                    (** any other step, or with a snapshot read before *)

Section group.
(** The coordinators as [New] makes them, with their registries. *)
Context (members : list (Coordinator * leaseRegistry)).

(** The server and the clock as they are now. *)
Definition load (g : group) (s : cstate store) : cstate store :=
  CState (grp_api g) (c_world s) (grp_now g) (c_engaged s) (c_awares s) (c_guards s) (c_fresh s) (c_tasks s).

Definition co_step (i : nat) (l : clabel store) (g : group) : option group :=
  p ← grp_procs g !! i; m ← members !! i;
  s ← cexec m.1 l (load g (gp_st p));
  Some (MkGroup (c_api s) (grp_now g) (<[i := MkProc (gp_reg p) (gp_pc p) s]> (grp_procs g))).

Definition gexec (l : glabel) (g : group) : option group :=
  match l with
  | GTick d => if 0 <=? d then Some (MkGroup (grp_api g) (grp_now g + d) (grp_procs g)) else None
  | GPeers i =>
      p ← grp_procs g !! i;
      match gp_pc p with
      | RRenew =>
          let '(_, a) := renewSelfLease (gp_reg p) (grp_now g) (grp_api g) in
          Some (MkGroup a (grp_now g) (<[i := MkProc (gp_reg p) RRefresh (gp_st p)]> (grp_procs g)))
      | RRefresh =>
          let '((_, r), a) := refreshPeers (gp_reg p) (grp_now g) (grp_api g) in
          Some (MkGroup a (grp_now g) (<[i := MkProc r RRenew (gp_st p)]> (grp_procs g)))
      | REnded => None
      end
  | GLeave i =>
      p ← grp_procs g !! i;
      match gp_pc p with
      | RRenew =>
          let '(_, a) := (if r_releaseOnCancel (gp_reg p) then release (gp_reg p) else mret tt) (grp_api g) in
          Some (MkGroup a (grp_now g) (<[i := MkProc (gp_reg p) REnded (gp_st p)]> (grp_procs g)))
      | _ => None
      end
  | GRun i k order peers =>
      p ← grp_procs g !! i;
      if bool_decide (peers ≡ₚ Snapshot (gp_reg p)) then co_step i (CRun k order peers) g else None
  | GDo i l => if its_own l then co_step i l g else None
  end.

(** Nothing has been published, no process has begun. *)
Definition ginit (g : group) : Prop :=
  st_leases (grp_api g) = [] ∧
  Forall2 (λ m p, gp_reg p = m.2 ∧ gp_pc p = RRenew ∧ cinit (gp_st p)) members (grp_procs g).

(** What the members have in common, and what tells them apart. *)
Record members_ok (sh : Sharder) (ns pre : string) : Prop := {
  mo_sharder i m : members !! i = Some m → co_sharder m.1 = sh;
  mo_self i m : members !! i = Some m → co_peers m.1 = Some (LeaseRegistry m.2) ∧ co_self m.1 = r_self m.2;
  mo_reg i m : members !! i = Some m → r_ns m.2 = ns ∧ r_namePrefix m.2 = pre ∧ r_ttl m.2 = 30 * Second;
  mo_weight i m : members !! i = Some m → ID (r_self m.2) ≠ "" ∧ 1 <= Weight (r_self m.2) < 2 ^ 32;
  mo_distinct i j m m' : members !! i = Some m → members !! j = Some m' → ID (r_self m.2) = ID (r_self m'.2) → i = j;
  mo_apart i j m m' : members !! i = Some m → members !! j = Some m' → ¬ is_fence m.1 (peer_key m'.2);
}.

Context (sh : Sharder) (ns pre : string) (HM : members_ok sh ns pre) {H1 : ExactlyOneOwner sh}.

Lemma peer_key_inj i j m m' : members !! i = Some m → members !! j = Some m' → peer_key m.2 = peer_key m'.2 → i = j.
Proof using HM.
  intros Hi Hj. destruct (mo_reg _ _ _ HM _ _ Hi) as (_ & Hp & _), (mo_reg _ _ _ HM _ _ Hj) as (_ & Hp' & _).
  unfold peer_key. rewrite Hp, Hp'. intros [= _ Hx%(inj _)%(inj _)]. by eapply (mo_distinct _ _ _ HM).
Qed.

(** ** What stays true *)

(** The Lease of a process keeps its labels. *)
Definition labelled (r : leaseRegistry) (a : store) : Prop :=
  ∀ l, lookup_lease (st_leases a) (peer_key r) = Some l → matches (peer_selector r) (l_labels l) = true.

Definition same_registry (r r' : leaseRegistry) : Prop := r' = set_peers (r_peers r') r.

Record proc_inv (m : Coordinator * leaseRegistry) (p : gproc) : Prop := {
  pi_co : cinv m.1 somehow (gp_st p);
  pi_guards : guards_ok m.1 (gp_st p);
  pi_reg : same_registry m.2 (gp_reg p);
}.

Record ginv (g : group) : Prop := {
  gi_store : store_ok (grp_api g);
  gi_proc i p : grp_procs g !! i = Some p → ∃ m, members !! i = Some m ∧ proc_inv m p;
  gi_labels i m : members !! i = Some m → labelled m.2 (grp_api g);
}.

Lemma labelled_moves r P a a' : ¬ P (peer_key r) → moves P a a' → labelled r a → labelled r a'.
Proof using. intros HP Hm Hl l. rewrite (mv_same _ _ _ Hm) by done. apply Hl. Qed.

Lemma labelled_write r ok conflict l a :
  (l_key l = peer_key r → matches (peer_selector r) (l_labels l) = true) → labelled r a →
  labelled r (guarded_write ok conflict l a).2.
Proof using.
  intros Hlab Hl l' Hl'. destruct (guarded_write ok conflict l a) as [e a'] eqn:EG. simpl in Hl'.
  destruct (guarded_write_law _ _ _ _ _ _ EG) as [(a1 & E1 & _ & _ & ->)|(_ & E1 & _)].
  - rewrite lookup_write in Hl'. case_decide as Hk; [injection Hl' as <-; by apply Hlab|apply Hl; by rewrite <-E1].
  - apply Hl. by rewrite <-E1.
Qed.

Lemma renewSelf_moves r now a :
  store_ok a → labelled r a →
  moves (λ k, k = peer_key r) a (renewSelfLease r now a).2 ∧ labelled r (renewSelfLease r now a).2.
Proof using.
  intros Hok Hl. unfold renewSelfLease. rewrite bind_eq. simpl.
  pose proof (Get_moves (λ k, k = peer_key r) (peer_key r) a Hok) as HG.
  pose proof (Get_moves (λ _, False) (peer_key r) a Hok) as HG0.
  pose proof (λ ls a1, read_write_moves (λ k, k = peer_key r) (peer_key r) a a1 ls (self_update r now ls) eq_refl Hok) as HU.
  pose proof (Get_found (peer_key r) a) as HF.
  destruct (store_Get (peer_key r) a) as [[ls| |er] a1]; simpl in *;
    assert (labelled r a1) as HL1 by exact (labelled_moves r _ a a1 (λ H, H) HG0 Hl).
  - split; [by apply HU|]. apply labelled_write; [intros _; simpl; by eapply Hl, HF|done].
  - split; [eapply moves_trans; [exact HG|]; apply Create_moves; [done|apply HG]|].
    apply labelled_write; [intros _; apply self_create_matches|done].
  - done.
Qed.

Lemma release_moves r a :
  store_ok a → labelled r a → moves (λ k, k = peer_key r) a (release r a).2 ∧ labelled r (release r a).2.
Proof using.
  intros Hok Hl. unfold release. rewrite bind_eq. simpl.
  pose proof (Get_moves (λ k, k = peer_key r) (peer_key r) a Hok) as HG.
  pose proof (Get_moves (λ _, False) (peer_key r) a Hok) as HG0.
  pose proof (λ ls a1 l, read_write_moves (λ k, k = peer_key r) (peer_key r) a a1 ls l eq_refl Hok) as HU.
  pose proof (Get_found (peer_key r) a) as HF.
  destruct (store_Get (peer_key r) a) as [[ls| |er] a1]; simpl in *;
    assert (labelled r a1) as HL1 by exact (labelled_moves r _ a a1 (λ H, H) HG0 Hl); [|done..].
  case_bool_decide; [|done]. rewrite bind_eq.
  set (l := MkLease _ _ _ _ _ _ _ _). specialize (HU ls a1 l eq_refl eq_refl).
  assert (labelled r (store_Update l a1).2) as HL.
  { apply labelled_write; [intros _; simpl; by eapply Hl, HF|done]. }
  change (lease_Update l a1) with (store_Update l a1). by destruct (store_Update l a1).
Qed.

Lemma refresh_moves r now a P :
  store_ok a → moves P a (refreshPeers r now a).2 ∧ same_registry r (refreshPeers r now a).1.2.
Proof using.
  intros Hok. unfold refreshPeers. rewrite bind_eq. simpl. unfold store_List.
  destruct (take_fault a) as [f a1] eqn:E. pose proof (take_fault_moves P _ _ _ E Hok) as Hm.
  destruct f; (split; [exact Hm|by destruct r]).
Qed.

Lemma ginv_init g : ginit g → ginv g.
Proof using.
  intros [Hs Hp]. split.
  - intros k l. by rewrite Hs.
  - intros i p Hi. destruct (Forall2_lookup_r _ _ _ _ _ Hp Hi) as (m & Hm & Hr & _ & (He & Hg & _)).
    exists m. split; [done|]. split; [intros name e; by rewrite He|intros gid gd; by rewrite Hg|rewrite Hr; by destruct m.2].
  - intros i m _ l. by rewrite Hs.
Qed.

Lemma ginv_update g i m p' a :
  ginv g → members !! i = Some m → proc_inv m p' → store_ok a → (∀ j m', members !! j = Some m' → labelled m'.2 a) →
  ginv (MkGroup a (grp_now g) (<[i := p']> (grp_procs g))).
Proof using.
  intros [_ Hp _] Hm Hp' Hok Hl. split; simpl; [done| |done].
  intros j q [(-> & <- & _)|[_ Hj]]%list_lookup_insert_Some; [by exists m|by apply Hp].
Qed.

(** What one registry writes leaves the others' Leases alone. *)
Lemma labels_own g i m r a' :
  ginv g → members !! i = Some m → same_registry m.2 r → moves (λ k, k = peer_key r) (grp_api g) a' → labelled r a' →
  ∀ j m', members !! j = Some m' → labelled m'.2 a'.
Proof using HM.
  intros HI Hm Hr Hmv Hl j m' Hj. assert (peer_key r = peer_key m.2) as Hk by (by rewrite Hr).
  destruct (decide (i = j)) as [<-|Hne].
  - pose proof (eq_trans (eq_sym Hm) Hj) as [= <-]. by rewrite Hr in Hl.
  - apply (labelled_moves m'.2 (λ k, k = peer_key r) (grp_api g)); [|done|by eapply (gi_labels _ HI)].
    rewrite Hk. intros Heq. by apply Hne, (peer_key_inj i j m m').
Qed.

Lemma co_step_ginv i l g g' :
  its_own l = true → ginv g → co_step i l g = Some g' → ginv g'.
Proof using HM.
  intros Hown HI Hs. unfold co_step in Hs. destruct (grp_procs g !! i) as [p|] eqn:Hp; [|done]. simpl in Hs.
  destruct (gi_proc _ HI i p Hp) as (m & Hm & [Hco Hgs Hr]). rewrite Hm in Hs. simpl in Hs.
  destruct (cexec m.1 _ (load g (gp_st p))) as [s|] eqn:Hx; [|done]. injection Hs as <-.
  destruct (cexec_tidy m.1 _ (load g (gp_st p)) s Hown Hgs (gi_store _ HI) Hx) as [Hgs' Hmv].
  apply (ginv_update g i m); [done|done| |apply Hmv|].
  - split; [|done|done]. by eapply (cexec_cinv m.1 somehow l (load g (gp_st p))).
  - intros j m' Hj. eapply labelled_moves; [|exact Hmv|by eapply (gi_labels _ HI)]. by eapply (mo_apart _ _ _ HM).
Qed.

Lemma ginv_step l g g' : ginv g → gexec l g = Some g' → ginv g'.
Proof using HM.
  intros HI Hs. destruct l as [d|i|i|i k order peers|i l]; simpl in Hs.
  - destruct (0 <=? d); [|done]. injection Hs as <-. by destruct HI.
  - destruct (grp_procs g !! i) as [p|] eqn:Hp; [|done]. simpl in Hs.
    destruct (gi_proc _ HI i p Hp) as (m & Hm & [Hco Hgs Hr]).
    destruct (gp_pc p); [| |done].
    + pose proof (renewSelf_moves (gp_reg p) (grp_now g) (grp_api g) (gi_store _ HI)) as [Hmv Hl].
      { rewrite Hr. by eapply (gi_labels _ HI). }
      destruct (renewSelfLease _ _ _) as [e a]. injection Hs as <-. simpl in *.
      apply (ginv_update g i m); [done|done|by split|apply Hmv|by eapply (labels_own g i m)].
    + destruct (refresh_moves (gp_reg p) (grp_now g) (grp_api g) (λ _, False) (gi_store _ HI)) as [Hmv Hsame].
      destruct (refreshPeers _ _ _) as [[e r] a]. injection Hs as <-. simpl in *.
      apply (ginv_update g i m); [done|done| |apply Hmv|].
      * split; [done|done|]. simpl. rewrite Hsame. by rewrite Hr.
      * intros j m' Hj. eapply labelled_moves; [|exact Hmv|by eapply (gi_labels _ HI)]. by intros [].
  - destruct (grp_procs g !! i) as [p|] eqn:Hp; [|done]. simpl in Hs.
    destruct (gi_proc _ HI i p Hp) as (m & Hm & [Hco Hgs Hr]). destruct (gp_pc p); [|done..].
    destruct (r_releaseOnCancel (gp_reg p)).
    + pose proof (release_moves (gp_reg p) (grp_api g) (gi_store _ HI)) as [Hmv Hl].
      { rewrite Hr. by eapply (gi_labels _ HI). }
      destruct (release _ _) as [e a]. injection Hs as <-. simpl in *.
      apply (ginv_update g i m); [done|done|by split|apply Hmv|by eapply (labels_own g i m)].
    + injection Hs as <-. apply (ginv_update g i m); [done|done|by split|apply HI|apply HI].
  - destruct (grp_procs g !! i) as [p|]; [|done]. simpl in Hs. destruct (bool_decide _); [|done].
    by eapply (co_step_ginv i (CRun k order peers)).
  - destruct (its_own l) eqn:Hown; [|done]. by eapply (co_step_ginv i l).
Qed.

Lemma ginv_reachable g : reachable gexec ginit g → ginv g.
Proof using HM. apply (invariant_reachable gexec ginit ginv); [exact ginv_init|intros; by eapply ginv_step]. Qed.

(** ** One pass of a registry against a server that answers *)

Lemma renewSelf_writes r now a :
  st_faults a = [] → store_ok a → ID (r_self r) ≠ "" → 1 <= Weight (r_self r) < 2 ^ 32 → r_ttl r = 30 * Second →
  ∃ l, (renewSelfLease r now a).2 = write_lease l a ∧ l_key l = peer_key r ∧
       live_peer now (image (st_next a) l) = Some (r_self r).
Proof using.
  intros Hf Hok Hid Hw Httl. pose proof (Z.mod_pos_bound now 1000) as Hmod. pose proof (Z.div_mod now 1000) as Hdiv.
  assert (now <= micro now + 30 * Second) as Hle by (unfold micro, Second; lia).
  unfold renewSelfLease. rewrite bind_eq. simpl. unfold store_Get, take_fault. rewrite Hf.
  destruct (lookup_lease (st_leases a) (peer_key r)) as [ls|] eqn:El; simpl.
  - destruct (Hok _ _ El) as [Hk _]. exists (self_update r now ls). split_ands; [|done|].
    + unfold store_Update, guarded_write, take_fault. rewrite Hf. simpl. by rewrite Hk, El, bool_decide_eq_true_2.
    + apply (published_live r now); try done. simpl. by rewrite lookup_insert_eq.
  - exists (self_create r now). split_ands; [|done|by apply (published_live r now)].
    unfold store_Create, guarded_write, take_fault. rewrite Hf. simpl. by rewrite El.
Qed.

(** What a process lists. *)
Definition listed (r : leaseRegistry) (a : store) : list Lease :=
  filter (λ l, (l_key l).1 = r_ns r ∧ matches (peer_selector r) (l_labels l) = true) (map snd (st_leases a)).

Definition refreshed (r : leaseRegistry) (now : Z) (a : store) : gmap string PeerInfo :=
  <[ID (r_self r) := r_self r]> (collect_peers now (listed r a)).

Lemma refresh_answers r now a : st_faults a = [] → refreshPeers r now a = ((None, set_peers (refreshed r now a) r), a).
Proof using.
  intros Hf. unfold refreshPeers. rewrite bind_eq. simpl. unfold store_List, take_fault. rewrite Hf. simpl. unfold refreshed.
  by destruct (r_self r).
Qed.

Section survivors.
Context (alive : list nat) (Hal : NoDup alive) (t : Z).

Definition by_alive (l : glabel) : Prop :=
  match l with GTick _ => True | GPeers i | GRun i _ _ _ => i ∈ alive | _ => False end.

(** Which Leases are live: those of the processes in [who]. *)
Record published (who : list nat) (a : store) : Prop := {
  pb_faults : st_faults a = [];
  pb_others k l : (k, l) ∈ st_leases a → expired l t = true ∨
    ∃ i m, i ∈ who ∧ members !! i = Some m ∧ k = peer_key m.2 ∧ live_peer t l = Some (r_self m.2);
  pb_who i m : i ∈ who → members !! i = Some m →
    ∃ l, lookup_lease (st_leases a) (peer_key m.2) = Some l ∧ live_peer t l = Some (r_self m.2);
}.

Lemma published_write who a i m l :
  published who a → members !! i = Some m → l_key l = peer_key m.2 →
  live_peer t (image (st_next a) l) = Some (r_self m.2) → published (i :: who) (write_lease l a).
Proof using HM.
  intros [Hf Ho Hw] Hm Hk Hl. split; [done| |].
  - intros k l' [[= -> ->]|Hin]%elem_of_cons.
    + right. exists i, m. split_ands; [by left|done|done|done].
    + apply list_elem_of_filter in Hin as [_ Hin]. destruct (Ho k l' Hin) as [?|(j & m' & Hj & ?)]; [by left|right].
      exists j, m'. split; [by right|done].
  - intros j m' Hj Hm'. rewrite lookup_write, Hk. destruct (decide (j = i)) as [->|Hne].
    + pose proof (eq_trans (eq_sym Hm) Hm') as [= <-]. exists (image (st_next a) l). by rewrite decide_True.
    + apply elem_of_cons in Hj as [?|Hj]; [done|]. destruct (Hw j m' Hj Hm') as (l' & Hl' & Hp). exists l'.
      rewrite decide_False; [done|]. intros Heq. by apply Hne, (peer_key_inj j i m' m).
Qed.

(** The survivors, as a snapshot. *)
Definition survivors : gmap string PeerInfo :=
  list_to_map ((λ m, (ID (r_self m.2), r_self m.2)) <$> omap (λ i, members !! i) alive).

Lemma survivors_lookup id p :
  survivors !! id = Some p ↔ ∃ i m, i ∈ alive ∧ members !! i = Some m ∧ p = r_self m.2 ∧ id = ID p.
Proof using HM Hal.
  unfold survivors. rewrite <-elem_of_list_to_map.
  - rewrite list_elem_of_fmap. setoid_rewrite list_elem_of_omap. naive_solver.
  - rewrite <-list_fmap_compose. simpl. clear -Hal HM. induction Hal as [|i al Hni Hal' IH]; simpl; [constructor|]. specialize (IH Hal').
    destruct (members !! i) as [m|] eqn:Hm; simpl; [|done]. constructor; [|done].
    intros Hin. apply list_elem_of_fmap in Hin as (m' & Heq & Hin). apply list_elem_of_omap in Hin as (j & Hj & Hm'). simpl in *.
    apply Hni. by rewrite (mo_distinct _ _ _ HM _ _ _ _ Hm Hm' Heq).
Qed.

Lemma last_same {X} (y : X) (l : list X) : y ∈ l → (∀ x, x ∈ l → x = y) → last l = Some y.
Proof using.
  intros Hin Hall. destruct (last l) as [z|] eqn:E; [|apply last_None in E as ->; by apply elem_of_nil in Hin].
  f_equal. apply Hall. apply last_Some in E as [l' ->]. apply elem_of_app. right. by left.
Qed.

(** Every survivor that lists sees the survivors. *)
Lemma refreshed_survivors a i m r :
  published alive a → store_ok a → (∀ j m', members !! j = Some m' → labelled m'.2 a) →
  i ∈ alive → members !! i = Some m → same_registry m.2 r → refreshed r t a = survivors.
Proof using HM Hal.
  intros Hpub Hok Hlab Hi Hm Hr. destruct (mo_reg _ _ _ HM _ _ Hm) as (Hns & Hpre & _).
  assert (∀ p, p ∈ omap (live_peer t) (listed r a) ↔ survivors !! ID p = Some p) as Hlive.
  { intros p. rewrite list_elem_of_omap, survivors_lookup. split.
    - intros (l & [_ Hl]%list_elem_of_filter & Hp). apply list_elem_of_In, in_map_iff in Hl as ([k l'] & Hkl & Hl%list_elem_of_In).
      simpl in Hkl. subst l'. destruct (pb_others _ _ Hpub k l Hl) as [He|(j & m' & Hj & Hm' & _ & Hp')].
      + apply live_peer_Some in Hp as (_ & _ & _ & rn & d & Hrn & Hd & Hle). unfold expired in He. rewrite Hrn, Hd in He. lia.
      + exists j, m'. split_ands; [done|done|congruence|done].
    - intros (j & m' & Hj & Hm' & -> & _). destruct (pb_who _ _ Hpub j m' Hj Hm') as (l & Hl & Hp). exists l. split; [|done].
      destruct (mo_reg _ _ _ HM _ _ Hm') as (Hns' & Hpre' & _).
      apply list_elem_of_filter. rewrite (proj1 (Hok _ _ Hl)), Hr. simpl. split; [split; [congruence|]|].
      + unfold peer_selector. simpl. rewrite Hpre, <-Hpre'. by apply (Hlab j m' Hm' l).
      + apply list_elem_of_In, in_map_iff. unfold lookup_lease in Hl.
        destruct (find _ (st_leases a)) as [kl|] eqn:Ef; [|done]. injection Hl as <-. exists kl. split; [done|]. by apply find_some in Ef as [? _]. }
  apply map_eq. intros id. unfold refreshed. rewrite Hr. simpl. destruct (decide (ID (r_self m.2) = id)) as [<-|Hne].
  - rewrite lookup_insert_eq. symmetry. apply survivors_lookup. by exists i, m.
  - rewrite lookup_insert_ne, collect_peers_lookup by done. change (set_peers (r_peers r) m.2) with (set_peers (r_peers r) m.2).
    rewrite <-Hr. destruct (survivors !! id) as [p|] eqn:Hs.
    + pose proof Hs as (j & m' & _ & _ & _ & ->)%survivors_lookup. apply last_same.
      * apply list_elem_of_filter. split; [done|]. by apply Hlive.
      * intros q [Hq Hin%Hlive]%list_elem_of_filter. rewrite Hq in Hin. congruence.
    + apply last_None. destruct (filter _ _) as [|q qs] eqn:Ef; [done|exfalso].
      assert (q ∈ q :: qs) as Hin by left. rewrite <-Ef in Hin. apply list_elem_of_filter in Hin as [Hq Hin%Hlive]. congruence.
Qed.

(** ** The schedule: publish, then list *)

(** The coordinators are as they were. *)
Definition same_co (g g' : group) : Prop := ∀ i, gp_st <$> grp_procs g' !! i = gp_st <$> grp_procs g !! i.

Definition at_pc (pc : reg_pc) (g : group) (i : nat) : Prop := ∃ p, grp_procs g !! i = Some p ∧ gp_pc p = pc.

Lemma same_co_trans g1 g2 g3 : same_co g1 g2 → same_co g2 g3 → same_co g1 g3.
Proof using. intros H12 H23 i. by rewrite H23, H12. Qed.

Lemma same_co_insert g a i p r pc :
  grp_procs g !! i = Some p → same_co g (MkGroup a (grp_now g) (<[i := MkProc r pc (gp_st p)]> (grp_procs g))).
Proof using.
  intros Hp j. simpl. destruct (decide (i = j)) as [<-|Hne].
  - rewrite list_lookup_insert_eq by (by eapply lookup_lt_Some). by rewrite Hp.
  - by rewrite list_lookup_insert_ne.
Qed.

Lemma at_pc_insert (g : group) a n i p p' pc j :
  grp_procs g !! i = Some p → i ≠ j → at_pc pc g j → at_pc pc (MkGroup a n (<[i := p']> (grp_procs g))) j.
Proof using. intros Hp Hne (q & Hq & Hpc). exists q. split; [|done]. simpl. by rewrite list_lookup_insert_ne. Qed.

(** Each process in [todo] takes a step of its registry. *)
Lemma each_process (from to : reg_pc) (Q : list nat → group → Prop) todo done g :
  NoDup todo → (∀ i, i ∈ todo → at_pc from g i) → Q done g → ginv g →
  (∀ i p who g, i ∈ todo → grp_procs g !! i = Some p → gp_pc p = from → ginv g → Q who g → ∃ a r,
     let g' := MkGroup a (grp_now g) (<[i := MkProc r to (gp_st p)]> (grp_procs g)) in
     gexec (GPeers i) g = Some g' ∧ Q (i :: who) g') →
  ∃ g', run gexec (GPeers <$> todo) g = Some g' ∧ ginv g' ∧ grp_now g' = grp_now g ∧ same_co g g' ∧
    (∀ i, i ∈ todo → at_pc to g' i) ∧ (∀ j, j ∉ todo → grp_procs g' !! j = grp_procs g !! j) ∧ Q (rev todo ++ done) g'.
Proof using HM.
  intros Hnd. revert done g. induction Hnd as [|i todo Hni Hnd IH]; intros done g Hpc HQ HI Hstep.
  { exists g. split_ands; try done. by intros i ?%elem_of_nil. }
  destruct (Hpc i) as (p & Hp & Hpi); [by left|].
  destruct (Hstep i p done g ltac:(by left) Hp Hpi HI HQ) as (a & r & Hx & HQ'). set (g1 := MkGroup _ _ _) in *.
  destruct (IH (i :: done) g1) as (g' & Hr & HI' & Hn & Hco & Hto & Hoth & HQ2).
  - intros j Hj. apply (at_pc_insert g _ _ i p); [done|by intros ->|]. apply Hpc. by right.
  - done.
  - by eapply ginv_step.
  - intros j q who g2 Hj. apply Hstep. by right.
  - exists g'. split_ands.
    + rewrite fmap_cons. cbn [run]. by rewrite Hx.
    + done.
    + done.
    + eapply same_co_trans; [by eapply (same_co_insert g a i p r to)|exact Hco].
    + intros j [->|Hj]%elem_of_cons; [|by apply Hto]. eexists. rewrite Hoth by done. simpl.
      split; [apply list_lookup_insert_eq; by eapply lookup_lt_Some|done].
    + intros j [Hne Hj]%not_elem_of_cons. rewrite Hoth by done. simpl. by rewrite list_lookup_insert_ne.
    + simpl. by rewrite <-app_assoc.
Qed.

Lemma member_of g i p : ginv g → grp_procs g !! i = Some p → ∃ m, members !! i = Some m ∧ same_registry m.2 (gp_reg p).
Proof using. intros HI Hp. destruct (gi_proc _ HI i p Hp) as (m & Hm & [_ _ Hr]). by exists m. Qed.

Lemma published_ext who who' a : (∀ i, i ∈ who ↔ i ∈ who') → published who a → published who' a.
Proof using. intros Hw [Hf Ho Hp]. split; [done| |intros i m Hi; by apply Hp, Hw].
  intros k l Hin. destruct (Ho k l Hin) as [?|(i & m & ? & ?)]; [by left|right]. exists i, m. by rewrite <-Hw. Qed.

Lemma renew_all g :
  ginv g → grp_now g = t → published [] (grp_api g) → (∀ i, i ∈ alive → at_pc RRenew g i) →
  ∃ g', run gexec (GPeers <$> alive) g = Some g' ∧ ginv g' ∧ grp_now g' = t ∧ same_co g g' ∧
    (∀ i, i ∈ alive → at_pc RRefresh g' i) ∧ published alive (grp_api g').
Proof using HM Hal.
  intros HI Hn Hpub Hpc.
  destruct (each_process RRenew RRefresh (λ who g, grp_now g = t ∧ published who (grp_api g)) alive [] g Hal Hpc (conj Hn Hpub) HI)
    as (g' & Hr & HI' & Hn' & Hco & Hpc' & _ & _ & Hpub').
  - intros i p who g1 Hi Hp Hpcp HI1 [Hn1 Hpub1]. destruct (member_of g1 i p HI1 Hp) as (m & Hm & Hreg).
    destruct (mo_weight _ _ _ HM i m Hm) as [Hid Hw]. destruct (mo_reg _ _ _ HM i m Hm) as (_ & _ & Httl).
    destruct (renewSelf_writes (gp_reg p) t (grp_api g1)) as (l & Hwr & Hk & Hl); [apply Hpub1|apply HI1|by rewrite Hreg..|].
    exists (write_lease l (grp_api g1)), (gp_reg p). cbn [gexec]. rewrite Hp. simpl. rewrite Hpcp, Hn1.
    destruct (renewSelfLease _ t _) as [e a]. simpl in Hwr. subst a. split; [done|]. split; [done|].
    eapply published_write; [done|done|by rewrite Hk, Hreg|by rewrite Hl, Hreg].
  - exists g'. rewrite Hn'. split_ands; try done. eapply published_ext; [|exact Hpub'].
    intros i. by rewrite app_nil_r, list_elem_of_In, <-in_rev, <-list_elem_of_In.
Qed.

Lemma refresh_all g :
  ginv g → grp_now g = t → published alive (grp_api g) → (∀ i, i ∈ alive → at_pc RRefresh g i) →
  ∃ g', run gexec (GPeers <$> alive) g = Some g' ∧ ginv g' ∧ grp_now g' = t ∧ same_co g g' ∧ published alive (grp_api g') ∧
    ∀ i, i ∈ alive → ∃ p, grp_procs g' !! i = Some p ∧ r_peers (gp_reg p) = survivors.
Proof using HM Hal.
  intros HI Hn Hpub Hpc.
  destruct (each_process RRefresh RRenew (λ who g, grp_now g = t ∧ published alive (grp_api g) ∧
      ∀ i, i ∈ who → ∃ p, grp_procs g !! i = Some p ∧ r_peers (gp_reg p) = survivors) alive [] g Hal Hpc) as
    (g' & Hr & HI' & Hn' & Hco & _ & _ & _ & Hpub' & Hlist); [split_ands; [done..|by intros i ?%elem_of_nil]|done| |].
  - intros i p who g1 Hi Hp Hpcp HI1 (Hn1 & Hpub1 & Hw1). destruct (member_of g1 i p HI1 Hp) as (m & Hm & Hreg).
    exists (grp_api g1), (set_peers survivors (gp_reg p)). cbn [gexec]. rewrite Hp. simpl. rewrite Hpcp, Hn1.
    rewrite refresh_answers by apply Hpub1.
    rewrite (refreshed_survivors (grp_api g1) i m (gp_reg p) Hpub1 (gi_store _ HI1) (gi_labels _ HI1) Hi Hm Hreg).
    split; [done|]. split_ands; [done|done|]. intros j Hj. simpl. destruct (decide (i = j)) as [<-|Hne].
    + eexists. split; [apply list_lookup_insert_eq; by eapply lookup_lt_Some|done].
    + apply elem_of_cons in Hj as [?|Hj]; [done|]. rewrite list_lookup_insert_ne by done. by apply Hw1.
  - exists g'. rewrite Hn'. split_ands; try done. intros i Hi. apply Hlist.
    by rewrite app_nil_r, list_elem_of_In, <-in_rev, <-list_elem_of_In.
Qed.

(** Those that are between publishing and listing list. *)
Definition mid_pass (g : group) (i : nat) : bool :=
  match grp_procs g !! i with Some p => match gp_pc p with RRefresh => true | _ => false end | None => false end.

Lemma settle g :
  ginv g → st_faults (grp_api g) = [] → (∀ i, i ∈ alive → at_pc RRenew g i ∨ at_pc RRefresh g i) →
  ∃ ls g', Forall by_alive ls ∧ run gexec ls g = Some g' ∧ ginv g' ∧ grp_now g' = grp_now g ∧ same_co g g' ∧
    st_faults (grp_api g') = [] ∧ ∀ i, i ∈ alive → at_pc RRenew g' i.
Proof using HM Hal.
  intros HI Hf Hpc. set (todo := filter (λ i, mid_pass g i = true) alive).
  assert (∀ i, i ∈ todo → at_pc RRefresh g i) as Hmid.
  { intros i [Hi _]%list_elem_of_filter. unfold mid_pass in Hi. destruct (grp_procs g !! i) as [p|] eqn:Hp; [|done].
    exists p. split; [done|]. by destruct (gp_pc p). }
  destruct (each_process RRefresh RRenew (λ _ g, st_faults (grp_api g) = []) todo [] g) as (g' & Hr & HI' & Hn & Hco & Hto & Hoth & Hf').
  - by apply NoDup_filter.
  - done.
  - done.
  - done.
  - intros i p who g1 _ Hp Hpcp HI1 Hf1. exists (grp_api g1), (set_peers (refreshed (gp_reg p) (grp_now g1) (grp_api g1)) (gp_reg p)).
    cbn [gexec]. rewrite Hp. simpl. rewrite Hpcp, refresh_answers by done. done.
  - exists (GPeers <$> todo), g'. split_ands; try done.
    + apply list.Forall_fmap, list.Forall_forall. by intros i [_ Hi]%list_elem_of_filter.
    + intros i Hi. destruct (decide (i ∈ todo)) as [Hin|Hout]; [by apply Hto|]. unfold at_pc. rewrite Hoth by done.
      destruct (Hpc i Hi) as [?|(p & Hp & Hpi)]; [done|]. exfalso. apply Hout, list_elem_of_filter. split; [|done].
      unfold mid_pass. by rewrite Hp, Hpi.
Qed.

Lemma upper_bound (zs : list Z) : ∃ b, ∀ z, z ∈ zs → z <= b.
Proof using.
  induction zs as [|z zs [b Hb]]; [exists 0; by intros z ?%elem_of_nil|].
  exists (Z.max z b). intros z' [->|Hz%Hb]%elem_of_cons; lia.
Qed.

(** Time enough for every Lease to run out and every throttle to end. *)
Lemma wait_enough g name :
  ∃ d, 0 <= d ∧ (∀ k l, (k, l) ∈ st_leases (grp_api g) → expired l (grp_now g + d) = true) ∧
    ∀ i p e, grp_procs g !! i = Some p → c_engaged (gp_st p) !! name = Some e → en_nextTry e <= grp_now g + d.
Proof using.
  destruct (upper_bound (omap (λ kl : key * Lease, r ← l_renew kl.2; d ← l_duration kl.2; Some (r + seconds d)) (st_leases (grp_api g)))) as [b1 Hb1].
  destruct (upper_bound (omap (λ p, en_nextTry <$> c_engaged (gp_st p) !! name) (grp_procs g))) as [b2 Hb2].
  exists (Z.max 0 (Z.max b1 b2 + 1 - grp_now g)). split_ands; [lia| |].
  - intros k l Hin. unfold expired. destruct (l_renew l) as [r|] eqn:Hr, (l_duration l) as [d|] eqn:Hd; try done.
    assert (r + seconds d <= b1); [|lia]. apply Hb1, list_elem_of_omap. exists (k, l). simpl. by rewrite Hr, Hd.
  - intros i p e Hp He. assert (en_nextTry e <= b2); [|lia]. apply Hb2, list_elem_of_omap. exists p.
    split; [by eapply list_elem_of_lookup_2|]. by rewrite He.
Qed.

(** ** The schedule: decide *)
Definition snapshot : list PeerInfo := (map_to_list survivors).*2.

Lemma snapshot_ok : NoDup (map ID snapshot) ∧ ∀ p, p ∈ snapshot ↔ ∃ i m, i ∈ alive ∧ members !! i = Some m ∧ p = r_self m.2.
Proof using HM Hal.
  assert (peers_ok survivors) as Hok.
  { intros id p (i & m & _ & Hm & -> & ->)%survivors_lookup. split; [done|]. by apply (mo_weight _ _ _ HM i m). }
  pose proof (Snapshot_NoDup (MkRegistry "" "" (MkPeer "" 0) survivors 0 0 false) Hok) as Hnd. split; [exact Hnd|].
  intros p. pose proof (Snapshot_elem (MkRegistry "" "" (MkPeer "" 0) survivors 0 0 false) p Hok) as He.
  change (Snapshot _) with snapshot in He. rewrite He. simpl. rewrite survivors_lookup. naive_solver.
Qed.

(** One of the survivors is the owner. *)
Lemma one_owner name :
  (∀ i, i ∈ alive → is_Some (members !! i)) → alive ≠ [] →
  ∃ i m, i ∈ alive ∧ members !! i = Some m ∧ should m.1 snapshot name = true ∧
    ∀ j m', j ∈ alive → members !! j = Some m' → j ≠ i → should m'.1 snapshot name = false.
Proof using HM H1 Hal.
  intros Hin Hne. destruct snapshot_ok as [Hnd Hsn].
  assert (snapshot ≠ []) as Hsne.
  { destruct alive as [|i al] eqn:Ea; [done|]. destruct (Hin i) as [m Hm]; [by left|]. intros Hx.
    assert (r_self m.2 ∈ snapshot) as Hs by (apply Hsn; exists i, m; split_ands; [by left|done|done]). rewrite Hx in Hs. by apply elem_of_nil in Hs. }
  destruct (H1 (ClusterName_String name) snapshot Hsne Hnd) as (p & Hp & Hown & Hu).
  apply Hsn in Hp as (i & m & Hi & Hm & ->).
  assert (∀ j m', members !! j = Some m' → should m'.1 snapshot name = sh (ClusterName_String name) snapshot (r_self m'.2)) as Hshould.
  { intros j m' Hj. unfold should. rewrite (mo_sharder _ _ _ HM j m' Hj). by destruct (mo_self _ _ _ HM j m' Hj) as [_ ->]. }
  exists i, m. split_ands; [done|done|by rewrite (Hshould i m Hm)|].
  intros j m' Hj Hm' Hji. rewrite (Hshould j m' Hm'). apply not_true_is_false. intros Ht. apply Hji.
  apply (mo_distinct _ _ _ HM j i m' m Hm' Hm). f_equal. apply Hu; [|done]. apply Hsn. by exists j, m'.
Qed.

(** The process's [Runnable] recomputes. *)
Lemma GRun_runs g i k order p m ctx :
  grp_procs g !! i = Some p → members !! i = Some m → c_tasks (gp_st p) !! k = Some (TRunnable ctx) →
  r_peers (gp_reg p) = survivors → merge_sort string_le order = sorted_keys (c_engaged (gp_st p)) →
  let s0 := set_tasks (delete k (c_tasks (gp_st p))) (load g (gp_st p)) in
  let s1 := (recompute m.1 order snapshot ctx s0).2 in
  ∃ s2, gexec (GRun i k order snapshot) g = Some (MkGroup (c_api s2) (grp_now g) (<[i := MkProc (gp_reg p) (gp_pc p) s2]> (grp_procs g))) ∧
    c_engaged s2 = c_engaged s1 ∧ c_guards s2 = c_guards s1 ∧ ∀ x, x ∈ c_tasks s1 → x ∈ c_tasks s2.
Proof using.
  intros Hp Hm Hk Hr Ho s0 s1. exists (spawn (TRunnable ctx) s1).2.
  split_ands; [|done|done|intros x Hx; simpl; apply elem_of_app; by left].
  cbn [gexec]. unfold co_step. rewrite Hp. simpl. unfold Snapshot. rewrite Hr. fold snapshot.
  rewrite (bool_decide_eq_true_2 (snapshot ≡ₚ snapshot)) by done. rewrite Hm. simpl. rewrite Hk. simpl.
  rewrite bool_decide_eq_true_2 by done. simpl. rewrite bind_eq. fold s0.
  unfold s1. by destruct (recompute m.1 order snapshot ctx s0) as [[] s].
Qed.

Definition recomputes (g : group) (name : ClusterName) (i : nat) : Prop :=
  ∃ p k ctx e, grp_procs g !! i = Some p ∧ c_tasks (gp_st p) !! k = Some (TRunnable ctx) ∧
    c_done ctx (gp_st p) = false ∧ c_engaged (gp_st p) !! name = Some e ∧ r_peers (gp_reg p) = survivors.

Definition stopped (g : group) (name : ClusterName) (i : nat) : Prop :=
  ∃ p, grp_procs g !! i = Some p ∧ ∀ e, c_engaged (gp_st p) !! name = Some e → en_started e = false.

(** Those that do not own the cluster do not run it once they have recomputed. *)
Lemma others_stop name todo g :
  NoDup todo → (∀ i, i ∈ todo → i ∈ alive ∧ recomputes g name i ∧ ∃ m, members !! i = Some m ∧ should m.1 snapshot name = false) →
  ∃ ls g', Forall by_alive ls ∧ run gexec ls g = Some g' ∧ (∀ i, i ∈ todo → stopped g' name i) ∧
    ∀ j, j ∉ todo → grp_procs g' !! j = grp_procs g !! j.
Proof using.
  intros Hnd. revert g. induction Hnd as [|i todo Hni Hnd IH]; intros g Hall.
  { exists [], g. split_ands; try done. by intros i ?%elem_of_nil. }
  destruct (Hall i) as (Hi & (p & k & ctx & e & Hp & Hk & _ & He & Hr) & m & Hm & Hsh); [by left|].
  destruct (GRun_runs g i k (sorted_keys (c_engaged (gp_st p))) p m ctx Hp Hm Hk Hr (order_sorted _)) as (s2 & Hx & Heng & _ & _).
  set (g1 := MkGroup (c_api s2) _ _) in *. destruct (IH g1) as (ls & g' & Hls & Hrun & Hst & Hoth).
  - intros j Hj. destruct (Hall j) as (Hj1 & (p' & k' & ctx' & e' & Hp' & Hrest) & Hj3); [by right|]. split_ands; [done| |done].
    exists p', k', ctx', e'. split; [|done]. simpl. by rewrite list_lookup_insert_ne by (by intros ->).
  - exists (GRun i k (sorted_keys (c_engaged (gp_st p))) snapshot :: ls), g'. split_ands.
    + by constructor.
    + cbn [run]. by rewrite Hx.
    + intros j [->|Hj]%elem_of_cons; [|by apply Hst]. unfold stopped. rewrite Hoth by done. simpl.
      eexists. split; [apply list_lookup_insert_eq; by eapply lookup_lt_Some|]. simpl. intros e'. rewrite Heng.
      apply recompute_stops; [apply sorted_keys_NoDup| |done]. apply elem_of_sorted_keys. by eexists.
    + intros j [Hne Hj]%not_elem_of_cons. rewrite Hoth by done. simpl. by rewrite list_lookup_insert_ne.
Qed.
End survivors.

(** ** Failover *)

(** A process that has not crashed: its registry and its [Runnable] go on, the
    latter under a context that is live, and it knows the cluster. *)
Definition survivor (g : group) (name : ClusterName) (i : nat) : Prop :=
  ∃ p k ctx e, grp_procs g !! i = Some p ∧ gp_pc p ≠ REnded ∧
    c_tasks (gp_st p) !! k = Some (TRunnable ctx) ∧ c_done ctx (gp_st p) = false ∧
    c_engaged (gp_st p) !! name = Some e.

Definition running (g : group) (name : ClusterName) (i : nat) : Prop :=
  ∃ p e, grp_procs g !! i = Some p ∧ c_engaged (gp_st p) !! name = Some e ∧ en_started e = true.

Lemma same_co_lookup g g' i p :
  same_co g g' → grp_procs g !! i = Some p → ∃ p', grp_procs g' !! i = Some p' ∧ gp_st p' = gp_st p.
Proof using.
  intros Hco Hp. specialize (Hco i). rewrite Hp in Hco. destruct (grp_procs g' !! i) as [p'|]; [|done].
  injection Hco as Hco. by exists p'.
Qed.

(** Everything runs out, and then the survivors see each other and nobody else. *)
Lemma everyone_lists alive g name :
  NoDup alive → ginv g → st_faults (grp_api g) = [] → (∀ i, i ∈ alive → survivor g name i) →
  ∃ ls g', Forall (by_alive alive) ls ∧ run gexec ls g = Some g' ∧ ginv g' ∧ same_co g g' ∧
    published (grp_now g') alive (grp_api g') ∧
    (∀ i p e, grp_procs g' !! i = Some p → c_engaged (gp_st p) !! name = Some e → en_nextTry e <= grp_now g') ∧
    ∀ i, i ∈ alive → recomputes alive g' name i.
Proof using HM.
  intros Hal HI Hf Hsur.
  destruct (settle alive Hal g HI Hf) as (ls0 & g0 & Hls0 & Hr0 & HI0 & _ & Hco0 & Hf0 & Hpc0).
  { intros i (p & _ & _ & _ & Hp & Hpc & _)%Hsur. destruct (gp_pc p) eqn:E; [left|right|done]; by exists p. }
  destruct (wait_enough g0 name) as (d & Hd & Hexp & Htry). set (t := grp_now g0 + d) in *.
  set (g1 := MkGroup (grp_api g0) t (grp_procs g0)).
  assert (gexec (GTick d) g0 = Some g1) as Hr1 by (simpl; by destruct (Z.leb_spec 0 d); [|lia]).
  pose proof (ginv_step _ _ _ HI0 Hr1) as HI1.
  destruct (renew_all alive Hal t g1 HI1 eq_refl) as (g2 & Hr2 & HI2 & Hn2 & Hco2 & Hpc2 & Hpub2); [|exact Hpc0|].
  { split; [done|intros k l Hin; left; by eapply Hexp|by intros i m ?%elem_of_nil]. }
  destruct (refresh_all alive Hal t g2 HI2 Hn2 Hpub2 Hpc2) as (g3 & Hr3 & HI3 & Hn3 & Hco3 & Hpub3 & Hsn3).
  assert (same_co g1 g3) as Hco13 by (by eapply same_co_trans).
  assert (same_co g g3) as Hco by (by eapply (same_co_trans g g1 g3)).
  exists ((ls0 ++ [GTick d]) ++ (GPeers <$> alive) ++ (GPeers <$> alive)), g3. split_ands; try done.
  - rewrite !Forall_app. split_ands; [done|by constructor|..]; apply list.Forall_fmap, list.Forall_forall; by intros i.
  - assert (run gexec (ls0 ++ [GTick d]) g = Some g1) as Hr01 by (rewrite run_app, Hr0; cbn [mbind option_bind run]; by rewrite Hr1).
    rewrite run_app, Hr01. cbn [mbind option_bind]. rewrite run_app, Hr2. exact Hr3.
  - by rewrite Hn3.
  - intros i p e Hp He. rewrite Hn3. destruct (same_co_lookup g3 g1 i p) as (p1 & Hp1 & Hst); [intros j; by rewrite Hco13|done|].
    eapply (Htry i p1); [exact Hp1|by rewrite Hst].
  - intros i Hi. destruct (Hsur i Hi) as (p & k & ctx & e & Hp & _ & Hk & Hlive & He). destruct (same_co_lookup g g3 i p Hco Hp) as (p3 & Hp3 & Hst).
    destruct (Hsn3 i Hi) as (p' & Hp' & Hr). rewrite Hp3 in Hp'. injection Hp' as <-.
    exists p3, k, ctx, e. by rewrite Hst.
Qed.

(** The owner recomputes, and its fence is free. *)
Lemma owner_starts alive g name i m :
  i ∈ alive → members !! i = Some m → should m.1 (snapshot alive) name = true → ginv g → published (grp_now g) alive (grp_api g) →
  (∀ j p e, grp_procs g !! j = Some p → c_engaged (gp_st p) !! name = Some e → en_nextTry e <= grp_now g) →
  recomputes alive g name i →
  ∃ l g' p e, by_alive alive l ∧ gexec l g = Some g' ∧ (∀ j, j ≠ i → grp_procs g' !! j = grp_procs g !! j) ∧
    grp_procs g' !! i = Some p ∧ c_engaged (gp_st p) !! name = Some e ∧ en_started e = true ∧
    (¬ running g name i → ∃ ctx gid gd, en_ctx e = Some ctx ∧ en_fence e = Some gid ∧ c_guards (gp_st p) !! gid = Some gd ∧
       g_held gd = true ∧ TStart ctx name (en_cl e) ∈ c_tasks (gp_st p)).
Proof using HM.
  intros Hi Hm Hsh HI Hpub Htry (p & k & ctx & e & Hp & Hk & Hlive & He & Hr).
  destruct (gi_proc _ HI i p Hp) as (m' & Hm' & [Hco _ _]). pose proof (eq_trans (eq_sym Hm) Hm') as [= <-].
  destruct (order_first (c_engaged (gp_st p)) name) as [Hnd Hord]; [by eexists|]. set (rest := filter _ _) in *.
  destruct (GRun_runs alive g i k (name :: rest) p m ctx Hp Hm Hk Hr Hord) as (s2 & Hx & Heng & Hgs & Hts).
  set (s0 := set_tasks _ _) in *.
  destruct (recompute_starts m.1 rest (snapshot alive) ctx s0 name e) as (e' & He' & Hst & Hcl & Hkeep & Hnew); try done.
  - by eapply (take_task_cinv m.1 somehow k (TRunnable ctx) (load g (gp_st p))).
  - simpl. by eapply Htry.
  - apply Hpub.
  - apply HI.
  - intros l Hl. simpl in Hl |- *. unfold lookup_lease in Hl. destruct (find _ _) as [[k' l']|] eqn:Ef; [|done]. injection Hl as <-.
    apply find_some in Ef as [Hin%list_elem_of_In Hk']. simpl in *. apply bool_decide_eq_true in Hk'. subst k'.
    destruct (pb_others _ _ _ Hpub _ _ Hin) as [?|(j & mj & _ & Hmj & Hkey & _)]; [done|].
    exfalso. apply (mo_apart _ _ _ HM i j m mj Hm Hmj). exists name. by rewrite Hkey.
  - eexists _, _, _, e'. split_ands; [|exact Hx|..].
    + done.
    + intros j Hne. simpl. by rewrite list_lookup_insert_ne.
    + simpl. apply list_lookup_insert_eq. by eapply lookup_lt_Some.
    + simpl. by rewrite Heng.
    + done.
    + intros Hno. simpl. rewrite Hgs. destruct (en_started e) eqn:Hse; [exfalso; apply Hno; by exists p, e|].
      destruct (Hnew eq_refl) as (ctx' & gid & gd & ? & ? & ? & ? & Hin). exists ctx', gid, gd. rewrite Hcl. split_ands; try done. by apply Hts.
Qed.

(** Complement (safety): a process's membership is its own.  In every reachable state,
    whatever step is taken that is not of its own registry - a renewal, a
    listing or a release of another registry, a recomputation, an acquisition, a
    renewal or a release of a fence of any process - its Lease stays what it is. *)
Theorem membership_is_left_alone g l g' j m :
  reachable gexec ginit g → gexec l g = Some g' → members !! j = Some m → l ≠ GPeers j → l ≠ GLeave j →
  lookup_lease (st_leases (grp_api g')) (peer_key m.2) = lookup_lease (st_leases (grp_api g)) (peer_key m.2).
Proof using HM.
  intros HI%ginv_reachable Hs Hm Hl1 Hl2.
  assert (∀ i r a', i ≠ j → (∃ mi, members !! i = Some mi ∧ same_registry mi.2 r) → moves (λ k, k = peer_key r) (grp_api g) a' →
    lookup_lease (st_leases a') (peer_key m.2) = lookup_lease (st_leases (grp_api g)) (peer_key m.2)) as Hother.
  { intros i r a' Hne (mi & Hmi & Hr) Hmv. apply (mv_same _ _ _ Hmv). rewrite Hr. intros Heq. by apply Hne, (peer_key_inj i j mi m). }
  assert (∀ i l, its_own l = true → co_step i l g = Some g' →
    lookup_lease (st_leases (grp_api g')) (peer_key m.2) = lookup_lease (st_leases (grp_api g)) (peer_key m.2)) as Hco.
  { intros i lb Hown Hx. unfold co_step in Hx. destruct (grp_procs g !! i) as [p|] eqn:Hp; [|done]. simpl in Hx.
    destruct (gi_proc _ HI i p Hp) as (mi & Hmi & [_ Hgs _]). rewrite Hmi in Hx. simpl in Hx.
    destruct (cexec mi.1 _ (load g (gp_st p))) as [s|] eqn:Hc; [|done]. injection Hx as <-.
    destruct (cexec_tidy mi.1 _ (load g (gp_st p)) s Hown Hgs (gi_store _ HI) Hc) as [_ Hmv].
    apply (mv_same _ _ _ Hmv). by eapply (mo_apart _ _ _ HM). }
  destruct l as [d|i|i|i k order peers|i l]; simpl in Hs.
  - destruct (0 <=? d); [|done]. by injection Hs as <-.
  - destruct (grp_procs g !! i) as [p|] eqn:Hp; [|done]. simpl in Hs. destruct (member_of g i p HI Hp) as (mi & Hmi & Hr).
    destruct (gp_pc p); [| |done].
    + destruct (renewSelf_moves (gp_reg p) (grp_now g) (grp_api g) (gi_store _ HI)) as [Hmv _]; [rewrite Hr; by eapply (gi_labels _ HI)|].
      destruct (renewSelfLease _ _ _) as [e a]. injection Hs as <-. apply (Hother i (gp_reg p)); [congruence|by exists mi|done].
    + destruct (refresh_moves (gp_reg p) (grp_now g) (grp_api g) (λ _, False) (gi_store _ HI)) as [Hmv _].
      destruct (refreshPeers _ _ _) as [[e r] a]. injection Hs as <-. apply (mv_same _ _ _ Hmv). by intros [].
  - destruct (grp_procs g !! i) as [p|] eqn:Hp; [|done]. simpl in Hs. destruct (member_of g i p HI Hp) as (mi & Hmi & Hr).
    destruct (gp_pc p); [|done..]. destruct (r_releaseOnCancel (gp_reg p)); [|by injection Hs as <-].
    destruct (release_moves (gp_reg p) (grp_api g) (gi_store _ HI)) as [Hmv _]; [rewrite Hr; by eapply (gi_labels _ HI)|].
    destruct (release _ _) as [e a]. injection Hs as <-. apply (Hother i (gp_reg p)); [congruence|by exists mi|done].
  - destruct (grp_procs g !! i) as [p|]; [|done]. simpl in Hs. destruct (bool_decide _); [|done].
    by eapply (Hco i (CRun k order peers)).
  - destruct (its_own l) eqn:Hown; [|done]. by eapply (Hco i l).
Qed.

(** C5 (liveness): processes that crash are replaced.  Whatever the processes of a
    group have done - however their registries, coordinators, renewals and
    releases, the clock and the failures of the server have interleaved - and
    whichever of them still take steps, once the server answers, the survivors
    that know a cluster, and whose own contexts are live, can by themselves reach a state in which exactly one of
    them runs it: the time passes in which what was published runs out, each
    publishes itself, lists, and recomputes, reading its snapshot in the order
    the others read theirs (the order matters only if scores tie).  If the one
    was not running the cluster already, it holds the cluster's fence and the
    goroutine that engages the awares with the cluster is under way. *)
Theorem crashed_processes_are_replaced alive g name :
  reachable gexec ginit g → st_faults (grp_api g) = [] → NoDup alive → alive ≠ [] →
  (∀ i, i ∈ alive → survivor g name i) →
  ∃ ls g' i p e, Forall (by_alive alive) ls ∧ run gexec ls g = Some g' ∧ i ∈ alive ∧
    grp_procs g' !! i = Some p ∧ c_engaged (gp_st p) !! name = Some e ∧ en_started e = true ∧
    (¬ running g name i → ∃ ctx gid gd, en_ctx e = Some ctx ∧ en_fence e = Some gid ∧ c_guards (gp_st p) !! gid = Some gd ∧
       g_held gd = true ∧ TStart ctx name (en_cl e) ∈ c_tasks (gp_st p)) ∧
    ∀ j, j ∈ alive → running g' name j → j = i.
Proof using HM H1.
  intros Hreach Hf Hal Hne Hsur.
  destruct (everyone_lists alive g name Hal (ginv_reachable g Hreach) Hf Hsur) as (ls & g3 & Hls & Hr & HI & Hco & Hpub & Htry & Hrec).
  assert (∀ i, i ∈ alive → is_Some (members !! i)) as Hmem.
  { intros i (p & _ & _ & _ & Hp & _)%Hrec. destruct (gi_proc _ HI i p Hp) as (m & Hm & _). by exists m. }
  destruct (one_owner alive Hal name Hmem Hne) as (i & m & Hi & Hm & Hsh & Hoth).
  destruct (owner_starts alive g3 name i m Hi Hm Hsh HI Hpub Htry (Hrec i Hi)) as (l & g4 & p & e & Hl & Hr4 & Hsame & Hp & He & Hst & Hnew).
  destruct (others_stop alive name (filter (λ j, j ≠ i) alive) g4) as (ls5 & g5 & Hls5 & Hr5 & Hstop & Hkeep).
  - by apply NoDup_filter.
  - intros j [Hji Hj]%list_elem_of_filter. destruct (Hrec j Hj) as (pj & k & ctx & ej & Hpj & Hrest). split_ands; [done| |].
    + exists pj, k, ctx, ej. by rewrite Hsame.
    + destruct (Hmem j Hj) as [mj Hmj]. exists mj. split; [done|by eapply Hoth].
  - exists ((ls ++ [l]) ++ ls5), g5, i, p, e. split_ands; try done.
    + rewrite !Forall_app. split_ands; [done|by constructor|done].
    + rewrite !run_app, Hr. cbn [option_bind mbind]. cbn [run]. rewrite Hr4. exact Hr5.
    + rewrite Hkeep; [done|]. by intros [? _]%list_elem_of_filter.
    + intros Hno. apply Hnew. intros (p3 & e3 & Hp3 & He3 & Hs3). apply Hno.
      destruct (same_co_lookup g3 g i p3) as (p0 & Hp0 & Heq); [intros j; by rewrite Hco|done|]. exists p0, e3. by rewrite Heq.
    + intros j Hj (pj & ej & Hpj & Hej & Hsj). apply dec_stable. intros Hji.
      destruct (Hstop j) as (pj' & Hpj' & Hno); [by apply list_elem_of_filter|]. rewrite Hpj in Hpj'. injection Hpj' as <-.
      by rewrite (Hno ej Hej) in Hsj.
Qed.
(** ** While the snapshots agree *)
Section agreement.
Context (peers : list PeerInfo) (name : ClusterName).

(** Recomputations read a snapshot of [peers], in any order; anything else may happen. *)
Definition aexec (l : glabel) (g : group) : option group :=
  match l with
  | GRun i k order ps => if bool_decide (ps ≡ₚ peers) then gexec l g else None
  | GDo i (CRun k order ps) => if bool_decide (ps ≡ₚ peers) then gexec l g else None
  | _ => gexec l g
  end.

Context (Hfree : ∀ ps self, ps ≡ₚ peers → sh (ClusterName_String name) ps self = sh (ClusterName_String name) peers self).

Definition idle_at (g : group) (j : nat) : Prop := ∀ p, grp_procs g !! j = Some p → idle name (gp_st p).

Lemma not_running g j : idle_at g j → ¬ running g name j.
Proof using. intros Hi (p & e & Hp & He & Hs). rewrite (Hi p Hp e He) in Hs. done. Qed.

Lemma running_idle g j : ¬ running g name j → idle_at g j.
Proof using. intros Hno p Hp e He. apply not_true_is_false. intros Hs. apply Hno. by exists p, e. Qed.

Lemma should_agree j m ps : members !! j = Some m → ps ≡ₚ peers → should m.1 ps name = should m.1 peers name.
Proof using HM Hfree.
  intros Hm Hps. unfold should. rewrite (mo_sharder _ _ _ HM j m Hm). by apply Hfree.
Qed.

Lemma idle_insert a n procs i q j :
  (∀ p, procs !! j = Some p → idle name (gp_st p)) → (i = j → idle name (gp_st q)) → idle_at (MkGroup a n (<[i := q]> procs)) j.
Proof using. intros Hj Hq p [(-> & <- & _)|[_ Hp]]%list_lookup_insert_Some; [by apply Hq|by apply Hj]. Qed.

Lemma co_step_idle i l g g' j m :
  its_own l = true → (∀ k order ps, l = CRun k order ps → ps ≡ₚ peers) → members !! j = Some m → should m.1 peers name = false →
  co_step i l g = Some g' → idle_at g j → idle_at g' j.
Proof using HM Hfree.
  intros Hown Hps Hm Hsh Hs Hid. unfold co_step in Hs. destruct (grp_procs g !! i) as [p|] eqn:Hp; [|done]. simpl in Hs.
  destruct (members !! i) as [mi|] eqn:Hmi; [|done]. simpl in Hs. destruct (cexec mi.1 l (load g (gp_st p))) as [s|] eqn:Hx; [|done].
  injection Hs as <-. apply idle_insert; [exact Hid|]. intros <-. pose proof (eq_trans (eq_sym Hm) Hmi) as [= <-].
  eapply (cexec_idle m.1 name l (load g (gp_st p))); [done| |exact Hx|].
  - intros k order ps ->. rewrite (should_agree i m ps Hm); [done|by eapply Hps].
  - by apply Hid.
Qed.

(** A process that does not own the cluster does not begin to run it ... *)
Lemma agreed_idle l g g' j m :
  members !! j = Some m → should m.1 peers name = false → aexec l g = Some g' → idle_at g j → idle_at g' j.
Proof using HM Hfree.
  intros Hm Hsh Hs Hid. destruct l as [d|i|i|i k order ps|i l]; simpl in Hs.
  - destruct (0 <=? d); [|done]. by injection Hs as <-.
  - destruct (grp_procs g !! i) as [p|] eqn:Hp; [|done]. simpl in Hs. destruct (gp_pc p); [| |done].
    + destruct (renewSelfLease _ _ _) as [e a]. injection Hs as <-. apply idle_insert; [exact Hid|]. intros ->. exact (Hid p Hp).
    + destruct (refreshPeers _ _ _) as [[e r] a]. injection Hs as <-. apply idle_insert; [exact Hid|]. intros ->. exact (Hid p Hp).
  - destruct (grp_procs g !! i) as [p|] eqn:Hp; [|done]. simpl in Hs. destruct (gp_pc p); [|done..].
    destruct (r_releaseOnCancel (gp_reg p)); [destruct (release _ _) as [e a]|]; injection Hs as <-;
      (apply idle_insert; [exact Hid|intros ->; exact (Hid p Hp)]).
  - case_bool_decide as Hps; [|done]. destruct (grp_procs g !! i) as [p|]; [|done]. simpl in Hs. destruct (bool_decide _); [|done].
    eapply (co_step_idle i (CRun k order ps)); eauto. by intros ? ? ? [= <- <- <-].
  - assert (∀ k order ps, l = CRun k order ps → ps ≡ₚ peers) as Hps.
    { intros k order ps ->. by case_bool_decide. }
    assert ((if its_own l then co_step i l g else None) = Some g') as Hs' by (destruct l; try exact Hs; by case_bool_decide).
    destruct (its_own l) eqn:Hown; [|done]. by eapply (co_step_idle i l).
Qed.

(** ... and stops it when it next recomputes. *)
Lemma agreed_recompute j k order ps g g' m p t :
  members !! j = Some m → should m.1 peers name = false → grp_procs g !! j = Some p → c_tasks (gp_st p) !! k = Some t →
  is_recompute t = true → aexec (GRun j k order ps) g = Some g' → idle_at g' j.
Proof using HM Hfree.
  intros Hm Hsh Hp Hk Ht Hs. simpl in Hs. case_bool_decide as Hps; [|done]. rewrite Hp in Hs. simpl in Hs.
  destruct (bool_decide _); [|done]. unfold co_step in Hs. rewrite Hp, Hm in Hs. simpl in Hs. rewrite Hk in Hs. simpl in Hs.
  destruct (run_task _ _ _ _ _) as [s|] eqn:Hx; [|done]. injection Hs as <-.
  intros q Hq. simpl in Hq. rewrite list_lookup_insert_eq in Hq by (by eapply lookup_lt_Some). injection Hq as <-.
  eapply (run_task_idle m.1 name t order ps); [by rewrite (should_agree j m ps)|exact Hx|by left].
Qed.

Lemma run_idle ls g g' j m :
  members !! j = Some m → should m.1 peers name = false → run aexec ls g = Some g' → idle_at g j → idle_at g' j.
Proof using HM Hfree.
  intros Hm Hsh. revert g. induction ls as [|l ls IH]; intros g Hr Hid; simpl in Hr; [by injection Hr as <-|].
  destruct (aexec l g) as [g1|] eqn:Hx; [|done]. apply (IH g1 Hr). by eapply agreed_idle.
Qed.

(** In the run of [ls] the process recomputes at some point. *)
Definition has_recomputed (ls : list glabel) (g : group) (j : nat) : Prop :=
  ∃ ls1 k order ps ls2 g1 p t, ls = ls1 ++ GRun j k order ps :: ls2 ∧ run aexec ls1 g = Some g1 ∧
    grp_procs g1 !! j = Some p ∧ c_tasks (gp_st p) !! k = Some t ∧ is_recompute t = true.

Lemma run_recomputed ls g g' j m :
  members !! j = Some m → should m.1 peers name = false → run aexec ls g = Some g' → has_recomputed ls g j → idle_at g' j.
Proof using HM Hfree.
  intros Hm Hsh Hr (ls1 & k & order & ps & ls2 & g1 & p & t & -> & Hr1 & Hp & Hk & Ht).
  rewrite run_app, Hr1 in Hr. cbn [mbind option_bind run] in Hr. destruct (aexec _ g1) as [g2|] eqn:Hx; [|done].
  eapply (run_idle ls2 g2); [done|done|done|]. by eapply agreed_recompute.
Qed.
End agreement.

(** C4 (safety): processes that agree exclude each other, whatever the interleaving.
    As long as recomputations read snapshots of the same peers - each in an
    order of its own, which makes no difference for the cluster - any steps of
    any processes may happen between them: time, renewals and their failures,
    releases, cleanups, clusters that come and go, registries that publish and
    list.  Then, of the peers that were not running the cluster or have
    recomputed since, at most one runs it, and it stays so. *)
Theorem agreed_processes_exclude_each_other peers name (who : list nat) ls g g' :
  (∀ ps self, ps ≡ₚ peers → sh (ClusterName_String name) ps self = sh (ClusterName_String name) peers self) →
  NoDup (map ID peers) → (∀ j m, j ∈ who → members !! j = Some m → r_self m.2 ∈ peers) →
  reachable gexec ginit g → run (aexec peers) ls g = Some g' →
  (∀ j, j ∈ who → ¬ running g name j ∨ has_recomputed peers ls g j) →
  ∀ j j', j ∈ who → j' ∈ who → running g' name j → running g' name j' → j = j'.
Proof using HM H1.
  intros Hfree Hnd Hself HI%ginv_reachable Hr Hrec.
  assert (∀ ls g g', ginv g → run (aexec peers) ls g = Some g' → ginv g') as Hinv.
  { clear -HM. intros ls. induction ls as [|l ls IH]; intros g g' HI Hr; simpl in Hr; [by injection Hr as <-|].
    destruct (aexec peers l g) as [g1|] eqn:Hx; [|done]. apply (IH g1); [|done]. apply (ginv_step l g); [done|].
    destruct l as [d|i|i|i k order ps|i l]; try exact Hx; simpl in Hx; [by destruct (bool_decide _)|].
    destruct l; try exact Hx. by destruct (bool_decide _). }
  assert (∀ j, j ∈ who → running g' name j → ∃ m, members !! j = Some m ∧ should m.1 peers name = true) as Howner.
  { intros j Hj Hrun. pose proof Hrun as (p & _ & Hp & _). destruct (gi_proc _ (Hinv ls g g' HI Hr) j p Hp) as (m & Hm & _).
    exists m. split; [done|]. destruct (should m.1 peers name) eqn:Hsh; [done|exfalso]. revert Hrun. apply not_running.
    destruct (Hrec j Hj) as [Hno|Hre]; [|by eapply (run_recomputed peers name Hfree)].
    eapply (run_idle peers name Hfree ls g); [done|done|done|by apply running_idle]. }
  intros j j' Hj Hj' Hrun Hrun'. destruct (Howner j Hj Hrun) as (m & Hm & Hsh). destruct (Howner j' Hj' Hrun') as (m' & Hm' & Hsh').
  pose proof (Hself j m Hj Hm) as Hin. pose proof (Hself j' m' Hj' Hm') as Hin'.
  unfold should in Hsh, Hsh'. rewrite (mo_sharder _ _ _ HM j m Hm), (proj2 (mo_self _ _ _ HM j m Hm)) in Hsh.
  rewrite (mo_sharder _ _ _ HM j' m' Hm'), (proj2 (mo_self _ _ _ HM j' m' Hm')) in Hsh'.
  assert (peers ≠ []) as Hne by (intros ->; by apply elem_of_nil in Hin).
  destruct (H1 (ClusterName_String name) peers Hne Hnd) as (q & _ & _ & Hu).
  apply (mo_distinct _ _ _ HM j j' m m' Hm Hm'). by rewrite (Hu _ Hin Hsh), (Hu _ Hin' Hsh').
Qed.
End group.

(** ** Processes as [New] makes them *)

(** The identity a host name gives. *)
Definition host_id (h : string) : string := DNS1123 (if bool_decide (h = "") then "unknown" else h).

Definition default_member (h : string) : Coordinator * leaseRegistry :=
  (New h [], NewLeaseRegistryWithOptions h "kube-system" "mcr-peer" "" 1 [WithReleaseOnCancel false]).

Lemma default_members_ok hosts :
  NoDup (host_id <$> hosts) → (∀ h, h ∈ hosts → host_id h ≠ "") →
  members_ok (default_member <$> hosts) HRW_ShouldOwn "kube-system" "mcr-peer".
Proof.
  intros Hnd Hne. assert (∀ i m, (default_member <$> hosts) !! i = Some m → ∃ h, hosts !! i = Some h ∧ m = default_member h) as Hm.
  { intros i m (h & -> & Hh)%list_lookup_fmap_Some. by exists h. }
  split.
  - by intros i m (h & _ & ->)%Hm.
  - by intros i m (h & _ & ->)%Hm.
  - by intros i m (h & _ & ->)%Hm.
  - intros i m (h & Hh & ->)%Hm. split; [|done]. apply (Hne h). by eapply list_elem_of_lookup_2.
  - intros i j m m' (h & Hh & ->)%Hm (h' & Hh' & ->)%Hm Heq. eapply (NoDup_lookup _ i j (host_id h)); [exact Hnd|..].
    + by rewrite list_lookup_fmap, Hh.
    + rewrite list_lookup_fmap, Hh'. exact (f_equal Some (eq_sym Heq)).
  - intros i j m m' (h & _ & ->)%Hm (h' & _ & ->)%Hm [name Heq]. by injection Heq.
Qed.

(** Two processes; "peer-1" takes the cluster and then crashes. *)
Definition two_members : list (Coordinator * leaseRegistry) := default_member <$> ["peer-0"; "peer-1"].

Definition two_init : group :=
  MkGroup (MkStore [] 0 []) 1 ((λ m : Coordinator * leaseRegistry, MkProc m.2 RRenew (proc0 [])) <$> two_members).

Definition two_labels : list glabel :=
  [GDo 0 (CNewCtx Background); GDo 0 (CEngage (ctx_of 0) "zoo" 7%nat); GDo 0 (CRunnable (ctx_of 0));
   GDo 1 (CNewCtx Background); GDo 1 (CEngage (ctx_of 0) "zoo" 7%nat); GDo 1 (CRunnable (ctx_of 0));
   GPeers 0; GPeers 0; GPeers 1; GPeers 1; GPeers 0; GPeers 0;
   GRun 0 2 ["zoo"] two_peers; GRun 1 2 ["zoo"] two_peers].

Definition two_ran : group := default two_init (run (gexec two_members) two_labels two_init).

Lemma two_initial : ginit two_members two_init.
Proof. split; [reflexivity|repeat constructor]. Qed.

Lemma two_reachable : reachable (gexec two_members) (ginit two_members) two_ran.
Proof.
  pose proof two_initial as Hi.
  assert (run (gexec two_members) two_labels two_init = Some two_ran) as Hr by (vm_compute; reflexivity).
  exact (run_reachable (gexec two_members) (ginit two_members) two_labels two_init two_ran (reach_init _ _ _ Hi) Hr).
Qed.

Definition two_proc (i : nat) : gproc := default (MkProc (peer "" 0) RRenew (proc0 [])) (grp_procs two_ran !! i).
Definition two_e0 : engagement := MkEngagement 0 "zoo" 7%nat None None false None zero_time.

Definition two_e1 : engagement := default two_e0 (c_engaged (gp_st (two_proc 1)) !! ("zoo" : ClusterName)).

Lemma two_members_ok : members_ok two_members HRW_ShouldOwn "kube-system" "mcr-peer".
Proof.
  apply default_members_ok; [apply (bool_decide_unpack _); vm_compute; exact I|].
  apply list.Forall_forall, (bool_decide_unpack _). vm_compute. exact I.
Qed.

Lemma two_running : running two_ran "zoo" 1.
Proof. exists (two_proc 1), two_e1. split_ands; vm_compute; reflexivity. Qed.

(** While both list both, in either order, only "peer-1" runs "zoo". *)
Lemma agreed_processes_exclude_each_other_witness :
  running two_ran "zoo" 1 ∧ ∀ j, j ∈ [0%nat; 1%nat] → running two_ran "zoo" j → j = 1%nat.
Proof.
  split; [exact two_running|]. intros j Hj Hrun.
  apply (agreed_processes_exclude_each_other two_members HRW_ShouldOwn "kube-system" "mcr-peer" two_members_ok
    two_peers "zoo" [0%nat; 1%nat] two_labels two_init two_ran); [| | | | | |exact Hj|right; left|exact Hrun|exact two_running].
  - intros ps self Hps. symmetry. by apply hrw_order_independent; [exact two_peers_distinct|].
  - apply (bool_decide_unpack _). vm_compute. exact I.
  - intros [|[|i]] m _ Hm; [..|done]; injection Hm as <-; [left|right; left].
  - exact (reach_init _ _ _ two_initial).
  - vm_compute. reflexivity.
  - intros i _. left. intros (p & e & Hp & He & _). destruct i as [|[|i]]; [..|done]; injection Hp as <-; discriminate He.
Defined.

(** "peer-0", which waited, can take over. *)
Lemma crashed_processes_are_replaced_witness :
  running two_ran "zoo" 1 ∧ ¬ running two_ran "zoo" 0 ∧
  ∃ ls g' p e, Forall (by_alive [0%nat]) ls ∧ run (gexec two_members) ls two_ran = Some g' ∧
    grp_procs g' !! 0%nat = Some p ∧ c_engaged (gp_st p) !! "zoo" = Some e ∧ en_started e = true.
Proof.
  assert (grp_procs two_ran !! 0%nat = Some (two_proc 0)) as Hp by (vm_compute; reflexivity).
  assert (c_engaged (gp_st (two_proc 0)) !! ("zoo" : ClusterName) = Some two_e0) as He by (vm_compute; reflexivity).
  split; [|split].
  - exact two_running.
  - intros (p & e & Hp' & He' & Hs). pose proof (inj Some _ _ (eq_trans (eq_sym Hp) Hp')) as Hpe. rewrite <-Hpe in He'.
    pose proof (inj Some _ _ (eq_trans (eq_sym He) He')) as Hee. rewrite <-Hee in Hs. discriminate Hs.
  - assert (∀ i, i ∈ [0%nat] → survivor two_ran "zoo" i) as Hsur.
    { intros i ->%list_elem_of_singleton. exists (two_proc 0), 2%nat, (ctx_of 0), two_e0.
      split; [exact Hp|]. split; [vm_compute; discriminate|]. split; [vm_compute; reflexivity|]. split; [vm_compute; reflexivity|exact He]. }
    assert (st_faults (grp_api two_ran) = []) as Hf by (vm_compute; reflexivity).
    pose proof (crashed_processes_are_replaced two_members HRW_ShouldOwn "kube-system" "mcr-peer" two_members_ok [0%nat] two_ran "zoo"
      two_reachable Hf (NoDup_singleton _) ltac:(discriminate) Hsur) as (ls & g' & i & p & e & Hls & Hr & Hi & Hp' & He' & Hs & _).
    apply list_elem_of_singleton in Hi. rewrite Hi in Hp'.
    exists ls, g', p, e. exact (conj Hls (conj Hr (conj Hp' (conj He' Hs)))).
Defined.
