(* ===== verification/Basic.v ===== *)
(** * pkg/manager/coordinator/basic: engage everything at once

    The default coordinator: no sharding, no fencing.  The mutex only guards
    the list of awares, which [Engage] copies; an aware added meanwhile is not
    engaged for that cluster. *)

From S2P Require Import Prelude GoErrors GoContext Multicluster.

(** [W] is what the awares act on: [world] for those of the environment. *)
(* src: pkg/manager/coordinator/basic/basic.go:29-33 Coordinator *)
Record basic_on {W : Type} := MkBasic { awares : list (AwareOn W) }.
Arguments basic_on : clear implicits.
Arguments MkBasic {W} _.
Notation basic := (basic_on world).

(* src: pkg/manager/coordinator/basic/basic.go:35-38 New *)
Definition basic_New {W} : basic_on W := MkBasic [].

(* src: pkg/manager/coordinator/basic/basic.go:40-45 Coordinator.AddAware *)
Definition basic_AddAware {W} (c : basic_on W) (r : AwareOn W) : basic_on W := MkBasic (awares c ++ [r]).

(* src: pkg/manager/coordinator/basic/basic.go:47-58 Coordinator.Engage *)
Definition basic_Engage {W} (c : basic_on W) : AwareOn W := fun ctx name cl =>
  let rs := awares c in
  for_range rs (λ r, r ctx name cl).

(* src: pkg/manager/coordinator/basic/basic.go:60-61 Coordinator.Runnable *)
Definition basic_Runnable {W} (c : basic_on W) : option nat := None.

(** ** Properties *)

(** The calls of the environment's awares up to and including the first failure. *)
Fixpoint engage_calls (o : oracle) (calls : list call) (ctx : context) (name : ClusterName) (cl : cluster)
    (as_ : list nat) : list call :=
  match as_ with
  | [] => []
  | a :: as_ =>
      let c := CallEngage a ctx name cl in
      c :: match o calls c with
           | Some _ => []
           | None => engage_calls o (calls ++ [c]) ctx name cl as_
           end
  end.

Lemma awares_added {W} (l : list (AwareOn W)) (c : basic_on W) : awares (fold_left basic_AddAware l c) = awares c ++ l.
Proof. revert c. induction l as [|r l IH]; intros c; simpl; [by rewrite app_nil_r|]. rewrite IH. simpl. by rewrite <-app_assoc. Qed.

(** Complement (functional): the basic coordinator engages the awares one after the other
    in the order they were added, with the cluster's own context, and stops at
    the first error, which it returns; it returns nil only when every aware has
    been engaged. *)
Theorem basic_Engage_in_order o as_ ctx name cl w :
  let '(err, w') := basic_Engage (fold_left basic_AddAware (map (ext_aware o) as_) basic_New) ctx name cl w in
  w_calls w' = w_calls w ++ engage_calls o (w_calls w) ctx name cl as_ ∧ w_ctxs w' = w_ctxs w ∧
  (err = None ↔ ∀ pre a post, as_ = pre ++ a :: post →
     o (w_calls w ++ map (λ a, CallEngage a ctx name cl) pre) (CallEngage a ctx name cl) = None).
Proof.
  unfold basic_Engage. rewrite awares_added. simpl. revert w.
  induction as_ as [|a as_ IH]; intros w; simpl; unfold on_nil, ext_aware, ask; run_m.
  - split_ands; [by rewrite app_nil_r|done|split; [|done]]. by intros _ [|] ? ?.
  - destruct (o (w_calls w) (CallEngage a ctx name cl)) as [e|] eqn:Eo; simpl.
    + split_ands; [done..|split; [done|]]. intros H. specialize (H [] a as_ eq_refl).
      simpl in H. rewrite app_nil_r in H. congruence.
    + specialize (IH (World (w_ctxs w) (w_calls w ++ [CallEngage a ctx name cl]))).
      destruct (for_range _ _ _) as [err w']. simpl in IH. destruct IH as (Hc & Hx & Hiff).
      split_ands; [by rewrite Hc, <-app_assoc|done|]. rewrite Hiff. split.
      * intros H [|b pre] a' post [= -> ->]; [by rewrite app_nil_r|].
        specialize (H pre a' post eq_refl). by rewrite <-app_assoc in H.
      * intros H pre a' post ->. specialize (H (a :: pre) a' post eq_refl).
        simpl in H. by rewrite <-app_assoc.
Qed.
