(* ===== verification/Manager.v ===== *)
(** * pkg/manager: the multicluster manager

    The manager wraps a controller-runtime manager (the host), which is itself
    the cluster with the empty name, and delegates clusters to its provider and
    their engagement to its coordinator.  Host, provider and coordinator are
    interfaces: the host is called through the world, the provider is an
    instance of [Provider], the coordinator one of [CoordinatorI]. *)

From S2P Require Import Prelude GoErrors GoContext Multicluster Reconcile Basic.

(* src: pkg/manager/manager.go:41-42 LocalCluster *)
Definition LocalCluster : ClusterName := "".

(** A runnable value and its [Engage] method. *)
(* src: pkg/manager/manager.go:119-125 Runnable *)
Record Runnable := MkRunnable {
  run_id : nat;
  run_Engage : Aware;
}.

(** The [Coordinator] interface over coordinator states [C]. *)
(* src: pkg/manager/coordinator.go:28-47 Coordinator *)
Class CoordinatorI (C : Type) := {
  coord_AddAware : C → Aware → C;
  coord_Engage : C → context → ClusterName → cluster → M world (C * option error);
  coord_Runnable : C → option nat;
}.

#[export] Instance basic_CoordinatorI : CoordinatorI basic := {|
  coord_AddAware := basic_AddAware;
  coord_Engage c ctx name cl := err ← basic_Engage c ctx name cl; mret (c, err);
  coord_Runnable := basic_Runnable;
|}.

Section manager.
Context {P : Type} {PP : Provider P} {C : Type} {CI : CoordinatorI C}.

(** What the environment answers, the host manager as a cluster, the runnable
    that [Start] makes of the provider, if it is a [ProviderRunnable], and the
    formatting verb [%q]. *)
Context (o : oracle) (local : cluster) (provider_runnable : option nat) (quote : string → string).

(** The field [coord] holds an interface value: the basic coordinator or one
    the user supplied. *)
(* src: pkg/manager/manager.go:132-136 mcManager *)
Record mcManager := MkManager {
  mm_provider : option P;
  mm_coord : option (basic + C);
}.

(* src: pkg/manager/manager.go:129-130 Option *)
Definition Option : Type := mcManager → mcManager.

(* src: pkg/manager/coordinator.go:49-54 WithCoordinator *)
Definition WithCoordinator (c : C) : Option := fun m => MkManager (mm_provider m) (Some (inr c)).

Definition run_coord {B} (m : mcManager) (d : B) (f : basic → B) (g : C → B) : B :=
  match mm_coord m with Some (inl b) => f b | Some (inr c) => g c | None => d end.

(* src: pkg/manager/manager.go:149-170 WithMultiCluster *)
Definition WithMultiCluster (provider : option P) (mcOpts : list Option) :
  M world (result error mcManager) :=
  let m := fold_left (λ m f, f m) mcOpts (MkManager provider None) in
  let m := match mm_coord m with
           | None => MkManager (mm_provider m) (Some (inl basic_New))
           | Some _ => m
           end in
  match run_coord m None coord_Runnable coord_Runnable with
  | Some run =>
      err ← ask o (CallAdd run);
      match err with Some err => mret (Err err) | None => mret (Ok m) end
  | None => mret (Ok m)
  end.

(** [newManager] is controller-runtime's [manager.New]. *)
(* src: pkg/manager/manager.go:138-147 New *)
Definition New (newManager : option error) (provider : option P) (mcOpts : list Option) :
  M world (result error mcManager) :=
  match newManager with
  | Some err => mret (Err err)
  | None => WithMultiCluster provider mcOpts
  end.

(* src: pkg/manager/manager.go:172-184 mcManager.GetCluster *)
Definition GetCluster (m : mcManager) (ctx : context) (clusterName : ClusterName) : result error cluster :=
  if bool_decide (clusterName = LocalCluster) then Ok local else
  match mm_provider m with
  | None => Err (Errorf ("no multicluster provider set, but cluster " +:+ quote clusterName +:+ " passed"))
  | Some p => provider_Get p ctx clusterName
  end.

(* src: pkg/manager/manager.go:186-193 mcManager.ClusterFromContext *)
Definition ClusterFromContext (m : mcManager) (ctx : context) : result error cluster :=
  let '(clusterName, ok) := ClusterFrom ctx in
  if ok : bool then GetCluster m ctx clusterName
  else Err (Errorf "no cluster set in context, use ReconcilerWithCluster helper when building the controller").

(* src: pkg/manager/manager.go:195-198 mcManager.GetLocalManager *)
Definition GetLocalManager (m : mcManager) : cluster := local.

(* src: pkg/manager/manager.go:200-203 mcManager.GetProvider *)
Definition GetProvider (m : mcManager) : option P := mm_provider m.

(* src: pkg/manager/manager.go:205-210 mcManager.Add *)
Definition Add (m : mcManager) (r : Runnable) : M world (mcManager * option error) :=
  let m := MkManager (mm_provider m)
             (run_coord m None (λ b, Some (inl (coord_AddAware b (run_Engage r))))
                               (λ c, Some (inr (coord_AddAware c (run_Engage r))))) in
  err ← ask o (CallAdd (run_id r));
  mret (m, err).

(* src: pkg/manager/manager.go:212-216 mcManager.Engage *)
Definition Engage (m : mcManager) (ctx : context) (name : ClusterName) (cl : cluster) :
  M world (mcManager * option error) :=
  run_coord m (mret (m, None))
    (λ b, '(b, err) ← coord_Engage b ctx name cl; mret (MkManager (mm_provider m) (Some (inl b)), err))
    (λ c, '(c, err) ← coord_Engage c ctx name cl; mret (MkManager (mm_provider m) (Some (inr c)), err)).

(* src: pkg/manager/manager.go:266-269 scopedManager *)
Record scopedManager := MkScoped {
  sm_Manager : mcManager;
  sm_Cluster : cluster;
}.

(* src: pkg/manager/manager.go:218-227 mcManager.GetManager *)
Definition GetManager (m : mcManager) (ctx : context) (clusterName : ClusterName) : result error scopedManager :=
  match GetCluster m ctx clusterName with
  | Err err => Err err
  | Ok cl => Ok (MkScoped m cl)
  end.

(** [fieldIndexerFunc.IndexField] of the indexer that [GetFieldIndexer] returns. *)
(* src: pkg/manager/manager.go:229-247 mcManager.GetFieldIndexer *)
Definition GetFieldIndexer (m : mcManager) (ctx : context) (i : Index) : M world (mcManager * option error) :=
  match mm_provider m with
  | Some p =>
      '(p, err) ← provider_IndexField p ctx i;
      let m := MkManager (Some p) (mm_coord m) in
      match err with
      | Some err => mret (m, Some (Wrap ("failed to index field " +:+ quote (Index_Field i) +:+
                                         " on multi-cluster provider") err))
      | None => mret (m, None)
      end
  | None =>
      err ← ask o (CallIndex local ctx i);
      mret (m, err)
  end.

(* src: pkg/manager/manager.go:249-262 mcManager.Start *)
Definition Start (m : mcManager) (ctx : context) : M world (option error) :=
  match GetProvider m, provider_runnable with
  | Some _, Some runnable => ask o (CallAdd runnable) ;? ask o (CallStartMgr ctx)
  | _, _ => ask o (CallStartMgr ctx)
  end.

(* src: pkg/manager/manager.go:271-274 scopedManager.Add *)
Definition scoped_Add (p : scopedManager) (r : nat) : M world (option error) := ask o (CallAdd r).

(* src: pkg/manager/manager.go:276-279 scopedManager.Start *)
Definition scoped_Start (p : scopedManager) (ctx : context) : M world (option error) := ask o (CallStartMgr ctx).

(* src: pkg/manager/manager.go:281-284 scopedManager.GetFieldIndexer *)
Definition scoped_GetFieldIndexer (p : scopedManager) (ctx : context) (i : Index) : M world (option error) :=
  ask o (CallIndex (sm_Cluster p) ctx i).

End manager.

Arguments mcManager : clear implicits.
Arguments MkManager {P C} _ _.

(** ** Properties *)
Section properties.
Context {P : Type} {PP : Provider P} {PS : ProviderSpec P} {C : Type} {CI : CoordinatorI C}.
Context (o : oracle) (local : cluster) (quote : string → string).

(** Complement (functional): the empty name is the host, any other name is what the
    provider knows under it; an unknown name is a not-found error, and a manager
    without provider reports an error that is not one.  A cluster set in the
    context is resolved like its name, and an unset one is an error. *)
Theorem GetCluster_resolves (m : mcManager P C) ctx n :
  GetCluster local quote m ctx LocalCluster = Ok local ∧
  (∀ p cl, n ≠ LocalCluster → mm_provider m = Some p → known p n = Some cl →
     GetCluster local quote m ctx n = Ok cl) ∧
  (∀ p, n ≠ LocalCluster → mm_provider m = Some p → known p n = None →
     ∃ e, GetCluster local quote m ctx n = Err e ∧ Is_ErrClusterNotFound e = true) ∧
  (n ≠ LocalCluster → mm_provider m = None →
     ∃ e, GetCluster local quote m ctx n = Err e ∧ Is_ErrClusterNotFound e = false) ∧
  ClusterFromContext local quote m (ctx_WithCluster ctx n) =
    GetCluster local quote m (ctx_WithCluster ctx n) n ∧
  is_ok (ClusterFromContext local quote m (Ctx (ctx_nodes ctx) [])) = false.
Proof.
  unfold ClusterFromContext. rewrite ClusterFrom_WithCluster. unfold GetCluster.
  split_ands; try done.
  - intros p cl Hn -> Hk. rewrite bool_decide_eq_false_2 by done. by apply provider_Get_known.
  - intros p Hn -> Hk. rewrite bool_decide_eq_false_2 by done. by apply provider_Get_unknown.
  - intros Hn ->. rewrite bool_decide_eq_false_2 by done. by eexists.
Qed.

(** C24 (error): a request for a cluster the provider does not know is dropped: a
    reconciler that looks the cluster of its request up and returns the
    lookup's error, wrapped or not, reports success and no requeue through the
    not-found wrapper, without calling anything. *)
Theorem request_for_unknown_cluster_is_dropped (m : mcManager P C) p ctx req w
    (body : cluster → M world (Result * option error)) (wrap : error → error) :
  mm_provider m = Some p → req_ClusterName req ≠ LocalCluster →
  known p (req_ClusterName req) = None →
  (∀ e, Is (wrap e) "cluster not found" = Is e "cluster not found") →
  let rec : Reconciler cr_Request := fun ctx _ =>
    match ClusterFromContext local quote m ctx with
    | Ok cl => body cl
    | Err e => mret (zero_Result, Some (wrap e))
    end in
  Wrapper_Reconcile (NewClusterNotFoundWrapper (ReconcilerWithClusterInContext rec)) ctx req w =
    ((zero_Result, None), w).
Proof.
  intros Hp Hn Hk Hwrap rec. rewrite Wrapper_Reconcile_spec.
  unfold ReconcilerWithClusterInContext, rec, ClusterFromContext.
  rewrite ClusterFrom_WithCluster. unfold GetCluster. rewrite bool_decide_eq_false_2, Hp by done.
  destruct (provider_Get_unknown p (ctx_WithCluster ctx (req_ClusterName req)) _ Hk) as (e & -> & He).
  unfold Is_ErrClusterNotFound in He. run_m. by rewrite Hwrap, He.
Qed.

(** Complement (functional): [Start] adds the provider as the last runnable and only then
    starts the host manager; when it cannot be added the host is not started.
    A manager without a runnable provider just starts the host. *)
Theorem Start_adds_the_provider_last (m : mcManager P C) pr ctx w :
  let '(err, w') := Start o pr m ctx w in
  match mm_provider m, pr with
  | Some _, Some r =>
      match o (w_calls w) (CallAdd r) with
      | Some e => err = Some e ∧ w_calls w' = w_calls w ++ [CallAdd r]
      | None => err = o (w_calls w ++ [CallAdd r]) (CallStartMgr ctx) ∧
                w_calls w' = w_calls w ++ [CallAdd r; CallStartMgr ctx]
      end
  | _, _ => err = o (w_calls w) (CallStartMgr ctx) ∧ w_calls w' = w_calls w ++ [CallStartMgr ctx]
  end.
Proof.
  unfold Start, GetProvider, on_nil. destruct (mm_provider m), pr; run_m; try done.
  destruct (o (w_calls w) _); simpl; [done|]. by rewrite <-app_assoc.
Qed.

(** Complement (functional): an aware is engaged for the clusters engaged after it was
    added: under the default coordinator, [Add] followed by [Engage] runs the
    awares added before and then the new one, the latter only when the former
    succeeded, and the manager reports the first error. *)
Theorem Add_then_Engage_runs_the_runnable prov b r ctx name cl w :
  let m := MkManager (P:=P) (C:=C) prov (Some (inl b)) in
  let '((m', _), w1) := Add o m r w in
  let '((_, err), w2) := Engage m' ctx name cl w1 in
  (err, w2) = (basic_Engage b ctx name cl ;? run_Engage r ctx name cl) w1.
Proof.
  unfold Add, Engage, run_coord. unfold mbind, M_bind. simpl.
  set (w1 := World _ _). unfold basic_Engage. simpl. unfold mbind, M_bind.
  rewrite for_range_app. unfold on_nil. simpl. unfold mbind, M_bind.
  destruct (for_range _ _ w1) as [[e|] w2]; [done|]. simpl. unfold on_nil, mbind, M_bind.
  by destruct (run_Engage r ctx name cl w2) as [[e|] w3].
Qed.

(** Complement (functional): field indexes of a manager with a provider go to the provider
    only: the host manager is not indexed, and the provider's error is reported
    wrapped, so that it can still be recognised. *)
Theorem GetFieldIndexer_indexes_provider_only (m : mcManager P C) p ctx i w :
  mm_provider m = Some p →
  let '((m', err), w') := GetFieldIndexer o local quote m ctx i w in
  w' = (provider_IndexField p ctx i w).2 ∧
  (err = None ↔ (provider_IndexField p ctx i w).1.2 = None) ∧
  (∀ e t, (provider_IndexField p ctx i w).1.2 = Some e → IsOpt err t = Is e t) ∧
  mm_provider m' = Some (provider_IndexField p ctx i w).1.1.
Proof.
  intros Hp. unfold GetFieldIndexer. rewrite Hp. run_m.
  destruct (provider_IndexField p ctx i w) as [[p' [e|]] w']; simpl; (split_ands; [done|done| |done]);
    intros ? t [= <-]. done.
Qed.
End properties.
