(* ===== verification/Clusters.v ===== *)
(** * pkg/clusters/clusters.go: the clusters a provider has discovered

    [Clusters] maps names to running clusters.  Its methods are written as the
    sections they execute under the lock, and composed twice: run through
    without interference ([Add], [AddOrReplace], [IndexField]), and as threads
    of a transition system ([kexec]), where a step is one section and each
    cluster's goroutine removes the name when the cluster's [Start] returns.

    [T] is instantiated with [cluster]; the error handler only reports. *)

From S2P Require Import Prelude GoErrors GoContext GoNum Multicluster.

(* src: pkg/clusters/clusters.go:36-60 Clusters *)
Record Clusters := MkClusters {
  EqualClusters_fn : cluster → cluster → bool;
  WaitCacheTimeout : Z;
  clusters : gmap ClusterName cluster;
  cancels : gmap ClusterName cancel_func;
  indexers : list Index;
}.

(** [EqualClusters] compares the configurations of the clusters. *)
(* src: pkg/clusters/clusters.go:177-182 EqualClusters *)
Definition EqualClusters (GetConfig : cluster → nat) (a b : cluster) : bool :=
  bool_decide (GetConfig a = GetConfig b).

(* src: pkg/clusters/clusters.go:69-78 New *)
Definition New (GetConfig : cluster → nat) : Clusters :=
  MkClusters (EqualClusters GetConfig) (30 * Second)%Z ∅ ∅ [].

(* src: pkg/clusters/clusters.go:80-85 Clusters.ClusterNames *)
Definition ClusterNames (c : Clusters) : list ClusterName := sorted_keys (clusters c).

(* src: pkg/clusters/clusters.go:93-104 Clusters.GetTyped *)
Definition GetTyped (c : Clusters) (clusterName : ClusterName) : result error cluster :=
  match clusters c !! clusterName with
  | None => Err (Wrap ("cluster with name " +:+ clusterName +:+ " not found") ErrClusterNotFound)
  | Some cl => Ok cl
  end.

(* src: pkg/clusters/clusters.go:87-91 Clusters.Get *)
Definition Get (c : Clusters) (ctx : context) (clusterName : ClusterName) : result error cluster :=
  GetTyped c clusterName.

(* src: pkg/clusters/clusters.go:232-237 Clusters.Indexers *)
Definition Indexers (c : Clusters) : list Index := indexers c.

Definition set_maps (cls : gmap ClusterName cluster) (cns : gmap ClusterName cancel_func) (c : Clusters) : Clusters :=
  MkClusters (EqualClusters_fn c) (WaitCacheTimeout c) cls cns (indexers c).

Definition add_index (i : Index) (c : Clusters) : Clusters :=
  MkClusters (EqualClusters_fn c) (WaitCacheTimeout c) (clusters c) (cancels c) (indexers c ++ [i]).

(** Where a call in progress is, or the goroutine running a cluster. *)
Inductive thread : Type :=
| KCluster (ctx : context) (name : ClusterName) (cl : cluster)   (** [cl.Start(ctx)], then [Remove(name)] *)
| KRemoveThenAdd (ctx : context) (name : ClusterName) (cl : cluster) (aware : option nat)
| KAdd (ctx : context) (name : ClusterName) (cl : cluster) (aware : option nat)
| KSync (ctx : context) (name : ClusterName) (cl : cluster) (aware : option nat)
| KIndexers (ctx : context) (name : ClusterName) (cl : cluster) (aware : option nat) (wcancel : cancel_func)
| KEngage (ctx : context) (name : ClusterName) (cl : cluster) (aware : option nat) (wcancel : cancel_func)
| KReturn (name : ClusterName) (cl : cluster) (err : option error)  (** the call is about to return *)
| KIndexField (ctx : context) (i : Index) (targets : list (ClusterName * cluster))
| KIndexReturned (i : Index) (targets : list (ClusterName * cluster)) (err : option error).
    (** [IndexField] has asked its targets and returned [err]: kept as a record *)

Record kstate := KState {
  k_c : Clusters;
  k_w : world;
  k_threads : list thread;
}.

Definition k_world {B} (m : M world B) : M kstate B := fun s =>
  let '(b, w) := m (k_w s) in (b, KState (k_c s) w (k_threads s)).

Definition k_modify (f : Clusters → Clusters) : M kstate unit :=
  modify (λ s, KState (f (k_c s)) (k_w s) (k_threads s)).

Definition k_go (t : thread) : M kstate unit :=
  modify (λ s, KState (k_c s) (k_w s) (k_threads s ++ [t])).

Section clusters.
(** What clusters and awares answer. *)
Context (o : oracle).

(** ** Sections *)

(* src: pkg/clusters/clusters.go:151-163 Clusters.add *)
Definition add (ctx : context) (clusterName : ClusterName) (cl : cluster) : M kstate (result error context) :=
  c ← gets k_c;
  match clusters c !! clusterName with
  | Some _ => mret (Err (Errorf ("cluster with name " +:+ clusterName +:+ " already exists")))
  | None =>
      cc ← k_world (w_WithCancel ctx);
      let '(ctx, cancel) := cc in
      _ ← k_modify (λ c, set_maps (<[clusterName := cl]> (clusters c)) (<[clusterName := cancel]> (cancels c)) c);
      mret (Ok ctx)
  end.

(* src: pkg/clusters/clusters.go:165-175 Clusters.Remove *)
Definition Remove (clusterName : ClusterName) : M kstate unit :=
  c ← gets k_c;
  _ ← match cancels c !! clusterName with
      | Some cancel => k_world (w_cancel cancel)
      | None => mret tt
      end;
  k_modify (λ c, set_maps (delete clusterName (clusters c)) (delete clusterName (cancels c)) c).

(** The wait for the cache, on a context with a timeout. *)
(* src: pkg/clusters/clusters.go:123-129 Clusters.Add *)
Definition wait_sync (ctx : context) (clusterName : ClusterName) (cl : cluster) :
  M kstate (cancel_func * option error) :=
  cc ← k_world (w_WithCancel ctx);
  let '(waitCacheCtx, cancel) := cc in
  err ← k_world (ask o (CallSync cl waitCacheCtx));
  mret (cancel, match err with
                | Some _ => Some (Errorf ("timed out waiting for cache to sync for cluster " +:+ clusterName))
                | None => None
                end).

(* src: pkg/clusters/clusters.go:133-137 Clusters.Add *)
Definition apply_index (ctx : context) (clusterName : ClusterName) (cl : cluster) (index : Index) :
  M kstate (option error) :=
  err ← k_world (ask o (CallIndex cl ctx index));
  mret (match err with
        | Some err => Some (Wrap ("failed to index field " +:+ Index_Field index +:+ " on cluster " +:+ clusterName) err)
        | None => None
        end).

(** The indexers, applied under the read lock. *)
(* src: pkg/clusters/clusters.go:131-139 Clusters.Add *)
Definition apply_indexers (ctx : context) (clusterName : ClusterName) (cl : cluster) : M kstate (option error) :=
  c ← gets k_c;
  for_range (indexers c) (apply_index ctx clusterName cl).

(* src: pkg/clusters/clusters.go:141-146 Clusters.Add *)
Definition engage_aware (ctx : context) (clusterName : ClusterName) (cl : cluster) (aware : option nat) :
  M kstate (option error) :=
  match aware with
  | Some a => k_world (ext_aware o a ctx clusterName cl)
  | None => mret None
  end.

(** What follows the wait, up to the first error. *)
(* src: pkg/clusters/clusters.go:126-148 Clusters.Add *)
Definition add_body (ctx : context) (clusterName : ClusterName) (cl : cluster) (aware : option nat)
    (werr : option error) : M kstate (option error) :=
  mret werr ;? apply_indexers ctx clusterName cl ;? engage_aware ctx clusterName cl aware.

(** [defer c.Remove(clusterName)] on an error, then [defer cancel()]. *)
Definition add_exit (clusterName : ClusterName) (wcancel : cancel_func) (err : option error) :
  M kstate (option error) :=
  _ ← match err with Some _ => Remove clusterName | None => mret tt end;
  _ ← k_world (w_cancel wcancel);
  mret err.

(** ** Methods, run through *)

(* src: pkg/clusters/clusters.go:106-149 Clusters.Add *)
Definition Add (ctx : context) (clusterName : ClusterName) (cl : cluster) (aware : option nat) :
  M kstate (option error) :=
  r ← add ctx clusterName cl;
  match r with
  | Err err => mret (Some err)
  | Ok ctx =>
      _ ← k_go (KCluster ctx clusterName cl);
      wr ← wait_sync ctx clusterName cl;
      err ← add_body ctx clusterName cl aware wr.2;
      add_exit clusterName wr.1 err
  end.

(* src: pkg/clusters/clusters.go:184-203 Clusters.AddOrReplace *)
Definition AddOrReplace (ctx : context) (clusterName : ClusterName) (cl : cluster) (aware : option nat) :
  M kstate (option error) :=
  c ← gets k_c;
  match GetTyped c clusterName with
  | Err _ => Add ctx clusterName cl aware
  | Ok existing =>
      if EqualClusters_fn c existing cl then mret None
      else _ ← Remove clusterName; Add ctx clusterName cl aware
  end.

(* src: pkg/clusters/clusters.go:223-229 Clusters.IndexField *)
Fixpoint index_loop (ctx : context) (i : Index) (l : list (ClusterName * cluster)) (errs : option error) :
  M world (option error) :=
  match l with
  | [] => mret errs
  | (name, cl) :: l =>
      err ← ask o (CallIndex cl ctx i);
      index_loop ctx i l
        (match err with
         | Some err => join2 errs (Wrap ("failed to index field on cluster " +:+ name) err)
         | None => errs
         end)
  end.

(** [targets] is the clone of the map, iterated in no particular order, of
    which this is one. *)
Definition index_all (ctx : context) (i : Index) (targets : list (ClusterName * cluster)) :
  M world (option error) := index_loop ctx i targets None.

(* src: pkg/clusters/clusters.go:205-230 Clusters.IndexField *)
Definition IndexField (ctx : context) (i : Index) : M kstate (option error) :=
  _ ← k_modify (add_index i);
  c ← gets k_c;
  k_world (index_all ctx i (map_to_list (clusters c))).

(** ** Threads *)

Inductive klabel : Type :=
| KCallAdd (ctx : context) (name : ClusterName) (cl : cluster) (aware : option nat)
| KCallAddOrReplace (ctx : context) (name : ClusterName) (cl : cluster) (aware : option nat)
| KCallRemove (name : ClusterName)
| KCallIndexField (ctx : context) (i : Index)
| KNewCtx (parent : context)
| KCancelCtx (n : cancel_func)
| KRun (i : nat).

Definition with_threads (ts : list thread) (s : kstate) : kstate := KState (k_c s) (k_w s) ts.

(** The next section of a thread; [None] when the call has returned. *)
Definition kthread (t : thread) : M kstate unit :=
  match t with
  | KCluster ctx name cl => Remove name
  | KRemoveThenAdd ctx name cl aware => _ ← Remove name; k_go (KAdd ctx name cl aware)
  | KAdd ctx name cl aware =>
      r ← add ctx name cl;
      match r with
      | Err err => k_go (KReturn name cl (Some err))
      | Ok ctx => _ ← k_go (KCluster ctx name cl); k_go (KSync ctx name cl aware)
      end
  | KSync ctx name cl aware =>
      wr ← wait_sync ctx name cl;
      match wr.2 with
      | Some err => err ← add_exit name wr.1 (Some err); k_go (KReturn name cl err)
      | None => k_go (KIndexers ctx name cl aware wr.1)
      end
  | KIndexers ctx name cl aware wcancel =>
      err ← apply_indexers ctx name cl;
      match err with
      | Some err => err ← add_exit name wcancel (Some err); k_go (KReturn name cl err)
      | None => k_go (KEngage ctx name cl aware wcancel)
      end
  | KEngage ctx name cl aware wcancel =>
      err ← engage_aware ctx name cl aware;
      err ← add_exit name wcancel err;
      k_go (KReturn name cl err)
  | KReturn _ _ _ => mret tt
  | KIndexField ctx i targets => err ← k_world (index_all ctx i targets); k_go (KIndexReturned i targets err)
  | KIndexReturned i targets err => mret tt
  end.

Definition returned (t : thread) : bool :=
  match t with KIndexReturned _ _ _ => true | _ => false end.

Definition kexec (l : klabel) (s : kstate) : option kstate :=
  match l with
  | KCallAdd ctx name cl aware => Some (k_go (KAdd ctx name cl aware) s).2
  | KCallAddOrReplace ctx name cl aware =>
      match GetTyped (k_c s) name with
      | Err _ => Some (k_go (KAdd ctx name cl aware) s).2
      | Ok existing =>
          if EqualClusters_fn (k_c s) existing cl then Some (k_go (KReturn name cl None) s).2
          else Some (k_go (KRemoveThenAdd ctx name cl aware) s).2
      end
  | KCallRemove name => Some (Remove name s).2
  | KCallIndexField ctx i =>
      Some ((_ ← k_modify (add_index i); c ← gets k_c;
             k_go (KIndexField ctx i (map_to_list (clusters c)))) s).2
  | KNewCtx parent => Some (k_world (w_WithCancel parent) s).2
  | KCancelCtx n => Some (k_world (w_cancel n) s).2
  | KRun i =>
      t ← k_threads s !! i;
      if returned t then None else Some (kthread t (with_threads (delete i (k_threads s)) s)).2
  end.

Definition kinit (s : kstate) : Prop :=
  clusters (k_c s) = ∅ ∧ cancels (k_c s) = ∅ ∧ indexers (k_c s) = [] ∧ k_threads s = [].

End clusters.

(** ** Lemmas *)
Section lemmas.
Context (o : oracle).

(** A step that only makes calls. *)
Definition quiet (s s' : kstate) : Prop :=
  k_c s' = k_c s ∧ k_threads s' = k_threads s ∧ w_ctxs (k_w s') = w_ctxs (k_w s) ∧
  w_calls (k_w s) `prefix_of` w_calls (k_w s').

(** The cluster took the index; it refused it. *)
Definition index_accepted (w : world) (cl : cluster) (i : Index) : Prop :=
  ∃ ctx, answered o (w_calls w) (CallIndex cl ctx i) None.

Definition index_refused (w : world) (cl : cluster) (i : Index) : Prop :=
  ∃ ctx e, answered o (w_calls w) (CallIndex cl ctx i) (Some e).

Lemma accepted_mono w w' cl i :
  w_calls w `prefix_of` w_calls w' → index_accepted w cl i → index_accepted w' cl i.
Proof. intros Hp [ctx Ha]. exists ctx. by eapply answered_mono. Qed.

Lemma refused_mono w w' cl i :
  w_calls w `prefix_of` w_calls w' → index_refused w cl i → index_refused w' cl i.
Proof. intros Hp (ctx & e & Ha). exists ctx, e. by eapply answered_mono. Qed.

Lemma quiet_refl s : quiet s s.
Proof. by split_ands. Qed.

Lemma quiet_trans s1 s2 s3 : quiet s1 s2 → quiet s2 s3 → quiet s1 s3.
Proof. intros (?&?&?&?) (?&?&?&?). unfold quiet. split_ands; [congruence..|by etrans]. Qed.

Lemma ask_quiet c s : quiet s (k_world (ask o c) s).2 ∧ c ∈ w_calls (k_w (k_world (ask o c) s).2).
Proof. split; [unfold quiet; split_ands; simpl; try done; by apply prefix_app_r|simpl; set_solver]. Qed.

Lemma apply_index_spec ctx name cl i s :
  let '(err, s') := apply_index o ctx name cl i s in
  quiet s s' ∧ (err = None → answered o (w_calls (k_w s')) (CallIndex cl ctx i) None).
Proof.
  unfold apply_index. destruct (ask_quiet (CallIndex cl ctx i) s) as [Hq _]. unfold mbind, M_bind.
  pose proof (answered_last o (w_calls (k_w s)) (CallIndex cl ctx i)) as Ha.
  unfold k_world, ask in *. simpl in *. destruct (o (w_calls (k_w s)) (CallIndex cl ctx i)); by split.
Qed.

Lemma index_loop_spec ctx name cl l s :
  let '(err, s') := for_range l (apply_index o ctx name cl) s in
  quiet s s' ∧ (err = None → ∀ i, i ∈ l → answered o (w_calls (k_w s')) (CallIndex cl ctx i) None).
Proof.
  revert s. induction l as [|i l IH]; intros s; cbn [for_range].
  { split; [apply quiet_refl|]. by intros _ i ?%elem_of_nil. }
  unfold on_nil. unfold mbind, M_bind. pose proof (apply_index_spec ctx name cl i s) as H.
  destruct (apply_index o ctx name cl i s) as [[e|] s1]; destruct H as [Hq Hin]; [by split|].
  specialize (Hin eq_refl).
  specialize (IH s1). destruct (for_range l _ s1) as [err s']. destruct IH as [Hq2 Hall].
  split; [by eapply quiet_trans|]. intros -> j [->|Hj]%elem_of_cons; [|auto].
  destruct Hq2 as (_ & _ & _ & Hc). by eapply answered_mono.
Qed.

Lemma apply_indexers_spec ctx name cl s :
  let '(err, s') := apply_indexers o ctx name cl s in
  quiet s s' ∧
  (err = None → ∀ i, i ∈ indexers (k_c s) → answered o (w_calls (k_w s')) (CallIndex cl ctx i) None).
Proof. apply (index_loop_spec ctx name cl (indexers (k_c s)) s). Qed.

Lemma engage_aware_spec ctx name cl aware s :
  let '(err, s') := engage_aware o ctx name cl aware s in
  quiet s s' ∧ (∀ a, aware = Some a → CallEngage a ctx name cl ∈ w_calls (k_w s')).
Proof.
  unfold engage_aware. destruct aware as [a|]; [|split; [apply quiet_refl|done]].
  pose proof (ask_quiet (CallEngage a ctx name cl) s) as [Hq Hin].
  unfold ext_aware. destruct (k_world _ s) as [e s']. split; [done|]. by intros ? [= <-].
Qed.

Definition maps_ok (c : Clusters) : Prop := ∀ n, is_Some (cancels c !! n) ↔ is_Some (clusters c !! n).

Lemma Remove_spec name s :
  let s' := (Remove name s).2 in
  k_c s' = set_maps (delete name (clusters (k_c s))) (delete name (cancels (k_c s))) (k_c s) ∧
  k_threads s' = k_threads s ∧ w_calls (k_w s') = w_calls (k_w s) ∧
  w_ctxs (k_w s') = match cancels (k_c s) !! name with
                    | Some n => cancel n (w_ctxs (k_w s))
                    | None => w_ctxs (k_w s)
                    end.
Proof. unfold Remove. run_m. by destruct (cancels (k_c s) !! name). Qed.

Definition child (ctx : context) (s : kstate) : context :=
  Ctx (cs_next (w_ctxs (k_w s)) :: ctx_nodes ctx) (ctx_values ctx).

Lemma add_spec ctx name cl s :
  add ctx name cl s =
  match clusters (k_c s) !! name with
  | Some _ => (Err (Errorf ("cluster with name " +:+ name +:+ " already exists")), s)
  | None =>
      let n := cs_next (w_ctxs (k_w s)) in
      (Ok (child ctx s),
       KState (set_maps (<[name := cl]> (clusters (k_c s))) (<[name := n]> (cancels (k_c s))) (k_c s))
         (World (CtxStore (S n) (cs_cancelled (w_ctxs (k_w s)))) (w_calls (k_w s))) (k_threads s))
  end.
Proof. unfold add. run_m. by destruct (clusters (k_c s) !! name). Qed.

Lemma wait_sync_spec ctx name cl s :
  let '((n, err), s') := wait_sync o ctx name cl s in
  k_c s' = k_c s ∧ k_threads s' = k_threads s ∧ n = cs_next (w_ctxs (k_w s)) ∧
  cs_cancelled (w_ctxs (k_w s')) = cs_cancelled (w_ctxs (k_w s)) ∧
  w_calls (k_w s) `prefix_of` w_calls (k_w s').
Proof.
  unfold wait_sync, k_world, w_WithCancel, ask. run_m. split_ands; try done. by apply prefix_app_r.
Qed.

Lemma body_spec ctx name cl aware werr s :
  let '(err, s') := add_body o ctx name cl aware werr s in
  quiet s s' ∧ (err = None → werr = None ∧
    (∀ i, i ∈ indexers (k_c s) → answered o (w_calls (k_w s')) (CallIndex cl ctx i) None) ∧
    (∀ a, aware = Some a → CallEngage a ctx name cl ∈ w_calls (k_w s'))).
Proof.
  unfold add_body, on_nil. unfold mbind, M_bind, mret, M_ret.
  destruct werr as [e|]; [split; [apply quiet_refl|done]|].
  pose proof (apply_indexers_spec ctx name cl s) as Ha.
  destruct (apply_indexers o ctx name cl s) as [[e|] s1]; [by destruct Ha|]. destruct Ha as [Hq Hi].
  pose proof (engage_aware_spec ctx name cl aware s1) as He.
  destruct (engage_aware o ctx name cl aware s1) as [err s2]. destruct He as [Hq2 He].
  split; [by eapply quiet_trans|]. intros _. split_ands; [done| |done].
  intros i Hin. destruct Hq2 as (_ & _ & _ & Hc). eapply answered_mono; eauto.
Qed.
End lemmas.

(** ** Properties of the methods *)
Section methods.
Context (o : oracle).

Lemma add_outcome ctx name cl aware s :
  maps_ok (k_c s) → store_wf (w_ctxs (k_w s)) →
  let '(err, s') := Add o ctx name cl aware s in
  let n := cs_next (w_ctxs (k_w s)) in
  let cctx := Ctx (n :: ctx_nodes ctx) (ctx_values ctx) in
  match clusters (k_c s) !! name, err with
  | Some _, _ => err ≠ None ∧ s' = s
  | None, None =>
      clusters (k_c s') = <[name := cl]> (clusters (k_c s)) ∧
      cancels (k_c s') = <[name := n]> (cancels (k_c s)) ∧
      indexers (k_c s') = indexers (k_c s) ∧
      KCluster cctx name cl ∈ k_threads s' ∧
      (∀ i, i ∈ indexers (k_c s) → answered o (w_calls (k_w s')) (CallIndex cl cctx i) None) ∧
      (∀ a, aware = Some a → CallEngage a cctx name cl ∈ w_calls (k_w s')) ∧
      (ctx_wf ctx (w_ctxs (k_w s)) → done_ctx cctx (w_ctxs (k_w s')) = done_ctx ctx (w_ctxs (k_w s)))
  | None, Some _ =>
      k_c s' = k_c s ∧ done_ctx cctx (w_ctxs (k_w s')) = true
  end.
Proof.
  intros Hmaps Hwf. unfold Add. unfold mbind at 1, M_bind at 1. rewrite add_spec.
  destruct (clusters (k_c s) !! name) as [old|] eqn:Hc; [by run_m|].
  assert (cancels (k_c s) !! name = None) as Hcn.
  { apply eq_None_not_Some. rewrite (Hmaps name), Hc. by intros []. }
  fold (child ctx s). set (cctx := child ctx s). cbv zeta. set (n := cs_next (w_ctxs (k_w s))).
  unfold k_go at 1, modify. unfold mbind at 1 2, M_bind at 1 2.
  match goal with |- context [wait_sync o cctx name cl ?S] => set (s1 := S) end.
  pose proof (wait_sync_spec o cctx name cl s1) as Hw.
  destruct (wait_sync o cctx name cl s1) as [[wn werr] s2]. destruct Hw as (Hc2 & Ht2 & -> & Hcan2 & Hcalls2).
  pose proof (body_spec o cctx name cl aware werr s2) as Hb.
  simpl. unfold mbind at 1, M_bind at 1. destruct (add_body o cctx name cl aware werr s2) as [err s3]. destruct Hb as [(Hc3 & Ht3 & Hx3 & Hcalls3) Hb].
  unfold add_exit. unfold mbind, M_bind. destruct err as [e|].
  - pose proof (Remove_spec name s3) as Hr. destruct (Remove name s3) as [u s4]. simpl in Hr.
    destruct Hr as (Hc4 & _ & _ & Hx4). simpl.
    rewrite Hc3, Hc2 in Hc4, Hx4. subst s1. simpl in Hc4, Hx4. rewrite lookup_insert_eq in Hx4.
    split.
    + rewrite Hc4. unfold set_maps; simpl. rewrite !delete_insert_id by done. by destruct (k_c s).
    + apply cancel_mono. rewrite Hx4. apply cancel_done. simpl. by left.
  - destruct (Hb eq_refl) as (-> & Hi & He). simpl. rewrite Hc3, Hc2, Ht3, Ht2. subst s1. simpl.
    rewrite Hc2 in Hi. simpl in Hi. split_ands; try done; [set_solver|].
    intros Hctx. unfold n in *. apply eq_true_iff_eq. rewrite !done_ctx_true. simpl.
    rewrite Hx3, Hcan2. simpl. split; [|set_solver].
    intros (m & Hm & Hmc). apply elem_of_cons in Hm. apply elem_of_union in Hmc.
    destruct Hmc as [Hmc%elem_of_singleton|Hmc], Hm as [Hm|Hm].
    + lia.
    + specialize (Hctx _ Hm). lia.
    + specialize (Hwf _ Hmc). lia.
    + by exists m.
Qed.

Lemma add_exit_mono name n err s : ∀ m, m ∈ cs_cancelled (w_ctxs (k_w s)) →
  m ∈ cs_cancelled (w_ctxs (k_w (add_exit name n err s).2)).
Proof.
  intros m Hm. unfold add_exit. unfold mbind, M_bind.
  assert (m ∈ cs_cancelled (w_ctxs (k_w
    ((match err with Some _ => Remove name | None => mret tt end) s).2))) as H1.
  { destruct err; [|done]. destruct (Remove_spec name s) as (_ & _ & _ & ->).
    destruct (cancels (k_c s) !! name); simpl; set_solver. }
  destruct ((match err with Some _ => Remove name | None => mret tt end) s) as [u s1]. simpl. set_solver.
Qed.

Lemma Add_cancelled_mono ctx name cl aware s : ∀ m, m ∈ cs_cancelled (w_ctxs (k_w s)) →
  m ∈ cs_cancelled (w_ctxs (k_w (Add o ctx name cl aware s).2)).
Proof.
  intros m Hm. unfold Add. unfold mbind at 1, M_bind at 1. rewrite add_spec.
  destruct (clusters (k_c s) !! name); [done|]. cbv zeta.
  unfold k_go at 1, modify. unfold mbind at 1 2, M_bind at 1 2.
  match goal with |- context [wait_sync o ?C name cl ?S] =>
    pose proof (wait_sync_spec o C name cl S) as Hw; destruct (wait_sync o C name cl S) as [[wn werr] s2];
    pose proof (body_spec o C name cl aware werr s2) as Hb end.
  destruct Hw as (_ & _ & _ & Hcan2 & _). simpl in Hcan2. simpl. unfold mbind, M_bind.
  destruct (add_body o _ name cl aware werr s2) as [err s3]. destruct Hb as [(_ & _ & Hx3 & _) _].
  apply add_exit_mono. by rewrite Hx3, Hcan2.
Qed.

(** Complement (functional): [Add] of a known name fails and changes nothing.  Otherwise
    it either succeeds, and then the cluster is in the map under a fresh child
    of the caller's context, its goroutine runs, it has accepted every
    registered index and the aware was engaged with that same context, which
    is still live if the caller's is; or it fails, and then no trace of the
    cluster is left in the maps and its context is cancelled. *)
Theorem Add_is_all_or_nothing ctx name cl aware s :
  maps_ok (k_c s) → store_wf (w_ctxs (k_w s)) →
  let '(err, s') := Add o ctx name cl aware s in
  let n := cs_next (w_ctxs (k_w s)) in
  let cctx := Ctx (n :: ctx_nodes ctx) (ctx_values ctx) in
  match clusters (k_c s) !! name, err with
  | Some _, _ => err ≠ None ∧ s' = s
  | None, None =>
      clusters (k_c s') = <[name := cl]> (clusters (k_c s)) ∧
      cancels (k_c s') = <[name := n]> (cancels (k_c s)) ∧
      indexers (k_c s') = indexers (k_c s) ∧
      KCluster cctx name cl ∈ k_threads s' ∧
      (∀ i, i ∈ indexers (k_c s) → answered o (w_calls (k_w s')) (CallIndex cl cctx i) None) ∧
      (∀ a, aware = Some a → CallEngage a cctx name cl ∈ w_calls (k_w s')) ∧
      (ctx_wf ctx (w_ctxs (k_w s)) → done_ctx cctx (w_ctxs (k_w s')) = done_ctx ctx (w_ctxs (k_w s)))
  | None, Some _ =>
      k_c s' = k_c s ∧ done_ctx cctx (w_ctxs (k_w s')) = true
  end.
Proof. apply add_outcome. Qed.

(** Complement (functional): [AddOrReplace] keeps a cluster whose configuration is equal,
    returning nil without touching anything; it cancels the context of one that
    differs.  When it returns nil, the name is bound to a cluster that is the
    given one or equal to it; when it fails, the name is not bound. *)
Theorem AddOrReplace_binds_the_name ctx name cl aware s :
  maps_ok (k_c s) → store_wf (w_ctxs (k_w s)) →
  (∀ m n, cancels (k_c s) !! m = Some n → (n < cs_next (w_ctxs (k_w s)))%nat) →
  let '(err, s') := AddOrReplace o ctx name cl aware s in
  match clusters (k_c s) !! name with
  | Some old =>
      if EqualClusters_fn (k_c s) old cl then err = None ∧ s' = s
      else (∀ n, cancels (k_c s) !! name = Some n → n ∈ cs_cancelled (w_ctxs (k_w s'))) ∧
           clusters (k_c s') !! name = if err then None else Some cl
  | None => clusters (k_c s') !! name = if err then None else Some cl
  end.
Proof.
  intros Hmaps Hwf Hcn.
  assert (∀ s, clusters (k_c s) !! name = None → maps_ok (k_c s) → store_wf (w_ctxs (k_w s)) →
    let '(err, s') := Add o ctx name cl aware s in
    clusters (k_c s') !! name = if err then None else Some cl) as Hadd.
  { intros s1 Hn H1 H2. pose proof (add_outcome ctx name cl aware s1 H1 H2) as Ha.
    destruct (Add o ctx name cl aware s1) as [[e|] s']; rewrite Hn in Ha.
    - by rewrite (proj1 Ha).
    - by rewrite (proj1 Ha), lookup_insert_eq. }
  unfold AddOrReplace, GetTyped. unfold mbind at 1, M_bind at 1, gets.
  destruct (clusters (k_c s) !! name) as [old|] eqn:Hc; [|by apply Hadd].
  destruct (EqualClusters_fn (k_c s) old cl); [by run_m|].
  unfold mbind, M_bind. pose proof (Remove_spec name s) as Hr. destruct (Remove name s) as [u s1].
  simpl in Hr. destruct Hr as (Hc1 & _ & _ & Hx1).
  assert (maps_ok (k_c s1)) as Hm1.
  { intros n. rewrite Hc1. simpl. destruct (decide (n = name)) as [->|Hne];
      [rewrite !lookup_delete_eq; done|by rewrite !lookup_delete_ne]. }
  assert (store_wf (w_ctxs (k_w s1))) as Hw1.
  { rewrite Hx1. destruct (cancels (k_c s) !! name) as [n|] eqn:Hn; [|done].
    apply cancel_store_wf; [by eapply Hcn|done]. }
  pose proof (Hadd s1) as Ha. rewrite Hc1 in Ha. simpl in Ha. rewrite lookup_delete_eq in Ha.
  pose proof (Add_cancelled_mono ctx name cl aware s1) as Hmono.
  destruct (Add o ctx name cl aware s1) as [err s']. split; [|by rewrite Hc1 in Hm1; apply Ha].
  intros n Hn. apply Hmono. rewrite Hx1, Hn. simpl. set_solver.
Qed.
End methods.

(** ** The invariant of the interleaved methods *)
Section interleaved.
Context (o : oracle).
Implicit Types (s : kstate).

(** The thread will apply index [i] to cluster [cl] under [name]. *)
Definition carries (t : thread) (name : ClusterName) (cl : cluster) (i : Index) : Prop :=
  match t with
  | KIndexField _ i' targets => i' = i ∧ (name, cl) ∈ targets
  | KSync _ n c _ | KIndexers _ n c _ _ => n = name ∧ c = cl
  | _ => False
  end.

Definition covered s (name : ClusterName) (cl : cluster) (i : Index) : Prop :=
  index_accepted o (k_w s) cl i ∨
  (index_refused o (k_w s) cl i ∧
   ∃ targets e, KIndexReturned i targets (Some e) ∈ k_threads s ∧ (name, cl) ∈ targets) ∨
  ∃ t, t ∈ k_threads s ∧ carries t name cl i.

Definition kinv s : Prop :=
  maps_ok (k_c s) ∧
  ∀ name cl i, clusters (k_c s) !! name = Some cl → i ∈ indexers (k_c s) → covered s name cl i.

(** What a section may do to the rest. *)
Record extends s s' : Prop := {
  ex_calls : w_calls (k_w s) `prefix_of` w_calls (k_w s');
  ex_threads : ∀ t, t ∈ k_threads s → t ∈ k_threads s';
  ex_indexers : indexers (k_c s') = indexers (k_c s);
  ex_maps : maps_ok (k_c s) → maps_ok (k_c s');
  ex_new : ∀ name cl, clusters (k_c s') !! name = Some cl → clusters (k_c s) !! name = Some cl ∨
             ∃ ctx aware, KSync ctx name cl aware ∈ k_threads s';
}.

Lemma extends_refl s : extends s s.
Proof. split; auto. Qed.

Lemma extends_trans s1 s2 s3 : extends s1 s2 → extends s2 s3 → extends s1 s3.
Proof.
  intros [c1 t1 i1 m1 n1] [c2 t2 i2 m2 n2]. split; [by etrans|auto|congruence|auto|].
  intros name cl [Hc|?]%n2; [|by right]. apply n1 in Hc as [?|(ctx & aw & ?)]; [by left|right; eauto].
Qed.

Lemma covered_extends s s' name cl i : extends s s' → covered s name cl i → covered s' name cl i.
Proof.
  intros [Hcs Hth _ _ _] [Ha|[[Hr (ts & e & Ht & Hin)]|(t & Ht & Hca)]].
  - left. by eapply accepted_mono.
  - right; left. split; [by eapply refused_mono|]. exists ts, e. auto.
  - right; right. exists t. auto.
Qed.

Lemma quiet_extends s s' : quiet s s' → extends s s'.
Proof. intros (Hc & Ht & _ & Hcs). split; rewrite ?Hc, ?Ht; auto. Qed.

Lemma go_extends t s : extends s (k_go t s).2 ∧ t ∈ k_threads (k_go t s).2.
Proof. split; [split; simpl; auto; set_solver|simpl; set_solver]. Qed.

Lemma world_extends w s : w_calls (k_w s) `prefix_of` w_calls w → extends s (KState (k_c s) w (k_threads s)).
Proof. intros Hw. split; simpl; auto. Qed.

Lemma maps_ok_delete name c : maps_ok c →
  maps_ok (set_maps (delete name (clusters c)) (delete name (cancels c)) c).
Proof.
  intros Hm n. simpl. destruct (decide (n = name)) as [->|]; [by rewrite !lookup_delete_eq|].
  rewrite !lookup_delete_ne by done. apply Hm.
Qed.

Lemma Remove_extends name s :
  let s' := (Remove name s).2 in extends s s' ∧ clusters (k_c s') !! name = None.
Proof.
  destruct (Remove_spec name s) as (Hc & Ht & Hcs & _). split.
  - split; rewrite ?Hc, ?Ht, ?Hcs; simpl; auto using maps_ok_delete.
    intros n cl [_ ?]%lookup_delete_Some. by left.
  - rewrite Hc. simpl. by rewrite lookup_delete_eq.
Qed.

Lemma add_exit_extends name n err s :
  let '(err', s') := add_exit name n err s in
  err' = err ∧ extends s s' ∧ (err ≠ None → clusters (k_c s') !! name = None).
Proof.
  unfold add_exit. unfold mbind, M_bind.
  assert (let s1 := ((match err with Some _ => Remove name | None => mret tt end) s).2 in
    extends s s1 ∧ (err ≠ None → clusters (k_c s1) !! name = None)) as [H1 H2].
  { destruct err; [|split; [apply extends_refl|done]]. by destruct (Remove_extends name s). }
  destruct ((match err with Some _ => Remove name | None => mret tt end) s) as [u s1]. simpl.
  split_ands; [done| |done]. eapply extends_trans; [done|]. by apply world_extends.
Qed.

Lemma index_loop_errs ctx i targets errs w e :
  errs = Some e → (index_loop o ctx i targets errs w).1 ≠ None.
Proof.
  revert errs w e. induction targets as [|[n c] l IH]; intros errs w e ->; cbn [index_loop]; [done|].
  unfold mbind, M_bind, ask. destruct (o (w_calls w) _); by eapply IH.
Qed.

Lemma index_loop_trace ctx i targets errs w :
  let '(err, w') := index_loop o ctx i targets errs w in
  ∃ l, w' = World (w_ctxs w) (w_calls w ++ l) ∧
    (∀ c, c ∈ l → ∃ name cl, (name, cl) ∈ targets ∧ c = CallIndex cl ctx i) ∧
    ∀ name cl, (name, cl) ∈ targets →
      ∃ r, answered_in o (w_calls w) l (CallIndex cl ctx i) r ∧ (r ≠ None → err ≠ None).
Proof.
  revert w errs. induction targets as [|[n c] ts IH]; intros w errs; cbn [index_loop].
  { unfold mret, M_ret. exists []. rewrite app_nil_r. split_ands; [by destruct w|..]; by intros * ?%elem_of_nil. }
  unfold mbind, M_bind, ask at 1. set (r := o (w_calls w) (CallIndex c ctx i)).
  set (w1 := World (w_ctxs w) (w_calls w ++ [CallIndex c ctx i])). set (errs' := match r with Some _ => _ | None => _ end).
  specialize (IH w1 errs'). pose proof (λ e, index_loop_errs ctx i ts errs' w1 e) as Herr.
  destruct (index_loop o ctx i ts errs' w1) as [err w']. destruct IH as (l & -> & Hc & Ht). simpl in Ht.
  exists (CallIndex c ctx i :: l). split_ands.
  - simpl. by rewrite <-app_assoc.
  - intros d [->|Hd]%elem_of_cons; [exists n, c; by split; [left|]|].
    destruct (Hc _ Hd) as (n' & c' & ? & ?). exists n', c'. split; [by right|done].
  - intros name cl [[= -> ->]|Hin]%elem_of_cons.
    + exists r. split; [apply answered_in_here|]. intros Hne. destruct r as [e|]; [by eapply Herr|done].
    + destruct (Ht _ _ Hin) as (r' & Ha & Hne). exists r'. split; [by apply (answered_in_app o _ [_])|done].
Qed.

Lemma index_all_trace ctx i targets w :
  let '(err, w') := index_all o ctx i targets w in
  ∃ l, w' = World (w_ctxs w) (w_calls w ++ l) ∧
    (∀ c, c ∈ l → ∃ name cl, (name, cl) ∈ targets ∧ c = CallIndex cl ctx i) ∧
    ∀ name cl, (name, cl) ∈ targets →
      ∃ r, answered_in o (w_calls w) l (CallIndex cl ctx i) r ∧ (r ≠ None → err ≠ None).
Proof. apply index_loop_trace. Qed.

Lemma index_all_asks ctx i targets w name cl :
  (name, cl) ∈ targets → CallIndex cl ctx i ∈ w_calls (index_all o ctx i targets w).2.
Proof.
  intros Hin. pose proof (index_all_trace ctx i targets w) as Ha. destruct (index_all o ctx i targets w) as [err w'].
  destruct Ha as (l & -> & _ & Ht). destruct (Ht _ _ Hin) as (r & H & _). simpl.
  apply elem_of_app. right. by eapply answered_in_called.
Qed.

Lemma index_all_ok ctx i targets w :
  (index_all o ctx i targets w).1 = None →
  ∀ name cl, (name, cl) ∈ targets → ∃ calls, o calls (CallIndex cl ctx i) = None.
Proof.
  unfold index_all. revert w. induction targets as [|[n c] l IH]; intros w; cbn [index_loop].
  { by intros _ ?? ?%elem_of_nil. }
  unfold mbind, M_bind, ask. destruct (o (w_calls w) (CallIndex c ctx i)) as [e|] eqn:Eo.
  - intros H. exfalso. by eapply index_loop_errs in H.
  - intros H name cl [[= -> ->]|Hin]%elem_of_cons; [by eexists|by eapply IH].
Qed.

(** Running a thread: everything extends, and what the thread carried is
    applied, passed on, or moot because the name was removed. *)
Lemma kthread_spec t s :
  let s' := (kthread o t s).2 in
  extends s s' ∧
  ∀ name cl i, carries t name cl i → i ∈ indexers (k_c s) → clusters (k_c s') !! name = Some cl →
    covered s' name cl i.
Proof.
  destruct t as [ctx name cl|ctx name cl aw|ctx name cl aw|ctx name cl aw|ctx name cl aw wc|ctx name cl aw wc|name cl e|ctx i targets|i targets e];
    simpl; unfold mbind, M_bind.
  - split; [apply Remove_extends|done].
  - destruct (Remove_extends name s) as [H1 _]. destruct (Remove name s) as [u s1]. simpl in *.
    split; [|done]. eapply extends_trans; [done|apply go_extends].
  - split; [|done]. rewrite add_spec. destruct (clusters (k_c s) !! name) eqn:Hc; [apply go_extends|].
    split; simpl; auto; [set_solver| |].
    + intros Hm n. simpl. destruct (decide (n = name)) as [->|]; [by rewrite !lookup_insert_eq|].
      rewrite !lookup_insert_ne by done. apply Hm.
    + intros n c. rewrite lookup_insert_Some. intros [[<- <-]|[_ ?]]; [right|by left].
      eexists _, _. apply elem_of_app. right. by left.
  - pose proof (wait_sync_spec o ctx name cl s) as Hw.
    destruct (wait_sync o ctx name cl s) as [[n werr] s1]. destruct Hw as (Hc1 & Ht1 & _ & _ & Hcs1).
    assert (extends s s1) as H1 by (split; rewrite ?Hc1, ?Ht1; auto).
    destruct werr as [e|]; simpl.
    + pose proof (add_exit_extends name n (Some e) s1) as Hx.
      destruct (add_exit name n (Some e) s1) as [err s2]. destruct Hx as (-> & H2 & Hnone).
      split; [eapply extends_trans; [done|eapply extends_trans; [done|apply go_extends]]|].
      intros n' c i [<- <-] _. simpl. by rewrite Hnone.
    + split; [eapply extends_trans; [done|apply go_extends]|]. intros n' c i [<- <-] _ _.
      right; right. eexists. split; [apply go_extends|by split].
  - pose proof (apply_indexers_spec o ctx name cl s) as Ha.
    destruct (apply_indexers o ctx name cl s) as [err s1]. destruct Ha as [Hq Hi].
    apply quiet_extends in Hq. destruct err as [e|].
    + pose proof (add_exit_extends name wc (Some e) s1) as Hx.
      destruct (add_exit name wc (Some e) s1) as [err s2]. destruct Hx as (-> & H2 & Hnone).
      split; [eapply extends_trans; [done|eapply extends_trans; [done|apply go_extends]]|].
      intros n' c i [<- <-] _. simpl. by rewrite Hnone.
    + split; [eapply extends_trans; [done|apply go_extends]|]. intros n' c i [<- <-] Hin _.
      left. exists ctx. by apply Hi.
  - pose proof (engage_aware_spec o ctx name cl aw s) as Ha.
    destruct (engage_aware o ctx name cl aw s) as [err s1]. destruct Ha as [Hq _].
    apply quiet_extends in Hq.
    pose proof (add_exit_extends name wc err s1) as Hx.
    destruct (add_exit name wc err s1) as [err' s2]. destruct Hx as (_ & H2 & _).
    split; [|done]. eapply extends_trans; [done|eapply extends_trans; [done|apply go_extends]].
  - split; [apply extends_refl|done].
  - unfold k_world. pose proof (index_all_trace ctx i targets (k_w s)) as Ha.
    destruct (index_all o ctx i targets (k_w s)) as [err w']. destruct Ha as (l & -> & _ & Ht). simpl.
    set (s1 := KState (k_c s) (World (w_ctxs (k_w s)) (w_calls (k_w s) ++ l)) (k_threads s)). assert (extends s s1) as H1 by (by apply world_extends, prefix_app_r).
    destruct (go_extends (KIndexReturned i targets err) s1) as [H2 Hin].
    split; [by eapply extends_trans|]. intros n c i' [<- Htg] _ _.
    destruct (Ht _ _ Htg) as (r & Ha & Hne). apply (answered_in_app o []) in Ha.
    destruct r as [e|]; [right; left|left; by exists ctx].
    destruct err as [err|]; [|by destruct Hne]. split; [by exists ctx, e|]. by exists targets, err.
  - split; [apply extends_refl|done].
Qed.

Lemma kinv_extends s s' : kinv s → extends s s' → kinv s'.
Proof.
  intros [Hm HI] He. split; [by apply (ex_maps _ _ He)|]. intros name cl i Hc.
  rewrite (ex_indexers _ _ He). intros Hi.
  destruct (ex_new _ _ He _ _ Hc) as [Hold|(ctx & aw & Ht)].
  - eapply covered_extends; [done|by apply HI].
  - right; right. eexists. split; [exact Ht|by split].
Qed.

Lemma kinv_step l s s' : kinv s → kexec o l s = Some s' → kinv s'.
Proof.
  intros HI Hs. destruct l as [ctx name cl aw|ctx name cl aw|name|ctx i|p|n|j]; simpl in Hs.
  - injection Hs as <-. eapply kinv_extends; [done|apply go_extends].
  - destruct (GetTyped (k_c s) name) as [old|]; [destruct (EqualClusters_fn (k_c s) old cl)|];
      injection Hs as <-; (eapply kinv_extends; [done|]);
      [apply (go_extends (KReturn name cl None))|apply (go_extends (KRemoveThenAdd ctx name cl aw))
      |apply (go_extends (KAdd ctx name cl aw))].
  - injection Hs as <-. eapply kinv_extends; [done|apply Remove_extends].
  - injection Hs as <-. destruct HI as [Hm HI]. split; [done|]. intros name cl i'.
    unfold mbind, M_bind, k_modify, modify, gets, k_go. simpl.
    intros Hc [Hin|Hin]%elem_of_app.
    + destruct (HI _ _ _ Hc Hin) as [?|[(? & ts & e & ? & ?)|(t & ? & ?)]]; [by left|right; left|right; right].
      * split; [done|]. exists ts, e. simpl. split; [set_solver|done].
      * exists t. simpl. split; [set_solver|done].
    + apply list_elem_of_singleton in Hin as ->. right; right. exists (KIndexField ctx i (map_to_list (clusters (k_c s)))). split; [simpl; set_solver|].
      split; [done|]. by apply elem_of_map_to_list.
  - injection Hs as <-. eapply kinv_extends; [done|]. by apply world_extends.
  - injection Hs as <-. eapply kinv_extends; [done|]. by apply world_extends.
  - destruct (k_threads s !! j) as [t|] eqn:Ht; [|done]. simpl in Hs.
    destruct (returned t) eqn:Hret; [done|]. injection Hs as <-.
    set (s0 := with_threads (delete j (k_threads s)) s). destruct HI as [Hm HI].
    destruct (kthread_spec t s0) as [He Hcar]. split; [by apply (ex_maps _ _ He)|].
    intros name cl i Hc. rewrite (ex_indexers _ _ He). intros Hi.
    destruct (ex_new _ _ He _ _ Hc) as [Hold|(ctx & aw & Hth)].
    2:{ right; right. eexists. split; [exact Hth|by split]. }
    destruct (HI _ _ _ Hold Hi) as [Hacc|[(Href & ts & e & Hin & Htg)|(t' & Ht' & Hca)]].
    + eapply covered_extends; [exact He|by left].
    + eapply covered_extends; [exact He|right; left]. split; [done|]. exists ts, e. split; [|done].
      destruct (elem_of_delete_or _ _ _ _ Ht Hin) as [<-|?]; done.
    + destruct (elem_of_delete_or _ _ _ _ Ht Ht') as [->|Hin]; [by apply Hcar|].
      right; right. exists t'. split; [by apply (ex_threads _ _ He)|done].
Qed.

Lemma kinv_reachable s : reachable (kexec o) kinit s → kinv s.
Proof.
  apply (invariant_reachable (kexec o) kinit kinv); [|intros; by eapply kinv_step].
  intros s0 (Hc & Hn & Hi & _). split; [intros n; rewrite Hc, Hn; done|].
  intros name cl i. by rewrite Hc.
Qed.

End interleaved.

(** ** Clusters as a provider *)

#[export] Instance Clusters_Provider (o : oracle) : Provider Clusters := {|
  provider_Get := Get;
  provider_IndexField c ctx i w :=
    let '(err, s) := IndexField o ctx i (KState c w []) in ((k_c s, err), k_w s);
|}.

#[export] Program Instance Clusters_ProviderSpec (o : oracle) : @ProviderSpec Clusters (Clusters_Provider o) := {|
  known c n := clusters c !! n;
|}.
Next Obligation. intros o p ctx n cl Hk. simpl. unfold Get, GetTyped. by rewrite Hk. Qed.
Next Obligation.
  intros o p ctx n Hk. simpl. unfold Get, GetTyped. rewrite Hk. by eexists.
Qed.

(** Complement (functional): [Get] finds exactly the clusters [ClusterNames] lists, in
    increasing order and without duplicates, and reports any other name with
    the not-found error; [IndexField] registers the index, tries every cluster
    whatever the others answer, and returns nil only when all accepted it. *)
Theorem Clusters_lookup_and_index o (c : Clusters) ctx n i w :
  (n ∈ ClusterNames c ↔ is_ok (Get c ctx n) = true) ∧
  NoDup (ClusterNames c) ∧ StronglySorted string_le (ClusterNames c) ∧
  (∀ e, Get c ctx n = Err e → Is_ErrClusterNotFound e = true) ∧
  let '(err, s') := IndexField o ctx i (KState c w []) in
  Indexers (k_c s') = Indexers c ++ [i] ∧ clusters (k_c s') = clusters c ∧
  (∀ name cl, clusters c !! name = Some cl → CallIndex cl ctx i ∈ w_calls (k_w s')) ∧
  (err = None → ∀ name cl, clusters c !! name = Some cl → ∃ calls, o calls (CallIndex cl ctx i) = None).
Proof.
  unfold ClusterNames, Get, GetTyped. split_ands.
  - transitivity (is_Some (clusters c !! n)); [apply elem_of_sorted_keys|].
    destruct (clusters c !! n); simpl; split; intros H; try done; first [by eexists|by destruct H].
  - apply sorted_keys_NoDup.
  - apply sorted_keys_sorted.
  - destruct (clusters c !! n); [done|]. by intros e [= <-].
  - unfold IndexField. run_m.
    pose proof (λ n cl, index_all_asks o ctx i (map_to_list (clusters c)) w n cl) as Ht.
    pose proof (index_all_ok o ctx i (map_to_list (clusters c)) w) as Hok.
    unfold k_world; simpl. destruct (index_all o ctx i (map_to_list (clusters c)) w) as [err w'].
    simpl. split_ands; [done..| |].
    + intros name cl Hc. eapply (Ht name). by apply elem_of_map_to_list.
    + intros -> name cl Hc. eapply Hok; [done|]. by apply elem_of_map_to_list.
Qed.

(** ** Races *)

(** Clusters 1 and 2 have different configurations. *)
Definition ks0 : kstate := KState (New id) empty_world [].

Lemma ks0_init : kinit ks0.
Proof. done. Qed.

Definition krun (o : oracle) (ls : list klabel) : kstate := default ks0 (run (kexec o) ls ks0).

Lemma krun_reachable o ls s : run (kexec o) ls ks0 = Some s → reachable (kexec o) kinit s.
Proof. intros Hr. eapply run_reachable; [apply reach_init, ks0_init|exact Hr]. Qed.

(** "a" is added and then replaced; the goroutine of the replaced cluster,
    whose context the replacement cancelled, has not returned yet. *)
Definition replace_labels : list klabel :=
  [KNewCtx Background;
   KCallAddOrReplace (Ctx [0%nat] []) "a" 1%nat None; KRun 0%nat; KRun 1%nat; KRun 1%nat; KRun 1%nat; KRun 1%nat;
   KCallAddOrReplace (Ctx [0%nat] []) "a" 2%nat None; KRun 1%nat; KRun 1%nat; KRun 2%nat; KRun 2%nat; KRun 2%nat].

(** Complement (safety): replacing a cluster loses it: after [AddOrReplace] has returned nil
    with the new cluster in the map, the goroutine of the old one - whose
    [Start] returns because its context was cancelled - removes the name, so
    the new cluster is gone and its context cancelled. *)
Theorem replaced_cluster_removes_its_replacement :
  ∃ s s' old new n,
    reachable (kexec all_ok) kinit s ∧
    KReturn "a" 2%nat None ∈ k_threads s ∧
    clusters (k_c s) !! "a" = Some 2%nat ∧ cancels (k_c s) !! "a" = Some n ∧
    ctx_nodes new = [n; 0%nat] ∧ done_ctx new (w_ctxs (k_w s)) = false ∧
    k_threads s !! 0%nat = Some (KCluster old "a" 1%nat) ∧ done_ctx old (w_ctxs (k_w s)) = true ∧
    kexec all_ok (KRun 0%nat) s = Some s' ∧
    clusters (k_c s') !! "a" = None ∧ done_ctx new (w_ctxs (k_w s')) = true.
Proof.
  destruct (run (kexec all_ok) replace_labels ks0) as [s|] eqn:E; [|by vm_compute in E].
  destruct (kexec all_ok (KRun 0%nat) s) as [s'|] eqn:E'.
  2:{ vm_compute in E. injection E as <-. by vm_compute in E'. }
  exists s, s', (Ctx [1; 0]%nat []), (Ctx [3; 0]%nat []), 3%nat.
  split; [by eapply krun_reachable|].
  vm_compute in E. injection E as <-. vm_compute in E'. injection E' as <-.
  split_ands; try reflexivity. apply list_elem_of_lookup. by exists 2%nat.
Qed.

(** The standard cache: an index that a cluster already has is refused. *)
Definition standard_cache : oracle := fun calls c =>
  match c with
  | CallIndex cl _ i =>
      if existsb (λ c', match c' with CallIndex cl' _ i' => bool_decide (cl' = cl) && bool_decide (i' = i) | _ => false end) calls
      then Some (Errorf "indexer conflict") else None
  | _ => None
  end.

Definition an_index : Index := MkIndex "Pod" "spec.nodeName" 0.

Definition index_race_labels : list klabel :=
  [KNewCtx Background; KCallAdd (Ctx [0%nat] []) "a" 1%nat None; KRun 0%nat;
   KCallIndexField (Ctx [0%nat] []) an_index; KRun 2%nat; KRun 1%nat; KRun 2%nat].

(** Complement (safety): an index registered while a cluster is being added can cost the
    cluster: with caches that refuse an index they already have, as the standard
    one does, [IndexField] and [Add] both apply the index, [Add] fails, and the
    cluster is removed; run one after the other, in either order, both succeed. *)
Theorem index_during_add_removes_the_cluster :
  (∃ s e, reachable (kexec standard_cache) kinit s ∧
     KReturn "a" 1%nat (Some e) ∈ k_threads s ∧ clusters (k_c s) !! "a" = None) ∧
  (let '(err, s) := Add standard_cache Background "a" 1%nat None ks0 in
   let '(err', _) := IndexField standard_cache Background an_index s in err = None ∧ err' = None) ∧
  (let '(err', s) := IndexField standard_cache Background an_index ks0 in
   let '(err, _) := Add standard_cache Background "a" 1%nat None s in err = None ∧ err' = None).
Proof.
  split_ands; [|by vm_compute..].
  destruct (run (kexec standard_cache) index_race_labels ks0) as [s|] eqn:E; [|by vm_compute in E].
  exists s. eexists. split; [by eapply krun_reachable|].
  vm_compute in E. injection E as <-. split; [|reflexivity].
  apply list_elem_of_lookup. by exists 2%nat.
Qed.

(** ** Witnesses *)

Lemma ks0_maps : maps_ok (k_c ks0).
Proof. intros n. unfold ks0, New; simpl. by rewrite !lookup_empty. Qed.

Lemma Add_is_all_or_nothing_witness :
  (Add all_ok Background "a" 1%nat (Some 5%nat) ks0).1 = None ∧
  clusters (k_c (Add all_ok Background "a" 1%nat (Some 5%nat) ks0).2) !! "a" = Some 1%nat.
Proof.
  split; [by vm_compute|].
  pose proof (Add_is_all_or_nothing all_ok Background "a" 1%nat (Some 5%nat) ks0 ks0_maps empty_store_wf) as H.
  destruct (Add all_ok Background "a" 1%nat (Some 5%nat) ks0) as [err s'] eqn:E.
  destruct err; [by vm_compute in E|].
  change (clusters (k_c ks0)) with (∅ : gmap ClusterName cluster) in H.
  rewrite lookup_empty in H. destruct H as [Hc _]. simpl. rewrite Hc.
  apply lookup_insert_eq.
Defined.

Lemma AddOrReplace_binds_the_name_witness :
  (AddOrReplace all_ok Background "a" 1%nat None ks0).1 = None ∧
  clusters (k_c (AddOrReplace all_ok Background "a" 1%nat None ks0).2) !! "a" = Some 1%nat.
Proof.
  split; [by vm_compute|].
  pose proof (AddOrReplace_binds_the_name all_ok Background "a" 1%nat None ks0 ks0_maps empty_store_wf) as H.
  destruct (AddOrReplace all_ok Background "a" 1%nat None ks0) as [err s'] eqn:E.
  destruct err; [by vm_compute in E|]. apply H. by intros m n ?.
Defined.

Definition index_labels : list klabel :=
  [KCallAdd Background "a" 1%nat None; KRun 0; KCallIndexField Background an_index].


(** ** What a call preserves *)
Section preserve.
Context (o : oracle).

Record clusters_wf (s : kstate) : Prop := {
  cw_maps : maps_ok (k_c s);
  cw_store : store_wf (w_ctxs (k_w s));
  cw_cancels m n : cancels (k_c s) !! m = Some n → (n < cs_next (w_ctxs (k_w s)))%nat;
}.

Lemma Remove_wf name s : clusters_wf s → clusters_wf (Remove name s).2.
Proof.
  intros [Hm Hs Hc]. destruct (Remove_spec name s) as (Hc' & _ & _ & Hx). split; rewrite ?Hc', ?Hx.
  - by apply maps_ok_delete.
  - destruct (cancels (k_c s) !! name) as [n|] eqn:Hn; [|done]. apply cancel_store_wf; [by eapply Hc|done].
  - intros m n. simpl. intros [_ Hn]%lookup_delete_Some. apply Hc in Hn. by destruct (cancels (k_c s) !! name).
Qed.

Lemma Add_wf ctx name cl aware s : clusters_wf s → clusters_wf (Add o ctx name cl aware s).2.
Proof.
  intros Hwf. unfold Add. rewrite bind_eq, add_spec.
  destruct (clusters (k_c s) !! name) eqn:Hn; [done|]. cbv zeta.
  unfold k_go at 1, modify. unfold mbind at 1 2, M_bind at 1 2.
  match goal with |- context [wait_sync o ?C name cl ?S] => set (s1 := S);
    pose proof (wait_sync_spec o C name cl s1) as Hw; destruct (wait_sync o C name cl s1) as [[wn werr] s2] eqn:Hws;
    pose proof (body_spec o C name cl aware werr s2) as Hb end.
  assert (w_ctxs (k_w s2) = CtxStore (S (cs_next (w_ctxs (k_w s1)))) (cs_cancelled (w_ctxs (k_w s1)))) as Hx2.
  { unfold wait_sync in Hws. unfold k_world, w_WithCancel, WithCancel, ask, mbind, M_bind, mret, M_ret in Hws.
    simpl in Hws. injection Hws as _ _ <-. done. }
  destruct Hw as (Hc2 & _ & -> & _). simpl. unfold mbind, M_bind.
  destruct (add_body o _ name cl aware werr s2) as [err s3]. destruct Hb as [(Hc3 & _ & Hx3 & _) _].
  assert (clusters_wf s3) as Hwf3.
  { destruct Hwf as [Hm Hs Hc]. split; rewrite ?Hc3, ?Hc2, ?Hx3, ?Hx2; unfold s1; simpl.
    - intros n. simpl. rewrite !lookup_insert_is_Some, (Hm n). done.
    - intros n Hin%Hs. simpl. lia.
    - intros m n [[_ <-]|[_ Hl]]%lookup_insert_Some; [lia|]. apply Hc in Hl. lia. }
  assert (cs_next (w_ctxs (k_w s1)) < cs_next (w_ctxs (k_w s3)))%nat as Hlt by (rewrite Hx3, Hx2; simpl; lia).
  unfold add_exit. unfold mbind, M_bind, mret, M_ret.
  assert (clusters_wf ((match err with Some _ => Remove name | None => λ s0, (tt, s0) end) s3).2 ∧
    cs_next (w_ctxs (k_w ((match err with Some _ => Remove name | None => λ s0, (tt, s0) end) s3).2)) = cs_next (w_ctxs (k_w s3))) as [Hwf4 Hnx4].
  { destruct err; [|done]. split; [by apply Remove_wf|]. destruct (Remove_spec name s3) as (_ & _ & _ & ->). by destruct (cancels _ !! _). }
  destruct ((match err with Some _ => Remove name | None => λ s0, (tt, s0) end) s3) as [u s4]. simpl in *.
  destruct Hwf4 as [Hm Hs Hc]. split; simpl; [done| |done]. apply cancel_store_wf; [lia|done].
Qed.

(** [AddOrReplace] decides about its name only. *)
Lemma AddOrReplace_frame ctx name cl aware s :
  clusters_wf s →
  let '(err, s') := AddOrReplace o ctx name cl aware s in
  clusters_wf s' ∧ EqualClusters_fn (k_c s') = EqualClusters_fn (k_c s) ∧
  indexers (k_c s') = indexers (k_c s) ∧
  (∀ n, n ≠ name → clusters (k_c s') !! n = clusters (k_c s) !! n) ∧
  clusters (k_c s') !! name =
    match clusters (k_c s) !! name with
    | Some old => if EqualClusters_fn (k_c s) old cl then Some old else if err then None else Some cl
    | None => if err then None else Some cl
    end.
Proof.
  assert (∀ s, clusters_wf s → clusters (k_c s) !! name = None →
    let '(err, s') := Add o ctx name cl aware s in
    clusters_wf s' ∧ EqualClusters_fn (k_c s') = EqualClusters_fn (k_c s) ∧ indexers (k_c s') = indexers (k_c s) ∧
    (∀ n, n ≠ name → clusters (k_c s') !! n = clusters (k_c s) !! n) ∧
    clusters (k_c s') !! name = if err then None else Some cl) as Hadd.
  { intros s1 Hwf Hn. pose proof (add_outcome o ctx name cl aware s1 (cw_maps _ Hwf) (cw_store _ Hwf)) as Ha.
    pose proof (Add_wf ctx name cl aware s1 Hwf) as Hwf'.
    assert (EqualClusters_fn (k_c (Add o ctx name cl aware s1).2) = EqualClusters_fn (k_c s1)) as Heq.
    { unfold Add. rewrite bind_eq, add_spec, Hn. cbv zeta. unfold k_go at 1, modify. unfold mbind at 1 2, M_bind at 1 2.
      match goal with |- context [wait_sync o ?C name cl ?S] =>
        pose proof (wait_sync_spec o C name cl S) as Hw; destruct (wait_sync o C name cl S) as [[wn werr] s2];
        pose proof (body_spec o C name cl aware werr s2) as Hb end.
      destruct Hw as (Hc2 & _). simpl. unfold mbind, M_bind. destruct (add_body o _ name cl aware werr s2) as [err s3].
      destruct Hb as [(Hc3 & _) _]. unfold add_exit. unfold mbind, M_bind, mret, M_ret. destruct err as [e|].
      - destruct (Remove_spec name s3) as (Hc4 & _). destruct (Remove name s3) as [u s4]. simpl in *. by rewrite Hc4, Hc3, Hc2.
      - simpl. by rewrite Hc3, Hc2. }
    destruct (Add o ctx name cl aware s1) as [[e|] s']; rewrite Hn in Ha; simpl in *.
    - destruct Ha as [Ha _]. rewrite Ha. by split_ands.
    - destruct Ha as (Ha & _ & Hix & _). rewrite Ha. split_ands; [done..| |apply lookup_insert_eq].
      intros n Hne. by rewrite lookup_insert_ne. }
  intros Hwf. unfold AddOrReplace, GetTyped. rewrite bind_eq. cbn [gets].
  destruct (clusters (k_c s) !! name) as [old|] eqn:Hc; [|by apply Hadd].
  destruct (EqualClusters_fn (k_c s) old cl) eqn:Heq; [by run_m; split_ands|].
  rewrite bind_eq. pose proof (Remove_wf name s Hwf) as Hwf1. destruct (Remove_spec name s) as (Hc1 & _).
  destruct (Remove name s) as [u s1]. simpl in *. specialize (Hadd s1 Hwf1). rewrite Hc1 in Hadd. simpl in Hadd.
  rewrite lookup_delete_eq in Hadd. specialize (Hadd eq_refl). destruct (Add o ctx name cl aware s1) as [err s'].
  destruct Hadd as (? & ? & ? & Ho & ?). split_ands; try done. intros n Hne. rewrite (Ho n Hne). by apply lookup_delete_ne.
Qed.
(** *** Why adding a cluster succeeds or fails *)

(** A call that [Add] makes for its cluster and whose error it returns: the wait
    for the cache, an index, the engagement. *)
Definition add_call (name : ClusterName) (cl : cluster) (aware : option nat) (c : call) : Prop :=
  ∃ ctx, c = CallSync cl ctx ∨ (∃ i, c = CallIndex cl ctx i) ∨ ∃ a, aware = Some a ∧ c = CallEngage a ctx name cl.

(** With the calls [l], made after the calls [h]: one of them failed, or the
    cluster took every index and was engaged, within one context. *)
Definition add_answers (name : ClusterName) (cl : cluster) (aware : option nat) (idx : list Index)
    (err : option error) (h l : list call) : Prop :=
  match err with
  | Some _ => ∃ c e, add_call name cl aware c ∧ answered_in o h l c (Some e)
  | None => ∃ ctx, (∀ i, i ∈ idx → answered_in o h l (CallIndex cl ctx i) None) ∧
                   ∀ a, aware = Some a → answered_in o h l (CallEngage a ctx name cl) None
  end.

Lemma add_answers_after name cl aware idx err h l l' :
  add_answers name cl aware idx err (h ++ l) l' → add_answers name cl aware idx err h (l ++ l').
Proof.
  destruct err as [e|]; simpl.
  - intros (c & e' & Hc & Ha). exists c, e'. split; [done|]. by apply answered_in_app.
  - intros (ctx & Hi & He). exists ctx. split; intros; apply answered_in_app; auto.
Qed.

Lemma add_answers_mono name cl aware idx err h l l' :
  l `prefix_of` l' → add_answers name cl aware idx err h l → add_answers name cl aware idx err h l'.
Proof.
  intros Hp. destruct err as [e|]; simpl.
  - intros (c & e' & Hc & Ha). exists c, e'. split; [done|]. by eapply answered_in_mono.
  - intros (ctx & Hi & He). exists ctx. split; intros; eapply answered_in_mono; eauto.
Qed.

Lemma index_answers ctx name cl idx s :
  let '(err, s') := for_range idx (apply_index o ctx name cl) s in
  ∃ l, w_calls (k_w s') = w_calls (k_w s) ++ l ∧
    match err with
    | Some _ => ∃ i e, answered_in o (w_calls (k_w s)) l (CallIndex cl ctx i) (Some e)
    | None => ∀ i, i ∈ idx → answered_in o (w_calls (k_w s)) l (CallIndex cl ctx i) None
    end.
Proof.
  revert s. induction idx as [|i idx IH]; intros s; cbn [for_range].
  { exists []. rewrite app_nil_r. split; [done|]. by intros i ?%elem_of_nil. }
  unfold on_nil, apply_index. unfold mbind, M_bind, mret, M_ret. unfold k_world, ask. simpl.
  pose proof (answered_in_here o (w_calls (k_w s)) [] (CallIndex cl ctx i)) as Ha.
  destruct (o (w_calls (k_w s)) (CallIndex cl ctx i)) as [e|]; [by exists [CallIndex cl ctx i]; eauto|].
  match goal with |- context [for_range idx _ ?S] => specialize (IH S); destruct (for_range idx _ S) as [err s'] end.
  simpl in IH. destruct IH as (l & Hl & IH). exists (CallIndex cl ctx i :: l). rewrite Hl, <-app_assoc. split; [done|].
  destruct err as [e|].
  - destruct IH as (j & e' & Hj). exists j, e'. by apply (answered_in_app o _ [_]).
  - intros j [->|Hj]%elem_of_cons; [|by apply (answered_in_app o _ [_]), IH].
    eapply answered_in_mono; [|done]. by exists l.
Qed.

Lemma body_answers ctx name cl aware werr s :
  let '(err, s') := add_body o ctx name cl aware werr s in
  ∃ l, w_calls (k_w s') = w_calls (k_w s) ++ l ∧
    (werr = None → add_answers name cl aware (indexers (k_c s)) err (w_calls (k_w s)) l) ∧ (werr ≠ None → err = werr).
Proof.
  unfold add_body, on_nil. unfold mbind, M_bind, mret, M_ret.
  destruct werr as [e|]; [by exists []; rewrite app_nil_r|].
  unfold apply_indexers. unfold mbind, M_bind, gets. pose proof (index_answers ctx name cl (indexers (k_c s)) s) as Hi.
  destruct (for_range _ _ s) as [[e|] s1]; destruct Hi as (l & Hl & Hi).
  { exists l. split; [done|]. split; [|done]. intros _. destruct Hi as (i & e' & Hi). exists (CallIndex cl ctx i), e'.
    split; [exists ctx; right; left; by eexists|done]. }
  unfold engage_aware. destruct aware as [a|]; [|exists l; split; [done|]; split; [|done]; by exists ctx].
  unfold k_world, ext_aware, ask. simpl. exists (l ++ [CallEngage a ctx name cl]). rewrite Hl, <-app_assoc. split; [done|].
  split; [|done]. intros _. pose proof (answered_in_here o (w_calls (k_w s) ++ l) [] (CallEngage a ctx name cl)) as He.
  apply answered_in_app in He. unfold add_answers. destruct (o _ (CallEngage a ctx name cl)) as [e|] eqn:Ho.
  - exists (CallEngage a ctx name cl), e. split; [exists ctx; right; right; by exists a|done].
  - exists ctx. split; [|by intros ? [= <-]]. intros i Hin%Hi. eapply answered_in_mono; [by eexists|done].
Qed.

Lemma add_exit_calls name n err s : let '(err', s') := add_exit name n err s in
  err' = err ∧ w_calls (k_w s') = w_calls (k_w s).
Proof.
  unfold add_exit. unfold mbind, M_bind, mret, M_ret. destruct err as [e|]; [|done].
  destruct (Remove_spec name s) as (_ & _ & Hc & _). by destruct (Remove name s) as [[] s1].
Qed.

Lemma wait_sync_answer ctx name cl s :
  let '((_, err), s') := wait_sync o ctx name cl s in
  ∃ wctx, w_calls (k_w s') = w_calls (k_w s) ++ [CallSync cl wctx] ∧ k_c s' = k_c s ∧
    match o (w_calls (k_w s)) (CallSync cl wctx) with Some _ => err ≠ None | None => err = None end.
Proof.
  unfold wait_sync, k_world, w_WithCancel, ask. run_m. eexists. split; [done|]. split; [done|]. by destruct (o _ _).
Qed.

Lemma Add_answers ctx name cl aware s :
  clusters (k_c s) !! name = None →
  let '(err, s') := Add o ctx name cl aware s in
  ∃ l, w_calls (k_w s') = w_calls (k_w s) ++ l ∧
    add_answers name cl aware (indexers (k_c s)) err (w_calls (k_w s)) l.
Proof.
  intros Hn. unfold Add. rewrite bind_eq, add_spec, Hn. cbv zeta. unfold k_go at 1, modify. unfold mbind at 1 2, M_bind at 1 2.
  set (cctx := child ctx s).
  match goal with |- context [wait_sync o cctx name cl ?S] => set (s1 := S) end.
  pose proof (wait_sync_answer cctx name cl s1) as Hw. destruct (wait_sync o cctx name cl s1) as [[wn werr] s2].
  destruct Hw as (wctx & Hcs2 & Hc2 & Hw). simpl. unfold mbind, M_bind. pose proof (body_answers cctx name cl aware werr s2) as Hb.
  destruct (add_body o cctx name cl aware werr s2) as [err s3]. destruct Hb as (l & Hl & Hok & Hfail).
  pose proof (add_exit_calls name wn err s3) as Hx. destruct (add_exit name wn err s3) as [err' s4]. destruct Hx as [-> Hx].
  exists (CallSync cl wctx :: l). rewrite Hx, Hl, Hcs2. unfold s1 in *. simpl in *. rewrite <-app_assoc. split; [done|].
  pose proof (answered_in_here o (w_calls (k_w s)) l (CallSync cl wctx)) as Hs.
  destruct (o (w_calls (k_w s)) (CallSync cl wctx)) as [e|].
  - rewrite Hfail by done. destruct werr; [|done]. exists (CallSync cl wctx), e. split; [exists wctx; by left|done].
  - specialize (Hok Hw). rewrite Hc2, Hcs2 in Hok. by apply (add_answers_after _ _ _ _ _ _ [_]), Hok.
Qed.

(** [AddOrReplace] of a cluster that is not known as such. *)
Lemma AddOrReplace_answers ctx name cl aware s :
  (∀ old, clusters (k_c s) !! name = Some old → EqualClusters_fn (k_c s) old cl = false) →
  let '(err, s') := AddOrReplace o ctx name cl aware s in
  ∃ l, w_calls (k_w s') = w_calls (k_w s) ++ l ∧
    add_answers name cl aware (indexers (k_c s)) err (w_calls (k_w s)) l.
Proof.
  intros Hne. unfold AddOrReplace, GetTyped. rewrite bind_eq. cbn [gets].
  destruct (clusters (k_c s) !! name) as [old|] eqn:Hc; [|by apply Add_answers].
  rewrite (Hne old eq_refl). rewrite bind_eq. destruct (Remove_spec name s) as (Hc1 & _ & Hcs & _).
  destruct (Remove name s) as [u s1]. simpl in *. pose proof (Add_answers ctx name cl aware s1) as Ha.
  rewrite Hcs, Hc1 in Ha. simpl in Ha. rewrite lookup_delete_eq in Ha. by specialize (Ha eq_refl).
Qed.

(** [AddOrReplace] makes no call for a cluster it knows as such, and leaves the
    indexers alone. *)
Lemma AddOrReplace_calls ctx name cl aware s :
  let s' := (AddOrReplace o ctx name cl aware s).2 in
  w_calls (k_w s) `prefix_of` w_calls (k_w s').
Proof.
  destruct (clusters (k_c s) !! name) as [old|] eqn:Hc; [destruct (EqualClusters_fn (k_c s) old cl) eqn:He|].
  { unfold AddOrReplace, GetTyped. rewrite bind_eq. cbn [gets]. by rewrite Hc, He. }
  all: pose proof (AddOrReplace_answers ctx name cl aware s) as Ha;
    assert (∀ old, clusters (k_c s) !! name = Some old → EqualClusters_fn (k_c s) old cl = false) as Hne by (intros ?; congruence);
    specialize (Ha Hne); destruct (AddOrReplace o ctx name cl aware s) as [err s'];
    destruct Ha as (l & Hl & _); simpl; rewrite Hl; by apply prefix_app_r.
Qed.
End preserve.
