(* ===== verification/ManagerExamples.v ===== *)
(** * pkg/manager over pkg/clusters: the manager's theorems at a concrete provider

    The manager is proved against the [Provider] interface; here it runs over
    the [Clusters] of pkg/clusters, which implements the interface, with the
    basic coordinator. *)

From S2P Require Import Prelude GoErrors GoContext Multicluster Reconcile Basic Manager Clusters.

Definition one_cluster : Clusters :=
  set_maps {["zoo" := 3]} {["zoo" := 0]} (Clusters.New id).

Definition zoo_manager : mcManager Clusters basic := MkManager (Some one_cluster) (Some (inl basic_New)).

(** The cluster named in the request is not the one that is engaged. *)
Definition stale_request : Request := MkRequest (MkCrRequest "default" "pod") "aquarium".

Lemma request_for_unknown_cluster_is_dropped_witness :
  Wrapper_Reconcile (NewClusterNotFoundWrapper (ReconcilerWithClusterInContext
    (fun ctx _ =>
      match ClusterFromContext (PP:=Clusters_Provider all_ok) 0 id zoo_manager ctx with
      | Ok cl => mret (zero_Result, Some (Errorf "reconciled"))
      | Err e => mret (zero_Result, Some (Wrap "reconciling" e))
      end))) Background stale_request empty_world = ((zero_Result, None), empty_world).
Proof.
  apply (request_for_unknown_cluster_is_dropped (PP:=Clusters_Provider all_ok) (PS:=Clusters_ProviderSpec all_ok)
    0 id zoo_manager one_cluster Background stale_request empty_world
    (λ _, mret (zero_Result, Some (Errorf "reconciled"))) (Wrap "reconciling")).
  - reflexivity.
  - discriminate.
  - vm_compute. reflexivity.
  - reflexivity.
Defined.

(** The index reaches the cluster through the manager's field indexer. *)
Lemma GetFieldIndexer_indexes_provider_only_witness :
  let i := MkIndex "Pod" "spec.nodeName" 0 in
  mm_provider zoo_manager = Some one_cluster ∧
  (GetFieldIndexer (PP:=Clusters_Provider all_ok) all_ok 0 id zoo_manager Background i empty_world).2 =
    (provider_IndexField (Provider:=Clusters_Provider all_ok) one_cluster Background i empty_world).2.
Proof.
  intros i. split; [reflexivity|].
  pose proof (GetFieldIndexer_indexes_provider_only (PP:=Clusters_Provider all_ok) (C:=basic)
    all_ok 0 id zoo_manager one_cluster Background i empty_world eq_refl) as H.
  destruct (GetFieldIndexer (PP:=Clusters_Provider all_ok) all_ok 0 id zoo_manager Background i empty_world) as [[m' err] w'].
  exact (proj1 H).
Defined.
