(* ===== verification/Registry.v ===== *)
(** * pkg/clusters/registry.go: the engaged clusters, by name

    A registry is an aware that remembers the clusters it was engaged with.
    Each [Engage] starts a goroutine that waits for the cluster's context and
    then forgets the cluster, if it is still the one stored.  [T] is
    instantiated with [cluster], so the assertion [cl.(T)] holds. *)

From S2P Require Import Prelude GoErrors GoContext Multicluster Clusters.

(* src: pkg/clusters/registry.go:38-47 Registry *)
Record Registry := MkRegistry {
  reg_EqualClusters : cluster → cluster → bool;
  reg_clusters : gmap ClusterName cluster;
}.

Definition with_clusters (m : gmap ClusterName cluster) (r : Registry) : Registry :=
  MkRegistry (reg_EqualClusters r) m.

(* src: pkg/clusters/registry.go:49-55 NewRegistry *)
Definition NewRegistry (GetConfig : cluster → nat) : Registry := MkRegistry (EqualClusters GetConfig) ∅.

(* src: pkg/clusters/registry.go:76-81 Registry.ClusterNames *)
Definition reg_ClusterNames (r : Registry) : list ClusterName := sorted_keys (reg_clusters r).

(* src: pkg/clusters/registry.go:89-100 Registry.GetTyped *)
Definition reg_GetTyped (r : Registry) (name : ClusterName) : result error cluster :=
  match reg_clusters r !! name with
  | None => Err (Wrap ("cluster with name " +:+ name +:+ " not found") ErrClusterNotFound)
  | Some cl => Ok cl
  end.

(* src: pkg/clusters/registry.go:83-87 Registry.Get *)
Definition reg_Get (r : Registry) (ctx : context) (name : ClusterName) : result error cluster :=
  reg_GetTyped r name.

(* src: pkg/clusters/registry.go:102-114 Registry.Add *)
Definition reg_Add (name : ClusterName) (cl : cluster) (r : Registry) : Registry * option error :=
  match reg_clusters r !! name with
  | Some _ => (r, Some (Errorf ("cluster with name " +:+ name +:+ " already exists")))
  | None => (with_clusters (<[name := cl]> (reg_clusters r)) r, None)
  end.

(* src: pkg/clusters/registry.go:116-121 Registry.Remove *)
Definition reg_Remove (name : ClusterName) (r : Registry) : Registry :=
  with_clusters (delete name (reg_clusters r)) r.

(* src: pkg/clusters/registry.go:123-136 Registry.RemoveIfEqual *)
Definition reg_RemoveIfEqual (name : ClusterName) (cl : cluster) (r : Registry) : Registry :=
  match reg_clusters r !! name with
  | None => r
  | Some stored => if negb (bool_decide (cl = stored)) then r else with_clusters (delete name (reg_clusters r)) r
  end.

(* src: pkg/clusters/registry.go:138-158 Registry.AddOrReplace *)
Definition reg_AddOrReplace (name : ClusterName) (cl : cluster) (r : Registry) : Registry * option error :=
  let add m := (with_clusters (<[name := cl]> m) r, None) in
  match reg_clusters r !! name with
  | Some existing =>
      if reg_EqualClusters r existing cl then (r, None)
      else add (delete name (reg_clusters r))
  | None => add (reg_clusters r)
  end.

(** [fn] runs on a state of its own; Go iterates in no particular order. *)
(* src: pkg/clusters/registry.go:160-174 Registry.ForEach *)
Definition reg_ForEach {S} (fn : ClusterName → cluster → M S (option error)) (r : Registry) : M S (option error) :=
  for_range (map_to_list (reg_clusters r)) (λ kv, fn kv.1 kv.2).

(** ** Engagement *)

Record rstate := RState {
  rs_reg : Registry;
  rs_ctxs : ctx_store;
  rs_waiters : list (context * ClusterName * cluster);  (** goroutines of [Engage] *)
}.

(* src: pkg/clusters/registry.go:64-74 Registry.Engage *)
Definition reg_Engage (ctx : context) (name : ClusterName) (cl : cluster) : M rstate (option error) := fun s =>
  let '(r, err) := reg_AddOrReplace name cl (rs_reg s) in
  match err with
  | Some err => (Some err, RState r (rs_ctxs s) (rs_waiters s))
  | None => (None, RState r (rs_ctxs s) (rs_waiters s ++ [(ctx, name, cl)]))
  end.

(** [Start] waits for its context and returns nil. *)
(* src: pkg/clusters/registry.go:57-62 Registry.Start *)
Definition reg_Start (ctx : context) (s : rstate) : option (option error) :=
  if done_ctx ctx (rs_ctxs s) then Some None else None.

Inductive rlabel : Type :=
| RNewCtx (parent : context)
| RCancel (n : cancel_func)
| REngage (ctx : context) (name : ClusterName) (cl : cluster)
| RWake (i : nat).                       (** waiter [i] sees its context done *)

Definition rexec (l : rlabel) (s : rstate) : option rstate :=
  match l with
  | RNewCtx parent => Some (RState (rs_reg s) (WithCancel parent (rs_ctxs s)).2 (rs_waiters s))
  | RCancel n => Some (RState (rs_reg s) (cancel n (rs_ctxs s)) (rs_waiters s))
  | REngage ctx name cl => Some (reg_Engage ctx name cl s).2
  | RWake i =>
      w ← rs_waiters s !! i;
      let '(ctx, name, cl) := w in
      if done_ctx ctx (rs_ctxs s)
      then Some (RState (reg_RemoveIfEqual name cl (rs_reg s)) (rs_ctxs s) (delete i (rs_waiters s)))
      else None
  end.

Definition rinit (s : rstate) : Prop := reg_clusters (rs_reg s) = ∅ ∧ rs_waiters s = [].

(** ** Properties *)

(** Complement (functional): the registry is a map: [Add] refuses a known name and binds a
    new one, [AddOrReplace] keeps a stored cluster of equal configuration and
    otherwise binds the given one, [Remove] unbinds, [RemoveIfEqual] unbinds
    exactly when the very same cluster is stored; no operation touches another
    name, and lookups and the sorted listing agree with the map. *)
Theorem Registry_is_a_map (r : Registry) name cl n :
  reg_clusters (reg_Add name cl r).1 !! n =
    (if decide (n = name) then Some (default cl (reg_clusters r !! name)) else reg_clusters r !! n) ∧
  ((reg_Add name cl r).2 = None ↔ reg_clusters r !! name = None) ∧
  (reg_AddOrReplace name cl r).2 = None ∧
  reg_clusters (reg_AddOrReplace name cl r).1 !! n =
    (if decide (n = name) then
       match reg_clusters r !! name with
       | Some old => Some (if reg_EqualClusters r old cl then old else cl)
       | None => Some cl
       end
     else reg_clusters r !! n) ∧
  reg_clusters (reg_Remove name r) !! n = (if decide (n = name) then None else reg_clusters r !! n) ∧
  reg_clusters (reg_RemoveIfEqual name cl r) !! n =
    (if decide (n = name ∧ reg_clusters r !! name = Some cl) then None else reg_clusters r !! n) ∧
  (is_ok (reg_Get r Background n) = true ↔ n ∈ reg_ClusterNames r) ∧
  (∀ e, reg_Get r Background n = Err e → Is_ErrClusterNotFound e = true).
Proof.
  unfold reg_Add, reg_AddOrReplace, reg_Remove, reg_RemoveIfEqual. split_ands.
  - destruct (reg_clusters r !! name) as [old|] eqn:E; simpl; case_decide as Hn; subst;
      rewrite ?lookup_insert_eq, ?lookup_insert_ne; auto.
  - by destruct (reg_clusters r !! name).
  - destruct (reg_clusters r !! name) as [old|]; [|done]. by destruct (reg_EqualClusters r old cl).
  - destruct (reg_clusters r !! name) as [old|] eqn:E; [destruct (reg_EqualClusters r old cl)|]; simpl;
      case_decide as Hn; subst; rewrite ?lookup_insert_eq, ?lookup_insert_ne, ?lookup_delete_ne; auto.
  - simpl. case_decide as Hn; subst; by rewrite ?lookup_delete_eq, ?lookup_delete_ne.
  - destruct (reg_clusters r !! name) as [old|] eqn:E.
    + destruct (bool_decide_reflect (cl = old)) as [->|Hne]; simpl.
      * destruct (decide (n = name)) as [->|Hn].
        -- by rewrite lookup_delete_eq, decide_True.
        -- rewrite lookup_delete_ne by done. rewrite decide_False; [done|]. by intros [].
      * rewrite decide_False; [done|]. intros [_ [=]]. congruence.
    + rewrite decide_False; [done|]. by intros [_ ?].
  - transitivity (is_Some (reg_clusters r !! n)); [|symmetry; apply elem_of_sorted_keys].
    unfold reg_Get, reg_GetTyped.
    destruct (reg_clusters r !! n); simpl; split; intros H; try done; first [by eexists|by destruct H].
  - unfold reg_Get, reg_GetTyped. destruct (reg_clusters r !! n); [done|]. by intros e [= <-].
Qed.

(** Every stored cluster has a goroutine that will remove it. *)
Definition rinv (s : rstate) : Prop :=
  ∀ name cl, reg_clusters (rs_reg s) !! name = Some cl → ∃ ctx, (ctx, name, cl) ∈ rs_waiters s.

Lemma rinv_step l s s' : rinv s → rexec l s = Some s' → rinv s'.
Proof.
  intros HI Hs. destruct l as [p|n|ctx name cl|i]; simpl in Hs; [by injection Hs as <-..| |].
  - injection Hs as <-. unfold reg_Engage, reg_AddOrReplace.
    destruct (reg_clusters (rs_reg s) !! name) as [old|] eqn:E;
      [destruct (reg_EqualClusters (rs_reg s) old cl)|]; simpl; intros n c; simpl.
    + intros Hn. destruct (HI _ _ Hn) as [ctx' ?]. exists ctx'. set_solver.
    + rewrite lookup_insert_Some. intros [[<- <-]|[Hne Hn]]; [exists ctx; set_solver|].
      rewrite lookup_delete_ne in Hn by done. destruct (HI _ _ Hn) as [ctx' ?]. exists ctx'. set_solver.
    + rewrite lookup_insert_Some. intros [[<- <-]|[Hne Hn]]; [exists ctx; set_solver|].
      destruct (HI _ _ Hn) as [ctx' ?]. exists ctx'. set_solver.
  - destruct (rs_waiters s !! i) as [[[ctx name] cl]|] eqn:Hi; [|done]. simpl in Hs.
    destruct (done_ctx ctx (rs_ctxs s)); [|done]. injection Hs as <-. intros n c. simpl.
    unfold reg_RemoveIfEqual. intros Hn.
    assert (reg_clusters (rs_reg s) !! n = Some c ∧ (n, c) ≠ (name, cl)) as [Hold Hne].
    { destruct (reg_clusters (rs_reg s) !! name) as [old|] eqn:E; [|split; [done|intros [= -> ->]; congruence]].
      destruct (bool_decide_reflect (cl = old)) as [->|Hc]; simpl in Hn.
      - apply lookup_delete_Some in Hn as [? ?]. split; [done|congruence].
      - split; [done|]. intros [= -> ->]. congruence. }
    destruct (HI _ _ Hold) as [ctx' Hin]. exists ctx'.
    destruct (elem_of_delete_or _ _ _ _ Hi Hin) as [[= -> -> ->]|?]; [done|done].
Qed.

(** Complement (invariant): however engagements and cancellations interleave, every cluster
    in the registry has a goroutine that removes it: once its context is done
    that goroutine can run, and afterwards the name is not bound to that
    cluster.  So a registry whose goroutines have all run is empty. *)
Theorem registered_clusters_get_removed s name cl :
  reachable rexec rinit s → reg_clusters (rs_reg s) !! name = Some cl →
  ∃ ctx i, rs_waiters s !! i = Some (ctx, name, cl) ∧
    (done_ctx ctx (rs_ctxs s) = true →
     ∃ s', rexec (RWake i) s = Some s' ∧ reg_clusters (rs_reg s') = delete name (reg_clusters (rs_reg s))).
Proof.
  intros Hr Hn.
  assert (rinv s) as HI.
  { apply (invariant_reachable rexec rinit rinv); [|intros; by eapply rinv_step|done].
    intros s0 [Hc _] n c. by rewrite Hc. }
  destruct (HI _ _ Hn) as [ctx [i Hi]%list_elem_of_lookup]. exists ctx, i. split; [done|].
  intros Hd. eexists. simpl. rewrite Hi. simpl. rewrite Hd. split; [done|].
  simpl. unfold reg_RemoveIfEqual. rewrite Hn. by rewrite bool_decide_eq_true_2.
Qed.

Definition rs0 : rstate := RState (NewRegistry (λ _, 0)) empty_store [].

Definition reengage_labels : list rlabel :=
  [RNewCtx Background; RNewCtx Background;
   REngage (Ctx [0] []) "a" 1; RCancel 0; REngage (Ctx [1] []) "a" 2; RWake 0].

(** Complement (safety): a live cluster can be missing: when a cluster is removed and engaged
    again as a new instance with the same configuration before the first
    instance's goroutine has run, the registry keeps the first instance, whose
    goroutine then removes the name; the second instance's context is live and
    it is not in the registry. *)
Theorem reengaged_cluster_is_lost :
  ∃ s, reachable rexec rinit s ∧
    (Ctx [1] [], "a", 2) ∈ rs_waiters s ∧ done_ctx (Ctx [1] []) (rs_ctxs s) = false ∧
    reg_clusters (rs_reg s) !! "a" = None ∧
    (∀ ctx n c, (ctx, n, c) ∈ rs_waiters s → done_ctx ctx (rs_ctxs s) = false).
Proof.
  destruct (run rexec reengage_labels rs0) as [s|] eqn:E; [|by vm_compute in E].
  exists s. split; [by eapply run_reachable; [apply reach_init|exact E]|].
  vm_compute in E. injection E as <-. split_ands; [apply list_elem_of_In; by left|done|done|].
  intros ctx n c Hin%list_elem_of_In. destruct Hin as [[= <- <- <-]|[]]. done.
Qed.

(** Complement (functional): [ForEach] calls the function on the clusters of the registry,
    each once, and stops at the first error, which it returns: for a function
    that records its arguments and then may fail, what was recorded is a
    prefix of the listing, the whole of it when nil is returned. *)
Theorem ForEach_visits_each_once (r : Registry) (fails : ClusterName → cluster → option error) :
  let fn n cl : M (list (ClusterName * cluster)) (option error) := fun log => (fails n cl, log ++ [(n, cl)]) in
  let '(err, log) := reg_ForEach fn r [] in
  NoDup log.*1 ∧ (∀ n cl, (n, cl) ∈ log → reg_clusters r !! n = Some cl) ∧
  match err with
  | None => ∀ n cl, reg_clusters r !! n = Some cl → (n, cl) ∈ log ∧ fails n cl = None
  | Some e => ∃ n cl, last log = Some (n, cl) ∧ fails n cl = Some e
  end.
Proof.
  intros fn. unfold reg_ForEach.
  assert (∀ l acc, let '(err, log) := for_range l (λ kv, fn kv.1 kv.2) acc in
    ∃ l1 l2, l = l1 ++ l2 ∧ log = acc ++ l1 ∧
      match err with
      | None => l2 = [] ∧ ∀ kv, kv ∈ l → fails kv.1 kv.2 = None
      | Some e => ∃ kv, last l1 = Some kv ∧ fails kv.1 kv.2 = Some e
      end) as Hloop.
  { induction l as [|[n cl] l IH]; intros acc; simpl.
    { unfold mret, M_ret. exists [], []. split_ands; [done|by rewrite app_nil_r|done|].
      by intros kv ?%elem_of_nil. }
    unfold on_nil, mbind, M_bind, fn at 1. simpl. destruct (fails n cl) as [e|] eqn:Ef.
    - unfold mret, M_ret. exists [(n, cl)], l. split_ands; [done..|]. by exists (n, cl).
    - specialize (IH (acc ++ [(n, cl)])). destruct (for_range l _ _) as [err log].
      destruct IH as (l1 & l2 & -> & -> & Hm). exists ((n, cl) :: l1), l2.
      split_ands; [done|by rewrite <-app_assoc|]. destruct err as [e|].
      + destruct Hm as (kv & Hl & Hk). exists kv. split; [|done]. rewrite last_cons, Hl. done.
      + destruct Hm as [-> Hm]. split; [done|]. intros kv [->|Hin]%elem_of_cons; [done|by apply Hm]. }
  specialize (Hloop (map_to_list (reg_clusters r)) []).
  destruct (for_range _ _ _) as [err log]. destruct Hloop as (l1 & l2 & Hl & -> & Hm). simpl.
  pose proof (NoDup_fst_map_to_list (reg_clusters r)) as Hnd. rewrite Hl, fmap_app in Hnd.
  apply NoDup_app in Hnd as (Hnd & _ & _). split_ands; [done| |].
  - intros n cl Hin. apply elem_of_map_to_list. rewrite Hl. set_solver.
  - destruct err as [e|].
    + destruct Hm as ([n cl] & ? & ?). by exists n, cl.
    + destruct Hm as [-> Hm]. intros n cl Hn%elem_of_map_to_list. rewrite Hl, app_nil_r in Hn.
      split; [done|]. apply (Hm (n, cl)). by rewrite Hl, app_nil_r.
Qed.

Definition engaged_a : rstate := default rs0 (run rexec (take 3 reengage_labels) rs0).

Lemma registered_clusters_get_removed_witness :
  reg_clusters (rs_reg engaged_a) !! "a" = Some 1 ∧
  ∃ ctx i, rs_waiters engaged_a !! i = Some (ctx, "a", 1).
Proof.
  split; [by vm_compute|].
  destruct (registered_clusters_get_removed engaged_a "a" 1) as (ctx & i & Hi & _).
  - apply (run_reachable rexec rinit (take 3 reengage_labels) rs0); [by apply reach_init|reflexivity].
  - reflexivity.
  - by exists ctx, i.
Defined.
