(* ===== verification/Controller.v ===== *)
(** * pkg/controller: the multicluster controller

    A controller starts every source on every engaged cluster, within the
    context of the engagement.  controller-runtime's controller is called
    through the world: [CallWatch src cl ctx] is [Watch] of the source number
    [src] of cluster [cl], started within [ctx]. *)

From S2P Require Import Prelude GoErrors GoContext Multicluster Manager.

(** A multicluster source: the source of one cluster, and whether to engage. *)
(* src: pkg/source/source.go:38-48 TypedSource *)
Definition TypedSource : Type := ClusterName → cluster → result error (nat * bool).

(** [ec_token] is the object's address. *)
(* src: pkg/controller/controller.go:111-116 engagedCluster *)
Record engagedCluster := MkEngaged {
  ec_token : nat;
  ec_name : ClusterName;
  ec_cluster : cluster;
  ec_ctx : context;
  ec_cancel : cancel_func;
}.

(** The controller-runtime controller is an interface value; [mc_aware] is its
    [Engage], if it is an aware itself. *)
(* src: pkg/controller/controller.go:103-109 mcController *)
Record mcController := MkController {
  mc_aware : option nat;
  mc_clusters : gmap ClusterName engagedCluster;
  mc_sources : list TypedSource;
}.

Record mstate := MState {
  m_c : mcController;
  m_w : world;
  m_fresh : nat;                                       (** next address *)
  m_waiters : list (context * ClusterName * nat);      (** goroutines of [Engage] *)
}.

Definition m_world {B} (m : M world B) : M mstate B := fun s =>
  let '(b, w) := m (m_w s) in (b, MState (m_c s) w (m_fresh s) (m_waiters s)).

Definition m_set_clusters (m : gmap ClusterName engagedCluster) : M mstate unit :=
  modify (λ s, MState (MkController (mc_aware (m_c s)) m (mc_sources (m_c s))) (m_w s) (m_fresh s) (m_waiters s)).

Section controller.
Context (o : oracle) (quote : string → string).

(** [options.DefaultFromConfig] and the construction of the controller belong
    to controller-runtime, which answers [built]. *)
(* src: pkg/controller/controller.go:85-99 NewTypedUnmanaged *)
Definition NewTypedUnmanaged (built : result error (option nat)) : result error mcController :=
  match built with
  | Err err => Err err
  | Ok aware => Ok (MkController aware ∅ [])
  end.

(* src: pkg/controller/controller.go:77-83 NewUnmanaged *)
Definition NewUnmanaged (built : result error (option nat)) : result error mcController := NewTypedUnmanaged built.

(** Both the controller and the error of [mgr.Add] are returned. *)
(* src: pkg/controller/controller.go:63-75 NewTyped *)
Definition NewTyped {P C} {CI : CoordinatorI C} (built : result error (option nat))
    (mgr : mcManager P C) (run : mcController → Runnable) :
  M world (result error (mcController * mcManager P C * option error)) :=
  match NewTypedUnmanaged built with
  | Err err => mret (Err err)
  | Ok c => '(mgr, err) ← Manager.Add o mgr (run c); mret (Ok (c, mgr, err))
  end.

(* src: pkg/controller/controller.go:55-61 New *)
Definition New {P C} {CI : CoordinatorI C} (built : result error (option nat))
    (mgr : mcManager P C) (run : mcController → Runnable) := NewTyped built mgr run.

(** One source on one cluster; [None] when the source does not want it. *)
(* src: pkg/controller/controller.go:146-159 mcController.Engage *)
Definition watch_source (name : ClusterName) (cl : cluster) (ctx : context) (aware : TypedSource) :
  M mstate (option error) :=
  match aware name cl with
  | Err err => mret (Some (Wrap ("failed to engage for cluster " +:+ quote name) err))
  | Ok (src, shouldEngage) =>
      if negb shouldEngage then mret None else
      err ← m_world (ask o (CallWatch src cl ctx));
      mret (match err with
            | Some err => Some (Wrap ("failed to watch for cluster " +:+ quote name) err)
            | None => None
            end)
  end.

(** The controller itself, then the sources; the first error ends the engagement. *)
(* src: pkg/controller/controller.go:137-159 mcController.Engage *)
Definition engage_sources (name : ClusterName) (cl : cluster) (ctx : context) : M mstate (option error) :=
  c ← gets m_c;
  (match mc_aware c with
   | Some a => m_world (ext_aware o a ctx name cl)
   | None => mret None
   end) ;?
  for_range (mc_sources c) (watch_source name cl ctx).

(* src: pkg/controller/controller.go:135-178 mcController.Engage *)
Definition engage_new (ctx : context) (name : ClusterName) (cl : cluster) : M mstate (option error) :=
  cc ← m_world (w_WithCancel ctx);
  let '(engCtx, cancel) := cc in
  err ← engage_sources name cl engCtx;
  match err with
  | Some err => _ ← m_world (w_cancel cancel); mret (Some err)
  | None => fun s =>
      let ec := MkEngaged (m_fresh s) name cl engCtx cancel in
      (None, MState (MkController (mc_aware (m_c s)) (<[name := ec]> (mc_clusters (m_c s))) (mc_sources (m_c s)))
               (m_w s) (S (m_fresh s)) (m_waiters s ++ [(engCtx, name, ec_token ec)]))
  end.

(* src: pkg/controller/controller.go:118-179 mcController.Engage *)
Definition Engage (ctx : context) (name : ClusterName) (cl : cluster) : M mstate (option error) :=
  s ← get;
  match mc_clusters (m_c s) !! name with
  | Some old =>
      let live := match w_Err (ec_ctx old) (m_w s) with None => true | Some _ => false end in
      if bool_decide (ec_cluster old = cl) && live then mret None else
      _ ← (if live then m_world (w_cancel (ec_cancel old)) else mret tt);
      _ ← m_set_clusters (delete name (mc_clusters (m_c s)));
      engage_new ctx name cl
  | None => engage_new ctx name cl
  end.

(** The goroutine of an engagement, once its context is done. *)
(* src: pkg/controller/controller.go:168-176 mcController.Engage *)
Definition disengage (key : ClusterName) (token : nat) : M mstate unit :=
  s ← get;
  match mc_clusters (m_c s) !! key with
  | Some cur =>
      if bool_decide (ec_token cur = token) then m_set_clusters (delete key (mc_clusters (m_c s))) else mret tt
  | None => mret tt
  end.

(** Go iterates over the engaged clusters in no particular order, of which this
    is one. *)
(* src: pkg/controller/controller.go:181-201 mcController.MultiClusterWatch *)
Definition MultiClusterWatch (src : TypedSource) : M mstate (option error) :=
  c ← gets m_c;
  for_range (map_to_list (mc_clusters c))
    (λ kv, watch_source kv.1 (ec_cluster kv.2) (ec_ctx kv.2) src) ;?
  (fun s => (None, MState (MkController (mc_aware (m_c s)) (mc_clusters (m_c s)) (mc_sources (m_c s) ++ [src]))
                     (m_w s) (m_fresh s) (m_waiters s))).

(** The source that [Watch] is given: started on a child of the engagement's
    context that is also cancelled when the controller's context is done; the
    result lists that goroutine. *)
(* src: pkg/controller/controller.go:203-212 startWithinContext *)
Definition startWithinContext (ctx : context) (start : context → M world (option error)) (ctlCtx : context) :
  M world (list (context * cancel_func) * option error) :=
  cc ← w_WithCancel ctx;
  let '(ctx, cancel) := cc in
  err ← start ctx;
  mret ([(ctlCtx, cancel)], err).

(** ** Interleaving *)

Inductive mlabel : Type :=
| MNewCtx (parent : context)
| MCancel (n : cancel_func)
| MEngage (ctx : context) (name : ClusterName) (cl : cluster)
| MWatch (src : TypedSource)
| MWake (i : nat).

Definition mexec (l : mlabel) (s : mstate) : option mstate :=
  match l with
  | MNewCtx parent => Some (m_world (w_WithCancel parent) s).2
  | MCancel n => Some (m_world (w_cancel n) s).2
  | MEngage ctx name cl => Some (Engage ctx name cl s).2
  | MWatch src => Some (MultiClusterWatch src s).2
  | MWake i =>
      w ← m_waiters s !! i;
      let '(ctx, key, token) := w in
      if done_ctx ctx (w_ctxs (m_w s))
      then Some (disengage key token (MState (m_c s) (m_w s) (m_fresh s) (delete i (m_waiters s)))).2
      else None
  end.

Definition minit (s : mstate) : Prop := mc_clusters (m_c s) = ∅ ∧ mc_sources (m_c s) = [].
End controller.

(** ** Lemmas *)
Section lemmas.
Context (o : oracle) (quote : string → string).
Implicit Types (s : mstate).

(** A step that only makes calls. *)
Definition calls_only s s' : Prop :=
  m_c s' = m_c s ∧ m_fresh s' = m_fresh s ∧ m_waiters s' = m_waiters s ∧ w_ctxs (m_w s') = w_ctxs (m_w s) ∧
  ∀ c, c ∈ w_calls (m_w s) → c ∈ w_calls (m_w s').

Lemma calls_only_refl s : calls_only s s.
Proof. by unfold calls_only. Qed.

Lemma calls_only_trans s1 s2 s3 : calls_only s1 s2 → calls_only s2 s3 → calls_only s1 s3.
Proof. intros (?&?&?&?&?) (?&?&?&?&?). unfold calls_only. split_ands; [congruence..|auto]. Qed.

(** The source has been started on the cluster, if it wants it. *)
Definition watched (calls : list call) (src : TypedSource) (name : ClusterName) (cl : cluster) (ctx : context) : Prop :=
  ∃ n should, src name cl = Ok (n, should) ∧ (should = true → CallWatch n cl ctx ∈ calls).

Lemma watched_mono calls calls' src name cl ctx :
  (∀ c, c ∈ calls → c ∈ calls') → watched calls src name cl ctx → watched calls' src name cl ctx.
Proof. intros Hc (n & b & H & Hb). exists n, b. auto. Qed.

Lemma ask_calls_only c s :
  calls_only s (m_world (ask o c) s).2 ∧ c ∈ w_calls (m_w (m_world (ask o c) s).2).
Proof. unfold calls_only. simpl. split_ands; try done; set_solver. Qed.

Lemma watch_source_spec name cl ctx src s :
  let '(err, s') := watch_source o quote name cl ctx src s in
  calls_only s s' ∧ (err = None → watched (w_calls (m_w s')) src name cl ctx).
Proof.
  unfold watch_source, mbind, M_bind, mret, M_ret.
  destruct (src name cl) as [[n b]|e] eqn:Es; [|split; [apply calls_only_refl|done]].
  destruct b; cbn [negb].
  - pose proof (ask_calls_only (CallWatch n cl ctx) s) as [H1 H2].
    destruct (m_world (ask o (CallWatch n cl ctx)) s) as [err s1]. split; [exact H1|].
    intros _. exists n, true. auto.
  - split; [apply calls_only_refl|]. intros _. exists n, false. by split.
Qed.

Lemma for_range_calls {X} (l : list X) (body : X → M mstate (option error)) (Q : mstate → X → Prop) s :
  (∀ x s, let '(err, s') := body x s in calls_only s s' ∧ (err = None → Q s' x)) →
  (∀ x s s', calls_only s s' → Q s x → Q s' x) →
  let '(err, s') := for_range l body s in calls_only s s' ∧ (err = None → ∀ x, x ∈ l → Q s' x).
Proof.
  intros Hb Hm. revert s. induction l as [|x l IH]; intros s; cbn [for_range].
  { split; [apply calls_only_refl|]. by intros _ x ?%elem_of_nil. }
  unfold on_nil. unfold mbind, M_bind. specialize (Hb x s). destruct (body x s) as [[e|] s1]; destruct Hb as [H1 H2].
  - by split.
  - specialize (IH s1). destruct (for_range l body s1) as [err s']. destruct IH as [H3 H4].
    split; [by eapply calls_only_trans|]. intros He y [->|Hy]%elem_of_cons; [|by apply H4].
    eapply Hm; [done|by apply H2].
Qed.

Lemma sources_spec name cl ctx l s :
  let '(err, s') := for_range l (watch_source o quote name cl ctx) s in
  calls_only s s' ∧ (err = None → ∀ src, src ∈ l → watched (w_calls (m_w s')) src name cl ctx).
Proof.
  apply (for_range_calls l _ (λ s src, watched (w_calls (m_w s)) src name cl ctx)).
  - intros src s1. apply watch_source_spec.
  - intros src s1 s2 (_ & _ & _ & _ & Hc). by apply watched_mono.
Qed.

Lemma engage_sources_spec name cl ctx s :
  let '(err, s') := engage_sources o quote name cl ctx s in
  calls_only s s' ∧ (err = None →
    (∀ a, mc_aware (m_c s) = Some a → CallEngage a ctx name cl ∈ w_calls (m_w s')) ∧
    ∀ src, src ∈ mc_sources (m_c s) → watched (w_calls (m_w s')) src name cl ctx).
Proof.
  unfold engage_sources. unfold mbind at 1, M_bind at 1, gets.
  set (first := match mc_aware (m_c s) with Some a => m_world (ext_aware o a ctx name cl) | None => mret None end).
  assert (let '(err, s') := first s in calls_only s s' ∧
    ∀ a, mc_aware (m_c s) = Some a → CallEngage a ctx name cl ∈ w_calls (m_w s')) as Hf.
  { subst first. destruct (mc_aware (m_c s)) as [a|]; [|split; [apply calls_only_refl|done]].
    pose proof (ask_calls_only (CallEngage a ctx name cl) s) as [H1 H2]. unfold ext_aware.
    destruct (m_world _ s). split; [done|]. by intros ? [= <-]. }
  unfold on_nil, mbind, M_bind. destruct (first s) as [[e|] s1]; destruct Hf as [H1 H2]; [by split|].
  pose proof (sources_spec name cl ctx (mc_sources (m_c s)) s1) as Hs.
  destruct (for_range _ _ s1) as [err s2]. destruct Hs as [H3 H4].
  split; [by eapply calls_only_trans|]. intros He. split; [|by apply H4].
  intros a Ha. destruct H3 as (_ & _ & _ & _ & Hc). auto.
Qed.

(** What an engagement that is not a no-op does. *)
Lemma engage_new_spec ctx name cl s :
  let '(err, s') := engage_new o quote ctx name cl s in
  let n := cs_next (w_ctxs (m_w s)) in
  let engCtx := Ctx (n :: ctx_nodes ctx) (ctx_values ctx) in
  mc_sources (m_c s') = mc_sources (m_c s) ∧ mc_aware (m_c s') = mc_aware (m_c s) ∧
  (∀ c, c ∈ w_calls (m_w s) → c ∈ w_calls (m_w s')) ∧
  match err with
  | Some _ => mc_clusters (m_c s') = mc_clusters (m_c s) ∧ m_fresh s' = m_fresh s ∧ m_waiters s' = m_waiters s ∧
              cs_cancelled (w_ctxs (m_w s')) = {[n]} ∪ cs_cancelled (w_ctxs (m_w s))
  | None =>
      mc_clusters (m_c s') = <[name := MkEngaged (m_fresh s) name cl engCtx n]> (mc_clusters (m_c s)) ∧
      m_fresh s' = S (m_fresh s) ∧ m_waiters s' = m_waiters s ++ [(engCtx, name, m_fresh s)] ∧
      cs_cancelled (w_ctxs (m_w s')) = cs_cancelled (w_ctxs (m_w s)) ∧
      (∀ a, mc_aware (m_c s) = Some a → CallEngage a engCtx name cl ∈ w_calls (m_w s')) ∧
      ∀ src, src ∈ mc_sources (m_c s) → watched (w_calls (m_w s')) src name cl engCtx
  end.
Proof.
  unfold engage_new, m_world at 1, w_WithCancel. unfold mbind, M_bind. simpl.
  set (n := cs_next (w_ctxs (m_w s))). set (engCtx := Ctx (n :: ctx_nodes ctx) (ctx_values ctx)).
  set (s1 := MState _ _ _ _).
  pose proof (engage_sources_spec name cl engCtx s1) as He.
  destruct (engage_sources o quote name cl engCtx s1) as [[e|] s2]; destruct He as [(Hc & Hf & Hw & Hx & Hcs) Hok]; simpl.
  - rewrite Hc, Hf, Hw, Hx. by split_ands.
  - destruct (Hok eq_refl). rewrite Hc, Hf, Hw, Hx. by split_ands.
Qed.

(** ... and to the contexts. *)
Lemma engage_new_ctxs ctx name cl s :
  let '(err, s') := engage_new o quote ctx name cl s in
  let n := cs_next (w_ctxs (m_w s)) in
  cs_next (w_ctxs (m_w s')) = S n ∧
  cs_cancelled (w_ctxs (m_w s')) = (if err then {[n]} else ∅) ∪ cs_cancelled (w_ctxs (m_w s)).
Proof.
  unfold engage_new, m_world at 1, w_WithCancel. unfold mbind, M_bind. simpl.
  set (n := cs_next (w_ctxs (m_w s))). set (s1 := MState _ _ _ _).
  pose proof (engage_sources_spec name cl (Ctx (n :: ctx_nodes ctx) (ctx_values ctx)) s1) as He.
  destruct (engage_sources o quote name cl _ s1) as [[e|] s2]; destruct He as [(_ & _ & _ & Hx & _) _]; simpl; rewrite Hx; simpl;
    (split; [done|]); [done|by rewrite (left_id_L ∅ _)].
Qed.

(** Nothing refuses a cluster. *)
Definition accepting : Prop :=
  (∀ calls n cl ctx, o calls (CallWatch n cl ctx) = None) ∧ ∀ calls a ctx name cl, o calls (CallEngage a ctx name cl) = None.

Definition total (src : TypedSource) : Prop := ∀ name cl, is_ok (src name cl) = true.

Lemma engage_new_accepts ctx name cl s :
  accepting → (∀ src, src ∈ mc_sources (m_c s) → total src) → (engage_new o quote ctx name cl s).1 = None.
Proof.
  intros [Hw Ha] Ht. unfold engage_new. rewrite bind_eq. unfold m_world at 1, w_WithCancel. simpl. rewrite bind_eq.
  assert (∀ l s, (∀ src, src ∈ l → total src) → ∀ ctx, (for_range l (watch_source o quote name cl ctx) s).1 = None) as Hr.
  { induction l as [|src l IH]; intros s0 Hl ctx0; [done|]. cbn [for_range]. unfold on_nil. rewrite bind_eq. unfold watch_source at 1.
    pose proof (Hl src ltac:(by left) name cl) as Hsrc. destruct (src name cl) as [[n []]|]; [| |done]; cbn [negb];
      unfold m_world, ask; run_m; rewrite ?Hw; apply IH; intros; by apply Hl; right. }
  match goal with |- context [engage_sources _ _ _ _ ?c ?s1] => assert ((engage_sources o quote name cl c s1).1 = None) as He end.
  { unfold engage_sources. rewrite bind_eq. unfold gets, on_nil. simpl. destruct (mc_aware (m_c s)) as [a|].
    - rewrite bind_eq. unfold m_world, ext_aware, ask. simpl. rewrite Ha. by apply Hr.
    - by apply Hr. }
  destruct (engage_sources _ _ _ _ _ _) as [err s2]. simpl in He. by subst err.
Qed.

(** *** The calls of an engagement, in their order *)

(** What one source asks of the controller, and the error that ends the
    engagement after the calls [h]. *)
Definition watch_calls (name : ClusterName) (cl : cluster) (ctx : context) (src : TypedSource) : list call :=
  match src name cl with Ok (n, true) => [CallWatch n cl ctx] | _ => [] end.

Definition refusal (h : list call) (name : ClusterName) (cl : cluster) (ctx : context) (src : TypedSource) : option error :=
  match src name cl with
  | Err e => Some (Wrap ("failed to engage for cluster " +:+ quote name) e)
  | Ok (_, false) => None
  | Ok (n, true) => Wrap ("failed to watch for cluster " +:+ quote name) <$> o h (CallWatch n cl ctx)
  end.

(** The sources are taken in order, after the calls [h] and with the calls [l],
    until the first that refuses, whose error is the result. *)
Definition sources_in_order (h l : list call) (sources : list TypedSource) (name : ClusterName) (cl : cluster) (ctx : context)
    (err : option error) : Prop :=
  ∃ started rest, sources = started ++ rest ∧
    (∀ before src after, started = before ++ src :: after →
       refusal (h ++ mjoin (watch_calls name cl ctx <$> before)) name cl ctx src = None) ∧
    match err, rest with
    | None, [] => l = mjoin (watch_calls name cl ctx <$> started)
    | Some e, failed :: _ =>
        refusal (h ++ mjoin (watch_calls name cl ctx <$> started)) name cl ctx failed = Some e ∧
        l = mjoin (watch_calls name cl ctx <$> started) ++ watch_calls name cl ctx failed
    | _, _ => False
    end.

(** The controller itself goes first, if it is an aware. *)
Definition engages_in_order (h l : list call) (aware : option nat) (sources : list TypedSource) (name : ClusterName)
    (cl : cluster) (ctx : context) (err : option error) : Prop :=
  match aware with
  | None => sources_in_order h l sources name cl ctx err
  | Some a =>
      match o h (CallEngage a ctx name cl) with
      | Some e => err = Some e ∧ l = [CallEngage a ctx name cl]
      | None => ∃ l', l = CallEngage a ctx name cl :: l' ∧
                  sources_in_order (h ++ [CallEngage a ctx name cl]) l' sources name cl ctx err
      end
  end.

Lemma watch_source_calls name cl ctx src s :
  let '(err, s') := watch_source o quote name cl ctx src s in
  err = refusal (w_calls (m_w s)) name cl ctx src ∧ w_calls (m_w s') = w_calls (m_w s) ++ watch_calls name cl ctx src.
Proof.
  unfold watch_source, refusal, watch_calls. destruct (src name cl) as [[n []]|e]; cbn [negb].
  2,3: unfold mret, M_ret; by rewrite app_nil_r.
  unfold m_world, ask. run_m. by destruct (o (w_calls (m_w s)) (CallWatch n cl ctx)).
Qed.

Lemma sources_calls name cl ctx l s :
  let '(err, s') := for_range l (watch_source o quote name cl ctx) s in
  ∃ cs, w_calls (m_w s') = w_calls (m_w s) ++ cs ∧ sources_in_order (w_calls (m_w s)) cs l name cl ctx err.
Proof.
  revert s. induction l as [|src l IH]; intros s; cbn [for_range].
  { exists []. rewrite app_nil_r. split; [done|]. exists [], []. split_ands; try done. by intros []. }
  unfold on_nil. unfold mbind, M_bind. pose proof (watch_source_calls name cl ctx src s) as Hw.
  destruct (watch_source o quote name cl ctx src s) as [err s1]. destruct Hw as [-> Hw].
  destruct (refusal (w_calls (m_w s)) name cl ctx src) as [e|] eqn:Hr.
  { exists (watch_calls name cl ctx src). split; [done|]. exists [], (src :: l). split; [done|].
    split; [by intros []|]. simpl. by rewrite app_nil_r. }
  specialize (IH s1). rewrite Hw in IH. destruct (for_range l _ s1) as [err s2].
  destruct IH as (cs & Hcs & started & rest & -> & Hst & Hend).
  exists (watch_calls name cl ctx src ++ cs). rewrite Hcs, app_assoc. split; [done|].
  exists (src :: started), rest. split; [done|]. split.
  - intros [|x before] src' after [= -> ->]; cbn [fmap list_fmap mjoin list_join]; [by rewrite app_nil_r|].
    rewrite app_assoc. by eapply Hst.
  - cbn [fmap list_fmap mjoin list_join]. destruct err as [e|], rest as [|failed rest]; try done.
    + destruct Hend as [Hf ->]. by rewrite !app_assoc in *.
    + by rewrite Hend.
Qed.

Lemma engage_new_calls ctx name cl s :
  let '(err, s') := engage_new o quote ctx name cl s in
  let engCtx := Ctx (cs_next (w_ctxs (m_w s)) :: ctx_nodes ctx) (ctx_values ctx) in
  ∃ l, w_calls (m_w s') = w_calls (m_w s) ++ l ∧
    engages_in_order (w_calls (m_w s)) l (mc_aware (m_c s)) (mc_sources (m_c s)) name cl engCtx err.
Proof.
  unfold engage_new, m_world at 1, w_WithCancel. unfold mbind, M_bind. simpl.
  set (engCtx := Ctx (_ :: ctx_nodes ctx) (ctx_values ctx)). set (s1 := MState _ _ _ _).
  assert (let '(err, s') := engage_sources o quote name cl engCtx s1 in
    ∃ l, w_calls (m_w s') = w_calls (m_w s) ++ l ∧
      engages_in_order (w_calls (m_w s)) l (mc_aware (m_c s)) (mc_sources (m_c s)) name cl engCtx err) as Hs.
  { unfold engage_sources, engages_in_order. unfold mbind, M_bind, gets, on_nil. simpl. destruct (mc_aware (m_c s)) as [a|].
    2:{ unfold mret, M_ret. apply (sources_calls name cl engCtx (mc_sources (m_c s)) s1). }
    unfold m_world, ext_aware, ask. unfold mbind, M_bind. simpl. destruct (o (w_calls (m_w s)) _) as [e|]; [by eexists|].
    match goal with |- context [for_range _ _ ?S] => pose proof (sources_calls name cl engCtx (mc_sources (m_c s)) S) as Hx; destruct (for_range _ _ S) as [err s2] end.
    simpl in Hx. destruct Hx as (cs & Hcs & Hx). rewrite <-app_assoc in Hcs. eexists. split; [done|]. by exists cs. }
  destruct (engage_sources o quote name cl engCtx s1) as [[e|] s2]; exact Hs.
Qed.

(** The state in which a re-engagement starts afresh. *)
Definition stopped (name : ClusterName) (old : engagedCluster) s : mstate :=
  MState (MkController (mc_aware (m_c s)) (delete name (mc_clusters (m_c s))) (mc_sources (m_c s)))
    (World (if done_ctx (ec_ctx old) (w_ctxs (m_w s)) then w_ctxs (m_w s)
            else cancel (ec_cancel old) (w_ctxs (m_w s))) (w_calls (m_w s)))
    (m_fresh s) (m_waiters s).

Lemma Engage_eq ctx name cl s :
  Engage o quote ctx name cl s =
  match mc_clusters (m_c s) !! name with
  | Some old =>
      if bool_decide (ec_cluster old = cl) && negb (done_ctx (ec_ctx old) (w_ctxs (m_w s))) then (None, s)
      else engage_new o quote ctx name cl (stopped name old s)
  | None => engage_new o quote ctx name cl s
  end.
Proof.
  unfold Engage. unfold mbind at 1, M_bind at 1, get.
  destruct (mc_clusters (m_c s) !! name) as [old|]; [|done]. unfold w_Err, ctx_Err, stopped.
  destruct (done_ctx (ec_ctx old) (w_ctxs (m_w s))), (bool_decide (ec_cluster old = cl)); simpl; try done;
    unfold m_set_clusters, modify; unfold mbind, M_bind; simpl; by destruct (m_w s).
Qed.

(** An engagement that is not a no-op, in one statement. *)
Lemma Engage_effect ctx name cl s :
  (∀ old, mc_clusters (m_c s) !! name = Some old → ec_cluster old = cl → done_ctx (ec_ctx old) (w_ctxs (m_w s)) = true) →
  let '(err, s') := Engage o quote ctx name cl s in
  let n := cs_next (w_ctxs (m_w s)) in
  let engCtx := Ctx (n :: ctx_nodes ctx) (ctx_values ctx) in
  mc_sources (m_c s') = mc_sources (m_c s) ∧ (∀ c, c ∈ w_calls (m_w s) → c ∈ w_calls (m_w s')) ∧
  cs_next (w_ctxs (m_w s')) = S n ∧
  (∃ dead : gset nat, (∀ m, m ∈ dead → ∃ old, mc_clusters (m_c s) !! name = Some old ∧ m = ec_cancel old) ∧
     cs_cancelled (w_ctxs (m_w s')) = (if err then {[n]} else ∅) ∪ (dead ∪ cs_cancelled (w_ctxs (m_w s)))) ∧
  match err with
  | Some _ => mc_clusters (m_c s') = delete name (mc_clusters (m_c s)) ∧ m_fresh s' = m_fresh s ∧ m_waiters s' = m_waiters s ∧
              ¬ (accepting ∧ ∀ src, src ∈ mc_sources (m_c s) → total src)
  | None =>
      mc_clusters (m_c s') = <[name := MkEngaged (m_fresh s) name cl engCtx n]> (mc_clusters (m_c s)) ∧
      m_fresh s' = S (m_fresh s) ∧ m_waiters s' = m_waiters s ++ [(engCtx, name, m_fresh s)] ∧
      ∀ src, src ∈ mc_sources (m_c s) → watched (w_calls (m_w s')) src name cl engCtx
  end.
Proof.
  intros Hold. rewrite Engage_eq.
  pose proof (engage_new_spec ctx name cl) as Hs. pose proof (engage_new_ctxs ctx name cl) as Hc. pose proof (engage_new_accepts ctx name cl) as Ha.
  destruct (mc_clusters (m_c s) !! name) as [old|] eqn:Hn.
  - replace (bool_decide (ec_cluster old = cl) && negb (done_ctx (ec_ctx old) (w_ctxs (m_w s)))) with false.
    2:{ symmetry. case_bool_decide as Hcl; [|done]. by rewrite (Hold old eq_refl Hcl). }
    specialize (Hs (stopped name old s)). specialize (Hc (stopped name old s)). specialize (Ha (stopped name old s)).
    assert (cs_next (w_ctxs (m_w (stopped name old s))) = cs_next (w_ctxs (m_w s)) ∧
      ∃ dead : gset nat, (∀ m, m ∈ dead → ∃ old', Some old = Some old' ∧ m = ec_cancel old') ∧
        cs_cancelled (w_ctxs (m_w (stopped name old s))) = dead ∪ cs_cancelled (w_ctxs (m_w s))) as (Hx & dead & Hd & Hcd).
    { unfold stopped. simpl. destruct (done_ctx (ec_ctx old) (w_ctxs (m_w s))); (split; [done|]).
      - exists ∅. split; [by intros ? ?%elem_of_empty|]. by rewrite (left_id_L ∅ _).
      - exists {[ec_cancel old]}. split; [|done]. intros m ->%elem_of_singleton. by exists old. }
    rewrite Hx in Hs, Hc.
    destruct (engage_new o quote ctx name cl (stopped name old s)) as [err s']. destruct Hc as [Hc1 Hc2], Hs as (Hs1 & _ & Hs2 & Hs3).
    cbv zeta. split_ands; [done|done|done|exists dead; split; [done|by rewrite Hc2, Hcd]|]. destruct err as [e|].
    + destruct Hs3 as (Hs3 & Hs4 & Hs5 & _). split_ands; try done. intros [Hacc Ht]. by specialize (Ha Hacc Ht).
    + destruct Hs3 as (Hs3 & Hs4 & Hs5 & _ & _ & Hs6). split_ands; try done. rewrite Hs3. simpl. by rewrite insert_delete_eq.
  - specialize (Hs s). specialize (Hc s). specialize (Ha s).
    destruct (engage_new o quote ctx name cl s) as [err s']. destruct Hc as [Hc1 Hc2], Hs as (Hs1 & _ & Hs2 & Hs3).
    cbv zeta. split_ands; [done|done|done|exists ∅; split; [by intros ? ?%elem_of_empty|by rewrite Hc2, (left_id_L ∅ _ (cs_cancelled _))]|].
    destruct err as [e|].
    + destruct Hs3 as (Hs3 & Hs4 & Hs5 & _). split_ands; try done; [|intros [Hacc Ht]; by specialize (Ha Hacc Ht)].
      by rewrite Hs3, delete_id.
    + destruct Hs3 as (Hs3 & Hs4 & Hs5 & _ & _ & Hs6). by split_ands.
Qed.
End lemmas.

(** ** Properties *)
Section properties.
Context (o : oracle) (quote : string → string).

(** C16 (functional): [Engage] with the cluster already engaged on a live context is
    a no-op.  Otherwise the old engagement's context is cancelled, and a fresh
    child of the given context is made, within which the controller, if it is
    an aware, and then the sources in their order are started on the cluster:
    until the first that refuses, whose error is returned with no later source
    started, the fresh context cancelled and the cluster not engaged; if none
    refuses, all have been started and the cluster is engaged under that
    context. *)
Theorem Engage_starts_every_source ctx name cl s :
  let '(err, s') := Engage o quote ctx name cl s in
  let n := cs_next (w_ctxs (m_w s)) in
  let engCtx := Ctx (n :: ctx_nodes ctx) (ctx_values ctx) in
  (∀ old, mc_clusters (m_c s) !! name = Some old →
     if bool_decide (ec_cluster old = cl) && negb (done_ctx (ec_ctx old) (w_ctxs (m_w s)))
     then err = None ∧ s' = s
     else done_ctx (ec_ctx old) (w_ctxs (m_w s)) = true ∨ ec_cancel old ∈ cs_cancelled (w_ctxs (m_w s'))) ∧
  ((∀ old, mc_clusters (m_c s) !! name = Some old → ec_cluster old ≠ cl ∨ done_ctx (ec_ctx old) (w_ctxs (m_w s)) = true) →
   (∃ l, w_calls (m_w s') = w_calls (m_w s) ++ l ∧
      engages_in_order o quote (w_calls (m_w s)) l (mc_aware (m_c s)) (mc_sources (m_c s)) name cl engCtx err) ∧
   match err with
   | Some _ => mc_clusters (m_c s') !! name = None ∧ n ∈ cs_cancelled (w_ctxs (m_w s'))
   | None =>
       mc_clusters (m_c s') !! name = Some (MkEngaged (m_fresh s) name cl engCtx n) ∧
       (∀ a, mc_aware (m_c s) = Some a → CallEngage a engCtx name cl ∈ w_calls (m_w s')) ∧
       ∀ src, src ∈ mc_sources (m_c s) → watched (w_calls (m_w s')) src name cl engCtx
   end) ∧
  (∀ other, other ≠ name → mc_clusters (m_c s') !! other = mc_clusters (m_c s) !! other).
Proof.
  rewrite Engage_eq. cbv zeta. destruct (mc_clusters (m_c s) !! name) as [old|] eqn:Hold.
  2:{ pose proof (engage_new_spec o quote ctx name cl s) as He. pose proof (engage_new_calls o quote ctx name cl s) as Ht.
      destruct (engage_new o quote ctx name cl s) as [[e|] s']; destruct He as (_ & _ & _ & He);
        (split_ands; [done| |intros m Hm; rewrite (proj1 He), ?lookup_insert_ne; done]); intros _; (split; [exact Ht|]).
      - destruct He as (-> & _ & _ & ->). split; [done|set_solver].
      - destruct He as (-> & _ & _ & _ & ? & ?). by rewrite lookup_insert_eq. }
  destruct (bool_decide _ && negb _) eqn:Hnoop.
  { split_ands; [intros ? [= <-]; by rewrite Hnoop| |done]. intros H. exfalso.
    apply andb_prop in Hnoop as [Hcl%bool_decide_eq_true_1 Hd]. destruct (H old eq_refl) as [?|Hx]; [done|].
    by rewrite Hx in Hd. }
  pose proof (engage_new_spec o quote ctx name cl (stopped name old s)) as He.
  pose proof (engage_new_calls o quote ctx name cl (stopped name old s)) as Ht.
  destruct (engage_new o quote ctx name cl (stopped name old s)) as [err s'].
  assert (cs_next (w_ctxs (m_w (stopped name old s))) = cs_next (w_ctxs (m_w s))) as Hn.
  { unfold stopped; simpl. by destruct (done_ctx _ _). }
  rewrite Hn in He, Ht. destruct He as (_ & _ & _ & He).
  assert (cs_cancelled (w_ctxs (m_w (stopped name old s))) ⊆ cs_cancelled (w_ctxs (m_w s'))) as Hsub.
  { destruct err; [destruct He as (_ & _ & _ & ->)|destruct He as (_ & _ & _ & -> & _)]; set_solver. }
  split_ands.
  - intros ? [= <-]. rewrite Hnoop. destruct (done_ctx (ec_ctx old) (w_ctxs (m_w s))) eqn:Hd; [by left|right].
    apply Hsub. unfold stopped; simpl. rewrite Hd. simpl. set_solver.
  - intros _. split; [exact Ht|]. destruct err.
    + destruct He as (-> & _ & _ & ->). simpl. rewrite lookup_delete_eq. split; [done|set_solver].
    + destruct He as (-> & _ & _ & _ & ? & ?). by rewrite lookup_insert_eq.
  - intros m Hm. destruct err; rewrite (proj1 He), ?lookup_insert_ne by done; simpl; by rewrite lookup_delete_ne.
Qed.

(** Every engaged cluster has been given to every source, and has its goroutine. *)
Definition minv (s : mstate) : Prop :=
  ∀ name ec, mc_clusters (m_c s) !! name = Some ec →
    (∀ src, src ∈ mc_sources (m_c s) → watched (w_calls (m_w s)) src name (ec_cluster ec) (ec_ctx ec)) ∧
    (ec_ctx ec, name, ec_token ec) ∈ m_waiters s.

Lemma minv_shrink s s' :
  minv s → mc_sources (m_c s') = mc_sources (m_c s) → m_waiters s' = m_waiters s →
  (∀ c, c ∈ w_calls (m_w s) → c ∈ w_calls (m_w s')) →
  (∀ name ec, mc_clusters (m_c s') !! name = Some ec → mc_clusters (m_c s) !! name = Some ec) → minv s'.
Proof.
  intros HI Hs Hw Hc Hm name ec Hec. destruct (HI _ _ (Hm _ _ Hec)) as [H1 H2]. rewrite Hs, Hw.
  split; [|done]. intros src Hin. eapply watched_mono; [done|by apply H1].
Qed.

Lemma engage_new_inv ctx name cl s : minv s → minv (engage_new o quote ctx name cl s).2.
Proof.
  intros HI. pose proof (engage_new_spec o quote ctx name cl s) as He.
  destruct (engage_new o quote ctx name cl s) as [[e|] s']; destruct He as (Hs & _ & Hc & He); simpl.
  - destruct He as (Hm & _ & Hw & _). eapply minv_shrink; [done..|]. intros n ec. by rewrite Hm.
  - destruct He as (Hm & _ & Hw & _ & _ & Hall). intros n ec. rewrite Hm, lookup_insert_Some, Hs, Hw.
    intros [[<- <-]|[Hne Hec]]; [split; [done|set_solver]|].
    destruct (HI _ _ Hec) as [H1 H2]. split; [|set_solver].
    intros src Hin. eapply watched_mono; [done|by apply H1].
Qed.

Lemma Engage_inv ctx name cl s : minv s → minv (Engage o quote ctx name cl s).2.
Proof.
  intros HI. rewrite Engage_eq. destruct (mc_clusters (m_c s) !! name) as [old|]; [|by apply engage_new_inv].
  destruct (bool_decide _ && negb _); [done|]. apply engage_new_inv.
  eapply (minv_shrink s); simpl; try done. by intros n ec [_ ?]%lookup_delete_Some.
Qed.

Lemma MultiClusterWatch_spec src s :
  let '(err, s') := MultiClusterWatch o quote src s in
  mc_clusters (m_c s') = mc_clusters (m_c s) ∧ m_waiters s' = m_waiters s ∧
  (∀ c, c ∈ w_calls (m_w s) → c ∈ w_calls (m_w s')) ∧
  match err with
  | Some _ => mc_sources (m_c s') = mc_sources (m_c s)
  | None => mc_sources (m_c s') = mc_sources (m_c s) ++ [src] ∧
            ∀ name ec, mc_clusters (m_c s) !! name = Some ec →
              watched (w_calls (m_w s')) src name (ec_cluster ec) (ec_ctx ec)
  end.
Proof.
  unfold MultiClusterWatch. unfold mbind at 1, M_bind at 1, gets.
  pose proof (for_range_calls (map_to_list (mc_clusters (m_c s)))
    (λ kv, watch_source o quote kv.1 (ec_cluster kv.2) (ec_ctx kv.2) src)
    (λ s kv, watched (w_calls (m_w s)) src kv.1 (ec_cluster kv.2) (ec_ctx kv.2)) s) as Hf.
  unfold on_nil, mbind, M_bind. destruct (for_range _ _ s) as [err s1].
  destruct Hf as [(Hc & _ & Hw & _ & Hcs) Hall].
  - intros kv s2. apply watch_source_spec.
  - intros kv s2 s3 (_ & _ & _ & _ & H). by apply watched_mono.
  - destruct err as [e|]; simpl; rewrite Hc; split_ands; try done.
    intros name ec Hec. by apply (Hall eq_refl (name, ec)), elem_of_map_to_list.
Qed.

Lemma MultiClusterWatch_only_calls src s :
  let '(_, s') := MultiClusterWatch o quote src s in
  m_fresh s' = m_fresh s ∧ w_ctxs (m_w s') = w_ctxs (m_w s).
Proof.
  unfold MultiClusterWatch. rewrite bind_eq. unfold gets. simpl.
  pose proof (for_range_calls (map_to_list (mc_clusters (m_c s)))
    (λ kv, watch_source o quote kv.1 (ec_cluster kv.2) (ec_ctx kv.2) src) (λ _ _, True) s) as Hf.
  unfold on_nil. rewrite bind_eq. destruct (for_range _ _ s) as [err s1]. destruct Hf as [(_ & Hf & _ & Hx & _) _].
  - intros kv s2. pose proof (watch_source_spec o quote kv.1 (ec_cluster kv.2) (ec_ctx kv.2) src s2) as H.
    destruct (watch_source _ _ _ _ _ _ _). by destruct H.
  - done.
  - by destruct err.
Qed.

Lemma minv_step l s s' : minv s → mexec o quote l s = Some s' → minv s'.
Proof.
  intros HI Hs. destruct l as [p|n|ctx name cl|src|i]; simpl in Hs.
  - injection Hs as <-. by eapply minv_shrink.
  - injection Hs as <-. by eapply minv_shrink.
  - injection Hs as <-. by apply Engage_inv.
  - injection Hs as <-. pose proof (MultiClusterWatch_spec src s) as Hw.
    destruct (MultiClusterWatch o quote src s) as [err s1]. destruct Hw as (Hm & Hw & Hc & Hr). simpl.
    destruct err as [e|]; [eapply minv_shrink; [done..|]; intros n ec; by rewrite Hm|].
    destruct Hr as [Hsrc Hall]. intros n ec. rewrite Hm, Hsrc, Hw. intros Hec.
    destruct (HI _ _ Hec) as [H1 H2]. split; [|done].
    intros src' [Hin|Hin%list_elem_of_singleton]%elem_of_app; [|subst src'; by apply Hall].
    eapply watched_mono; [done|by apply H1].
  - destruct (m_waiters s !! i) as [[[ctx key] token]|] eqn:Hi; [|done]. simpl in Hs.
    destruct (done_ctx ctx (w_ctxs (m_w s))); [|done]. injection Hs as <-.
    unfold disengage. unfold mbind, M_bind, get. simpl.
    destruct (mc_clusters (m_c s) !! key) as [cur|] eqn:Hk;
      [destruct (bool_decide_reflect (ec_token cur = token)) as [Ht|Ht]|]; simpl; intros n ec; simpl.
    + intros [Hne Hec]%lookup_delete_Some. destruct (HI _ _ Hec) as [H1 H2]. split; [done|].
      destruct (elem_of_delete_or _ _ _ _ Hi H2) as [[= -> -> ->]|?]; done.
    + intros Hec. destruct (HI _ _ Hec) as [H1 H2]. split; [done|].
      destruct (elem_of_delete_or _ _ _ _ Hi H2) as [[= -> <- <-]|?]; [congruence|done].
    + intros Hec. destruct (HI _ _ Hec) as [H1 H2]. split; [done|].
      destruct (elem_of_delete_or _ _ _ _ Hi H2) as [[= -> <- <-]|?]; [congruence|done].
Qed.

(** C17 (invariant): whatever clusters come and go and whatever sources are added,
    every source of the controller has been started on every engaged cluster it
    wants, within the context of the cluster's current engagement; and every
    engagement has a goroutine that forgets it when that context is done. *)
Theorem every_source_watches_every_cluster s name ec :
  reachable (mexec o quote) minit s → mc_clusters (m_c s) !! name = Some ec →
  (∀ src, src ∈ mc_sources (m_c s) →
     ∃ n should, src name (ec_cluster ec) = Ok (n, should) ∧
       (should = true → CallWatch n (ec_cluster ec) (ec_ctx ec) ∈ w_calls (m_w s))) ∧
  ∃ i, m_waiters s !! i = Some (ec_ctx ec, name, ec_token ec) ∧
    (done_ctx (ec_ctx ec) (w_ctxs (m_w s)) = true →
     ∃ s', mexec o quote (MWake i) s = Some s' ∧ mc_clusters (m_c s') = delete name (mc_clusters (m_c s))).
Proof.
  intros Hr Hec.
  assert (minv s) as HI.
  { apply (invariant_reachable (mexec o quote) minit minv); [|intros; by eapply minv_step|done].
    intros s0 [Hc _] n e. by rewrite Hc. }
  destruct (HI _ _ Hec) as [Hw Hin]. split; [exact Hw|].
  apply list_elem_of_lookup in Hin as [i Hi]. exists i. split; [done|]. intros Hd.
  eexists. simpl. rewrite Hi. simpl. rewrite Hd. split; [done|].
  unfold disengage. unfold mbind, M_bind, get. simpl. rewrite Hec.
  by rewrite bool_decide_eq_true_2.
Qed.
End properties.

(** ** Examples *)

(** A source that wants every cluster, and the state of a new controller. *)
Definition pods : TypedSource := fun _ cl => Ok (100 + cl, true).
Definition ms0 : mstate := MState (MkController None ∅ []) empty_world 0 [].

(** A watch that fails on cluster 2. *)
Definition fails_on_2 : oracle := fun _ c =>
  match c with CallWatch _ 2 _ => Some (Errorf "boom") | _ => None end.

Definition partial_labels : list mlabel :=
  [MEngage Background "a" 1; MEngage Background "b" 2; MWatch pods].

(** Complement (error): a failing [MultiClusterWatch] can leave the source on some clusters:
    it returns the error and does not register the source, but the clusters
    iterated over before the failure keep watching it, and the clusters engaged
    later do not get it. *)
Theorem MultiClusterWatch_can_fail_halfway :
  ∃ s n ctx, reachable (mexec fails_on_2 id) minit s ∧
    (MultiClusterWatch fails_on_2 id pods
       (default ms0 (run (mexec fails_on_2 id) (take 2 partial_labels) ms0))).1 ≠ None ∧
    mc_sources (m_c s) = [] ∧
    (∃ ec, mc_clusters (m_c s) !! "a" = Some ec ∧ ec_ctx ec = ctx ∧ pods "a" (ec_cluster ec) = Ok (n, true) ∧
       done_ctx ctx (w_ctxs (m_w s)) = false ∧ CallWatch n (ec_cluster ec) ctx ∈ w_calls (m_w s)) ∧
    ∀ ctx', CallWatch (100 + 3) 3 ctx' ∉ w_calls (m_w (Engage fails_on_2 id Background "c" 3 s).2).
Proof.
  destruct (run (mexec fails_on_2 id) partial_labels ms0) as [s|] eqn:E; [|by vm_compute in E].
  exists s. do 2 eexists. split.
  { apply (run_reachable (mexec fails_on_2 id) minit partial_labels ms0); [by apply reach_init|exact E]. }
  split; [by vm_compute|].
  vm_compute in E. injection E as <-. split; [reflexivity|]. split.
  - eexists. split_ands; try reflexivity. apply list_elem_of_In. by vm_compute; auto.
  - intros ctx' Hin%list_elem_of_In. vm_compute in Hin. intuition congruence.
Qed.

Definition watch_labels : list mlabel := [MEngage Background "a" 1; MWatch pods].

Lemma every_source_watches_every_cluster_witness :
  let s := default ms0 (run (mexec all_ok id) watch_labels ms0) in
  let ec := MkEngaged 0 "a" 1 (Ctx [0] []) 0 in
  mc_clusters (m_c s) !! "a" = Some ec ∧ ∃ i, m_waiters s !! i = Some (ec_ctx ec, "a", 0).
Proof.
  intros s ec. split; [by vm_compute|].
  destruct (every_source_watches_every_cluster all_ok id s "a" ec) as (_ & i & Hi & _).
  - apply (run_reachable (mexec all_ok id) minit watch_labels ms0); [by apply reach_init|reflexivity].
  - reflexivity.
  - by exists i.
Defined.
