(* ===== verification/Source.v ===== *)
(** * pkg/source: watching a kind on every cluster

    A [kind] makes one [clusterKind] per cluster, which registers an event
    handler at the cluster's informer for as long as its context lives.
    Informers and caches are controller-runtime's: an informer is the list of
    its registered handlers, and the answers of a call to [Start] - whether the
    informer is found, takes the handler, lets the old one go, and syncs - are
    arguments. *)

From S2P Require Import Prelude GoErrors GoContext Multicluster Reconcile Handler.

Section kind.
Context {object request : Type}.

(** controller-runtime's typed predicates. *)
Record Predicate := MkPredicate {
  p_Create : CreateEvent object → bool;
  p_Update : UpdateEvent object → bool;
  p_Delete : DeleteEvent object → bool;
}.

(* src: pkg/source/kind.go:41-42 ClusterFilterFunc *)
Definition ClusterFilterFunc : Type := ClusterName → cluster → bool.

(** A handler function whose result may be nil.  A filter is a function value,
    which may be nil: no filter. *)
Definition HandlerFunc : Type := ClusterName → cluster → option (TypedEventHandler object request).

(* src: pkg/source/kind.go:68-75 kind *)
Record kind := MkKind {
  k_obj : object;
  k_handler : HandlerFunc;
  k_predicates : list Predicate;
  k_project : cluster → object → result error object;
  k_resync : Z;
  k_clusterFilter : option ClusterFilterFunc;
}.

(** A registration at an informer: its number, and the context its handler was
    built with. *)
Definition registration : Type := nat * context.

(* src: pkg/source/kind.go:77-88 clusterKind *)
Record clusterKind := MkClusterKind {
  ck_clusterName : ClusterName;
  ck_cl : cluster;
  ck_obj : object;
  ck_h : HandlerFunc;
  ck_preds : list Predicate;
  ck_resync : Z;
  ck_registration : option registration;
  ck_activeCtx : option context;
}.

(* src: pkg/source/kind.go:53-66 TypedKind *)
Definition TypedKind (obj : object) (handler : HandlerFunc) (predicates : list Predicate) : kind :=
  MkKind obj handler predicates (λ _ obj, Ok obj) 0 None.

(* src: pkg/source/kind.go:90-94 kind.WithProjection *)
Definition WithProjection (project : cluster → object → result error object) (k : kind) : kind :=
  MkKind (k_obj k) (k_handler k) (k_predicates k) project (k_resync k) (k_clusterFilter k).

(* src: pkg/source/kind.go:96-99 kind.WithClusterFilter *)
Definition WithClusterFilter (filter : option ClusterFilterFunc) (k : kind) : kind :=
  MkKind (k_obj k) (k_handler k) (k_predicates k) (k_project k) (k_resync k) filter.

(* src: pkg/source/kind.go:101-121 kind.ForCluster *)
Definition ForCluster (k : kind) (name : ClusterName) (cl : cluster) : result error (clusterKind * bool) :=
  match k_project k cl (k_obj k) with
  | Err err => Err err
  | Ok obj =>
      let shouldEngage := match k_clusterFilter k with Some f => f name cl | None => true end in
      Ok (MkClusterKind name cl obj (k_handler k) (k_predicates k) (k_resync k) None None, shouldEngage)
  end.

(* src: pkg/source/kind.go:123-129 kind.SyncingForCluster *)
Definition SyncingForCluster (k : kind) (name : ClusterName) (cl : cluster) : result error (clusterKind * bool) :=
  match ForCluster k name cl with
  | Err err => Err err
  | Ok (src, shouldEngage) => Ok (src, shouldEngage)
  end.

(* src: pkg/source/kind.go:131-137 clusterKind.WaitForSync *)
Definition WaitForSync (synced : bool) (ctx : context) (cs : ctx_store) : option error :=
  if negb synced then ctx_Err ctx cs else None.

(** ** Event handlers *)

(** What an informer hands to its handlers; the tombstone of a missed deletion
    wraps the last known state. *)
Inductive item : Type :=
| IObject (o : object)
| ITombstone (i : item)
| IOther.

(** [toolscache.ResourceEventHandlerFuncs], acting on the controller's queue;
    the store decides whether the handler's context is done. *)
Record handler_funcs (Q : Type) := MkFuncs {
  AddFunc : ctx_store → item → Q → Q;
  UpdateFunc : ctx_store → item → item → Q → Q;
  DeleteFunc : ctx_store → item → Q → Q;
}.

(* src: pkg/source/kind.go:237-260 clusterKind.buildEventHandler *)
Definition passCreate (preds : list Predicate) (e : CreateEvent object) : bool := forallb (λ p, p_Create p e) preds.
Definition passUpdate (preds : list Predicate) (e : UpdateEvent object) : bool := forallb (λ p, p_Update p e) preds.
Definition passDelete (preds : list Predicate) (e : DeleteEvent object) : bool := forallb (λ p, p_Delete p e) preds.

(* src: pkg/source/kind.go:235-322 clusterKind.buildEventHandler *)
Definition buildEventHandler {Q} (RQ : RateLimitingQueue Q request) (ck : clusterKind) (ctx : context) :
  result error (handler_funcs Q) :=
  match ck_h ck (ck_clusterName ck) (ck_cl ck) with
  | None => Err (Errorf ("handler built for cluster " +:+ ck_clusterName ck +:+ " is nil"))
  | Some handler => Ok (MkFuncs Q
      (fun cs i q =>
         if done_ctx ctx cs then q else
         match i with
         | IObject o =>
             let e := MkCreateEvent o in
             if passCreate (ck_preds ck) e then h_Create handler Q RQ ctx e q else q
         | _ => q
         end)
      (fun cs oo no q =>
         if done_ctx ctx cs then q else
         match oo, no with
         | IObject ooObj, IObject noObj =>
             let e := MkUpdateEvent ooObj noObj in
             if passUpdate (ck_preds ck) e then h_Update handler Q RQ ctx e q else q
         | _, _ => q
         end)
      (fun cs i q =>
         if done_ctx ctx cs then q else
         let i := match i with ITombstone ts => ts | _ => i end in
         match i with
         | IObject o =>
             let e := MkDeleteEvent o in
             if passDelete (ck_preds ck) e then h_Delete handler Q RQ ctx e q else q
         | _ => q
         end))
  end.

(** ** Start *)

(** The environment's answers to one call of [Start]. *)
Record start_env := MkStartEnv {
  se_getInformer : option error;
  se_addErr : option error;
  se_synced : bool;
}.

(** Where a call to [Start] is: after its check, it is about to get the informer
    and take an old handler away, to register the new one, to store the
    registration, and to wait for the cache. *)
Inductive phase : Type :=
| PRemove
| PRegister
| PStore (reg : registration)
| PSync.

Record sstate := SState {
  s_ck : clusterKind;
  s_inf : list registration;      (** the handlers registered at the informer *)
  s_next : nat;
  s_waiters : list context;       (** goroutines of [Start] *)
  s_ctxs : ctx_store;
  s_start : option (start_env * context * phase);    (** the [Start] in progress *)
}.

Definition set_reg (r : option registration) (c : option context) (s : sstate) : sstate :=
  let ck := s_ck s in
  SState (MkClusterKind (ck_clusterName ck) (ck_cl ck) (ck_obj ck) (ck_h ck) (ck_preds ck) (ck_resync ck) r c)
    (s_inf s) (s_next s) (s_waiters s) (s_ctxs s) (s_start s).

Definition set_inf (inf : list registration) (next : nat) (s : sstate) : sstate :=
  SState (s_ck s) inf next (s_waiters s) (s_ctxs s) (s_start s).

Definition set_waiters (ws : list context) (s : sstate) : sstate :=
  SState (s_ck s) (s_inf s) (s_next s) ws (s_ctxs s) (s_start s).

Definition set_start (st : option (start_env * context * phase)) (s : sstate) : sstate :=
  SState (s_ck s) (s_inf s) (s_next s) (s_waiters s) (s_ctxs s) st.

(** Whether the informer lets handlers go. *)
Context (remove_ok : bool).

(** [inf.RemoveEventHandler] of the current registration, and clearing it: the
    error is only logged. *)
(* src: pkg/source/kind.go:171-180 clusterKind.Start *)
Definition remove_registration (s : sstate) : sstate :=
  match ck_registration (s_ck s) with
  | Some r =>
      let inf := if remove_ok then filter (λ r', r'.1 ≠ r.1) (s_inf s) else s_inf s in
      set_reg None None (set_inf inf (s_next s) s)
  | None => s
  end.

(** Started with this context, which is still live. *)
(* src: pkg/source/kind.go:143-163 clusterKind.Start *)
Definition already_started (ctx : context) (s : sstate) : bool :=
  match ck_registration (s_ck s), ck_activeCtx (s_ck s) with
  | Some _, Some active => negb (done_ctx active (s_ctxs s)) && bool_decide (active = ctx)
  | _, _ => false
  end.

(** A section of [Start]: what it does under the lock, or the call to the informer
    or the cache between two of these, and whether another follows. *)
(* src: pkg/source/kind.go:165-231 clusterKind.Start *)
Definition start_section (env : start_env) (ctx : context) (p : phase) : M sstate (phase + option error) := fun s =>
  match p with
  | PRemove =>
      match se_getInformer env with
      | Some err => (inr (Some err), s)
      | None => (inl PRegister, remove_registration s)
      end
  | PRegister =>
      match ck_h (s_ck s) (ck_clusterName (s_ck s)) (ck_cl (s_ck s)) with
      | None => (inr (Some (Wrap "error building event handler" (Errorf "handler is nil"))), s)
      | Some _ =>
          match se_addErr env with
          | Some addErr => (inr (Some addErr), s)
          | None => let reg := (s_next s, ctx) in (inl (PStore reg), set_inf (s_inf s ++ [reg]) (S (s_next s)) s)
          end
      end
  | PStore reg => (inl PSync, set_reg (Some reg) (Some ctx) s)
  | PSync =>
      if negb (se_synced env) then let s := remove_registration s in (inr (ctx_Err ctx (s_ctxs s)), s)
      else (inr None, set_waiters (s_waiters s ++ [ctx]) s)
  end.

Definition and_then (m : M sstate (phase + option error)) (k : phase → M sstate (option error)) : M sstate (option error) :=
  r ← m; match r with inl p => k p | inr err => mret err end.

(** The call run through: its sections one after the other. *)
(* src: pkg/source/kind.go:139-233 clusterKind.Start *)
Definition Start (env : start_env) (ctx : context) : M sstate (option error) := fun s =>
  if already_started ctx s then (None, s) else
  and_then (start_section env ctx PRemove) (λ p,
  and_then (start_section env ctx p) (λ p,
  and_then (start_section env ctx p) (λ p,
  and_then (start_section env ctx p) (λ _, mret None)))) s.

(** The goroutine of [Start], once its context is done. *)
(* src: pkg/source/kind.go:215-230 clusterKind.Start *)
Definition on_done (ctx : context) (s : sstate) : sstate :=
  if bool_decide (ck_activeCtx (s_ck s) = Some ctx) then remove_registration s else s.

(** ** Interleaving

    controller-runtime starts a source that is not being started; the sections
    of that call interleave with cancellations and with the goroutines of
    earlier ones. *)

Inductive slabel : Type :=
| SNewCtx (parent : context)
| SCancel (n : cancel_func)
| SStart (env : start_env) (ctx : context)
| SSection
| SWake (i : nat).

Definition set_ctxs (cs : ctx_store) (s : sstate) : sstate :=
  SState (s_ck s) (s_inf s) (s_next s) (s_waiters s) cs (s_start s).

Definition sexec (l : slabel) (s : sstate) : option sstate :=
  match l with
  | SNewCtx parent => Some (set_ctxs (WithCancel parent (s_ctxs s)).2 s)
  | SCancel n => Some (set_ctxs (cancel n (s_ctxs s)) s)
  | SStart env ctx =>
      match s_start s with
      | Some _ => None
      | None => Some (if already_started ctx s then s else set_start (Some (env, ctx, PRemove)) s)
      end
  | SSection =>
      ecp ← s_start s;
      let '(env, ctx, p) := ecp in
      let '(r, s) := start_section env ctx p s in
      Some (set_start (match r with inl p => Some (env, ctx, p) | inr _ => None end) s)
  | SWake i =>
      ctx ← s_waiters s !! i;
      if done_ctx ctx (s_ctxs s)
      then Some (on_done ctx (set_waiters (delete i (s_waiters s)) s))
      else None
  end.

(** The source as [ForCluster] makes it, at an informer without its handlers. *)
Definition sinit (s : sstate) : Prop :=
  ck_registration (s_ck s) = None ∧ ck_activeCtx (s_ck s) = None ∧ s_inf s = [] ∧ s_start s = None.

End kind.

Arguments Predicate : clear implicits.
Arguments HandlerFunc : clear implicits.
Arguments kind : clear implicits.
Arguments clusterKind : clear implicits.
Arguments item : clear implicits.
Arguments sstate : clear implicits.

(** ** Properties *)
Section properties.
Context {object request : Type}.
Implicit Types (s : sstate object request).

(** Complement (functional): an event reaches the handler of the cluster, on the
    controller's queue, exactly when the source's context is live, the item is
    an object - for a deletion also the object of a tombstone - and every
    predicate accepts it; otherwise the queue is untouched. *)
Theorem events_pass_context_and_predicates {Q} (RQ : RateLimitingQueue Q request)
    (ck : clusterKind object request) handler ctx cs (o o' : object) (q : Q) :
  ck_h ck (ck_clusterName ck) (ck_cl ck) = Some handler →
  ∃ f, buildEventHandler RQ ck ctx = Ok f ∧
    let live := negb (done_ctx ctx cs) in
    let all (p : Predicate object → bool) := forallb p (ck_preds ck) in
    AddFunc Q f cs (IObject o) q =
      (if live && all (λ p, p_Create p (MkCreateEvent o)) then h_Create handler Q RQ ctx (MkCreateEvent o) q else q) ∧
    UpdateFunc Q f cs (IObject o) (IObject o') q =
      (if live && all (λ p, p_Update p (MkUpdateEvent o o')) then h_Update handler Q RQ ctx (MkUpdateEvent o o') q else q) ∧
    DeleteFunc Q f cs (IObject o) q =
      (if live && all (λ p, p_Delete p (MkDeleteEvent o)) then h_Delete handler Q RQ ctx (MkDeleteEvent o) q else q) ∧
    DeleteFunc Q f cs (ITombstone (IObject o)) q = DeleteFunc Q f cs (IObject o) q ∧
    (∀ i, (∀ o, i ≠ IObject o) → AddFunc Q f cs i q = q ∧ ∀ j, UpdateFunc Q f cs i j q = q ∧ UpdateFunc Q f cs j i q = q) ∧
    (∀ i, (∀ o, i ≠ IObject o ∧ i ≠ ITombstone (IObject o)) → DeleteFunc Q f cs i q = q).
Proof.
  intros Hh. unfold buildEventHandler. rewrite Hh. eexists. split; [done|]. simpl.
  unfold passCreate, passUpdate, passDelete.
  destruct (done_ctx ctx cs); simpl; split_ands; try done.
  - intros i Hi. destruct i as [o1|i|]; [by destruct (Hi o1)|..]; (split; [done|]); intros [| |]; done.
  - intros i Hi. destruct i as [o1|[o1| |]|]; try done; by destruct (Hi o1).
Qed.

(** The source's view of the informer: nothing is registered; or it has stored its
    registration, which is the one at the informer. *)
Definition none_registered s : Prop :=
  s_inf s = [] ∧ ck_registration (s_ck s) = None ∧ ck_activeCtx (s_ck s) = None.

Definition one_registered s (ctx : context) : Prop :=
  ∃ n, s_inf s = [(n, ctx)] ∧ ck_registration (s_ck s) = Some (n, ctx) ∧ ck_activeCtx (s_ck s) = Some ctx.

(** ... and between the two sections of [Start] that register and store, the
    handler is at the informer only. *)
Definition reg_inv s : Prop :=
  match s_start s with
  | None | Some (_, _, PRemove) => none_registered s ∨ ∃ ctx, one_registered s ctx ∧ ctx ∈ s_waiters s
  | Some (_, _, PRegister) => none_registered s
  | Some (_, ctx, PStore r) => s_inf s = [r] ∧ r.2 = ctx ∧ ck_registration (s_ck s) = None ∧ ck_activeCtx (s_ck s) = None
  | Some (_, ctx, PSync) => none_registered s ∨ one_registered s ctx
  end.

Lemma remove_registered s :
  none_registered s ∨ (∃ ctx, one_registered s ctx) →
  none_registered (remove_registration true s) ∧ s_waiters (remove_registration true s) = s_waiters s ∧
  s_start (remove_registration true s) = s_start s ∧ s_ctxs (remove_registration true s) = s_ctxs s.
Proof.
  unfold none_registered, remove_registration. intros [(H1 & H2 & H3)|(ctx & n & H1 & H2 & H3)]; rewrite H2; [done|]. simpl.
  split; [|done]. split; [|done]. rewrite H1, filter_cons, filter_nil. by rewrite decide_False by (by intros []).
Qed.

Lemma reg_inv_section s s' : reg_inv s → sexec true SSection s = Some s' → reg_inv s'.
Proof.
  unfold reg_inv at 1. simpl. destruct (s_start s) as [[[env ctx] p]|] eqn:Hst; [|done]. simpl.
  destruct p as [| |r|]; simpl; intros HI.
  - assert (none_registered s ∨ ∃ ctx, one_registered s ctx) as Hr by (destruct HI as [?|(c & ? & _)]; eauto).
    destruct (se_getInformer env); intros [= <-]; [exact HI|]. by apply remove_registered.
  - destruct HI as (H1 & H2 & H3).
    destruct (ck_h _ _ _); [|intros [= <-]; left; by split_ands]. destruct (se_addErr env); intros [= <-]; [left; by split_ands|].
    unfold reg_inv. simpl. by rewrite H1.
  - destruct HI as (H1 & <- & _). intros [= <-]. right. exists r.1. simpl. rewrite H1. by destruct r.
  - destruct (negb (se_synced env)); intros [= <-].
    + left. apply remove_registered. destruct HI; eauto.
    + destruct HI as [?|?]; [by left|right]. exists ctx. split; [done|]. simpl. set_solver.
Qed.

Lemma reg_inv_wake i s s' : reg_inv s → sexec true (SWake i) s = Some s' → reg_inv s'.
Proof.
  intros HI. simpl. destruct (s_waiters s !! i) as [ctx|] eqn:Hw; [|done]. simpl.
  destruct (done_ctx ctx (s_ctxs s)); [|done]. intros [= <-]. unfold on_done. simpl.
  set (s1 := set_waiters (delete i (s_waiters s)) s).
  assert (∀ c, c ≠ ctx → c ∈ s_waiters s → c ∈ s_waiters s1) as Hwait.
  { intros c Hne Hin. unfold s1. simpl. rewrite delete_take_drop. rewrite <-(take_drop_middle _ _ _ Hw) in Hin. set_solver. }
  unfold reg_inv in *. case_bool_decide as Ha.
  - assert (none_registered s ∨ (∃ c, one_registered s c)) as Hr.
    { destruct (s_start s) as [[[env c] [| |r|]]|]; try (destruct HI as [?|(? & ? & _)]; by eauto); [by left| |destruct HI; by eauto].
      destruct HI as (_ & _ & _ & Hn). congruence. }
    destruct (remove_registered s1 Hr) as (Hn & _ & Hst & _). rewrite Hst. unfold s1 at 1. simpl.
    destruct (s_start s) as [[[env c] [| |r|]]|]; try (by left); [done|]. destruct HI as (_ & _ & _ & Hx). congruence.
  - unfold s1 at 1. simpl. destruct (s_start s) as [[[env c] [| |r|]]|]; try exact HI.
    all: destruct HI as [?|(c' & Ho & Hin)]; [by left|right]; exists c'; split; [done|]; apply Hwait; [|done].
    all: intros ->; destruct Ho as (n & _ & _ & Hact); congruence.
Qed.

Lemma reg_inv_step l s s' : reg_inv s → sexec true l s = Some s' → reg_inv s'.
Proof.
  intros HI Hs. destruct l as [p|n|env ctx| |i]; [| | |by eapply reg_inv_section|by eapply reg_inv_wake]; simpl in Hs.
  - injection Hs as <-. exact HI.
  - injection Hs as <-. exact HI.
  - destruct (s_start s) eqn:Hst; [done|]. injection Hs as <-. destruct (already_started ctx s); [done|].
    unfold reg_inv in *. rewrite Hst in HI. exact HI.
Qed.

Lemma sinit_reg_inv s : sinit s → reg_inv s.
Proof. intros (H1 & H2 & H3 & H4). unfold reg_inv. rewrite H4. left. by split_ands. Qed.

(** At any time there is at most one handler. *)
Lemma reg_inv_one s r : reg_inv s → r ∈ s_inf s → s_inf s = [r].
Proof.
  intros HI Hin. assert (s_inf s = [] ∨ ∃ r', s_inf s = [r']) as [Hn|[r' Hn]].
  { unfold reg_inv, none_registered, one_registered in HI.
    destruct (s_start s) as [[[env c] [| |r'|]]|]; naive_solver. }
  - rewrite Hn in Hin. by apply elem_of_nil in Hin.
  - rewrite Hn in Hin |- *. by apply list_elem_of_singleton in Hin as ->.
Qed.

(** The sections, taken without interruption, are the call. *)
Lemma Start_is_its_sections b env ctx s :
  s_start s = None → already_started ctx s = false →
  ∃ n, run (sexec b) (SStart env ctx :: replicate n SSection) s = Some (Start b env ctx s).2.
Proof.
  intros Hst Ha.
  assert (∀ s, s_start s = None → set_start None s = s) as Hid by (intros [] H; simpl in H; by subst).
  assert (∀ s st, remove_registration b (set_start st s) = set_start st (remove_registration b s)) as Hrm.
  { intros s0 st. unfold remove_registration. simpl. by destruct (ck_registration (s_ck s0)). }
  assert (∀ s, s_start (remove_registration b s) = s_start s) as Hrs.
  { intros s0. unfold remove_registration. by destruct (ck_registration (s_ck s0)). }
  unfold Start, and_then. rewrite Ha. unfold mbind, M_bind, mret, M_ret.
  cbn [run]. simpl (sexec b (SStart env ctx) s). rewrite Hst, Ha. cbn [start_section].
  destruct (se_getInformer env) as [e|] eqn:Hg.
  { exists 1%nat. simpl. rewrite Hg. exact (f_equal Some (Hid s Hst)). }
  set (s1 := remove_registration b s). assert (s_start s1 = None) as Hs1 by (unfold s1; by rewrite Hrs).
  destruct (ck_h (s_ck s1) (ck_clusterName (s_ck s1)) (ck_cl (s_ck s1))) as [h|] eqn:Hh.
  2:{ exists 2%nat. cbn [replicate run]. simpl. rewrite Hg. simpl. rewrite Hrm. fold s1. simpl. rewrite Hh. exact (f_equal Some (Hid s1 Hs1)). }
  destruct (se_addErr env) as [e|] eqn:He.
  { exists 2%nat. cbn [replicate run]. simpl. rewrite Hg. simpl. rewrite Hrm. fold s1. simpl. rewrite Hh, He. exact (f_equal Some (Hid s1 Hs1)). }
  exists 4%nat. cbn [replicate run]. simpl. rewrite Hg. simpl. rewrite Hrm. fold s1. simpl. rewrite Hh, He. simpl.
  destruct (se_synced env); simpl; f_equal.
  - unfold set_start, set_waiters, set_reg, set_inf. simpl. by rewrite Hs1.
  - unfold set_start, set_reg, set_inf, remove_registration. simpl. by rewrite Hs1.
Qed.

(** Complement (invariant): at an informer that lets handlers go, a source has at most one
    handler registered at any time - however often it is started, with whatever
    contexts, whenever those end and between any two sections of a start - so
    no event is enqueued twice.  When no start is in progress, a handler that
    is registered is bound to the source's active context, and a goroutine waits
    to remove it: once that context is done it can run, and no handler is left.
    A [Start] that returns nil, its cache synced, leaves exactly its handler. *)
Theorem source_has_one_handler s :
  reachable (sexec true) sinit s →
  (∀ r r', r ∈ s_inf s → r' ∈ s_inf s → r = r' ∧ length (s_inf s) = 1%nat) ∧
  (s_start s = None →
   (s_inf s = [] ∨ ∃ n ctx i, s_inf s = [(n, ctx)] ∧ ck_activeCtx (s_ck s) = Some ctx ∧ s_waiters s !! i = Some ctx ∧
      (done_ctx ctx (s_ctxs s) = true → ∃ s', sexec true (SWake i) s = Some s' ∧ s_inf s' = [])) ∧
   ∀ env ctx, (Start true env ctx s).1 = None → se_synced env = true → ∃ n, s_inf (Start true env ctx s).2 = [(n, ctx)]).
Proof.
  intros Hr. assert (reg_inv s) as HI.
  { apply (invariant_reachable (sexec true) sinit reg_inv); [apply sinit_reg_inv|intros; by eapply reg_inv_step|done]. }
  split.
  { intros r r' H1 H2. pose proof (reg_inv_one s r HI H1) as Hi. rewrite Hi in H2 |- *. by apply list_elem_of_singleton in H2 as ->. }
  intros Hst. pose proof HI as Hreg. unfold reg_inv in Hreg. rewrite Hst in Hreg. split.
  - destruct Hreg as [(? & _)|(ctx & (n & H1 & H2 & H3) & [i Hi]%list_elem_of_lookup)]; [by left|right].
    exists n, ctx, i. split_ands; try done. intros Hd. eexists. simpl. rewrite Hi. simpl. rewrite Hd. split; [done|].
    unfold on_done. simpl. rewrite bool_decide_eq_true_2 by done. apply remove_registered. right. exists ctx, n. by split_ands.
  - intros env ctx. unfold Start. destruct (already_started ctx s) eqn:Ha.
    { intros _ _. unfold already_started in Ha. destruct Hreg as [(_ & H2 & _)|(c & (n & H1 & H2 & H3) & _)]; rewrite H2 in Ha; [done|].
      rewrite H3 in Ha. apply andb_prop in Ha as [_ <-%bool_decide_eq_true_1]. by exists n. }
    unfold and_then, mbind, M_bind, mret, M_ret. cbn [start_section]. destruct (se_getInformer env); [done|].
    destruct (remove_registered s) as ((H1 & _) & _); [destruct Hreg as [?|(c & ? & _)]; eauto|].
    set (s1 := remove_registration true s) in *. cbn [start_section]. destruct (ck_h _ _ _); [|done]. destruct (se_addErr env); [done|].
    cbn [start_section]. intros _ ->. simpl. exists (s_next s1). by rewrite H1.
Qed.

(** Complement (functional): a source is made for every cluster whose projection succeeds,
    filtered or not; the filter alone decides whether it is to be engaged, and
    the source carries the projected object, the handler and the predicates. *)
Theorem ForCluster_projects_and_filters (k : kind object request) name cl filter :
  match k_project k cl (k_obj k) with
  | Err e => ForCluster k name cl = Err e ∧ ForCluster (WithClusterFilter (Some filter) k) name cl = Err e
  | Ok obj => ∃ ck, ForCluster (WithClusterFilter (Some filter) k) name cl = Ok (ck, filter name cl) ∧
      SyncingForCluster (WithClusterFilter (Some filter) k) name cl = Ok (ck, filter name cl) ∧
      ck_obj ck = obj ∧ ck_h ck = k_handler k ∧ ck_preds ck = k_predicates k ∧ ck_registration ck = None ∧
      (k_clusterFilter k = None → ForCluster k name cl = Ok (ck, true))
  end.
Proof.
  unfold SyncingForCluster, ForCluster, WithClusterFilter. simpl.
  destruct (k_project k cl (k_obj k)) as [obj|e]; [|done].
  eexists. split_ands; try done. by intros ->.
Qed.
End properties.

(** ** Examples *)

Definition no_handler : TypedEventHandler nat nat := MkEventHandler _ _
  (λ _ _ _ _ q, q) (λ _ _ _ _ q, q) (λ _ _ _ _ q, q) (λ _ _ _ _ q, q).

Definition ck0 : clusterKind nat nat := MkClusterKind "zoo" 7 0 (λ _ _, Some no_handler) [] 0 None None.
Definition ss0 : sstate nat nat := SState ck0 [] 0 [] empty_store None.
Definition fine : start_env := MkStartEnv None None true.

(** Started, its context cancelled, started again with another one; the goroutine
    of the first runs before the second has stored its registration. *)
Definition restart_labels : list slabel :=
  [SNewCtx Background; SNewCtx Background; SStart fine (Ctx [0] [])] ++ replicate 4 SSection ++
  [SCancel 0; SStart fine (Ctx [1] []); SSection; SSection; SWake 0; SSection; SSection].

Definition restarted : sstate nat nat := default ss0 (run (sexec true) restart_labels ss0).

Lemma source_has_one_handler_witness :
  s_inf restarted = [(1, Ctx [1] [])] ∧ ∃ n, s_inf (Start true fine (Ctx [5] []) restarted).2 = [(n, Ctx [5] [])].
Proof.
  assert (run (sexec true) restart_labels ss0 = Some restarted) as Hrun by (vm_compute; reflexivity).
  assert ((Start true fine (Ctx [5] []) restarted).1 = None) as Hst by (vm_compute; reflexivity).
  assert (s_start restarted = None) as Hn by (vm_compute; reflexivity).
  split; [vm_compute; reflexivity|].
  exact (proj2 (proj2 (source_has_one_handler restarted (run_reachable (sexec true) sinit restart_labels ss0 restarted
    (reach_init _ _ ss0 (conj eq_refl (conj eq_refl (conj eq_refl eq_refl)))) Hrun)) Hn) fine (Ctx [5] []) Hst eq_refl).
Defined.

Lemma events_pass_context_and_predicates_witness :
  ck_h ck0 "zoo" 7 = Some no_handler ∧
  ∃ f, buildEventHandler (Q:=list nat) {| q_Add i q := q ++ [i]; q_Len := length; q_Get q := (0, true, q);
      q_Done _ q := q; q_ShutDown q := q; q_ShutDownWithDrain q := q; q_ShuttingDown _ := false;
      q_AddAfter i _ q := q ++ [i]; q_AddRateLimited i q := q ++ [i]; q_Forget _ q := q; q_NumRequeues _ _ := 0 |}
      ck0 Background = Ok f.
Proof.
  split; [done|].
  destruct (events_pass_context_and_predicates (Q:=list nat) {| q_Add i q := q ++ [i]; q_Len := length; q_Get q := (0, true, q);
      q_Done _ q := q; q_ShutDown q := q; q_ShutDownWithDrain q := q; q_ShuttingDown _ := false;
      q_AddAfter i _ q := q ++ [i]; q_AddRateLimited i q := q ++ [i]; q_Forget _ q := q; q_NumRequeues _ _ := 0 |}
      ck0 no_handler Background empty_store 0 0 [] eq_refl) as (f & Hf & _).
  by exists f.
Defined.
