(* ===== verification/MultiProvider.v ===== *)
(** * providers/multi: a provider of providers

    The multi provider gives every provider a name and prefixes the names of
    its clusters with it.  Adding, removing and indexing take the provider's
    lock; one goroutine, [Start], starts the providers, the ones present when
    it begins and the ones whose names arrive on a channel.  The sections are
    definitions; [mexec] interleaves them.  A provider is a value of the
    environment, with its [Get]; its answers to [IndexField] are an oracle. *)

From S2P Require Import Prelude GoErrors GoContext GoNum GoString Multicluster.

(** A [multicluster.Provider] value, and whether it is a [ProviderRunnable]. *)
Record prov := MkProv {
  p_id : nat;
  p_runnable : bool;
  p_Get : context → ClusterName → result error cluster;
}.

(* src: providers/multi/provider.go:39-57 Options *)
Record Options := MkOptions {
  Separator : string;
  ChannelSize : Z;
}.

(** A call of [IndexField] on a provider. *)
Definition icall : Type := nat * context * Index.

(** Where the goroutine of [Start] is: not begun, at the head of a loop with
    the names still to be started, or in [startProvider] before its lookup,
    its indexing, or its registration. *)
Inductive starter : Type :=
| PNone
| PLoop (ctx : context) (names : list string)
| PLookup (ctx : context) (names : list string) (name : string)
| PIndex (ctx : context) (names : list string) (name : string) (p : prov)
| PRegister (ctx : context) (names : list string) (name : string) (p : prov)
| PStopped.

(** The channel is nil until [Start] makes it.  [m_adder] is the call of
    [AddProvider] that sends on a full channel: it holds the lock. *)
(* src: providers/multi/provider.go:59-77 Provider *)
Record mprovider := MkMProvider {
  m_opts : Options;
  m_indexers : list Index;
  m_ch : option (list string);
  m_providers : gmap string prov;
  m_cancel : gmap string cancel_func;
  m_start : starter;
  m_adder : option string;
  m_runs : list (string * context * prov);   (** goroutines in [runnable.Start] *)
  m_ctxs : ctx_store;
  m_calls : list icall;
}.

Definition set_indexers x (s : mprovider) := MkMProvider (m_opts s) x (m_ch s) (m_providers s) (m_cancel s) (m_start s) (m_adder s) (m_runs s) (m_ctxs s) (m_calls s).
Definition set_ch x (s : mprovider) := MkMProvider (m_opts s) (m_indexers s) x (m_providers s) (m_cancel s) (m_start s) (m_adder s) (m_runs s) (m_ctxs s) (m_calls s).
Definition set_providers x (s : mprovider) := MkMProvider (m_opts s) (m_indexers s) (m_ch s) x (m_cancel s) (m_start s) (m_adder s) (m_runs s) (m_ctxs s) (m_calls s).
Definition set_cancels x (s : mprovider) := MkMProvider (m_opts s) (m_indexers s) (m_ch s) (m_providers s) x (m_start s) (m_adder s) (m_runs s) (m_ctxs s) (m_calls s).
Definition set_start x (s : mprovider) := MkMProvider (m_opts s) (m_indexers s) (m_ch s) (m_providers s) (m_cancel s) x (m_adder s) (m_runs s) (m_ctxs s) (m_calls s).
Definition set_adder x (s : mprovider) := MkMProvider (m_opts s) (m_indexers s) (m_ch s) (m_providers s) (m_cancel s) (m_start s) x (m_runs s) (m_ctxs s) (m_calls s).
Definition set_runs x (s : mprovider) := MkMProvider (m_opts s) (m_indexers s) (m_ch s) (m_providers s) (m_cancel s) (m_start s) (m_adder s) x (m_ctxs s) (m_calls s).
Definition set_ctxs x (s : mprovider) := MkMProvider (m_opts s) (m_indexers s) (m_ch s) (m_providers s) (m_cancel s) (m_start s) (m_adder s) (m_runs s) x (m_calls s).
Definition set_calls x (s : mprovider) := MkMProvider (m_opts s) (m_indexers s) (m_ch s) (m_providers s) (m_cancel s) (m_start s) (m_adder s) (m_runs s) (m_ctxs s) x.

(** The loggers are left out. *)
(* src: providers/multi/provider.go:79-102 New *)
Definition multi_New (opts : Options) : mprovider :=
  let sep := if bool_decide (Separator opts = "") then "#" else Separator opts in
  let size := if ChannelSize opts <=? 0 then 10 else ChannelSize opts in
  MkMProvider (MkOptions sep size) [] None ∅ ∅ PNone None [] empty_store [].

(** ** Names *)

(* src: providers/multi/provider.go:190-196 Provider.splitClusterName *)
Definition splitClusterName (p : mprovider) (clusterName : ClusterName) : string * ClusterName :=
  match SplitN2 (ClusterName_String clusterName) (Separator (m_opts p)) with
  | a :: b :: _ => (a, b)
  | _ => ("", clusterName)
  end.

(* src: providers/multi/wrapper_aware.go:29-32 wrappedAware *)
Record wrappedAware := MkWrappedAware {
  wa_Aware : Aware;
  wa_providerName : string;
  wa_sep : string;
}.

(* src: providers/multi/wrapper_aware.go:34-36 wrappedAware.Engage *)
Definition wrappedAware_Engage (w : wrappedAware) : Aware :=
  fun ctx name cl => wa_Aware w ctx (wa_providerName w +:+ wa_sep w +:+ ClusterName_String name) cl.

(** ** Operations *)

(* src: providers/multi/provider.go:198-204 Provider.ProviderNames *)
Definition ProviderNames (p : mprovider) : list string := sorted_keys (m_providers p).

(* src: providers/multi/provider.go:206-212 Provider.GetProvider *)
Definition multi_GetProvider (p : mprovider) (providerName : string) : option prov :=
  m_providers p !! providerName.

(* src: providers/multi/provider.go:262-278 Provider.Get *)
Definition multi_Get (p : mprovider) (ctx : context) (input : ClusterName) : result error cluster :=
  let '(providerName, clusterName) := splitClusterName p input in
  match m_providers p !! providerName with
  | None => Err (Wrap ("provider not found " +:+ providerName +:+ " (" +:+ input +:+ ")") ErrClusterNotFound)
  | Some provider => p_Get provider ctx clusterName
  end.

(** [Some err] is a return; [None] is a call that waits in the send, holding
    the lock. *)
(* src: providers/multi/provider.go:214-239 Provider.AddProvider *)
Definition AddProvider (providerName : string) (provider : prov) : M mprovider (option (option error)) := fun p =>
  match m_providers p !! providerName with
  | Some _ => (Some (Some (Errorf ("provider already exists for provider name " +:+ providerName))), p)
  | None =>
      let p := set_providers (<[providerName := provider]> (m_providers p)) p in
      match m_ch p with
      | None => (Some None, p)
      | Some q =>
          if Z.of_nat (length q) <? ChannelSize (m_opts p)
          then (Some None, set_ch (Some (q ++ [providerName])) p)
          else (None, set_adder (Some providerName) p)
      end
  end.

(* src: providers/multi/provider.go:241-260 Provider.RemoveProvider *)
Definition RemoveProvider (providerName : string) (p : mprovider) : mprovider :=
  let p := match m_cancel p !! providerName with
           | Some c => set_cancels (delete providerName (m_cancel p)) (set_ctxs (cancel c (m_ctxs p)) p)
           | None => p
           end in
  set_providers (delete providerName (m_providers p)) p.

Section multi.
(** What providers answer to [IndexField]. *)
Context (o : list icall → icall → option error).

(** [provider.IndexField(ctx, ...)]. *)
Definition ask_index (p : prov) (ctx : context) (i : Index) : M mprovider (option error) := fun s =>
  let c := (p_id p, ctx, i) in (o (m_calls s) c, set_calls (m_calls s ++ [c]) s).

(* src: providers/multi/provider.go:297-306 Provider.IndexField *)
Fixpoint index_providers (ctx : context) (i : Index) (l : list (string * prov)) (errs : option error) :
  M mprovider (option error) :=
  match l with
  | [] => mret errs
  | (providerName, provider) :: l =>
      err ← ask_index provider ctx i;
      index_providers ctx i l
        (match err with
         | Some err => join2 errs (Wrap ("failed to index field " +:+ Index_Field i +:+ " on provider " +:+ providerName) err)
         | None => errs
         end)
  end.

(* src: providers/multi/provider.go:280-307 Provider.IndexField *)
Definition multi_IndexField (ctx : context) (i : Index) : M mprovider (option error) :=
  _ ← modify (λ p, set_indexers (m_indexers p ++ [i]) p);
  p ← get;
  match m_ch p with
  | None => mret None
  | Some _ => index_providers ctx i (map_to_list (m_providers p)) None
  end.

(** *** Starting a provider *)

(** An error is only logged. *)
(* src: providers/multi/provider.go:147-153 Provider.startProvider *)
Definition start_index (ctx : context) (provider : prov) : M mprovider unit :=
  p ← get;
  for_each (m_indexers p) (λ i, _ ← ask_index provider ctx i; mret tt).

(** The goroutine it starts runs [runnable.Start] with the wrapped aware. *)
(* src: providers/multi/provider.go:161-188 Provider.startProvider *)
Definition start_register (ctx : context) (providerName : string) (provider : prov) (p : mprovider) : mprovider :=
  let '(ctx, c, cs) := WithCancel ctx (m_ctxs p) in
  let p := set_ctxs cs p in
  match m_cancel p !! providerName with
  | Some _ => set_ctxs (cancel c (m_ctxs p)) p
  | None => set_runs (m_runs p ++ [(providerName, ctx, provider)])
              (set_cancels (<[providerName := c]> (m_cancel p)) p)
  end.

(** The goroutine of [startProvider]: [defer p.RemoveProvider(providerName)]. *)
(* src: providers/multi/provider.go:182-187 Provider.startProvider *)
Definition run_done (j : nat) (p : mprovider) : option mprovider :=
  r ← m_runs p !! j;
  Some (RemoveProvider r.1.1 (set_runs (delete j (m_runs p)) p)).

(** The lock and the channel are made once; [order] is the order in which the
    map yields its keys. *)
(* src: providers/multi/provider.go:104-120 Provider.start *)
Definition start_begin (ctx : context) (order : list string) (p : mprovider) : option mprovider :=
  match m_start p with
  | PNone =>
      if bool_decide (order ≡ₚ (map_to_list (m_providers p)).*1)
      then Some (set_start (PLoop ctx order) (set_ch (Some []) p)) else None
  | _ => None
  end.

(** The next step of the goroutine: the remaining names, then the select. *)
(* src: providers/multi/provider.go:122-159 Provider.start *)
Definition start_step (stop : bool) : mprovider → option mprovider := fun p =>
  let free := bool_decide (m_adder p = None) in
  match m_start p with
  | PNone | PStopped => None
  | PLoop ctx (name :: names) => Some (set_start (PLookup ctx names name) p)
  | PLoop ctx [] =>
      if stop then (if done_ctx ctx (m_ctxs p) then Some (set_start PStopped p) else None)
      else match m_ch p with
           | Some (name :: q) => Some (set_start (PLookup ctx [] name) (set_ch (Some q) p))
           | _ => None
           end
  | PLookup ctx names name =>
      if free then
        Some (set_start (match m_providers p !! name with
                         | Some provider => PIndex ctx names name provider
                         | None => PLoop ctx names
                         end) p)
      else None
  | PIndex ctx names name provider =>
      if free then
        let p := (start_index ctx provider p).2 in
        Some (set_start (if p_runnable provider then PRegister ctx names name provider else PLoop ctx names) p)
      else None
  | PRegister ctx names name provider =>
      if free then Some (set_start (PLoop ctx names) (start_register ctx name provider p)) else None
  end.

(** *** Interleaving *)

Inductive mlabel : Type :=
| MAdd (name : string) (p : prov)
| MSend                                  (** the waiting [AddProvider] goes on *)
| MRemove (name : string)
| MIndexField (ctx : context) (i : Index)
| MStart (ctx : context) (order : list string)
| MStep (stop : bool)
| MRunDone (j : nat)
| MNewCtx (parent : context)
| MCancel (c : cancel_func).

Definition mexec (l : mlabel) (p : mprovider) : option mprovider :=
  let free := bool_decide (m_adder p = None) in
  match l with
  | MAdd name provider => if free then Some (AddProvider name provider p).2 else None
  | MSend =>
      match m_adder p, m_ch p with
      | Some name, Some q =>
          if Z.of_nat (length q) <? ChannelSize (m_opts p)
          then Some (set_adder None (set_ch (Some (q ++ [name])) p)) else None
      | _, _ => None
      end
  | MRemove name => if free then Some (RemoveProvider name p) else None
  | MIndexField ctx i => if free then Some (multi_IndexField ctx i p).2 else None
  | MStart ctx order => if free then start_begin ctx order p else None
  | MStep stop => start_step stop p
  | MRunDone j => if free then run_done j p else None
  | MNewCtx parent => Some (set_ctxs (WithCancel parent (m_ctxs p)).2 p)
  | MCancel c => Some (set_ctxs (cancel c (m_ctxs p)) p)
  end.

Definition minit (p : mprovider) : Prop := ∃ opts, p = multi_New opts.

End multi.

(** ** Providers that need a controller *)

(** [SetupWithManager] of a [ManagerSetupProvider], which engages clusters
    through the manager it is given. *)
Definition setup : Type := context → Aware → M world (option error).

(* src: providers/multi/runnable.go:34-40 wrappedManager *)
Record wrappedManager := MkWrappedManager { wm_aware : Aware }.

(* src: providers/multi/runnable.go:42-44 wrappedManager.Engage *)
Definition wrappedManager_Engage (m : wrappedManager) : Aware :=
  fun ctx name cl => wm_aware m ctx name cl.

(** How a [Start] ends: it returns, or waits for its context and then returns. *)
Inductive started : Type :=
| Returned (err : option error)
| WaitsFor (ctx : context) (err : option error).

(** A provider that is set up with a manager, as a provider of the multi
    provider; the setup is all that [Start] uses of it. *)
(* src: providers/multi/runnable.go:48-51 runnableProvider *)
Record runnableProvider := MkRunnableProvider {
  rp_SetupWithManager : setup;
}.

(* src: providers/multi/runnable.go:53-59 AsRunnable *)
Definition AsRunnable (SetupWithManager : setup) : runnableProvider := MkRunnableProvider SetupWithManager.

(* src: providers/multi/runnable.go:61-68 runnableProvider.Start *)
Definition runnable_Start (r : runnableProvider) (ctx : context) (aware : Aware) : M world started :=
  err ← rp_SetupWithManager r ctx (wrappedManager_Engage (MkWrappedManager aware));
  match err with
  | Some err => mret (Returned (Some err))
  | None => mret (WaitsFor ctx None)
  end.

(** ** Lemmas *)
Section lemmas.
Context (o : list icall → icall → option error).

Lemma for_each_index ctx p l s :
  (for_each l (λ i, _ ← ask_index o p ctx i; mret tt) s).2 =
    set_calls (m_calls s ++ map (λ i, (p_id p, ctx, i)) l) s.
Proof.
  revert s. induction l as [|i l IH]; intros s; cbn [for_each map].
  - rewrite app_nil_r. by destruct s.
  - unfold mbind, M_bind at 1. simpl. rewrite IH. simpl. by rewrite <-app_assoc.
Qed.

Lemma start_index_eq ctx p s :
  (start_index o ctx p s).2 = set_calls (m_calls s ++ map (λ i, (p_id p, ctx, i)) (m_indexers s)) s.
Proof. unfold start_index. run_m. apply for_each_index. Qed.

Lemma index_providers_spec ctx i l errs s :
  let '(err, s') := index_providers o ctx i l errs s in
  s' = set_calls (m_calls s ++ map (λ np, (p_id np.2, ctx, i)) l) s ∧
  (errs ≠ None → err ≠ None) ∧
  (err = None → ∀ np, np ∈ l → ∃ calls, o calls (p_id np.2, ctx, i) = None).
Proof.
  revert errs s. induction l as [|[n p] l IH]; intros errs s; cbn [index_providers map].
  { cbn. split_ands; [rewrite app_nil_r; by destruct s|done|]. by intros _ np ?%elem_of_nil. }
  unfold mbind, M_bind. simpl.
  set (e := o _ _). specialize (IH (match e with Some err => join2 errs (Wrap ("failed to index field " +:+ Index_Field i +:+ " on provider " +:+ n) err) | None => errs end)
    (set_calls (m_calls s ++ [(p_id p, ctx, i)]) s)).
  destruct (index_providers _ _ _ _ _ _) as [err s']. destruct IH as (-> & He & Hok).
  split_ands.
  - simpl. by rewrite <-app_assoc.
  - intros Herrs. apply He. destruct e; [done|done].
  - intros Hn np [->|Hnp]%elem_of_cons; [|by apply Hok].
    exists (m_calls s). simpl. fold e. destruct e; [|done]. exfalso. by apply He.
Qed.

Lemma multi_IndexField_eq ctx i s :
  (multi_IndexField o ctx i s).2 =
    match m_ch s with
    | None => set_indexers (m_indexers s ++ [i]) s
    | Some _ => set_calls (m_calls s ++ map (λ np, (p_id np.2, ctx, i)) (map_to_list (m_providers s)))
                  (set_indexers (m_indexers s ++ [i]) s)
    end.
Proof.
  unfold multi_IndexField. run_m. destruct (m_ch s) as [q|] eqn:Hq; [|done].
  pose proof (index_providers_spec ctx i (map_to_list (m_providers s)) None (set_indexers (m_indexers s ++ [i]) s)) as H.
  destruct (index_providers _ _ _ _ _ _) as [err s']. by destruct H as (-> & _).
Qed.

(** *** Every index reaches every provider *)

(** Names still to be looked up. *)
Definition later s : list string :=
  match m_start s with
  | PLoop _ ns | PIndex _ ns _ _ | PRegister _ ns _ _ => ns
  | PLookup _ ns n => n :: ns
  | _ => []
  end ++ default [] (m_ch s) ++ option_list (m_adder s).

(** The provider has yet to be handed the indexes registered so far. *)
Definition awaits s (n : string) (p : prov) : Prop :=
  n ∈ later s ∨ ∃ ctx ns, m_start s = PIndex ctx ns n p.

Definition indexed s (p : prov) : Prop :=
  ∀ i, i ∈ m_indexers s → ∃ ctx, (p_id p, ctx, i) ∈ m_calls s.

Definition index_inv s : Prop :=
  m_ch s ≠ None → ∀ n p, m_providers s !! n = Some p → awaits s n p ∨ indexed s p.

(** Later names stay, and calls are not forgotten. *)
Lemma index_inv_mono s s' :
  index_inv s → m_ch s ≠ None →
  (∀ n p, m_providers s' !! n = Some p → m_providers s !! n = Some p) →
  (∀ n p, m_providers s' !! n = Some p → awaits s n p → awaits s' n p ∨ indexed s' p) → m_indexers s' = m_indexers s →
  (∀ c, c ∈ m_calls s → c ∈ m_calls s') → index_inv s'.
Proof.
  intros HI Hch Hp Ha Hi Hc _ n p Hn.
  destruct (HI Hch n p (Hp _ _ Hn)) as [?|Hx]; [by apply Ha|right].
  intros i Hin. rewrite Hi in Hin. destruct (Hx i Hin) as [ctx ?]. exists ctx. auto.
Qed.

Lemma RemoveProvider_eq n s :
  RemoveProvider n s = set_providers (delete n (m_providers s))
    (set_cancels (delete n (m_cancel s))
      (set_ctxs (match m_cancel s !! n with Some c => cancel c (m_ctxs s) | None => m_ctxs s end) s)).
Proof.
  unfold RemoveProvider. destruct (m_cancel s !! n) eqn:E; [done|].
  rewrite (delete_id (m_cancel s)) by done. by destruct s.
Qed.

Lemma index_inv_Remove n s : index_inv s → index_inv (RemoveProvider n s).
Proof.
  intros HI. rewrite RemoveProvider_eq. intros Hch. simpl in Hch.
  eapply index_inv_mono; [done|done| | |done|done|done].
  - simpl. intros n' p'. rewrite lookup_delete_Some. tauto.
  - intros n' p' _ ?. by left.
Qed.

Lemma index_inv_start stop s s' : index_inv s → start_step o stop s = Some s' → index_inv s'.
Proof.
  intros HI Hs. intros Hch.
  assert (m_ch s ≠ None) as Hch0.
  { intros Hnone. unfold start_step in Hs. rewrite Hnone in Hs.
    destruct (m_start s) as [|ctx [|nm ns]|ctx ns nm|ctx ns nm pv|ctx ns nm pv|]; try done.
    - destruct stop; [destruct (done_ctx _ _)|]; by simplify_eq/=.
    - by simplify_eq/=.
    - case_bool_decide; [|done]. by simplify_eq/=.
    - case_bool_decide; [|done]. rewrite start_index_eq in Hs. by simplify_eq/=.
    - case_bool_decide; [|done]. unfold start_register in Hs. simpl in Hs.
      destruct (m_cancel s !! nm); by simplify_eq/=. }
  revert Hch. fold (index_inv s'). unfold start_step in Hs.
  destruct (m_start s) as [|ctx [|nm ns]|ctx ns nm|ctx ns nm pv|ctx ns nm pv|] eqn:Hst; try done.
  - destruct stop.
    + destruct (done_ctx ctx (m_ctxs s)); [|done]. injection Hs as <-.
      apply (index_inv_mono s); try done. unfold awaits, later. simpl. rewrite Hst. intros n p _ [?|(?&?&?)]; [by left; left|done].
    + destruct (m_ch s) as [[|nm q]|] eqn:Hq; try done. injection Hs as <-.
      apply (index_inv_mono s); try done; [congruence|]. unfold awaits, later. simpl. rewrite Hst, Hq.
      intros n p _ [?|(?&?&?)]; [by left; left|done].
  - injection Hs as <-. apply (index_inv_mono s); try done. unfold awaits, later. simpl. rewrite Hst.
    intros n p _ [?|(?&?&?)]; [by left; left|done].
  - case_bool_decide; [|done]. injection Hs as <-.
    apply (index_inv_mono s); try done. unfold awaits, later. simpl. rewrite Hst.
    intros n p Hn [Hin|(?&?&?)]; [|done]. apply elem_of_app in Hin as [[->|Hin]%elem_of_cons|Hin].
    + rewrite Hn. left. right. eauto.
    + left. left. destruct (m_providers s !! nm); set_solver.
    + left. left. destruct (m_providers s !! nm); set_solver.
  - case_bool_decide; [|done]. rewrite start_index_eq in Hs. injection Hs as <-.
    apply (index_inv_mono s); try done; [|simpl; set_solver].
    unfold awaits, later. simpl. rewrite Hst. intros n p _ [Hin|(?&?&[= -> -> -> ->])].
    + left. left. by destruct (p_runnable pv).
    + right. intros i Hi. simpl in Hi. eexists. simpl. apply elem_of_app. right.
      apply list_elem_of_fmap. eauto.
  - case_bool_decide; [|done]. unfold start_register in Hs. simpl in Hs.
    assert (∀ n p, awaits s n p → n ∈ ns ++ default [] (m_ch s) ++ option_list (m_adder s)) as Ha.
    { unfold awaits, later. rewrite Hst. intros n p [?|(?&?&?)]; done. }
    destruct (m_cancel s !! nm); injection Hs as <-; (apply (index_inv_mono s); try done);
      intros n p _ ?%Ha; left; left; done.
Qed.

Lemma index_inv_step l s s' : index_inv s → mexec o l s = Some s' → index_inv s'.
Proof.
  intros HI Hs. destruct l; cbn [mexec] in Hs.
  - case_bool_decide as Hf; [|done]. injection Hs as <-. unfold AddProvider.
    destruct (m_providers s !! name) eqn:Hn; [done|]. cbn [m_ch set_providers m_opts snd].
    destruct (m_ch s) as [q|] eqn:Hq; [|intros Hch; simpl in Hch; congruence].
    destruct (Z.of_nat (length q) <? ChannelSize (m_opts s)); intros _ n p' Hp; unfold awaits, later; simpl in Hp |- *;
      (apply lookup_insert_Some in Hp as [[<- <-]|[Hne Hp]];
       [left; left; rewrite !elem_of_app, ?list_elem_of_singleton; tauto|]);
      (destruct (HI ltac:(congruence) n p' Hp) as [[Hin|?]|?]; [left; left|left; by right|by right]);
      unfold later in Hin; rewrite Hq, Hf in Hin; simpl in Hin;
      rewrite !elem_of_app, ?elem_of_nil in Hin; rewrite ?Hq, !elem_of_app; simpl; tauto.
  - destruct (m_adder s) as [nm|] eqn:Ha; [|done]. destruct (m_ch s) as [q|] eqn:Hq; [|done].
    destruct (_ <? _); [|done]. injection Hs as <-. apply (index_inv_mono s); try done; [congruence|].
    unfold awaits, later. simpl. rewrite Ha, Hq. simpl. intros n p _ [?|?]; [left; left; set_solver|left; by right].
  - case_bool_decide; [|done]. injection Hs as <-. by apply index_inv_Remove.
  - case_bool_decide; [|done]. injection Hs as <-. rewrite multi_IndexField_eq.
    destruct (m_ch s) as [q|] eqn:Hq; [|intros Hch; simpl in Hch; congruence].
    intros _ n p Hp. simpl in Hp. destruct (HI ltac:(congruence) n p Hp) as [?|Hx]; [by left|right].
    intros j Hj. simpl in *. apply elem_of_app in Hj as [Hj|Hj%list_elem_of_singleton].
    + destruct (Hx j Hj) as [c ?]. exists c. set_solver.
    + subst j. exists ctx. apply elem_of_app. right. apply list_elem_of_fmap. exists (n, p).
      split; [done|]. by apply elem_of_map_to_list.
  - case_bool_decide as Hf; [|done]. unfold start_begin in Hs. destruct (m_start s); try done.
    case_bool_decide as Ho; [|done]. injection Hs as <-. intros _ n p Hp. simpl in Hp. left. left.
    unfold later. simpl. apply elem_of_app. left. rewrite Ho. apply list_elem_of_fmap. exists (n, p).
    split; [done|]. by apply elem_of_map_to_list.
  - by eapply index_inv_start.
  - case_bool_decide; [|done]. unfold run_done in Hs. destruct (m_runs s !! j) as [r|]; [|done].
    injection Hs as <-. apply index_inv_Remove. exact HI.
  - by injection Hs as <-.
  - by injection Hs as <-.
Qed.

(** *** Every provider is started once *)

Definition pc_names s : list string :=
  match m_start s with
  | PLoop _ ns => ns
  | PLookup _ ns n | PIndex _ ns n _ | PRegister _ ns n _ => n :: ns
  | _ => []
  end.

(** Names on their way to [startProvider]. *)
Definition pending s : list string := pc_names s ++ default [] (m_ch s) ++ option_list (m_adder s).

Definition run_names s : list string := (m_runs s).*1.*1.

(** No provider is removed and none returns. *)
Definition keeps (l : mlabel) : bool :=
  match l with MRemove _ | MRunDone _ => false | _ => true end.

Definition kept_exec (l : mlabel) (s : mprovider) : option mprovider := if keeps l then mexec o l s else None.

(** The goroutine of [Start] holds the provider registered under the name. *)
Definition pc_provider s : Prop :=
  match m_start s with
  | PIndex _ _ n p => m_providers s !! n = Some p
  | PRegister _ _ n p => m_providers s !! n = Some p ∧ p_runnable p = true
  | _ => True
  end.

Record once_inv s : Prop := {
  oi_nil : m_ch s = None → pending s = [] ∧ m_runs s = [] ∧ m_start s = PNone;
  oi_started : m_ch s ≠ None → m_start s ≠ PNone;
  oi_nodup : NoDup (pending s ++ run_names s);
  oi_known : ∀ n, n ∈ pending s → is_Some (m_providers s !! n);
  oi_runs : ∀ n ctx p, (n, ctx, p) ∈ m_runs s → m_providers s !! n = Some p ∧ p_runnable p = true;
  oi_cancel : ∀ n, is_Some (m_cancel s !! n) → n ∈ run_names s;
  oi_pc : pc_provider s;
  oi_all : m_ch s ≠ None → ∀ n p, m_providers s !! n = Some p →
    n ∈ pending s ∨ (∃ ctx, (n, ctx, p) ∈ m_runs s) ∨ p_runnable p = false;
}.

(** A step that leaves providers and runs alone and permutes what is pending,
    perhaps dropping names of providers that need no start. *)
Lemma once_inv_shuffle s s' dropped :
  once_inv s → m_ch s ≠ None → m_ch s' ≠ None → m_start s' ≠ PNone → pc_provider s' →
  m_providers s' = m_providers s → m_runs s' = m_runs s → m_cancel s' = m_cancel s →
  pending s ≡ₚ dropped ++ pending s' →
  (∀ n, n ∈ dropped → ∃ p, m_providers s !! n = Some p ∧ p_runnable p = false) →
  once_inv s'.
Proof.
  intros HI Hch Hch' Hst Hpc Hp Hr Hc Hperm Hd. destruct HI as [H1 H2 H3 H4 H5 H6 H7 H8].
  split; try done.
  - unfold run_names. rewrite Hr. rewrite Hperm, <-app_assoc in H3. by apply NoDup_app in H3 as (_ & _ & ?).
  - intros n Hn. rewrite Hp. apply H4. rewrite Hperm. set_solver.
  - intros n ctx p. rewrite Hr, Hp. apply H5.
  - intros n. unfold run_names. rewrite Hc, Hr. apply H6.
  - intros _ n p Hn. rewrite Hp in Hn. rewrite Hr.
    destruct (H8 Hch n p Hn) as [Hin|?]; [|by right]. rewrite Hperm in Hin.
    apply elem_of_app in Hin as [Hin|?]; [|by left]. destruct (Hd n Hin) as (p' & ? & ?). simplify_eq. by right; right.
Qed.

Lemma once_inv_move s s' :
  once_inv s → m_ch s ≠ None → m_ch s' ≠ None → m_start s' ≠ PNone → pc_provider s' →
  m_providers s' = m_providers s → m_runs s' = m_runs s → m_cancel s' = m_cancel s →
  pending s ≡ₚ pending s' → once_inv s'.
Proof. intros. apply (once_inv_shuffle s _ []); try done. by intros n ?%elem_of_nil. Qed.

Lemma once_inv_start stop s s' : once_inv s → start_step o stop s = Some s' → once_inv s'.
Proof.
  intros HI Hs.
  assert (m_start s ≠ PNone) as Hn0 by (intros H; unfold start_step in Hs; by rewrite H in Hs).
  assert (m_ch s ≠ None) as Hch by (intros H; by destruct (oi_nil s HI H) as (_ & _ & ?)).
  pose proof (oi_pc s HI) as Hpc. unfold pc_provider in Hpc. unfold start_step in Hs.
  destruct (m_start s) as [|ctx [|nm ns]|ctx ns nm|ctx ns nm pv|ctx ns nm pv|] eqn:Hst; try done.
  - destruct stop.
    + destruct (done_ctx ctx (m_ctxs s)); [|done]. injection Hs as <-.
      apply (once_inv_move s); try done. unfold pending, pc_names. simpl. by rewrite Hst.
    + destruct (m_ch s) as [[|nm q]|] eqn:Hq; try done. injection Hs as <-.
      apply (once_inv_move s); try done; [congruence|]. unfold pending, pc_names. simpl. by rewrite Hst, Hq.
  - injection Hs as <-. apply (once_inv_move s); try done. unfold pending, pc_names. simpl. by rewrite Hst.
  - case_bool_decide; [|done]. injection Hs as <-.
    destruct (oi_known s HI nm) as [pv Hpv]; [unfold pending, pc_names; rewrite Hst; set_solver|].
    rewrite Hpv. apply (once_inv_move s); try done. unfold pending, pc_names. simpl. by rewrite Hst.
  - case_bool_decide; [|done]. rewrite start_index_eq in Hs. injection Hs as <-.
    destruct (p_runnable pv) eqn:Hr.
    + apply (once_inv_move s); try done. unfold pending, pc_names. simpl. by rewrite Hst.
    + apply (once_inv_shuffle s _ [nm]); try done.
      * unfold pending, pc_names. simpl. by rewrite Hst.
      * intros n ->%list_elem_of_singleton. eauto.
  - case_bool_decide; [|done]. unfold start_register in Hs. simpl in Hs. destruct Hpc as [Hp Hr].
    assert (NoDup (nm :: (ns ++ default [] (m_ch s) ++ option_list (m_adder s)) ++ run_names s)) as Hnd.
    { pose proof (oi_nodup s HI) as H'. unfold pending, pc_names in H'. by rewrite Hst in H'. }
    pose proof (NoDup_cons_1_1 _ _ Hnd) as Hnin.
    destruct (m_cancel s !! nm) eqn:Hc.
    { exfalso. apply Hnin. apply elem_of_app. right. by apply (oi_cancel s HI). }
    injection Hs as <-. split; simpl; try done.
    + unfold pending, pc_names, run_names. simpl. rewrite !fmap_app. simpl.
      rewrite app_assoc, (Permutation_app_comm _ [nm]). exact Hnd.
    + intros n Hn. apply (oi_known s HI). unfold pending, pc_names in *. rewrite Hst. simpl in *. set_solver.
    + intros n c p [Hin|Hin]%elem_of_app; [by eapply (oi_runs s HI)|].
      apply list_elem_of_singleton in Hin as [= -> -> ->]. done.
    + intros n [->|[_ Hn]]%lookup_insert_is_Some; unfold run_names; simpl; rewrite !fmap_app; [set_solver|].
      apply elem_of_app. left. by apply (oi_cancel s HI).
    + intros _ n p Hn. destruct (oi_all s HI Hch n p Hn) as [Hin|[[c Hin]|?]]; [|right; left; exists c; set_solver|by right; right].
      unfold pending, pc_names in *. rewrite Hst in Hin. simpl in *. apply elem_of_cons in Hin as [->|Hin]; [|by left].
      simplify_eq. right. left. eexists. apply elem_of_app. right. by apply list_elem_of_singleton.
Qed.

(** A registered provider: pending once the provider runs, not before. *)
Lemma once_inv_added s s' name p :
  once_inv s → m_providers s !! name = None →
  m_providers s' = <[name:=p]> (m_providers s) → m_runs s' = m_runs s → m_cancel s' = m_cancel s → m_start s' = m_start s →
  (m_ch s = None ∧ m_ch s' = None ∧ pending s' = pending s ∨
   m_ch s ≠ None ∧ m_ch s' ≠ None ∧ pending s' ≡ₚ name :: pending s) →
  once_inv s'.
Proof.
  intros HI Hn E1 E2 E3 E4 Hpend.
  assert (name ∉ pending s) as Hnp by (intros Hin; destruct (oi_known s HI _ Hin); congruence).
  assert (name ∉ run_names s) as Hnr.
  { intros Hin. unfold run_names in Hin. rewrite <-list_fmap_compose in Hin.
    apply list_elem_of_fmap in Hin as ([[n c] q] & -> & Hin). destruct (oi_runs s HI n c q Hin). simpl in *; congruence. }
  destruct HI as [H1 H2 H3 H4 H5 H6 H7 H8]. split.
  - rewrite E2, E4. destruct Hpend as [(? & ? & ->)|(? & ? & _)]; [auto|done].
  - rewrite E4. destruct Hpend as [(? & ? & _)|(? & ? & _)]; auto.
  - unfold run_names. rewrite E2. destruct Hpend as [(_ & _ & ->)|(_ & _ & ->)]; [done|].
    simpl. constructor; [|done]. rewrite elem_of_app. tauto.
  - intros n Hin. rewrite E1, lookup_insert_is_Some. destruct (decide (name = n)); [by left|right].
    split; [done|]. apply H4. destruct Hpend as [(_ & _ & Hp)|(_ & _ & Hp)]; rewrite Hp in Hin; [done|set_solver].
  - intros n c p'. rewrite E1, E2. intros Hin. destruct (H5 n c p' Hin). rewrite lookup_insert_ne; [done|congruence].
  - unfold run_names. rewrite E2, E3. exact H6.
  - unfold pc_provider in *. rewrite E1, E4. destruct (m_start s); try done; rewrite lookup_insert_ne; try done; intros <-; destruct_and?; congruence.
  - intros Hch n p' Hn'. rewrite E1 in Hn'. rewrite E2. destruct Hpend as [(_ & ? & _)|(Hch0 & _ & ->)]; [done|].
    apply lookup_insert_Some in Hn' as [[<- <-]|[_ Hn']]; [left; set_solver|].
    destruct (H8 Hch0 n p' Hn') as [?|?]; [left; set_solver|by right].
Qed.

Lemma once_inv_AddProvider name p s : once_inv s → m_adder s = None → once_inv (AddProvider name p s).2.
Proof.
  intros HI Hf. unfold AddProvider. destruct (m_providers s !! name) eqn:Hn; [done|]. cbn [m_ch set_providers m_opts snd].
  destruct (m_ch s) as [q|] eqn:Hq; [destruct (_ <? _)|]; apply (once_inv_added s _ name p HI Hn); try done;
    unfold pending, pc_names; rewrite Hf, Hq; simpl; rewrite ?Hf, ?Hq; simpl; [right|right|by left];
    (split; [done|]; split; [done|]); rewrite ?app_nil_r, !app_assoc; apply Permutation_app_comm.
Qed.

Lemma once_inv_begin ctx order s s' : once_inv s → m_adder s = None → start_begin ctx order s = Some s' → once_inv s'.
Proof.
  intros HI Hf Hs. unfold start_begin in Hs. destruct (m_start s) eqn:Hst; try done.
  case_bool_decide as Ho; [|done]. injection Hs as <-.
  assert (m_ch s = None) as Hch.
  { destruct (m_ch s) eqn:Hq; [|done]. exfalso. by apply (oi_started s HI); [congruence|]. }
  destruct (oi_nil s HI Hch) as (_ & Hr & _).
  assert (∀ n, n ∈ order ↔ is_Some (m_providers s !! n)) as Hin.
  { intros n. rewrite Ho. setoid_rewrite list_elem_of_fmap. split.
    - intros ([n' p] & -> & Hin). exists p. by apply elem_of_map_to_list.
    - intros [p Hp]. exists (n, p). split; [done|]. by apply elem_of_map_to_list. }
  split; simpl; try done; unfold pending, run_names, pc_names; simpl; rewrite ?Hr, ?Hf; simpl; rewrite ?app_nil_r.
  - rewrite Ho. apply NoDup_fst_map_to_list.
  - intros n. by rewrite Hin.
  - intros n c p Hx. rewrite ?Hr in Hx. by apply elem_of_nil in Hx.
  - intros n Hn. pose proof (oi_cancel s HI n Hn) as Hx. unfold run_names in Hx. by rewrite Hr in Hx.
  - intros _ n p Hp. left. apply Hin. by exists p.
Qed.

Lemma once_inv_step l s s' : once_inv s → kept_exec l s = Some s' → once_inv s'.
Proof.
  unfold kept_exec. intros HI Hs. destruct l; cbn [keeps mexec] in Hs; try done.
  - case_bool_decide as Hf; [|done]. injection Hs as <-. by apply once_inv_AddProvider.
  - destruct (m_adder s) as [nm|] eqn:Ha; [|done]. destruct (m_ch s) as [q|] eqn:Hq; [|done].
    destruct (_ <? _); [|done]. injection Hs as <-.
    apply (once_inv_move s); try done; [congruence|apply (oi_started s HI); congruence|apply (oi_pc s HI)|].
    unfold pending, pc_names. simpl. rewrite Ha, Hq. simpl. by rewrite app_nil_r.
  - case_bool_decide; [|done]. injection Hs as <-. rewrite multi_IndexField_eq.
    destruct HI as [H1 H2 H3 H4 H5 H6 H7 H8].
    destruct (m_ch s) as [q|] eqn:Hq; (split; simpl; rewrite ?Hq; try done).
  - case_bool_decide as Hf; [|done]. by eapply once_inv_begin.
  - by eapply once_inv_start.
  - injection Hs as <-. destruct HI; by split.
  - injection Hs as <-. destruct HI; by split.
Qed.

Lemma once_inv_reachable s : reachable kept_exec minit s → once_inv s.
Proof.
  apply invariant_reachable; [|intros; by eapply once_inv_step].
  intros s0 [opts ->]. split; try done.
  - constructor.
  - by intros n ?%elem_of_nil.
  - intros n c p Hin. by apply elem_of_nil in Hin.
  - intros n [c Hc]. simpl in Hc. by rewrite lookup_empty in Hc.
Qed.

End lemmas.

(** ** Properties *)
Section properties.
Context (o : list icall → icall → option error).

(** C34 (roundtrip): the name under which a provider's cluster is engaged resolves
    to that cluster: for a registered provider whose name cannot be confused
    with the separator, [Get] of the name built by the wrapped aware asks this
    provider for the cluster's own name - whatever the cluster's name contains -
    and a name without separator belongs to the provider with the empty name. *)
Theorem engaged_name_resolves (s : mprovider) providerName name p ctx cl (a : Aware) w :
  no_early_sep (Separator (m_opts s)) providerName (Separator (m_opts s) +:+ name) = true →
  m_providers s !! providerName = Some p →
  ∃ full, wrappedAware_Engage (MkWrappedAware a providerName (Separator (m_opts s))) ctx name cl w = a ctx full cl w ∧
    multi_Get s ctx full = p_Get p ctx name ∧
    ∀ n, cut (Separator (m_opts s)) n = None → splitClusterName s n = ("", n).
Proof.
  intros Hsep Hp. exists (providerName +:+ Separator (m_opts s) +:+ name). split; [done|].
  assert (∀ n, SplitN2 n (Separator (m_opts s)) = match cut (Separator (m_opts s)) n with Some (a, b) => [a; b] | None => [n] end) as Hsp by done.
  split.
  - unfold multi_Get, splitClusterName, ClusterName_String. rewrite Hsp, cut_append by done. by rewrite Hp.
  - intros n Hn. unfold splitClusterName, ClusterName_String. by rewrite Hsp, Hn.
Qed.

(** C32 (invariant): no index is lost: however adding, removing, indexing and
    starting interleave, once the multi provider runs, every registered
    provider either has still to be looked up and indexed by [Start], or has
    been handed every index registered so far. *)
Theorem every_index_reaches_every_provider (s : mprovider) n p :
  reachable (mexec o) minit s → m_ch s ≠ None → m_providers s !! n = Some p →
  n ∈ pc_names s ++ default [] (m_ch s) ++ option_list (m_adder s) ∨
  ∀ i, i ∈ m_indexers s → ∃ ctx, (p_id p, ctx, i) ∈ m_calls s.
Proof.
  intros Hr Hch Hn.
  assert (index_inv s) as HI.
  { apply (invariant_reachable (mexec o) minit index_inv); [|intros; by eapply index_inv_step|done].
    by intros s0 [opts ->]. }
  destruct (HI Hch n p Hn) as [[Hin|(?&?&Hst)]|?]; [left|left|by right].
  - unfold later, pc_names in *. destruct (m_start s); set_solver.
  - unfold pc_names. rewrite Hst. set_solver.
Qed.

(** C33 (invariant): as long as none is removed or returns, every provider is
    started exactly once, however [AddProvider] and [Start] interleave: a
    registered provider is on its way to be started, or its goroutine runs, or
    it is not runnable; no name is pending twice or both pending and running,
    and only registered runnable providers run.  While something is pending
    and no call of [AddProvider] is stuck, the goroutine of [Start] can go on,
    unless it has stopped. *)
Theorem providers_are_started_once (s : mprovider) :
  reachable (kept_exec o) minit s → m_ch s ≠ None →
  (∀ n p, m_providers s !! n = Some p →
    n ∈ pending s ∨ (∃ ctx, (n, ctx, p) ∈ m_runs s) ∨ p_runnable p = false) ∧
  NoDup (pending s ++ run_names s) ∧
  (∀ n ctx p, (n, ctx, p) ∈ m_runs s → m_providers s !! n = Some p ∧ p_runnable p = true) ∧
  (pending s ≠ [] → m_adder s = None → m_start s ≠ PStopped → ∃ s', mexec o (MStep false) s = Some s').
Proof.
  intros Hr%once_inv_reachable Hch. pose proof Hr as [H1 H2 H3 H4 H5 H6 H7 H8].
  split; [auto|]. split; [done|]. split; [done|]. intros Hp Ha Hst. simpl. unfold start_step.
  specialize (H2 Hch). unfold pending, pc_names in Hp. rewrite Ha in Hp. rewrite bool_decide_eq_true_2 by done.
  destruct (m_start s) as [|ctx [|nm ns]|ctx ns nm|ctx ns nm pv|ctx ns nm pv|]; try done; try by eexists.
  destruct (m_ch s) as [[|? ?]|]; try done. by eexists.
Qed.

(** Complement (functional): indexing: before [Start] the index is only remembered; after
    it every provider is called, whatever the others answer, and the result is
    nil only when all of them accepted the index. *)
Theorem multi_IndexField_reports (s : mprovider) ctx i :
  let '(err, s') := multi_IndexField o ctx i s in
  m_indexers s' = m_indexers s ++ [i] ∧ m_providers s' = m_providers s ∧
  match m_ch s with
  | None => err = None ∧ m_calls s' = m_calls s
  | Some _ =>
      (∀ n p, m_providers s !! n = Some p → (p_id p, ctx, i) ∈ m_calls s') ∧
      (err = None → ∀ n p, m_providers s !! n = Some p → ∃ calls, o calls (p_id p, ctx, i) = None)
  end.
Proof.
  pose proof (multi_IndexField_eq o ctx i s) as Heq. unfold multi_IndexField in *. run_m.
  destruct (m_ch s) eqn:Hch; [|done].
  pose proof (index_providers_spec o ctx i (map_to_list (m_providers s)) None (set_indexers (m_indexers s ++ [i]) s)) as H.
  destruct (index_providers _ _ _ _ _ _) as [err s']. simpl in Heq. subst s'. destruct H as (_ & _ & Hok).
  simpl. split_ands; try done.
  - intros n p Hp. apply elem_of_app. right. apply list_elem_of_fmap. exists (n, p). split; [done|]. by apply elem_of_map_to_list.
  - intros He n p Hp. apply (Hok He (n, p)). by apply elem_of_map_to_list.
Qed.

(** Complement (error): names: adding a name twice is an error that changes nothing; an
    unknown provider is reported as a cluster not found; removing a provider
    cancels exactly the context it was started with, and forgets it. *)
Theorem multi_registry (s : mprovider) n p ctx input :
  (is_Some (m_providers s !! n) → ∃ e, AddProvider n p s = (Some (Some e), s)) ∧
  (m_providers s !! n = None → multi_GetProvider (AddProvider n p s).2 n = Some p) ∧
  (n ∈ ProviderNames s ↔ is_Some (multi_GetProvider s n)) ∧
  (multi_GetProvider s (splitClusterName s input).1 = None →
     ∃ e, multi_Get s ctx input = Err e ∧ Is_ErrClusterNotFound e = true) ∧
  multi_GetProvider (RemoveProvider n s) n = None ∧
  (∀ n', n' ≠ n → multi_GetProvider (RemoveProvider n s) n' = multi_GetProvider s n') ∧
  (∀ c k, done_ctx c (m_ctxs (RemoveProvider n s)) = true → done_ctx c (m_ctxs s) = false →
     m_cancel s !! n = Some k → k ∈ ctx_nodes c).
Proof.
  unfold multi_GetProvider. split_ands.
  - intros [p' Hp]. unfold AddProvider. rewrite Hp. by eexists.
  - intros Hp. unfold AddProvider. rewrite Hp. simpl. destruct (m_ch s); [destruct (_ <? _)|]; simpl; apply lookup_insert_eq.
  - apply elem_of_sorted_keys.
  - unfold multi_Get. destruct (splitClusterName s input). simpl. intros ->. by eexists.
  - rewrite RemoveProvider_eq. simpl. apply lookup_delete_eq.
  - intros n' Hn. rewrite RemoveProvider_eq. simpl. by rewrite lookup_delete_ne.
  - intros c k Hd Hl Hk. rewrite RemoveProvider_eq in Hd. simpl in Hd. rewrite Hk in Hd.
    destruct (decide (k ∈ ctx_nodes c)) as [?|Hn]; [done|]. rewrite cancel_other in Hd by done. congruence.
Qed.

(** Complement (functional): a provider that needs a controller is set up with a manager
    that engages its clusters with the multi provider's aware; when the setup
    fails [Start] returns the error, otherwise it lasts as long as its context. *)
Theorem runnable_Start_sets_up (a : Aware) ctx name cl w (after : option error) :
  runnable_Start (AsRunnable (λ ctx aw, err ← aw ctx name cl; mret (match err with Some e => Some e | None => after end))) ctx a w =
    (match (a ctx name cl w).1, after with
     | Some e, _ | None, Some e => Returned (Some e)
     | None, None => WaitsFor ctx None
     end, (a ctx name cl w).2).
Proof.
  unfold runnable_Start, wrappedManager_Engage. run_m.
  destruct (a ctx name cl w) as [[e|] w1]; [done|]. by destruct after.
Qed.

(** A call of [AddProvider] that waits on the full channel, while [Start] waits
    for the lock. *)
Definition stuck (name : string) (s : mprovider) : Prop :=
  m_adder s = Some name ∧ (∃ q, m_ch s = Some q ∧ ChannelSize (m_opts s) ≤ Z.of_nat (length q)) ∧
  match m_start s with PLookup _ _ _ | PIndex _ _ _ _ | PRegister _ _ _ _ | PStopped => True | _ => False end.

Lemma stuck_step name l s s' : stuck name s → mexec o l s = Some s' → stuck name s'.
Proof.
  intros (Ha & (q & Hq & Hlen) & Hst) Hs.
  destruct l; cbn [mexec] in Hs; rewrite ?Ha in Hs; try done.
  - rewrite Hq in Hs. destruct (Z.ltb_spec (Z.of_nat (length q)) (ChannelSize (m_opts s))); [lia|done].
  - unfold start_step in Hs. rewrite Ha in Hs. by destruct (m_start s).
  - injection Hs as <-. unfold stuck. simpl. eauto.
  - injection Hs as <-. unfold stuck. simpl. eauto.
Qed.

Lemma stuck_forever name ls s s' : stuck name s → run (mexec o) ls s = Some s' → stuck name s'.
Proof.
  revert s. induction ls as [|l ls IH]; intros s Hs Hr; simpl in Hr; [by simplify_eq|].
  destruct (mexec o l s) as [s1|] eqn:Hl; [|done]. apply (IH s1); [by eapply stuck_step|done].
Qed.

End properties.

(** ** Examples *)

Definition idx_ok : list icall → icall → option error := λ _ _, None.

Definition a_prov (id : nat) : prov := MkProv id true (λ _ n, Err (Wrap n ErrClusterNotFound)).

(** Start with nothing to do; one provider is taken from the channel; eleven
    more are added before [Start] gets the lock. *)
Definition deadlock_labels : list mlabel :=
  [MNewCtx Background; MStart (Ctx [0%nat] []) []; MAdd "p" (a_prov 0); MStep false] ++
  map (λ c, MAdd (String (Ascii.ascii_of_nat (97 + c)) "") (a_prov (S c))) (seq 0 11).

(** Complement (liveness): with the default options, adding twelve providers can stop the
    multi provider for good: the last [AddProvider] sends on the full channel
    while it holds the lock that [Start] needs before it receives again.  From
    then on the call never returns, and no other operation gets the lock, not
    even after the context of [Start] is cancelled. *)
Theorem AddProvider_can_deadlock :
  ∃ s, run (mexec idx_ok) deadlock_labels (multi_New (MkOptions "" 0)) = Some s ∧
    (∀ ls s', run (mexec idx_ok) ls s = Some s' →
      m_adder s' = Some "k" ∧
      (∀ n p, mexec idx_ok (MAdd n p) s' = None) ∧ (∀ n, mexec idx_ok (MRemove n) s' = None) ∧
      (∀ ctx i, mexec idx_ok (MIndexField ctx i) s' = None) ∧ (∀ stop, mexec idx_ok (MStep stop) s' = None)).
Proof.
  eexists. split; [by vm_compute|]. intros ls s' Hr.
  assert (stuck "k" s') as (Ha & _ & Hst).
  { eapply stuck_forever; [|exact Hr]. split; [done|]. split; [|done]. eexists. split; [reflexivity|]. by vm_compute. }
  split; [done|]. split_ands; intros; cbn [mexec]; rewrite ?Ha; try done.
  unfold start_step. rewrite Ha. by destruct (m_start s').
Qed.

(** Provider 1 runs as "a", is removed and replaced by provider 2, which is
    started; only then does provider 1's goroutine finish. *)
Definition replace_labels : list mlabel :=
  [MNewCtx Background; MAdd "a" (a_prov 1); MStart (Ctx [0%nat] []) ["a"]; MStep false; MStep false; MStep false;
   MStep false; MRemove "a"; MAdd "a" (a_prov 2); MStep false; MStep false; MStep false; MStep false; MRunDone 0].

(** Removed while [Start] is about to start it, and added again. *)
Definition readd_labels : list mlabel :=
  [MNewCtx Background; MAdd "a" (a_prov 1); MStart (Ctx [0%nat] []) ["a"]; MStep false; MStep false; MStep false;
   MRemove "a"; MAdd "a" (a_prov 2); MStep false; MStep false; MStep false; MStep false; MStep false].

(** Complement (safety): removing a provider is not ordered with its goroutine.  A provider
    that replaces a removed one is removed and cancelled by its predecessor's
    goroutine when that finishes; and a provider removed while it is being
    started runs all the same, unregistered, and keeps the one added after it
    under its name from ever being started. *)
Theorem removal_is_not_ordered_with_the_goroutine :
  (∃ s ctx, run (mexec idx_ok) replace_labels (multi_New (MkOptions "" 0)) = Some s ∧
     multi_GetProvider s "a" = None ∧ m_runs s = [("a", ctx, a_prov 2)] ∧ done_ctx ctx (m_ctxs s) = true) ∧
  (∃ s ctx, run (mexec idx_ok) readd_labels (multi_New (MkOptions "" 0)) = Some s ∧
     multi_GetProvider s "a" = Some (a_prov 2) ∧ pending s = [] ∧
     m_runs s = [("a", ctx, a_prov 1)] ∧ done_ctx ctx (m_ctxs s) = false).
Proof. split; eexists; eexists; (split; [by vm_compute|]); by vm_compute. Qed.

(** Complement (error): a provider name is not checked against the separator: a provider
    whose name contains it is registered, but a cluster it knows is not found
    under the name it was engaged with. *)
Theorem provider_name_with_separator_is_unreachable :
  let s := (AddProvider "a#b" (MkProv 1 true (λ _ _, Ok 7%nat)) (multi_New (MkOptions "" 0))).2 in
  multi_GetProvider s "a#b" ≠ None ∧
  ∃ e, multi_Get s Background ("a#b" +:+ Separator (m_opts s) +:+ "zoo") = Err e ∧ Is_ErrClusterNotFound e = true.
Proof. vm_compute. split; [done|]. by eexists. Qed.

Definition added : mprovider :=
  default (multi_New (MkOptions "" 0))
    (run (kept_exec idx_ok) [MNewCtx Background; MStart (Ctx [0%nat] []) []; MAdd "a" (a_prov 1)] (multi_New (MkOptions "" 0))).

Lemma engaged_name_resolves_witness :
  ∃ full, wrappedAware_Engage (MkWrappedAware (ext_aware all_ok 0) "a" "#") Background "b#zoo" 3%nat empty_world =
            ext_aware all_ok 0 Background full 3%nat empty_world ∧
          multi_Get added Background full = p_Get (a_prov 1) Background "b#zoo".
Proof.
  destruct (engaged_name_resolves added "a" "b#zoo" (a_prov 1) Background 3%nat (ext_aware all_ok 0) empty_world)
    as (full & H1 & H2 & _); [by vm_compute..|]. by exists full.
Defined.

Lemma every_index_reaches_every_provider_witness :
  let s := default added (run (mexec idx_ok) [MStep false; MStep false; MIndexField Background (MkIndex "Pod" "f" 0);
                                               MStep false] added) in
  m_ch s ≠ None ∧ multi_GetProvider s "a" = Some (a_prov 1) ∧
  ("a" ∈ pc_names s ++ default [] (m_ch s) ++ option_list (m_adder s) ∨
   ∀ i, i ∈ m_indexers s → ∃ ctx, (1%nat, ctx, i) ∈ m_calls s).
Proof.
  intros s. split; [by vm_compute|]. split; [by vm_compute|].
  apply (every_index_reaches_every_provider idx_ok s "a" (a_prov 1)); [|by vm_compute|by vm_compute].
  apply (run_reachable (mexec idx_ok) minit
    [MNewCtx Background; MStart (Ctx [0%nat] []) []; MAdd "a" (a_prov 1); MStep false; MStep false;
     MIndexField Background (MkIndex "Pod" "f" 0); MStep false] (multi_New (MkOptions "" 0)));
    [apply reach_init; by eexists|vm_compute; reflexivity].
Defined.

Lemma providers_are_started_once_witness :
  m_ch added ≠ None ∧ multi_GetProvider added "a" = Some (a_prov 1) ∧
  NoDup (pending added ++ run_names added) ∧ ∃ s', mexec idx_ok (MStep false) added = Some s'.
Proof.
  split; [by vm_compute|]. split; [by vm_compute|].
  destruct (providers_are_started_once idx_ok added) as (_ & Hnd & _ & Hgo); [|by vm_compute|].
  - apply (run_reachable (kept_exec idx_ok) minit [MNewCtx Background; MStart (Ctx [0%nat] []) []; MAdd "a" (a_prov 1)]
      (multi_New (MkOptions "" 0))); [apply reach_init; by eexists|vm_compute; reflexivity].
  - split; [done|]. apply Hgo; by vm_compute.
Defined.
