(* ===== verification/ClustersProvider.v ===== *)
(** * providers/clusters: a provider fed by hand

    The provider embeds [Clusters]; [Add] leaves a cluster in the waiting list,
    or, once [Start] has made it, in the input channel, and the goroutine of
    [Start] hands both to [AddOrReplace].  [cpexec] interleaves the sections of
    [Add] and [Start]; a call of [AddOrReplace] is one step here (its own
    interleavings are those of [Clusters]). *)

From S2P Require Import Prelude GoErrors GoContext Multicluster Clusters.

(* src: providers/clusters/provider.go:57-60 item *)
Definition item : Type := ClusterName * cluster.

(** A variable in the code; nothing in the repository changes it. *)
(* src: providers/clusters/provider.go:36-38 InputChannelSize *)
Definition InputChannelSize : nat := 10.

(** Where the goroutine of [Start] is: not begun, with waiting clusters left to
    add, about to clear the waiting list, in its loop, or returned. *)
Inductive pstart : Type :=
| SNone
| SWaiting (ctx : context) (aware : nat) (l : list item)
| SClear (ctx : context) (aware : nat)
| SLoop (ctx : context) (aware : nat)
| SDone.

(** [cp_adder] is the call of [Add] that sends on the full channel, holding the
    lock.  [cp_added] and [cp_handled] record the calls of [Add] and of
    [AddOrReplace]: the code does not keep them. *)
(* src: providers/clusters/provider.go:40-55 Provider *)
Record cprovider := MkCProvider {
  cp_Clusters : kstate;
  cp_waiting : gmap ClusterName cluster;
  cp_input : option (list item);
  cp_start : pstart;
  cp_adder : option item;
  cp_added : list item;
  cp_handled : list item;
}.

(* src: providers/clusters/provider.go:62-70 New *)
Definition cp_New (GetConfig : cluster → nat) : cprovider :=
  MkCProvider (KState (Clusters.New GetConfig) empty_world []) ∅ None SNone None [] [].

Definition cp_set_start x (p : cprovider) := MkCProvider (cp_Clusters p) (cp_waiting p) (cp_input p) x (cp_adder p) (cp_added p) (cp_handled p).
Definition cp_set_input x (p : cprovider) := MkCProvider (cp_Clusters p) (cp_waiting p) x (cp_start p) (cp_adder p) (cp_added p) (cp_handled p).
Definition cp_set_waiting x (p : cprovider) := MkCProvider (cp_Clusters p) x (cp_input p) (cp_start p) (cp_adder p) (cp_added p) (cp_handled p).
Definition cp_set_adder x (p : cprovider) := MkCProvider (cp_Clusters p) (cp_waiting p) (cp_input p) (cp_start p) x (cp_added p) (cp_handled p).
Definition cp_set_added x (p : cprovider) := MkCProvider (cp_Clusters p) (cp_waiting p) (cp_input p) (cp_start p) (cp_adder p) x (cp_handled p).
Definition cp_set_clusters x (p : cprovider) := MkCProvider x (cp_waiting p) (cp_input p) (cp_start p) (cp_adder p) (cp_added p) (cp_handled p).

(* src: providers/clusters/provider.go:72-80 Provider.startOnce *)
Definition startOnce : M cprovider (option error) := fun p =>
  match cp_input p with
  | Some _ => (Some (Errorf "provider already started"), p)
  | None => (None, cp_set_input (Some []) p)
  end.

(** [Some err] is a return; [None] is a call that waits in the send. *)
(* src: providers/clusters/provider.go:113-130 Provider.Add *)
Definition cp_Add (it : item) : M cprovider (option (option error)) := fun p =>
  let p := cp_set_added (cp_added p ++ [it]) p in
  match cp_input p with
  | Some q =>
      if (length q <? InputChannelSize)%nat then (Some None, cp_set_input (Some (q ++ [it])) p)
      else (None, cp_set_adder (Some it) p)
  | None => (Some None, cp_set_waiting (<[it.1 := it.2]> (cp_waiting p)) p)
  end.

Section provider.
Context (o : oracle).

(** The call of [AddOrReplace] in [Start]: an error is only logged. *)
(* src: providers/clusters/provider.go:104-108 Provider.Start *)
Definition handle (ctx : context) (aware : nat) (it : item) (p : cprovider) : cprovider :=
  MkCProvider (AddOrReplace o ctx it.1 it.2 (Some aware) (cp_Clusters p)).2
    (cp_waiting p) (cp_input p) (cp_start p) (cp_adder p) (cp_added p) (cp_handled p ++ [it]).

(** [order] is the order in which the waiting map is iterated. *)
(* src: providers/clusters/provider.go:82-89 Provider.Start *)
Definition cp_begin (ctx : context) (aware : nat) (order : list item) (p : cprovider) : option cprovider :=
  match startOnce p with
  | (Some _, p) => Some p
  | (None, p) =>
      if bool_decide (order ≡ₚ map_to_list (cp_waiting p))
      then Some (cp_set_start (SWaiting ctx aware order) p) else None
  end.

(** One step of the goroutine of [Start]. *)
(* src: providers/clusters/provider.go:89-111 Provider.Start *)
Definition cp_step (stop : bool) (p : cprovider) : option cprovider :=
  match cp_start p with
  | SNone | SDone => None
  | SWaiting ctx aware (it :: l) => Some (cp_set_start (SWaiting ctx aware l) (handle ctx aware it p))
  | SWaiting ctx aware [] => Some (cp_set_start (SClear ctx aware) p)
  | SClear ctx aware =>
      if bool_decide (cp_adder p = None)
      then Some (cp_set_start (SLoop ctx aware) (cp_set_waiting ∅ p)) else None
  | SLoop ctx aware =>
      if stop then
        if done_ctx ctx (w_ctxs (k_w (cp_Clusters p))) then Some (cp_set_start SDone p) else None
      else match cp_input p with
           | Some (it :: q) => Some (handle ctx aware it (cp_set_input (Some q) p))
           | _ => None
           end
  end.

Inductive cplabel : Type :=
| CPAdd (it : item)
| CPSend                              (** the waiting [Add] goes on *)
| CPStart (ctx : context) (aware : nat) (order : list item)
| CPStep (stop : bool)
| CPClusters (l : klabel).            (** the embedded [Clusters] on its own *)

Definition cpexec (l : cplabel) (p : cprovider) : option cprovider :=
  let free := bool_decide (cp_adder p = None) in
  match l with
  | CPAdd it => if free then Some (cp_Add it p).2 else None
  | CPSend =>
      match cp_adder p, cp_input p with
      | Some it, Some q =>
          if (length q <? InputChannelSize)%nat
          then Some (cp_set_adder None (cp_set_input (Some (q ++ [it])) p)) else None
      | _, _ => None
      end
  | CPStart ctx aware order => if free then cp_begin ctx aware order p else None
  | CPStep stop => cp_step stop p
  | CPClusters l => k ← kexec o l (cp_Clusters p); Some (cp_set_clusters k p)
  end.

Definition cpinit (p : cprovider) : Prop := ∃ GetConfig, p = cp_New GetConfig.

(** ** Lemmas *)

(** The last cluster a sequence of items gives a name. *)
Definition last_for (n : ClusterName) (l : list item) : option cluster :=
  snd <$> last (filter (λ it, it.1 = n) l).

Lemma last_for_snoc n l (it : item) :
  last_for n (l ++ [it]) = if decide (it.1 = n) then Some it.2 else last_for n l.
Proof.
  unfold last_for. rewrite filter_app, filter_cons, filter_nil. destruct (decide (it.1 = n)); [by rewrite last_snoc|].
  by rewrite app_nil_r.
Qed.

Lemma last_for_order n order (m : gmap ClusterName cluster) :
  order ≡ₚ map_to_list m → last_for n order = m !! n.
Proof.
  intros Ho.
  assert (NoDup order.*1) as Hnd by (rewrite Ho; apply NoDup_fst_map_to_list).
  assert (∀ c, (n, c) ∈ order ↔ m !! n = Some c) as Hin by (intros c; rewrite Ho; apply elem_of_map_to_list).
  clear Ho. revert Hin. generalize (m !! n). clear m. intros r. revert r. induction order as [|it order IH] using rev_ind; intros r Hin.
  - destruct r as [c|]; [|done]. exfalso. by apply (elem_of_nil (n, c)), Hin.
  - rewrite last_for_snoc. rewrite fmap_app in Hnd. apply NoDup_app in Hnd as (Hnd & Hdis & _).
    destruct it as [n' c']. simpl in *. destruct (decide (n' = n)) as [->|Hne].
    + symmetry. apply Hin. set_solver.
    + apply IH; [done|]. intros c. rewrite <-Hin, elem_of_app, list_elem_of_singleton.
      split; [tauto|]. intros [?|[= -> _]]; [done|]. done.
Qed.

Lemma last_for_app n (l1 l2 : list item) :
  last_for n (l1 ++ l2) = match last_for n l2 with Some c => Some c | None => last_for n l1 end.
Proof.
  induction l2 as [|it l2 IH] using rev_ind; [by rewrite app_nil_r|].
  rewrite app_assoc, !last_for_snoc, IH. by destruct (decide _).
Qed.

(** Items on their way to [AddOrReplace]. *)
Definition cp_pending (p : cprovider) (order : list item) : list item :=
  match cp_start p with
  | SNone => order
  | SWaiting _ _ l => l
  | _ => []
  end ++ default [] (cp_input p) ++ option_list (cp_adder p).

Definition cp_inv (p : cprovider) : Prop :=
  (cp_input p = None ↔ cp_start p = SNone) ∧ (cp_input p = None → cp_adder p = None) ∧
  ∀ order n, order ≡ₚ map_to_list (cp_waiting p) →
    last_for n (cp_added p) = last_for n (cp_handled p ++ cp_pending p order).

Lemma cp_inv_step l p p' : cp_inv p → cpexec l p = Some p' → cp_inv p'.
Proof.
  intros (Hs & Ha & Hl) He. unfold cp_inv. destruct l as [it| |ctx aware order|stop|l]; cbn [cpexec] in He.
  - case_bool_decide as Hf; [|done]. injection He as <-. unfold cp_Add. simpl.
    destruct (cp_input p) as [q|] eqn:Hi.
    + assert (cp_start p ≠ SNone) as Hst by (intros H; by apply Hs in H).
      destruct (_ <? _)%nat; simpl; (split; [rewrite ?Hi; done|]); (split; [by rewrite ?Hi|]); intros order n Ho;
        rewrite last_for_snoc, (Hl order n Ho); unfold cp_pending; simpl; rewrite ?Hi, ?Hf; simpl;
        rewrite ?app_nil_r, !app_assoc, last_for_snoc; done.
    + simpl. split; [by rewrite Hi|]. split; [done|]. intros order n Ho.
      assert (cp_start p = SNone) as Hst by (by apply Hs).
      rewrite last_for_snoc. unfold cp_pending in *. simpl. rewrite Hst, Hi, Hf in *. simpl in *.
      rewrite ?app_nil_r in *. rewrite last_for_app, (last_for_order n order _ Ho).
      rewrite (Hl (map_to_list (cp_waiting p)) n (Permutation_refl _)).
      rewrite app_nil_r, last_for_app, (last_for_order n (map_to_list (cp_waiting p)) _ (Permutation_refl _)).
      destruct (decide (it.1 = n)) as [<-|Hne]; [by rewrite lookup_insert_eq|by rewrite lookup_insert_ne].
  - destruct (cp_adder p) as [it|] eqn:Hf; [|done]. destruct (cp_input p) as [q|] eqn:Hi; [|done].
    destruct (_ <? _)%nat; [|done]. injection He as <-. simpl. split; [rewrite <-Hs; done|]. split; [done|].
    intros order n Ho. rewrite (Hl order n Ho). unfold cp_pending. simpl. rewrite Hi, Hf. simpl. by rewrite app_nil_r.
  - case_bool_decide as Hf; [|done]. unfold cp_begin, startOnce in He.
    destruct (cp_input p) as [q|] eqn:Hi; [injection He as <-; rewrite Hi; done|].
    case_bool_decide as Ho; [|done]. injection He as <-. simpl. split; [done|]. split; [done|].
    intros order' n Ho'. simpl in *. rewrite (Hl order n Ho). unfold cp_pending. simpl.
    assert (cp_start p = SNone) as -> by (by apply Hs). by rewrite Hi.
  - unfold cp_step in He.
    destruct (cp_start p) as [|ctx aware [|it l]|ctx aware|ctx aware|] eqn:Hst; try done.
    + injection He as <-. simpl. split; [rewrite Hs; done|]. split; [done|].
      intros order n Ho. rewrite (Hl order n Ho). unfold cp_pending. simpl. by rewrite Hst.
    + injection He as <-. simpl. split; [rewrite Hs; done|]. split; [done|].
      intros order n Ho. rewrite (Hl order n Ho). unfold cp_pending. simpl. rewrite Hst. simpl. by rewrite <-app_assoc.
    + case_bool_decide as Hf; [|done]. injection He as <-. simpl. split; [rewrite Hs; done|]. split; [done|].
      intros order n Ho. rewrite (Hl (map_to_list (cp_waiting p)) n (Permutation_refl _)). unfold cp_pending. simpl. by rewrite Hst.
    + destruct stop.
      * destruct (done_ctx _ _); [|done]. injection He as <-. simpl. split; [rewrite Hs; done|]. split; [done|].
        intros order n Ho. rewrite (Hl order n Ho). unfold cp_pending. simpl. by rewrite Hst.
      * destruct (cp_input p) as [[|it q]|] eqn:Hi; try done. injection He as <-. simpl.
        split; [rewrite Hst; done|]. split; [done|].
        intros order n Ho. rewrite (Hl order n Ho). unfold cp_pending. simpl. rewrite Hst, Hi. simpl. by rewrite <-app_assoc.
  - destruct (kexec o l (cp_Clusters p)); [|done]. injection He as <-. done.
Qed.

(** ** Properties *)

(** Complement (invariant): no added cluster is lost, and the last one wins: under every
    name, the cluster last given to [Add] is the last one [AddOrReplace] has been
    called with, or will be called with, in the order of what is pending. *)
Theorem last_added_cluster_is_handled (p : cprovider) n :
  reachable cpexec cpinit p →
  last_for n (cp_added p) = last_for n (cp_handled p ++ cp_pending p (map_to_list (cp_waiting p))).
Proof.
  intros Hr.
  assert (cp_inv p) as (_ & _ & Hl); [|by apply Hl].
  apply (invariant_reachable cpexec cpinit cp_inv); [|intros; by eapply cp_inv_step|done].
  intros p0 [g ->]. split; [done|]. split; [done|]. intros order m Ho. simpl in Ho.
  rewrite map_to_list_empty in Ho. apply Permutation_nil_r in Ho as ->. done.
Qed.

(** [Add] waits on the full channel while [Start] waits for the lock. *)
Definition cp_stuck (it : item) (p : cprovider) : Prop :=
  cp_adder p = Some it ∧ (∃ q, cp_input p = Some q ∧ InputChannelSize ≤ length q) ∧
  match cp_start p with SClear _ _ => True | _ => False end.

Lemma cp_stuck_run it ls p p' : cp_stuck it p → run cpexec ls p = Some p' → cp_stuck it p'.
Proof.
  revert p. induction ls as [|l ls IH]; intros p Hs Hr; simpl in Hr; [by simplify_eq|].
  destruct (cpexec l p) as [p1|] eqn:Hl; [|done]. apply (IH p1); [|done].
  pose proof Hs as (Ha & (q & Hq & Hlen) & Hst).
  destruct l; cbn [cpexec] in Hl; rewrite ?Ha, ?Hq in Hl; try done.
  - by destruct (Nat.ltb_spec (length q) InputChannelSize); [lia|].
  - unfold cp_step in Hl. rewrite Ha in Hl. by destruct (cp_start p).
  - destruct (kexec o l (cp_Clusters p)); [|done]. injection Hl as <-. exact Hs.
Qed.

End provider.

(** ** Examples *)

(** Twelve clusters, all but the first added after [Start] has begun and before
    it clears the waiting list. *)
Definition cp_deadlock_labels : list cplabel :=
  CPAdd ("a", 0) :: CPStart Background 0 [("a", 0)] :: CPStep false :: CPStep false ::
  map (λ c, CPAdd (String (Ascii.ascii_of_nat (98 + c)) "", c)) (seq 0 11).

(** Complement (liveness): adding clusters while [Start] is still busy with the waiting ones
    can stop the provider for good: the eleventh [Add] sends on the full channel
    holding the lock that [Start] needs before it first receives.  From then on
    the call does not return, [Start] does not go on, not even to see that its
    context is done, and no cluster is added. *)
Theorem cp_Add_can_deadlock :
  ∃ p, run (cpexec all_ok) cp_deadlock_labels (cp_New id) = Some p ∧
    ∀ ls p', run (cpexec all_ok) ls p = Some p' →
      cp_adder p' = Some ("l", 10) ∧ (∀ stop, cpexec all_ok (CPStep stop) p' = None) ∧
      (∀ it, cpexec all_ok (CPAdd it) p' = None).
Proof.
  eexists. split; [by vm_compute|]. intros ls p' Hr.
  assert (cp_stuck ("l", 10) p') as (Ha & _ & Hst).
  { eapply cp_stuck_run; [|exact Hr]. split; [done|]. split; [|done]. eexists. split; [reflexivity|]. by vm_compute. }
  split; [done|]. split; intros; cbn [cpexec]; rewrite ?Ha; [|done].
  unfold cp_step. rewrite Ha. by destruct (cp_start p').
Qed.

Definition cp_example : list cplabel :=
  [CPAdd ("a", 1); CPAdd ("a", 2); CPStart Background 0 [("a", 2)]; CPAdd ("a", 3)].

Lemma last_added_cluster_is_handled_witness :
  let p := default (cp_New id) (run (cpexec all_ok) cp_example (cp_New id)) in
  last_for "a" (cp_handled p ++ cp_pending p (map_to_list (cp_waiting p))) = Some 3.
Proof.
  intros p. rewrite <-(last_added_cluster_is_handled all_ok p "a"); [by vm_compute|].
  apply (run_reachable (cpexec all_ok) cpinit cp_example (cp_New id)); [apply reach_init; by eexists|vm_compute; reflexivity].
Defined.
