(* ===== verification/SimpleProviders.v ===== *)
(** * providers/single and providers/nop: one cluster, and none

    Both are providers whose [Start] waits for its context. *)

From S2P Require Import Prelude GoErrors GoContext Multicluster.

(** How a blocking [Start] ends: it returns at once, or waits for its context
    and then returns. *)
Inductive ending : Type :=
| Returned (err : option error)
| WaitsFor (ctx : context) (err : option error).

(** ** providers/single *)

(* src: providers/single/provider.go:31-35 Provider *)
Record single := MkSingle {
  sp_name : ClusterName;
  sp_cl : cluster;
}.

(* src: providers/single/provider.go:37-44 New *)
Definition single_New (name : ClusterName) (cl : cluster) : single := MkSingle name cl.

(* src: providers/single/provider.go:46-53 Provider.Start *)
Definition single_Start (p : single) (ctx : context) (mcAware : Aware) : M world ending :=
  err ← mcAware ctx (sp_name p) (sp_cl p);
  match err with
  | Some err => mret (Returned (Some err))
  | None => mret (WaitsFor ctx None)
  end.

(* src: providers/single/provider.go:55-61 Provider.Get *)
Definition single_Get (p : single) (ctx : context) (clusterName : ClusterName) : result error cluster :=
  if bool_decide (clusterName = sp_name p) then Ok (sp_cl p) else Err ErrClusterNotFound.

(* src: providers/single/provider.go:63-66 Provider.IndexField *)
Definition single_IndexField (o : oracle) (p : single) (ctx : context) (i : Index) : M world (option error) :=
  ask o (CallIndex (sp_cl p) ctx i).

(** ** providers/nop *)

(* src: providers/nop/provider.go:31-32 Provider *)
Record nop := MkNop {}.

(* src: providers/nop/provider.go:34-37 New *)
Definition nop_New : nop := MkNop.

(* src: providers/nop/provider.go:39-43 Provider.Start *)
Definition nop_Start (p : nop) (ctx : context) (mcAware : Aware) : M world ending := mret (WaitsFor ctx None).

(* src: providers/nop/provider.go:45-48 Provider.Get *)
Definition nop_Get (p : nop) (ctx : context) (clusterName : ClusterName) : result error cluster :=
  Err ErrClusterNotFound.

(* src: providers/nop/provider.go:50-53 Provider.IndexField *)
Definition nop_IndexField (p : nop) (ctx : context) (i : Index) : M world (option error) := mret None.

(** ** Interfaces *)

#[export] Instance single_Provider (o : oracle) : Provider single := {|
  provider_Get := single_Get;
  provider_IndexField p ctx i := err ← single_IndexField o p ctx i; mret (p, err);
|}.

#[export] Program Instance single_ProviderSpec (o : oracle) : @ProviderSpec single (single_Provider o) := {|
  known p n := if bool_decide (n = sp_name p) then Some (sp_cl p) else None;
|}.
Next Obligation.
  intros o p ctx n cl. simpl. unfold single_Get. by case_bool_decide; intros [= ->].
Qed.
Next Obligation.
  intros o p ctx n. simpl. unfold single_Get. case_bool_decide; [done|]. intros _. by eexists.
Qed.

#[export] Instance nop_Provider : Provider nop := {|
  provider_Get := nop_Get;
  provider_IndexField p ctx i := err ← nop_IndexField p ctx i; mret (p, err);
|}.

#[export] Program Instance nop_ProviderSpec : @ProviderSpec nop nop_Provider := {| known _ _ := None |}.
Next Obligation. done. Qed.
Next Obligation. intros p ctx n _. by eexists. Qed.

(** ** Properties *)

(** Complement (functional): the single provider engages its cluster under its name, once,
    and knows exactly that name; an error of the aware ends [Start], which
    otherwise lasts as long as its context.  The nop provider engages nothing
    and knows nothing. *)
Theorem single_and_nop_engage_what_they_know o name cl a ctx n w (any : Aware) :
  let p := single_New name cl in
  single_Start p ctx (ext_aware o a) w =
    (match o (w_calls w) (CallEngage a ctx name cl) with Some e => Returned (Some e) | None => WaitsFor ctx None end,
     World (w_ctxs w) (w_calls w ++ [CallEngage a ctx name cl])) ∧
  (is_ok (single_Get p ctx n) = true ↔ n = name) ∧ single_Get p ctx name = Ok cl ∧
  nop_Start nop_New ctx any w = (WaitsFor ctx None, w) ∧ is_ok (nop_Get nop_New ctx n) = false.
Proof.
  simpl. split_ands; try done.
  - unfold single_Start. run_m. by destruct (o (w_calls w) _).
  - unfold single_Get. simpl. by case_bool_decide.
  - unfold single_Get. simpl. by rewrite bool_decide_eq_true_2.
Qed.
