(* ===== verification/Builder.v ===== *)
(** * pkg/builder: assembling a controller

    The builder collects what to watch, and with which options, and then makes
    a controller and starts its watches.  Options are functions on the inputs,
    as in the code; a reference to a bool or a function that may be nil is an
    option.  Objects' kinds, the construction of controllers and of handlers,
    and the logger belong to controller-runtime, apimachinery and logr. *)

From S2P Require Import Prelude GoErrors GoContext Multicluster Reconcile Handler Source Basic Manager Controller.

(** apimachinery's [schema.GroupVersionKind]. *)
Record GVK := MkGVK { gvk_Group : string; gvk_Version : string; gvk_Kind : string }.

(** [strings.ToLower], on the ASCII names that kinds are. *)
Definition lower_ascii (c : Ascii.ascii) : Ascii.ascii :=
  let n := Ascii.nat_of_ascii c in if ((65 <=? n) && (n <=? 90))%nat then Ascii.ascii_of_nat (n + 32) else c.

Fixpoint ToLower (s : string) : string :=
  match s with
  | EmptyString => EmptyString
  | String c s => String (lower_ascii c) (ToLower s)
  end.

(** [ptr.Deref]. *)
Definition Deref {A} (p : option A) (d : A) : A := match p with Some a => a | None => d end.

(* src: pkg/builder/forked_controller.go:49-58 objectProjection *)
Inductive objectProjection : Type := projectAsNormal | projectAsMetadata.

(** ** Options *)

(* src: pkg/builder/multicluster_options.go:31-37 EngageOptions *)
Record EngageOptions := MkEngageOptions {
  engageWithLocalCluster : option bool;
  engageWithProviderClusters : option bool;
  clusterFilter : option ClusterFilterFunc;
}.

Definition no_engage : EngageOptions := MkEngageOptions None None None.

(* src: pkg/builder/multicluster_options.go:39-44 EngageOptions.getClusterFilter *)
Definition getClusterFilter (w : EngageOptions) : option ClusterFilterFunc :=
  match clusterFilter w with Some f => Some f | None => None end.

(* src: pkg/builder/multicluster_options.go:46-53 WithEngageWithLocalCluster *)
Definition WithEngageWithLocalCluster (engage : bool) : EngageOptions := MkEngageOptions (Some engage) None None.

(* src: pkg/builder/multicluster_options.go:55-62 WithEngageWithProviderClusters *)
Definition WithEngageWithProviderClusters (engage : bool) : EngageOptions := MkEngageOptions None (Some engage) None.

(* src: pkg/builder/multicluster_options.go:64-71 WithClusterFilter *)
Definition WithClusterFilter (filter : ClusterFilterFunc) : EngageOptions := MkEngageOptions None None (Some filter).

(* src: pkg/builder/multicluster_options.go:73-88 WithClustersFromProvider *)
Definition WithClustersFromProvider {P} {PP : Provider P} (ctx : context) (provider : P) : EngageOptions :=
  MkEngageOptions None None (Some (λ clusterName cl,
    match provider_Get provider ctx clusterName with
    | Err _ => false
    | Ok cl' => bool_decide (cl' = cl)
    end)).

(** What the three [ApplyTo] methods of [EngageOptions] do to the embedded options. *)
Definition merge_engage (w opts : EngageOptions) : EngageOptions :=
  MkEngageOptions
    (match engageWithLocalCluster w with Some v => Some v | None => engageWithLocalCluster opts end)
    (match engageWithProviderClusters w with Some v => Some v | None => engageWithProviderClusters opts end)
    (match clusterFilter w with Some v => Some v | None => clusterFilter opts end).

Section builder.
Context {request : Type}.

(** Predicates on client objects. *)
Definition pred : Type := Predicate client_Object.

(* src: pkg/builder/forked_controller.go:91-99 ForInput *)
Record ForInput := MkForInput {
  f_object : option client_Object;
  f_predicates : list pred;
  f_objectProjection : objectProjection;
  f_err : option error;
  f_engage : EngageOptions;
}.

(* src: pkg/builder/forked_controller.go:120-128 OwnsInput *)
Record OwnsInput := MkOwnsInput {
  o_matchEveryOwner : bool;
  o_object : client_Object;
  o_predicates : list pred;
  o_objectProjection : objectProjection;
  o_engage : EngageOptions;
}.

(* src: pkg/builder/forked_controller.go:156-164 WatchesInput *)
Record WatchesInput := MkWatchesInput {
  w_obj : client_Object;
  w_handler : HandlerFunc client_Object request;
  w_predicates : list pred;
  w_objectProjection : objectProjection;
  w_engage : EngageOptions;
}.

(** The interfaces [ForOption], [OwnsOption] and [WatchesOption], as the
    functions their one method is. *)
(* src: pkg/builder/forked_options.go:25-41 ForOption *)
Definition ForOption : Type := ForInput → ForInput.
Definition OwnsOption : Type := OwnsInput → OwnsInput.
Definition WatchesOption : Type := WatchesInput → WatchesInput.

(* src: pkg/builder/multicluster_options.go:90-104 EngageOptions.ApplyToFor *)
Definition engage_ApplyToFor (w : EngageOptions) : ForOption := fun i =>
  MkForInput (f_object i) (f_predicates i) (f_objectProjection i) (f_err i) (merge_engage w (f_engage i)).

(* src: pkg/builder/multicluster_options.go:106-120 EngageOptions.ApplyToOwns *)
Definition engage_ApplyToOwns (w : EngageOptions) : OwnsOption := fun i =>
  MkOwnsInput (o_matchEveryOwner i) (o_object i) (o_predicates i) (o_objectProjection i) (merge_engage w (o_engage i)).

(* src: pkg/builder/multicluster_options.go:122-145 EngageOptions.ApplyToWatches *)
Definition engage_ApplyToWatches (w : EngageOptions) : WatchesOption := fun i =>
  MkWatchesInput (w_obj i) (w_handler i) (w_predicates i) (w_objectProjection i) (merge_engage w (w_engage i)).

(* src: pkg/builder/forked_options.go:47-62 Predicates.ApplyToFor *)
Definition predicates_ApplyToFor (predicates : list pred) : ForOption := fun i =>
  MkForInput (f_object i) predicates (f_objectProjection i) (f_err i) (f_engage i).

(* src: pkg/builder/forked_options.go:64-67 Predicates.ApplyToOwns *)
Definition predicates_ApplyToOwns (predicates : list pred) : OwnsOption := fun i =>
  MkOwnsInput (o_matchEveryOwner i) (o_object i) predicates (o_objectProjection i) (o_engage i).

(* src: pkg/builder/forked_options.go:69-72 Predicates.ApplyToWatches *)
Definition predicates_ApplyToWatches (predicates : list pred) : WatchesOption := fun i =>
  MkWatchesInput (w_obj i) (w_handler i) predicates (w_objectProjection i) (w_engage i).

(* src: pkg/builder/forked_options.go:87-90 projectAs.ApplyToFor *)
Definition project_ApplyToFor (p : objectProjection) : ForOption := fun i =>
  MkForInput (f_object i) (f_predicates i) p (f_err i) (f_engage i).

(* src: pkg/builder/forked_options.go:92-95 projectAs.ApplyToOwns *)
Definition project_ApplyToOwns (p : objectProjection) : OwnsOption := fun i =>
  MkOwnsInput (o_matchEveryOwner i) (o_object i) (o_predicates i) p (o_engage i).

(* src: pkg/builder/forked_options.go:97-100 projectAs.ApplyToWatches *)
Definition project_ApplyToWatches (p : objectProjection) : WatchesOption := fun i =>
  MkWatchesInput (w_obj i) (w_handler i) (w_predicates i) p (w_engage i).

(* src: pkg/builder/forked_options.go:102-138 OnlyMetadata *)
Definition OnlyMetadata : WatchesOption := project_ApplyToWatches projectAsMetadata.

(* src: pkg/builder/forked_options.go:142-156 matchEveryOwner.ApplyToOwns *)
Definition MatchEveryOwner : OwnsOption := fun i =>
  MkOwnsInput true (o_object i) (o_predicates i) (o_objectProjection i) (o_engage i).

(** ** The builder *)

(** Key-value pairs of a logger. *)
Definition logger : Type := list (string * string).

(** controller-runtime's [controller.TypedOptions], the fields the builder uses. *)
Record ctrlOptions := MkCtrlOptions {
  co_Reconciler : option (Reconciler request);
  co_MaxConcurrentReconciles : Z;
  co_CacheSyncTimeout : Z;
  co_LogConstructor : option (option request → logger);
}.

(** controller-runtime's [config.Controller]. *)
Record globalOptions := MkGlobalOptions {
  go_GroupKindConcurrency : gmap string Z;
  go_CacheSyncTimeout : Z;
}.

Context {P : Type} {C : Type} {PP : Provider P} {CI : CoordinatorI C}.

(** A constructor of controllers: it adds the controller to the manager. *)
Definition newControllerFn : Type :=
  string → mcManager P C → ctrlOptions → M world (result error (mcController * mcManager P C)).

(** The raw sources are controller-runtime's.  The controller is the result of
    [doController], rather than a field. *)
(* src: pkg/builder/forked_controller.go:63-79 TypedBuilder *)
Record TypedBuilder := MkBuilder {
  b_forInput : ForInput;
  b_ownsInput : list OwnsInput;
  b_rawSources : list nat;
  b_watchesInput : list WatchesInput;
  b_mgr : option (mcManager P C);
  b_globalPredicates : list pred;
  b_ctrlOptions : ctrlOptions;
  b_name : string;
  b_newController : option newControllerFn;
  b_enableClusterNotFoundWrapper : option bool;
}.

Definition no_input : ForInput := MkForInput None [] projectAsNormal None no_engage.
Definition no_options : ctrlOptions := MkCtrlOptions None 0 0 None.

(* src: pkg/builder/forked_controller.go:86-89 TypedControllerManagedBy *)
Definition TypedControllerManagedBy (m : option (mcManager P C)) : TypedBuilder :=
  MkBuilder no_input [] [] [] m [] no_options "" None None.

(* src: pkg/builder/forked_controller.go:81-84 ControllerManagedBy *)
Definition ControllerManagedBy (m : option (mcManager P C)) : TypedBuilder := TypedControllerManagedBy m.

Definition set_For x (b : TypedBuilder) := MkBuilder x (b_ownsInput b) (b_rawSources b) (b_watchesInput b) (b_mgr b) (b_globalPredicates b) (b_ctrlOptions b) (b_name b) (b_newController b) (b_enableClusterNotFoundWrapper b).
Definition set_ctrlOptions x (b : TypedBuilder) := MkBuilder (b_forInput b) (b_ownsInput b) (b_rawSources b) (b_watchesInput b) (b_mgr b) (b_globalPredicates b) x (b_name b) (b_newController b) (b_enableClusterNotFoundWrapper b).

(* src: pkg/builder/forked_controller.go:101-118 TypedBuilder.For *)
Definition For (object : client_Object) (opts : list ForOption) (b : TypedBuilder) : TypedBuilder :=
  match f_object (b_forInput b) with
  | Some _ =>
      let i := b_forInput b in
      set_For (MkForInput (f_object i) (f_predicates i) (f_objectProjection i)
        (Some (Errorf "For(...) should only be called once, could not assign multiple objects for reconciliation"))
        (f_engage i)) b
  | None =>
      let input := MkForInput (Some object) [] projectAsNormal None no_engage in
      set_For (fold_left (λ i opt, opt i) opts input) b
  end.

(* src: pkg/builder/forked_controller.go:130-146 TypedBuilder.Owns *)
Definition Owns (object : client_Object) (opts : list OwnsOption) (b : TypedBuilder) : TypedBuilder :=
  let input := fold_left (λ i opt, opt i) opts (MkOwnsInput false object [] projectAsNormal no_engage) in
  MkBuilder (b_forInput b) (b_ownsInput b ++ [input]) (b_rawSources b) (b_watchesInput b) (b_mgr b)
    (b_globalPredicates b) (b_ctrlOptions b) (b_name b) (b_newController b) (b_enableClusterNotFoundWrapper b).

(* src: pkg/builder/forked_controller.go:174-195 TypedBuilder.Watches *)
Definition Watches (object : client_Object) (eventHandler : HandlerFunc client_Object request)
    (opts : list WatchesOption) (b : TypedBuilder) : TypedBuilder :=
  let input := fold_left (λ i opt, opt i) opts (MkWatchesInput object eventHandler [] projectAsNormal no_engage) in
  MkBuilder (b_forInput b) (b_ownsInput b) (b_rawSources b) (b_watchesInput b ++ [input]) (b_mgr b)
    (b_globalPredicates b) (b_ctrlOptions b) (b_name b) (b_newController b) (b_enableClusterNotFoundWrapper b).

(* src: pkg/builder/forked_controller.go:197-231 TypedBuilder.WatchesMetadata *)
Definition WatchesMetadata (object : client_Object) (eventHandler : HandlerFunc client_Object request)
    (opts : list WatchesOption) (b : TypedBuilder) : TypedBuilder :=
  Watches object eventHandler (opts ++ [OnlyMetadata]) b.

(* src: pkg/builder/forked_controller.go:233-242 TypedBuilder.WatchesRawSource *)
Definition WatchesRawSource (src : nat) (b : TypedBuilder) : TypedBuilder :=
  MkBuilder (b_forInput b) (b_ownsInput b) (b_rawSources b ++ [src]) (b_watchesInput b) (b_mgr b)
    (b_globalPredicates b) (b_ctrlOptions b) (b_name b) (b_newController b) (b_enableClusterNotFoundWrapper b).

(* src: pkg/builder/forked_controller.go:244-253 TypedBuilder.WithEventFilter *)
Definition WithEventFilter (p : pred) (b : TypedBuilder) : TypedBuilder :=
  MkBuilder (b_forInput b) (b_ownsInput b) (b_rawSources b) (b_watchesInput b) (b_mgr b)
    (b_globalPredicates b ++ [p]) (b_ctrlOptions b) (b_name b) (b_newController b) (b_enableClusterNotFoundWrapper b).

(* src: pkg/builder/forked_controller.go:255-259 TypedBuilder.WithOptions *)
Definition WithOptions (options : ctrlOptions) (b : TypedBuilder) : TypedBuilder := set_ctrlOptions options b.

(* src: pkg/builder/forked_controller.go:261-265 TypedBuilder.WithLogConstructor *)
Definition WithLogConstructor (logConstructor : option request → logger) (b : TypedBuilder) : TypedBuilder :=
  let co := b_ctrlOptions b in
  set_ctrlOptions (MkCtrlOptions (co_Reconciler co) (co_MaxConcurrentReconciles co) (co_CacheSyncTimeout co)
    (Some logConstructor)) b.

(* src: pkg/builder/forked_controller.go:267-274 TypedBuilder.WithClusterNotFoundWrapper *)
Definition WithClusterNotFoundWrapper (enabled : bool) (b : TypedBuilder) : TypedBuilder :=
  MkBuilder (b_forInput b) (b_ownsInput b) (b_rawSources b) (b_watchesInput b) (b_mgr b)
    (b_globalPredicates b) (b_ctrlOptions b) (b_name b) (b_newController b) (Some enabled).

(* src: pkg/builder/forked_controller.go:276-286 TypedBuilder.Named *)
Definition Named (name : string) (b : TypedBuilder) : TypedBuilder :=
  MkBuilder (b_forInput b) (b_ownsInput b) (b_rawSources b) (b_watchesInput b) (b_mgr b)
    (b_globalPredicates b) (b_ctrlOptions b) name (b_newController b) (b_enableClusterNotFoundWrapper b).

(** ** Building *)

Context (o : oracle) (local : cluster) (quote : string → string).

(** The identity of a source value. *)
Context (address : clusterKind client_Object request → nat).

(** [apiutil.GVKForObject] with a cluster's scheme, and a [PartialObjectMetadata] of a kind. *)
Context (GVKForObject : client_Object → cluster → result error GVK) (metaObj : GVK → client_Object).

(** Go's test that [request] is [mcreconcile.Request]. *)
Context (request_is : option (Request = request)).

(** controller-runtime's handlers; that for owners takes the clusters whose scheme
    and REST mapper it uses, and whether only controller owners count. *)
Context (cr_EnqueueRequestForObject : TypedEventHandler client_Object cr_Request).
Context (cr_EnqueueRequestForOwner :
  cluster → cluster → client_Object → bool → TypedEventHandler client_Object cr_Request).

(** The controller options of the host manager and its logger; [GroupKind.String];
    whether a request is a [reconcile.Request], and [klog.KRef]. *)
Context (GetControllerOptions : globalOptions) (GetLogger : logger) (GroupKind_String : GVK → string).
Context (as_cr_Request : request → option cr_Request) (KRef : cr_Request → string).

(** [mccontroller.NewTyped], applied to what controller-runtime answers to the
    construction of a controller, and to the controller as a runnable. *)
Context (built : string → ctrlOptions → result error (option nat)) (run : mcController → Runnable).
(* src: pkg/builder/forked_controller.go:535-541 TypedBuilder.doController *)
Definition default_newController : newControllerFn := fun name mgr options =>
  r ← Controller.NewTyped o (built name options) mgr run;
  mret (match r with
        | Err err => Err err
        | Ok (c, mgr, Some err) => Err err
        | Ok (c, mgr, None) => Ok (c, mgr)
        end).

(** The reflective assignment of a handler of [Request]s. *)
Definition cast_handler (e : Request = request) (h : EventHandlerFunc) : HandlerFunc client_Object request :=
  fun n cl => Some (eq_rect Request (TypedEventHandler client_Object) (h n cl) request e).

(* src: pkg/builder/forked_controller.go:325-342 TypedBuilder.project *)
Definition project (proj : objectProjection) : cluster → client_Object → result error client_Object :=
  fun cl obj =>
    match proj with
    | projectAsNormal => Ok obj
    | projectAsMetadata =>
        match GVKForObject obj cl with
        | Err err => Err (Wrap "unable to determine GVK for a metadata-only watch" err)
        | Ok gvk => Ok (metaObj gvk)
        end
    end.

(** A kind as a source of the controller. *)
Definition as_source (k : kind client_Object request) : TypedSource := fun name cl =>
  match Source.ForCluster k name cl with
  | Err err => Err err
  | Ok (src, shouldEngage) => Ok (address src, shouldEngage)
  end.

(** The kind of one input: all predicates, projected and filtered. *)
(* src: pkg/builder/forked_controller.go:421-427 TypedBuilder.doWatch *)
Definition input_kind (b : TypedBuilder) (obj : client_Object) (h : HandlerFunc client_Object request)
    (predicates : list pred) (proj : objectProjection) (e : EngageOptions) : kind client_Object request :=
  Source.WithClusterFilter (getClusterFilter e)
    (Source.WithProjection (project proj) (Source.TypedKind obj h (b_globalPredicates b ++ predicates))).

(** Watching one kind: on the local cluster, and on the clusters of the provider. *)
(* src: pkg/builder/forked_controller.go:428-441 TypedBuilder.doWatch *)
Definition watch_kind (provider_set : bool) (src : kind client_Object request) (e : EngageOptions) :
  M mstate (option error) :=
  (if Deref (engageWithLocalCluster e) (negb provider_set) then
     match Source.ForCluster src "" local with
     | Err err => mret (Some err)
     | Ok (src, _) => m_world (ask o (CallWatchPlain (address src)))
     end
   else mret None) ;?
  (if Deref (engageWithProviderClusters e) provider_set
   then MultiClusterWatch o quote (as_source src) else mret None).

(* src: pkg/builder/forked_controller.go:345-374 TypedBuilder.doWatch *)
Definition watch_for (provider_set : bool) (b : TypedBuilder) : M mstate (option error) :=
  let i := b_forInput b in
  match f_object i with
  | None => mret None
  | Some obj =>
      match request_is with
      | None => mret (Some (Errorf "For() can only be used with mcreconcile.Request"))
      | Some e =>
          watch_kind provider_set
            (input_kind b obj (cast_handler e (EnqueueRequestForObject cr_EnqueueRequestForObject))
               (f_predicates i) (f_objectProjection i) (f_engage i)) (f_engage i)
      end
  end.

(** The handler of an owned type: in the code the reflective assignment panics for
    another request type, which [watch_for] has excluded. *)
(* src: pkg/builder/forked_controller.go:381-394 TypedBuilder.doWatch *)
Definition owner_handler (ownerType : client_Object) (matchEveryOwner : bool) : HandlerFunc client_Object request :=
  match request_is with
  | Some e => cast_handler e (λ clusterName cl,
      Handler.ForCluster (cr_EnqueueRequestForOwner local cl ownerType (negb matchEveryOwner)) clusterName)
  | None => λ _ _, None
  end.

(* src: pkg/builder/forked_controller.go:376-415 TypedBuilder.doWatch *)
Definition watch_owns (provider_set : bool) (b : TypedBuilder) : M mstate (option error) :=
  match b_ownsInput b, f_object (b_forInput b) with
  | [], _ => mret None
  | _ :: _, None => mret (Some (Errorf "Owns() can only be used together with For()"))
  | owns, Some owner => for_range owns (λ own,
      watch_kind provider_set
        (input_kind b (o_object own) (owner_handler owner (o_matchEveryOwner own))
           (o_predicates own) (o_objectProjection own) (o_engage own)) (o_engage own))
  end.

(* src: pkg/builder/forked_controller.go:344-449 TypedBuilder.doWatch *)
Definition doWatch (provider_set : bool) (b : TypedBuilder) : M mstate (option error) :=
  watch_for provider_set b ;?
  watch_owns provider_set b ;?
  match b_watchesInput b, f_object (b_forInput b), b_rawSources b with
  | [], None, [] => mret (Some (Errorf "there are no watches configured, controller will never get triggered. Use For(), Owns(), Watches() or WatchesRawSource() to set them up"))
  | _, _, _ =>
      for_range (b_watchesInput b) (λ w,
        watch_kind provider_set
          (input_kind b (w_obj w) (w_handler w) (w_predicates w) (w_objectProjection w) (w_engage w)) (w_engage w)) ;?
      for_range (b_rawSources b) (λ src, m_world (ask o (CallWatchPlain src)))
  end.

(* src: pkg/builder/forked_controller.go:451-459 TypedBuilder.getControllerName *)
Definition getControllerName (b : TypedBuilder) (gvk : option GVK) : result error string :=
  if negb (bool_decide (b_name b = "")) then Ok (b_name b) else
  match gvk with
  | None => Err (Errorf "one of For() or Named() must be called")
  | Some gvk => Ok (ToLower (gvk_Kind gvk))
  end.

(* src: pkg/builder/forked_controller.go:508-533 TypedBuilder.doController *)
Definition log_constructor (controllerName : string) (gvk : option GVK) : option request → logger :=
  let log := GetLogger ++ [("controller", controllerName)] in
  let log := match gvk with
             | Some g => log ++ [("controllerGroup", gvk_Group g); ("controllerKind", gvk_Kind g)]
             | None => log
             end in
  fun i =>
    match i ≫= as_cr_Request with
    | Some req =>
        let log := match gvk with Some g => log ++ [(gvk_Kind g, KRef req)] | None => log end in
        log ++ [("namespace", Namespace req); ("name", Name req)]
    | None => log
    end.

(** The defaults of the options, before the name is known. *)
(* src: pkg/builder/forked_controller.go:464-501 TypedBuilder.doController *)
Definition controller_options (b : TypedBuilder) (r : Reconciler request) (gvk : option GVK) : ctrlOptions :=
  let co := b_ctrlOptions b in
  let rec := Deref (co_Reconciler co) r in
  let rec := if Deref (b_enableClusterNotFoundWrapper b) true
             then Wrapper_Reconcile (NewClusterNotFoundWrapper rec) else rec in
  let conc := match gvk with
    | Some g =>
        if bool_decide (co_MaxConcurrentReconciles co = 0%Z) then
          match go_GroupKindConcurrency GetControllerOptions !! GroupKind_String g with
          | Some concurrency => if (0 <? concurrency)%Z then concurrency else co_MaxConcurrentReconciles co
          | None => co_MaxConcurrentReconciles co
          end
        else co_MaxConcurrentReconciles co
    | None => co_MaxConcurrentReconciles co
    end in
  let timeout := if bool_decide (co_CacheSyncTimeout co = 0%Z) && (0 <? go_CacheSyncTimeout GetControllerOptions)%Z
                 then go_CacheSyncTimeout GetControllerOptions else co_CacheSyncTimeout co in
  MkCtrlOptions (Some rec) conc timeout (co_LogConstructor co).

(* src: pkg/builder/forked_controller.go:461-542 TypedBuilder.doController *)
Definition doController (b : TypedBuilder) (mgr : mcManager P C) (r : Reconciler request) :
  M world (result error (mcController * mcManager P C)) :=
  match co_Reconciler (b_ctrlOptions b) with
  | Some _ => mret (Err (Errorf "reconciler was set via WithOptions() and via Build() or Complete()"))
  | None =>
      match (match f_object (b_forInput b) with
             | Some obj => match GVKForObject obj local with Ok g => Ok (Some g) | Err err => Err err end
             | None => Ok None
             end) with
      | Err err => mret (Err err)
      | Ok gvk =>
          let co := controller_options b r gvk in
          match getControllerName b gvk with
          | Err err => mret (Err err)
          | Ok controllerName =>
              let co := match co_LogConstructor co with
                | Some _ => co
                | None => MkCtrlOptions (co_Reconciler co) (co_MaxConcurrentReconciles co) (co_CacheSyncTimeout co)
                            (Some (log_constructor controllerName gvk))
                end in
              (Deref (b_newController b) default_newController) controllerName mgr co
          end
      end
  end.

(** The controller it returns engages nothing yet. *)
(* src: pkg/builder/forked_controller.go:297-323 TypedBuilder.Build *)
Definition Build (b : TypedBuilder) (r : option (Reconciler request)) : M world (result error (mcController * mcManager P C)) :=
  match r, b_mgr b, f_err (b_forInput b) with
  | None, _, _ => mret (Err (Errorf "must provide a non-nil Reconciler"))
  | _, None, _ => mret (Err (Errorf "must provide a non-nil Manager"))
  | _, _, Some err => mret (Err err)
  | Some r, Some mgr, None =>
      fun w =>
      match doController b mgr r w with
      | (Err err, w) => (Err err, w)
      | (Ok (c, mgr'), w) =>
          let '(err, s) := doWatch (bool_decide (is_Some (GetProvider mgr))) b (MState c w 0 []) in
          (match err with Some err => Err err | None => Ok (m_c s, mgr') end, m_w s)
      end
  end.

(* src: pkg/builder/forked_controller.go:288-295 TypedBuilder.Complete *)
Definition Complete (b : TypedBuilder) (r : option (Reconciler request)) : M world (option error) :=
  c ← Build b r;
  mret (match c with Err err => Some err | Ok _ => None end).

(** ** Lemmas: watching as a plan *)

(** What [doWatch] is to do, as a list. *)
Inductive action : Type :=
| ALocal (k : kind client_Object request)    (** [Watch] on the local cluster *)
| AMulti (k : kind client_Object request)    (** [MultiClusterWatch] *)
| ARaw (src : nat).                          (** [Watch] of a raw source *)

Definition kind_plan (provider_set : bool) (k : kind client_Object request) (e : EngageOptions) : list action :=
  (if Deref (engageWithLocalCluster e) (negb provider_set) then [ALocal k] else []) ++
  (if Deref (engageWithProviderClusters e) provider_set then [AMulti k] else []).

Definition for_kind (b : TypedBuilder) (e : Request = request) (obj : client_Object) : kind client_Object request :=
  let i := b_forInput b in
  input_kind b obj (cast_handler e (EnqueueRequestForObject cr_EnqueueRequestForObject))
    (f_predicates i) (f_objectProjection i) (f_engage i).

Definition own_kind (b : TypedBuilder) (owner : client_Object) (own : OwnsInput) : kind client_Object request :=
  input_kind b (o_object own) (owner_handler owner (o_matchEveryOwner own))
    (o_predicates own) (o_objectProjection own) (o_engage own).

Definition watches_kind (b : TypedBuilder) (w : WatchesInput) : kind client_Object request :=
  input_kind b (w_obj w) (w_handler w) (w_predicates w) (w_objectProjection w) (w_engage w).

Definition watch_plan (provider_set : bool) (b : TypedBuilder) : list action :=
  match f_object (b_forInput b), request_is with
  | Some obj, Some e =>
      kind_plan provider_set (for_kind b e obj) (f_engage (b_forInput b)) ++
      flat_map (λ own, kind_plan provider_set (own_kind b obj own) (o_engage own)) (b_ownsInput b)
  | _, _ => []
  end ++
  flat_map (λ w, kind_plan provider_set (watches_kind b w) (w_engage w)) (b_watchesInput b) ++
  map ARaw (b_rawSources b).

Definition act (a : action) : M mstate (option error) :=
  match a with
  | ALocal k =>
      match Source.ForCluster k "" local with
      | Err err => mret (Some err)
      | Ok (src, _) => m_world (ask o (CallWatchPlain (address src)))
      end
  | AMulti k => MultiClusterWatch o quote (as_source k)
  | ARaw src => m_world (ask o (CallWatchPlain src))
  end.

(** The kinds the plan watches on the provider's clusters. *)
Definition multi_kinds (l : list action) : list (kind client_Object request) :=
  omap (λ a, match a with AMulti k => Some k | _ => None end) l.

Lemma watch_kind_plan ps k e s : watch_kind ps k e s = for_range (kind_plan ps k e) act s.
Proof.
  unfold watch_kind, kind_plan. rewrite for_range_app. unfold on_nil, mbind, M_bind.
  destruct (Deref (engageWithLocalCluster e) (negb ps)); cbn [for_range app]; unfold on_nil, mbind, M_bind; cbn [act].
  - destruct (Source.ForCluster k "" local) as [[src b]|err]; [|done].
    destruct (m_world _ s) as [[err|] s1]; [done|]. cbn. destruct (Deref _ _); cbn; [|done].
    unfold on_nil, mbind, M_bind. by destruct (MultiClusterWatch _ _ _ s1) as [[?|] ?].
  - cbn. destruct (Deref _ _); cbn; [|done].
    unfold on_nil, mbind, M_bind. by destruct (MultiClusterWatch _ _ _ s) as [[?|] ?].
Qed.

Lemma for_range_flat_map {X} (f : X → list action) (body : X → M mstate (option error)) (l : list X) s :
  (∀ x s, body x s = for_range (f x) act s) → for_range l body s = for_range (flat_map f l) act s.
Proof.
  intros Hb. revert s. induction l as [|x l IH]; intros s; [done|].
  cbn [for_range flat_map]. rewrite for_range_app. unfold on_nil, mbind, M_bind. rewrite Hb.
  destruct (for_range (f x) act s) as [[e|] s1]; [done|apply IH].
Qed.

Lemma for_range_map_raw (l : list nat) s :
  for_range l (λ src, m_world (ask o (CallWatchPlain src))) s = for_range (map ARaw l) act s.
Proof.
  revert s. induction l as [|x l IH]; intros s; [done|].
  cbn [for_range map]. unfold on_nil, mbind, M_bind. cbn [act].
  destruct (m_world _ s) as [[e|] s1]; [done|apply IH].
Qed.

(** The static checks of [doWatch]. *)
Definition watchable (b : TypedBuilder) : Prop :=
  (f_object (b_forInput b) ≠ None → request_is ≠ None) ∧
  (f_object (b_forInput b) = None → b_ownsInput b = []) ∧
  (f_object (b_forInput b) = None → b_watchesInput b = [] → b_rawSources b = [] → False).

Lemma doWatch_plan ps b s : watchable b → doWatch ps b s = for_range (watch_plan ps b) act s.
Proof.
  intros (Hreq & Howns & Hsome). unfold doWatch, watch_plan, watch_for, watch_owns.
  assert (∀ s, (match b_watchesInput b, f_object (b_forInput b), b_rawSources b with
    | [], None, [] => mret (Some (Errorf "there are no watches configured, controller will never get triggered. Use For(), Owns(), Watches() or WatchesRawSource() to set them up"))
    | _, _, _ =>
      for_range (b_watchesInput b) (λ w, watch_kind ps (input_kind b (w_obj w) (w_handler w) (w_predicates w) (w_objectProjection w) (w_engage w)) (w_engage w)) ;?
      for_range (b_rawSources b) (λ src, m_world (ask o (CallWatchPlain src)))
    end) s = for_range (flat_map (λ w, kind_plan ps (watches_kind b w) (w_engage w)) (b_watchesInput b) ++ map ARaw (b_rawSources b)) act s) as Hlast.
  { intros s0. rewrite for_range_app. unfold on_nil, mbind, M_bind.
    rewrite <-(for_range_flat_map _ (λ w, watch_kind ps (watches_kind b w) (w_engage w))) by (intros; apply watch_kind_plan).
    destruct (b_watchesInput b), (f_object (b_forInput b)), (b_rawSources b); try (by destruct Hsome);
      (destruct (for_range _ _ s0) as [[e|] s1]; [done|apply for_range_map_raw]). }
  rewrite for_range_app. unfold on_nil, mbind, M_bind.
  destruct (f_object (b_forInput b)) as [obj|] eqn:Hobj.
  - destruct request_is as [e|]; [|by destruct (Hreq ltac:(done))].
    rewrite for_range_app. unfold on_nil, mbind, M_bind. rewrite watch_kind_plan. unfold for_kind at 1.
    destruct (for_range (kind_plan ps _ _) act s) as [[err|] s1]; [done|].
    rewrite <-(for_range_flat_map _ (λ own, watch_kind ps (own_kind b obj own) (o_engage own))) by (intros; apply watch_kind_plan).
    destruct (b_ownsInput b) as [|own owns]; [exact (Hlast s1)|]. unfold own_kind.
    destruct (for_range (own :: owns) _ s1) as [[err|] s2]; [done|]. exact (Hlast s2).
  - rewrite (Howns eq_refl). exact (Hlast s).
Qed.

Lemma act_sources a s :
  let '(err, s') := act a s in
  mc_clusters (m_c s') = mc_clusters (m_c s) ∧
  (err = None → mc_sources (m_c s') = mc_sources (m_c s) ++ map as_source (multi_kinds [a])).
Proof.
  destruct a as [k|k|src]; cbn [act].
  - destruct (Source.ForCluster k "" local) as [[ck b]|err]; [|done].
    unfold m_world, ask. simpl. by rewrite app_nil_r.
  - unfold MultiClusterWatch. unfold mbind at 1, M_bind at 1, gets. unfold on_nil, mbind, M_bind.
    set (body := λ kv : ClusterName * engagedCluster, watch_source o quote kv.1 (ec_cluster kv.2) (ec_ctx kv.2) (as_source k)).
    assert (let '(_, s1) := for_range (map_to_list (mc_clusters (m_c s))) body s in m_c s1 = m_c s) as H.
    { pose proof (for_range_calls (map_to_list (mc_clusters (m_c s))) body (λ _ _, True) s) as H.
      destruct (for_range _ body s) as [err s1]. destruct H as [(H & _) _]; [|done|exact H].
      intros kv s2. pose proof (watch_source_spec o quote kv.1 (ec_cluster kv.2) (ec_ctx kv.2) (as_source k) s2) as H.
      unfold body. destruct (watch_source _ _ _ _ _ _ s2). by destruct H. }
    destruct (for_range _ body s) as [[err|] s1]; simpl; rewrite H; done.
  - unfold m_world, ask. simpl. by rewrite app_nil_r.
Qed.

Lemma plan_sources l s :
  let '(err, s') := for_range l act s in
  mc_clusters (m_c s') = mc_clusters (m_c s) ∧
  (err = None → mc_sources (m_c s') = mc_sources (m_c s) ++ map as_source (multi_kinds l)).
Proof.
  revert s. induction l as [|a l IH]; intros s; cbn [for_range]; [by rewrite app_nil_r|].
  unfold on_nil, mbind, M_bind. pose proof (act_sources a s) as Ha.
  destruct (act a s) as [[err|] s1]; destruct Ha as [Hc Hs]; [done|]. specialize (IH s1).
  destruct (for_range l act s1) as [err s2]. destruct IH as [Hc2 Hs2]. split; [congruence|].
  intros He. rewrite (Hs2 He), (Hs eq_refl), <-app_assoc. f_equal. unfold multi_kinds. by destruct a.
Qed.

(** ** Properties *)

(** Complement (equivalence): [doWatch] runs a plan: the [For] object, the owned types and
    the watched types, in the order they were given, each on the local cluster
    and then on the provider's clusters as its options and the defaults say,
    and last the raw sources, up to the first error; when all succeed, exactly
    the kinds for the provider's clusters have become sources of the
    controller.  A builder that cannot be watched - [For] with another request
    type, [Owns] without [For], or nothing to watch - is an error. *)
Theorem doWatch_runs_the_plan ps b s :
  (watchable b →
     doWatch ps b s = for_range (watch_plan ps b) act s ∧
     mc_clusters (m_c (doWatch ps b s).2) = mc_clusters (m_c s) ∧
     ((doWatch ps b s).1 = None →
        mc_sources (m_c (doWatch ps b s).2) = mc_sources (m_c s) ++ map as_source (multi_kinds (watch_plan ps b)))) ∧
  (¬ watchable b → (doWatch ps b s).1 ≠ None).
Proof.
  split.
  - intros Hb. rewrite (doWatch_plan ps b s Hb). split; [done|].
    pose proof (plan_sources (watch_plan ps b) s) as H. by destruct (for_range _ act s).
  - intros Hb Hn. apply Hb. clear Hb. unfold watchable, doWatch, watch_for, watch_owns in *.
    destruct (f_object (b_forInput b)) as [obj|]; [destruct request_is; [|done]; by split_ands|].
    destruct (b_ownsInput b); [|done]. split_ands; try done. intros _ Hw Hr. by rewrite Hw, Hr in Hn.
Qed.

(** The manager answers as [NewTyped] does: a controller without sources. *)
Lemma default_newController_fresh name mgr co w c mgr' w' :
  default_newController name mgr co w = (Ok (c, mgr'), w') → mc_sources c = [] ∧ mc_clusters c = ∅.
Proof.
  unfold default_newController, NewTyped, NewTypedUnmanaged. unfold mbind, M_bind, mret, M_ret.
  destruct (built name co) as [a|e]; [|done].
  destruct (Manager.Add o mgr _ w) as [[m' [e|]] w1]; [done|]. by intros [= <- <- <-].
Qed.

Lemma doController_new b mgr r w c mgr' w' :
  b_newController b = None → doController b mgr r w = (Ok (c, mgr'), w') → mc_sources c = [] ∧ mc_clusters c = ∅.
Proof.
  intros Hnew. unfold doController. rewrite Hnew.
  destruct (co_Reconciler (b_ctrlOptions b)); [done|].
  destruct (match f_object (b_forInput b) with Some _ => _ | None => _ end) as [gvk|e]; [|done].
  destruct (getControllerName b gvk); [|done]. apply default_newController_fresh.
Qed.

(** What a controller that was built has: the kinds of the plan. *)
Lemma Build_sources b r mgr w c mgr' w' :
  b_newController b = None → b_mgr b = Some mgr → Build b (Some r) w = (Ok (c, mgr'), w') →
  watchable b ∧ mc_sources c = map as_source (multi_kinds (watch_plan (bool_decide (is_Some (GetProvider mgr))) b)) ∧
  mc_clusters c = ∅.
Proof.
  intros Hnew Hmgr. unfold Build. rewrite Hmgr. destruct (f_err (b_forInput b)); [done|].
  destruct (doController b mgr r w) as [[[c1 m1]|e] w1] eqn:Hc; [|done].
  destruct (doController_new _ _ _ _ _ _ _ Hnew Hc) as [Hs0 Hc0].
  set (ps := bool_decide _). set (s0 := MState c1 w1 0 []). intros Hb.
  assert (watchable b) as Hw.
  { clear -Hb. unfold watchable, doWatch, watch_for, watch_owns in *.
    destruct (f_object (b_forInput b)) as [obj|]; [destruct request_is; [|done]; by split_ands|].
    destruct (b_ownsInput b); [|done]. split_ands; try done. intros _ H1 H2. by rewrite H1, H2 in Hb. }
  rewrite (doWatch_plan ps b s0 Hw) in Hb.
  pose proof (plan_sources (watch_plan ps b) s0) as Hp. destruct (for_range _ act s0) as [[e|] s1]; [done|].
  destruct Hp as [Hcl Hso]. injection Hb as <- <- <-. specialize (Hso eq_refl). simpl in Hso, Hcl. rewrite Hs0 in Hso. rewrite Hc0 in Hcl.
  by split_ands.
Qed.

(** C19 (functional): what [Build] returns: a controller whose sources are exactly
    the kinds of the plan for the provider's clusters, and which has no cluster
    engaged; and when a cluster is then engaged without error, it is engaged
    under a fresh child of the given context, within which every one of these
    kinds that wants the cluster has been started on it. *)
Theorem Build_watches_engaged_clusters b r mgr w c mgr' w' ctx name cl :
  b_newController b = None → b_mgr b = Some mgr → Build b (Some r) w = (Ok (c, mgr'), w') →
  let kinds := multi_kinds (watch_plan (bool_decide (is_Some (GetProvider mgr))) b) in
  let engCtx := Ctx (cs_next (w_ctxs w') :: ctx_nodes ctx) (ctx_values ctx) in
  watchable b ∧ mc_sources c = map as_source kinds ∧ mc_clusters c = ∅ ∧
  let '(err, s') := Engage o quote ctx name cl (MState c w' 0 []) in
  (err = None →
   ec_ctx <$> mc_clusters (m_c s') !! name = Some engCtx ∧
   ∀ k ck, k ∈ kinds → Source.ForCluster k name cl = Ok (ck, true) →
     CallWatch (address ck) cl engCtx ∈ w_calls (m_w s')).
Proof.
  intros Hnew Hmgr Hb. destruct (Build_sources b r mgr w c mgr' w' Hnew Hmgr Hb) as (Hw & Hso & Hcl). cbv zeta.
  split; [done|]. split; [done|]. split; [done|]. set (s2 := MState c w' 0 []). rewrite Engage_eq.
  assert (mc_clusters (m_c s2) !! name = None) as Hnone by (simpl; by rewrite Hcl, lookup_empty).
  rewrite Hnone. pose proof (engage_new_spec o quote ctx name cl s2) as He.
  destruct (engage_new o quote ctx name cl s2) as [[e|] s3]; simpl; [done|]. intros _.
  destruct He as (_ & _ & _ & Hcs & _ & _ & _ & _ & Hsrc). split; [by rewrite Hcs, lookup_insert_eq|].
  intros k ck Hk Hck. destruct (Hsrc (as_source k)) as (n & should & Hn & Hcall).
  - simpl. rewrite Hso. apply list_elem_of_fmap. by exists k.
  - unfold as_source in Hn. rewrite Hck in Hn. injection Hn as <- <-. by apply Hcall.
Qed.

(** Complement (functional): asking for the provider's clusters takes effect also
    when the manager has no provider: the kind becomes a source of the
    controller, for clusters that are engaged by hand, besides being watched on
    the local cluster. *)
Theorem provider_option_acts_without_provider k :
  kind_plan false k (WithEngageWithProviderClusters true) = [ALocal k; AMulti k] ∧
  kind_plan false k no_engage = [ALocal k].
Proof. done. Qed.

(** Complement (error): [Build] fails without a reconciler, without a manager, when [For] was
    called twice, with a reconciler in the options, for a type of unknown kind,
    and without a name to use; the controller is then not made and nothing is
    watched. *)
Theorem Build_errors b r w :
  (∃ e, Build b None w = (Err e, w)) ∧
  (b_mgr b = None → ∃ e, Build b (Some r) w = (Err e, w)) ∧
  (∀ obj opts obj' opts', f_object (b_forInput b) = None →
     (∀ opt i, opt ∈ opts → f_object (opt i) = f_object i) →
     ∃ e, Build (For obj' opts' (For obj opts b)) (Some r) w = (Err e, w)) ∧
  (co_Reconciler (b_ctrlOptions b) ≠ None → ∃ e, Build b (Some r) w = (Err e, w)) ∧
  (∀ obj e, f_object (b_forInput b) = Some obj → GVKForObject obj local = Err e → ∃ e, Build b (Some r) w = (Err e, w)) ∧
  (f_object (b_forInput b) = None → b_name b = "" → ∃ e, Build b (Some r) w = (Err e, w)).
Proof.
  unfold Build. split_ands.
  - by eexists.
  - intros ->. by eexists.
  - intros obj opts obj' opts' Hn Hopts.
    assert (∃ x, f_object (b_forInput (For obj opts b)) = Some x) as [x Hx].
    { unfold For. rewrite Hn. simpl. exists obj. clear -Hopts. generalize (eq_refl (f_object (MkForInput (Some obj) [] projectAsNormal None no_engage))).
      generalize (MkForInput (Some obj) [] projectAsNormal None no_engage) at 1 3. simpl.
      induction opts as [|opt opts IH]; intros i Hi; simpl; [done|].
      apply IH; [intros; apply Hopts; by right|]. rewrite Hopts; [done|by left]. }
    revert Hx. generalize (For obj opts b). intros b1 Hx. unfold For. rewrite Hx. simpl.
    destruct (b_mgr b1); by eexists.
  - intros Hr. destruct (b_mgr b), (f_err (b_forInput b)); try by eexists.
    unfold doController. destruct (co_Reconciler (b_ctrlOptions b)); [|done]. by eexists.
  - intros obj e Ho Hg. destruct (b_mgr b), (f_err (b_forInput b)); try by eexists.
    unfold doController. rewrite Ho, Hg. destruct (co_Reconciler (b_ctrlOptions b)); by eexists.
  - intros Ho Hname. destruct (b_mgr b), (f_err (b_forInput b)); try by eexists.
    unfold doController, getControllerName. rewrite Ho, Hname.
    destruct (co_Reconciler (b_ctrlOptions b)); by eexists.
Qed.

(** Complement (functional): the controller is made with a reconciler that turns a
    not-found error into success and otherwise behaves like the given one - or
    is the given one, when the wrapper is disabled - and with the concurrency of
    the kind and the cache timeout of the manager unless they were set. *)
Theorem doController_wraps_the_reconciler b mgr r f gvk name w :
  co_Reconciler (b_ctrlOptions b) = None → b_newController b = Some f →
  match f_object (b_forInput b) with
  | Some obj => ∃ g, GVKForObject obj local = Ok g ∧ gvk = Some g
  | None => gvk = None
  end →
  getControllerName b gvk = Ok name →
  ∃ co rec, doController b mgr r w = f name mgr co w ∧ co_Reconciler co = Some rec ∧ co_LogConstructor co ≠ None ∧
    (∀ ctx req w, rec ctx req w =
       if Deref (b_enableClusterNotFoundWrapper b) true then
         let '(res, err, w') := r ctx req w in
         if IsOpt err "cluster not found" then (zero_Result, None, w') else (res, err, w')
       else r ctx req w) ∧
    (co_MaxConcurrentReconciles (b_ctrlOptions b) ≠ 0%Z →
       co_MaxConcurrentReconciles co = co_MaxConcurrentReconciles (b_ctrlOptions b)) ∧
    (∀ g n, gvk = Some g → co_MaxConcurrentReconciles (b_ctrlOptions b) = 0%Z →
       go_GroupKindConcurrency GetControllerOptions !! GroupKind_String g = Some n → (0 < n)%Z →
       co_MaxConcurrentReconciles co = n) ∧
    ((0 < go_CacheSyncTimeout GetControllerOptions)%Z →
       co_CacheSyncTimeout co = if bool_decide (co_CacheSyncTimeout (b_ctrlOptions b) = 0%Z)
                                then go_CacheSyncTimeout GetControllerOptions else co_CacheSyncTimeout (b_ctrlOptions b)).
Proof.
  intros Hr Hf Hg Hn. unfold doController. rewrite Hr, Hf.
  assert ((match f_object (b_forInput b) with
           | Some obj => match GVKForObject obj local with Ok g => Ok (Some g) | Err err => Err err end
           | None => Ok None
           end) = Ok gvk) as ->.
  { destruct (f_object (b_forInput b)); [|by subst gvk]. by destruct Hg as (g & -> & ->). }
  cbv zeta. rewrite Hn. cbn [Deref].
  set (co0 := controller_options b r gvk).
  eexists (match co_LogConstructor co0 with Some _ => co0 | None => MkCtrlOptions _ _ _ (Some (log_constructor name gvk)) end), _.
  split; [done|]. split; [by destruct (co_LogConstructor co0)|]. split; [by destruct (co_LogConstructor co0) eqn:E; [rewrite E|]|].
  split; [|split_ands].
  - intros ctx req w0. rewrite Hr. cbn [Deref]. destruct (Deref _ true); [|done]. apply Wrapper_Reconcile_spec.
  - intros Hm. destruct (co_LogConstructor co0); subst co0; simpl;
      (destruct gvk; [|done]; by rewrite bool_decide_eq_false_2).
  - intros g n -> Hz Hl Hp. destruct (co_LogConstructor co0); subst co0; simpl; rewrite Hl, bool_decide_eq_true_2 by done;
      by destruct (Z.ltb_spec 0 n); [|lia].
  - intros Ht. destruct (co_LogConstructor co0); subst co0; simpl;
      (destruct (Z.ltb_spec 0 (go_CacheSyncTimeout GetControllerOptions)); [|lia]); by case_bool_decide.
Qed.

(** Complement (functional): the engage options of an input are independent and the last of
    each kind wins, whatever their order; without them an input is watched on
    the provider's clusters when there is a provider, and on the local cluster
    otherwise; and the filter of [WithClustersFromProvider] accepts exactly the
    clusters the provider knows, under their names. *)
Theorem engage_options_merge {P'} {PP' : Provider P'} {PS : ProviderSpec P'} (ws : list EngageOptions) b obj ps k ctx (p : P') n cl :
  (f_object (b_forInput b) = None →
   f_engage (b_forInput (For obj (map engage_ApplyToFor ws) b)) =
     MkEngageOptions (last (omap engageWithLocalCluster ws)) (last (omap engageWithProviderClusters ws))
       (last (omap clusterFilter ws))) ∧
  kind_plan ps k no_engage = (if ps then [AMulti k] else [ALocal k]) ∧
  (∃ f, getClusterFilter (WithClustersFromProvider ctx p) = Some f ∧ (f n cl = true ↔ known p n = Some cl)).
Proof.
  split_ands.
  - intros Hn. unfold For. rewrite Hn. simpl. clear.
    induction ws as [|w ws IH] using rev_ind; [done|].
    rewrite map_app, fold_left_app. cbn [map fold_left].
    etransitivity; [exact (f_equal (merge_engage w) IH)|]. unfold merge_engage. cbn.
    rewrite !omap_app. cbn.
    destruct (engageWithLocalCluster w), (engageWithProviderClusters w), (clusterFilter w);
      rewrite ?last_snoc, ?app_nil_r; done.
  - by destruct ps.
  - unfold WithClustersFromProvider, getClusterFilter. simpl. eexists. split; [done|]. cbv beta.
    destruct (known p n) as [cl'|] eqn:Hk.
    + rewrite (provider_Get_known p ctx n cl' Hk). rewrite bool_decide_eq_true. split; congruence.
    + destruct (provider_Get_unknown p ctx n Hk) as (e & -> & _). done.
Qed.

End builder.

(** ** Examples *)

Definition idle_handler {object item} : TypedEventHandler object item := MkEventHandler _ _
  (λ _ _ _ _ q, q) (λ _ _ _ _ q, q) (λ _ _ _ _ q, q) (λ _ _ _ _ q, q).

Definition pod_kind (obj : client_Object) (cl : cluster) : result error GVK := Ok (MkGVK "" "v1" obj).
Definition ck_address (ck : clusterKind client_Object Request) : nat := 100 + ck_cl ck.
Definition no_globals : globalOptions := MkGlobalOptions {["Pod" := 4%Z]} 0.
Definition idle_reconciler : Reconciler Request := λ _ _, mret (zero_Result, Some ErrClusterNotFound).

(** A manager with a provider: [For] watches the provider's clusters. *)
Definition host_manager : mcManager unit basic := MkManager (Some tt) (Some (inl basic_New)).
Definition pods_builder : TypedBuilder (request:=Request) (P:=unit) (C:=basic) :=
  For "Pod" [] (ControllerManagedBy (Some host_manager)).

Definition build_pods : result error (mcController * mcManager unit basic) * world :=
  Build all_ok 0 id ck_address pod_kind gvk_Kind (Some eq_refl) idle_handler (λ _ _ _ _, idle_handler)
    no_globals [] gvk_Kind (λ _, None) (λ _, "") (λ _ _, Ok None)
    (λ _, MkRunnable 5 (ext_aware all_ok 5)) pods_builder (Some idle_reconciler) empty_world.

Lemma Build_watches_engaged_clusters_witness :
  match build_pods with
  | (Ok (c, _), w) =>
      mc_clusters c = ∅ ∧
      CallWatch 107 7 (Ctx [0] []) ∈ w_calls (m_w (Engage all_ok id Background "zoo" 7 (MState c w 0 [])).2)
  | _ => False
  end.
Proof.
  destruct build_pods as [[[c m]|e] w] eqn:Hb; [|by vm_compute in Hb].
  pose proof (Build_watches_engaged_clusters (P:=unit) (C:=basic) all_ok 0 id ck_address pod_kind gvk_Kind (Some eq_refl)
    idle_handler (λ _ _ _ _, idle_handler) no_globals [] gvk_Kind (λ _, None) (λ _, "") (λ _ _, Ok None)
    (λ _, MkRunnable 5 (ext_aware all_ok 5)) pods_builder idle_reconciler host_manager empty_world c m w
    Background "zoo" 7 eq_refl eq_refl Hb) as (_ & _ & Hcl & He).
  split; [exact Hcl|]. vm_compute in Hb. injection Hb as <- <- <-.
  destruct He as [_ He]; [reflexivity|]. eapply (He _ (MkClusterKind "zoo" 7 "Pod" _ [] 0 None None)); [by left|reflexivity].
Defined.

Definition recording_newController : newControllerFn (request:=Request) (P:=unit) (C:=basic) :=
  λ name mgr co, mret (Ok (MkController None ∅ [], mgr)).

Definition custom_builder : TypedBuilder (request:=Request) (P:=unit) (C:=basic) :=
  let b := pods_builder in
  MkBuilder (b_forInput b) (b_ownsInput b) (b_rawSources b) (b_watchesInput b) (b_mgr b) (b_globalPredicates b)
    (b_ctrlOptions b) (b_name b) (Some recording_newController) (b_enableClusterNotFoundWrapper b).

Lemma doController_wraps_the_reconciler_witness :
  ∃ (co : ctrlOptions) (rec : Reconciler Request),
    co_Reconciler co = Some rec ∧ co_MaxConcurrentReconciles co = 4%Z ∧
    ∀ req w, rec Background req w = ((zero_Result, None), w).
Proof.
  destruct (doController_wraps_the_reconciler all_ok 0 pod_kind no_globals [] gvk_Kind (λ _, None) (λ _, "")
    (λ _ _, Ok None) (λ _, MkRunnable 5 (ext_aware all_ok 5)) custom_builder host_manager idle_reconciler
    recording_newController (Some (MkGVK "" "v1" "Pod")) "pod" empty_world)
    as (co & rec & _ & Hrec & _ & Hr & _ & Hconc & _); [reflexivity..|by eexists|reflexivity|].
  exists co, rec. split; [exact Hrec|]. split; [by apply (Hconc (MkGVK "" "v1" "Pod") 4%Z)|].
  intros req w. by rewrite Hr.
Defined.
