(* ===== verification/Sha256.v ===== *)
(** * Go's crypto/sha256 and encoding/hex

    The providers fingerprint configurations with SHA-256.  The hash is
    executable: 32-bit words are integers, with wrap-around written out. *)

From S2P Require Import Prelude GoNum GoString.
Open Scope Z_scope.

Definition w32 (x : Z) : Z := x mod 2 ^ 32.
Definition add32 (x y : Z) : Z := w32 (x + y).
Definition not32 (x : Z) : Z := 2 ^ 32 - 1 - x.
Definition rotr (x n : Z) : Z := Z.lor (Z.shiftr x n) (w32 (Z.shiftl x (32 - n))).

Definition Ch (x y z : Z) : Z := Z.lxor (Z.land x y) (Z.land (not32 x) z).
Definition Maj (x y z : Z) : Z := Z.lxor (Z.lxor (Z.land x y) (Z.land x z)) (Z.land y z).
Definition Sigma0 (x : Z) : Z := Z.lxor (Z.lxor (rotr x 2) (rotr x 13)) (rotr x 22).
Definition Sigma1 (x : Z) : Z := Z.lxor (Z.lxor (rotr x 6) (rotr x 11)) (rotr x 25).
Definition sigma0 (x : Z) : Z := Z.lxor (Z.lxor (rotr x 7) (rotr x 18)) (Z.shiftr x 3).
Definition sigma1 (x : Z) : Z := Z.lxor (Z.lxor (rotr x 17) (rotr x 19)) (Z.shiftr x 10).

(** The constants of the standard are computed here: the first 32 bits of the
    fractional parts of roots of the first primes. *)
Definition is_prime (p : Z) : bool :=
  forallb (λ d, negb (p mod Z.of_nat d =? 0)) (seq 2 (Z.to_nat (Z.sqrt p) - 1)).

Definition primes (below : nat) : list Z := List.filter is_prime (Z.of_nat <$> seq 2 (below - 2)).

(** The integer cube root, bit by bit. *)
Definition cube_root (bits : nat) (x : Z) : Z :=
  fold_right (λ b r, let r' := r + 2 ^ Z.of_nat b in if r' * r' * r' <=? x then r' else r) 0 (seq 0 bits).

(** Cube roots of the first 64 primes. *)
Definition round_constants : list Z :=
  Eval vm_compute in (λ p, w32 (cube_root 36 (p * 2 ^ 96))) <$> primes 312.

(** The eight words of the state. *)
Record digest := Digest { d_a : Z; d_b : Z; d_c : Z; d_d : Z; d_e : Z; d_f : Z; d_g : Z; d_h : Z }.

(** Square roots of the first eight. *)
Definition initial_words : list Z := Eval vm_compute in (λ p, w32 (Z.sqrt (p * 2 ^ 64))) <$> primes 20.

Definition initial : digest :=
  let w i := nth i initial_words 0 in
  Digest (w 0%nat) (w 1%nat) (w 2%nat) (w 3%nat) (w 4%nat) (w 5%nat) (w 6%nat) (w 7%nat).

(** One round, with its constant and its word of the schedule. *)
Definition round (s : digest) (kw : Z * Z) : digest :=
  let t1 := add32 (d_h s) (add32 (Sigma1 (d_e s)) (add32 (Ch (d_e s) (d_f s) (d_g s)) (add32 kw.1 kw.2))) in
  let t2 := add32 (Sigma0 (d_a s)) (Maj (d_a s) (d_b s) (d_c s)) in
  Digest (add32 t1 t2) (d_a s) (d_b s) (d_c s) (add32 (d_d s) t1) (d_e s) (d_f s) (d_g s).

(** The schedule: each further word from the last sixteen, kept latest first. *)
Fixpoint schedule (n : nat) (rev_ws : list Z) : list Z :=
  match n with
  | O => reverse rev_ws
  | S n =>
      let w i := nth i rev_ws 0 in
      schedule n (add32 (sigma1 (w 1%nat)) (add32 (w 6%nat) (add32 (sigma0 (w 14%nat)) (w 15%nat))) :: rev_ws)
  end.

Definition add_digest (x y : digest) : digest :=
  Digest (add32 (d_a x) (d_a y)) (add32 (d_b x) (d_b y)) (add32 (d_c x) (d_c y)) (add32 (d_d x) (d_d y))
    (add32 (d_e x) (d_e y)) (add32 (d_f x) (d_f y)) (add32 (d_g x) (d_g y)) (add32 (d_h x) (d_h y)).

Definition block (s : digest) (words : list Z) : digest :=
  add_digest s (fold_left round (zip round_constants (schedule 48 (reverse words))) s).

(** Big-endian words of a list of bytes. *)
Fixpoint words (n : nat) (bs : list Z) : list Z :=
  match n, bs with
  | S n, a :: b :: c :: d :: bs => (((a * 256 + b) * 256 + c) * 256 + d) :: words n bs
  | _, _ => []
  end.

Fixpoint blocks (n : nat) (bs : list Z) (s : digest) : digest :=
  match n with
  | O => s
  | S n => blocks n (drop 64 bs) (block s (words 16 (take 64 bs)))
  end.

Fixpoint be_bytes (n : nat) (x : Z) : list Z :=
  match n with
  | O => []
  | S n => be_bytes n (x / 256) ++ [x mod 256]
  end.

(** The message, a one bit, zeros up to 56 modulo 64, and the length in bits. *)
Definition pad (bs : list Z) : list Z :=
  let len := Z.of_nat (length bs) in
  bs ++ [128] ++ repeat 0 (Z.to_nat ((55 - len) mod 64)) ++ be_bytes 8 ((8 * len) mod 2 ^ 64).

Definition sha256 (bs : list Z) : digest :=
  let m := pad bs in blocks (length m / 64) m initial.

(** [hex.EncodeToString] of the 32 bytes. *)
Definition hex_digit (x : Z) : Ascii.ascii :=
  Ascii.ascii_of_N (Z.to_N (if x <? 10 then 48 + x else 87 + x)).

Fixpoint hex_word (n : nat) (x : Z) (acc : string) : string :=
  match n with
  | O => acc
  | S n => hex_word n (x / 16) (String (hex_digit (x mod 16)) acc)
  end.

Definition hex_digest (s : digest) : string :=
  hex_word 8 (d_a s) (hex_word 8 (d_b s) (hex_word 8 (d_c s) (hex_word 8 (d_d s)
    (hex_word 8 (d_e s) (hex_word 8 (d_f s) (hex_word 8 (d_g s) (hex_word 8 (d_h s) ""))))))).

(** The standard's test vectors: no block boundary, and one. *)
Example sha256_abc :
  hex_digest (sha256 (string_bytes "abc")) = "ba7816bf8f01cfea414140de5dae2223b00361a396177a9cb410ff61f20015ad".
Proof. vm_compute. reflexivity. Qed.

Example sha256_two_blocks :
  hex_digest (sha256 (string_bytes "abcdbcdecdefdefgefghfghighijhijkijkljklmklmnlmnomnopnopq")) =
    "248d6a61d20638b8e5c026930c3e6039a33ce45964ff2167f6ecedd419db06c1".
Proof. vm_compute. reflexivity. Qed.

(** ** The shape of a fingerprint *)

Definition is_hex (c : Ascii.ascii) : bool :=
  let n := byte_val c in ((48 <=? n) && (n <=? 57)) || ((97 <=? n) && (n <=? 102)).

Lemma hex_digit_is_hex x : 0 <= x < 16 → is_hex (hex_digit x) = true.
Proof.
  intros Hx.
  assert (x = 0 ∨ x = 1 ∨ x = 2 ∨ x = 3 ∨ x = 4 ∨ x = 5 ∨ x = 6 ∨ x = 7 ∨ x = 8 ∨ x = 9 ∨ x = 10 ∨ x = 11 ∨
          x = 12 ∨ x = 13 ∨ x = 14 ∨ x = 15) as H by lia.
  by repeat destruct H as [->|H]; [..|subst x].
Qed.

Lemma hex_word_shape n x acc :
  String.length (hex_word n x acc) = (n + String.length acc)%nat ∧
  (all_chars is_hex acc = true → all_chars is_hex (hex_word n x acc) = true).
Proof.
  revert x acc. induction n as [|n IH]; intros x acc; [done|]. cbn [hex_word].
  destruct (IH (x / 16) (String (hex_digit (x mod 16)) acc)) as [H1 H2]. split.
  - rewrite H1. simpl. lia.
  - intros Ha. apply H2. simpl. rewrite hex_digit_is_hex, Ha; [done|]. apply Z.mod_pos_bound. lia.
Qed.

(** A fingerprint is 64 lower-case hexadecimal digits. *)
Lemma hex_digest_shape s :
  String.length (hex_digest s) = 64%nat ∧ all_chars is_hex (hex_digest s) = true.
Proof.
  unfold hex_digest. split.
  - by rewrite !(proj1 (hex_word_shape _ _ _)).
  - repeat apply hex_word_shape. done.
Qed.
