(* ===== verification/Objects.v ===== *)
(** * Objects of the host cluster, as the providers read them *)

From S2P Require Import Prelude GoErrors GoString Sha256 Multicluster Reconcile.

(** A [corev1.Secret]. *)
Record Secret := MkSecret {
  sec_Namespace : string;
  sec_Name : string;
  sec_Labels : gmap string string;
  sec_Deleting : bool;                 (** the deletion timestamp is set *)
  sec_Data : gmap string string;
}.

(** [types.NamespacedName.String], for the name of a request. *)
Definition NamespacedName_String (n : cr_Request) : string := Namespace n +:+ "/" +:+ Name n.

Definition slash : Ascii.ascii := Ascii.ascii_of_nat 47.
Definition no_slash (s : string) : bool := all_chars (λ c, negb (Ascii.eqb c slash)) s.

(** Namespaces contain no slash. *)
Lemma NamespacedName_String_inj n n' :
  no_slash (Namespace n) = true → no_slash (Namespace n') = true →
  NamespacedName_String n = NamespacedName_String n' → n = n'.
Proof.
  unfold no_slash. destruct n as [a b], n' as [a' b']. unfold NamespacedName_String. cbn [Namespace Name].
  revert a'. induction a as [|c a IH]; intros [|c' a'] Ha Ha' Heq.
  - injection Heq as Heq. exact (f_equal (MkCrRequest "") Heq).
  - injection Heq as <- _. done.
  - injection Heq as -> _. done.
  - injection Heq as -> Heq. apply andb_true_iff in Ha as [_ Ha], Ha' as [_ Ha'].
    specialize (IH a' Ha Ha' Heq). by injection IH as -> ->.
Qed.
