(* ===== verification/ActiveClusters.v ===== *)
(** * What the reconciling providers share: a map of active clusters

    The kubeconfig and the Cluster API provider keep, under a lock, a map from
    names to active clusters, and create, replace and remove its entries as
    objects of the host cluster come and go.  Their common code is here: the
    sections under the lock, the creation of a cluster, and the interleaving of
    reconciles with each other and with [IndexField].

    The abstract specification is [synced]: a provider maintains a map from
    names to fingerprints of configurations, and a reconcile brings the entry
    of one name to what is wished for it, or drops the entry and reports an
    error. *)

From S2P Require Import Prelude GoErrors GoContext Multicluster.

(** ** Specification *)

(** What a reconcile found out about its name: the cluster is to go, is to be
    left alone, or is to run with this configuration. *)
Inductive wish (H : Type) : Type :=
| WGone
| WKeep
| WRun (h : H).
Arguments WGone {H}.
Arguments WKeep {H}.
Arguments WRun {H} _.

Definition synced {H} `{EqDecision H} (name : ClusterName) (w : wish H) (err : option error)
    (v v' : gmap ClusterName H) : Prop :=
  match w with
  | WGone => err = None ∧ v' = delete name v
  | WKeep => v' = v
  | WRun h =>
      if bool_decide (v !! name = Some h) then err = None ∧ v' = v
      else match err with
           | None => v' = <[name := h]> v
           | Some _ => v' = delete name v
           end
  end.

(** ** State *)

(* src: providers/kubeconfig/provider.go:112-117 activeCluster *)
Record activeCluster := MkActive {
  ac_Cluster : cluster;
  ac_Context : context;
  ac_Cancel : cancel_func;
  ac_Hash : string;
}.

#[export] Instance activeCluster_eq_dec : EqDecision activeCluster.
Proof. solve_decision. Defined.

Record astate := AState {
  a_clusters : gmap ClusterName activeCluster;
  a_indexers : list Index;
  a_w : world;
}.

Definition a_world {B} (m : M world B) : M astate B := fun s =>
  let '(b, w) := m (a_w s) in (b, AState (a_clusters s) (a_indexers s) w).

(** The abstract state. *)
Definition hashes (s : astate) : gmap ClusterName string := ac_Hash <$> a_clusters s.

(** ** Sections under the lock *)

(* src: providers/kubeconfig/provider.go:119-126 Provider.getCluster *)
Definition getCluster (clusterName : ClusterName) (s : astate) : option activeCluster :=
  a_clusters s !! clusterName.

(* src: providers/kubeconfig/provider.go:128-134 Provider.setCluster *)
Definition setCluster (clusterName : ClusterName) (ac : activeCluster) : M astate unit :=
  modify (λ s, AState (<[clusterName := ac]> (a_clusters s)) (a_indexers s) (a_w s)).

(* src: providers/kubeconfig/provider.go:136-142 Provider.addIndexer *)
Definition addIndexer (idx : Index) : M astate unit :=
  modify (λ s, AState (a_clusters s) (a_indexers s ++ [idx]) (a_w s)).

(* src: providers/kubeconfig/provider.go:374-394 Provider.removeCluster *)
Definition removeCluster (clusterName : ClusterName) : M astate unit :=
  s ← get;
  match a_clusters s !! clusterName with
  | None => mret tt
  | Some ac =>
      _ ← put (AState (delete clusterName (a_clusters s)) (a_indexers s) (a_w s));
      a_world (w_cancel (ac_Cancel ac))
  end.

(** The wording of the two errors the providers phrase differently. *)
Class ErrorTexts := {
  sync_error : ClusterName → string;
  engage_error : ClusterName → string;
}.

Section active.
Context `{Tx : ErrorTexts} (o : oracle).

(** The manager the clusters are engaged with. *)
Context (mgr : nat).

(* src: providers/kubeconfig/provider.go:332-334 Provider.applyIndexers *)
Definition apply_index (ctx : context) (cl : cluster) (idx : Index) : M astate (option error) :=
  err ← a_world (ask o (CallIndex cl ctx idx));
  mret (match err with
        | Some err => Some (Wrap ("failed to index field " +:+ Index_Field idx) err)
        | None => None
        end).

(* src: providers/kubeconfig/provider.go:326-338 Provider.applyIndexers *)
Definition applyIndexers (ctx : context) (cl : cluster) : M astate (option error) :=
  s ← get;
  for_range (a_indexers s) (apply_index ctx cl).

(** The goroutine of the cluster only reports how [Start] ends. *)
(* src: providers/kubeconfig/provider.go:288-303 Provider.createAndEngageCluster *)
Definition start_and_sync (ctx : context) (clusterName : ClusterName) (cl : cluster) : M astate (context * cancel_func * option error) :=
  cc ← a_world (w_WithCancel ctx);
  let '(clusterCtx, cancel) := cc in
  _ ← a_world (ask o (CallStart cl clusterCtx));
  err ← a_world (ask o (CallSync cl clusterCtx));
  match err with
  | Some _ => _ ← a_world (w_cancel cancel); mret (clusterCtx, cancel, Some (Errorf (sync_error clusterName)))
  | None => mret (clusterCtx, cancel, None)
  end.

(* src: providers/kubeconfig/provider.go:315-319 Provider.createAndEngageCluster *)
Definition engage (clusterName : ClusterName) (cl : cluster) (clusterCtx : context) : M astate (option error) :=
  err ← a_world (ask o (CallEngage mgr clusterCtx clusterName cl));
  match err with
  | Some err => _ ← removeCluster clusterName; mret (Some (Wrap (engage_error clusterName) err))
  | None => mret None
  end.

(** Everything that follows the construction of the cluster. *)
(* src: providers/kubeconfig/provider.go:283-324 Provider.createAndEngageCluster *)
Definition create_cluster (ctx : context) (clusterName : ClusterName) (cl : cluster) (hashStr : string) :
  M astate (option error) :=
  applyIndexers ctx cl ;?
  (r ← start_and_sync ctx clusterName cl;
   let '(clusterCtx, cancel, err) := r in
   match err with
   | Some err => mret (Some err)
   | None =>
       _ ← setCluster clusterName (MkActive cl clusterCtx cancel hashStr);
       engage clusterName cl clusterCtx
   end).

(** The first error ends the loop over the clusters. *)
(* src: providers/kubeconfig/provider.go:353-357 Provider.IndexField *)
Definition index_active (ctx : context) (idx : Index) (kv : ClusterName * activeCluster) : M world (option error) :=
  err ← ask o (CallIndex (ac_Cluster kv.2) ctx idx);
  mret (match err with
        | Some err => Some (Wrap ("failed to index field " +:+ Index_Field idx +:+ " on cluster " +:+ kv.1) err)
        | None => None
        end).

(** ** Interleaving

    A reconcile that goes on to create a cluster is a task: before its
    indexers, waiting for the cache, about to store the cluster, or about to
    engage it.  controller-runtime does not reconcile one name twice at a time. *)

Inductive stage : Type :=
| TIndex
| TStart
| TStore (clusterCtx : context) (cancel : cancel_func)
| TEngage (clusterCtx : context).

Record task := MkTask {
  t_ctx : context;
  t_name : ClusterName;
  t_cl : cluster;
  t_hash : string;
  t_stage : stage;
}.

(** The active clusters, in the order in which Go iterates over the map. *)
Definition listing : Type := list (ClusterName * activeCluster).

Record asys := ASys {
  y_s : astate;
  y_tasks : list task;
  y_loops : list (context * Index * option listing);    (** [IndexField] after it has added its index *)
}.

Definition at_stage (t : task) (g : stage) : task := MkTask (t_ctx t) (t_name t) (t_cl t) (t_hash t) g.

(** The next section of a task, and what is left of it. *)
Definition task_step (t : task) : M astate (option task) :=
  match t_stage t with
  | TIndex =>
      err ← applyIndexers (t_ctx t) (t_cl t);
      mret (match err with Some _ => None | None => Some (at_stage t TStart) end)
  | TStart =>
      r ← start_and_sync (t_ctx t) (t_name t) (t_cl t);
      let '(clusterCtx, cancel, err) := r in
      mret (match err with Some _ => None | None => Some (at_stage t (TStore clusterCtx cancel)) end)
  | TStore clusterCtx cancel =>
      _ ← setCluster (t_name t) (MkActive (t_cl t) clusterCtx cancel (t_hash t));
      mret (Some (at_stage t (TEngage clusterCtx)))
  | TEngage clusterCtx =>
      _ ← engage (t_name t) (t_cl t) clusterCtx; mret None
  end.

(** What a reconcile does before it creates a cluster - in the provider's own
    code - and the cluster and fingerprint it goes on with. *)
Context {request : Type}.
Context (reconcile_head : context → request → M astate (option error * option (cluster * string))).
Context (request_name : request → ClusterName).

(** Whether [IndexField] lists the clusters in the section that adds the index, or
    in a section of its own. *)
Context (lists_at_once : bool).

Inductive ylabel : Type :=
| YReconcile (ctx : context) (r : request)
| YTask (i : nat)
| YIndexField (ctx : context) (idx : Index) (order : listing)
| YIndexLoop (i : nat) (order : listing)
| YNewCtx (parent : context)
| YCancel (n : cancel_func).

Definition yexec (l : ylabel) (s : asys) : option asys :=
  match l with
  | YReconcile ctx r =>
      if existsb (λ t, bool_decide (t_name t = request_name r)) (y_tasks s) then None else
      let '((_, next), s1) := reconcile_head ctx r (y_s s) in
      Some (ASys s1 (y_tasks s ++ match next with
                                  | Some (cl, h) => [MkTask ctx (request_name r) cl h TIndex]
                                  | None => []
                                  end) (y_loops s))
  | YTask i =>
      t ← y_tasks s !! i;
      let '(t', s1) := task_step t (y_s s) in
      Some (ASys s1 (delete i (y_tasks s) ++ option_list t') (y_loops s))
  | YIndexField ctx idx order =>
      if bool_decide (order ≡ₚ map_to_list (a_clusters (y_s s)))
      then Some (ASys (addIndexer idx (y_s s)).2 (y_tasks s)
                   (y_loops s ++ [(ctx, idx, if lists_at_once then Some order else None)]))
      else None
  | YIndexLoop i order =>
      ci ← y_loops s !! i;
      let '(ctx, idx, listed) := ci in
      if bool_decide (order ≡ₚ map_to_list (a_clusters (y_s s)))
      then Some (ASys (a_world (for_range (default order listed) (index_active ctx idx)) (y_s s)).2
                   (y_tasks s) (delete i (y_loops s)))
      else None
  | YNewCtx parent => Some (ASys (a_world (w_WithCancel parent) (y_s s)).2 (y_tasks s) (y_loops s))
  | YCancel n => Some (ASys (a_world (w_cancel n) (y_s s)).2 (y_tasks s) (y_loops s))
  end.

Definition yinit (s : asys) : Prop := y_s s = AState ∅ [] empty_world ∧ y_tasks s = [] ∧ y_loops s = [].
End active.

(** What the interleaving relies on in a provider's reconcile: it changes the
    state at most by removing its own cluster, and goes on to create one only
    when there is none. *)
Class ReconcileHead {request} (head : context → request → M astate (option error * option (cluster * string)))
    (request_name : request → ClusterName) : Prop := {
  head_state ctx r s : (head ctx r s).2 = s ∨ (head ctx r s).2 = (removeCluster (request_name r) s).2;
  head_next ctx r s : (head ctx r s).1.2 ≠ None → a_clusters (head ctx r s).2 !! request_name r = None;
}.

(** ** Lemmas *)
Section lemmas.
Context `{Tx : ErrorTexts} (o : oracle) (mgr : nat).
Implicit Types (s : astate).

Lemma removeCluster_eq name s :
  (removeCluster name s).2 =
    AState (delete name (a_clusters s)) (a_indexers s)
      (World (match a_clusters s !! name with Some ac => cancel (ac_Cancel ac) (w_ctxs (a_w s)) | None => w_ctxs (a_w s) end)
         (w_calls (a_w s))).
Proof.
  unfold removeCluster. unfold mbind, M_bind, get. destruct (a_clusters s !! name) eqn:E; [done|].
  rewrite (delete_id (a_clusters s)) by done. by destruct s as [? ? []].
Qed.

Lemma hashes_delete name s : hashes (removeCluster name s).2 = delete name (hashes s).
Proof. rewrite removeCluster_eq. unfold hashes. simpl. by rewrite fmap_delete. Qed.

Lemma removeCluster_None name s : a_clusters s !! name = None → (removeCluster name s).2 = s.
Proof. intros Hn. unfold removeCluster, mbind, M_bind, get. by rewrite Hn. Qed.

(** A step that only makes calls. *)
Definition only_calls s s' : Prop :=
  a_clusters s' = a_clusters s ∧ a_indexers s' = a_indexers s ∧ w_ctxs (a_w s') = w_ctxs (a_w s) ∧
  ∃ l, w_calls (a_w s') = w_calls (a_w s) ++ l ∧ ∀ cl ctx, CallStart cl ctx ∉ l.

Lemma only_calls_refl s : only_calls s s.
Proof. unfold only_calls. split_ands; try done. exists []. rewrite app_nil_r. split; [done|]. by intros cl ctx ?%elem_of_nil. Qed.

Lemma only_calls_trans s1 s2 s3 : only_calls s1 s2 → only_calls s2 s3 → only_calls s1 s3.
Proof.
  intros (? & ? & ? & l1 & K1 & Hl1) (? & ? & ? & l2 & K2 & Hl2). unfold only_calls. split_ands; [congruence..|].
  exists (l1 ++ l2). rewrite K2, K1, app_assoc. split; [done|]. set_solver.
Qed.

Lemma ask_only_calls c s :
  (∀ cl ctx, c ≠ CallStart cl ctx) → only_calls s (a_world (ask o c) s).2.
Proof.
  intros Hc. unfold only_calls. simpl. split_ands; try done. exists [c]. split; [done|].
  intros cl ctx Hin%list_elem_of_singleton. by apply (Hc cl ctx).
Qed.

Lemma for_range_only_calls {X} (l : list X) (body : X → M astate (option error)) (Q : astate → X → Prop) s :
  (∀ x s, let '(err, s') := body x s in only_calls s s' ∧ (err = None → Q s' x)) →
  (∀ x s s', only_calls s s' → Q s x → Q s' x) →
  let '(err, s') := for_range l body s in only_calls s s' ∧ (err = None → ∀ x, x ∈ l → Q s' x).
Proof.
  intros Hb Hm. revert s. induction l as [|x l IH]; intros s; cbn [for_range].
  { split; [apply only_calls_refl|]. by intros _ x ?%elem_of_nil. }
  unfold on_nil. unfold mbind, M_bind. specialize (Hb x s). destruct (body x s) as [[e|] s1]; destruct Hb as [H1 H2].
  - by split.
  - specialize (IH s1). destruct (for_range l body s1) as [err s']. destruct IH as [H3 H4].
    split; [by eapply only_calls_trans|]. intros He y [->|Hy]%elem_of_cons; [|by apply H4].
    eapply Hm; [done|by apply H2].
Qed.

Lemma applyIndexers_spec ctx cl s :
  let '(err, s') := applyIndexers o ctx cl s in
  only_calls s s' ∧ (err = None → ∀ i, i ∈ a_indexers s → CallIndex cl ctx i ∈ w_calls (a_w s')).
Proof.
  unfold applyIndexers. unfold mbind at 1, M_bind at 1, get.
  apply (for_range_only_calls (a_indexers s) (apply_index o ctx cl) (λ s i, CallIndex cl ctx i ∈ w_calls (a_w s))).
  - intros i s1. pose proof (ask_only_calls (CallIndex cl ctx i) s1 ltac:(done)) as H.
    unfold apply_index, mbind, M_bind. destruct (a_world _ s1) as [err s2] eqn:E. split; [exact H|].
    intros _. injection E as _ <-. simpl. set_solver.
  - intros i s1 s2 (_ & _ & _ & l & -> & _). set_solver.
Qed.

(** The context of a cluster that is being created. *)
Definition child (ctx : context) s : context := Ctx (cs_next (w_ctxs (a_w s)) :: ctx_nodes ctx) (ctx_values ctx).

Lemma start_and_sync_spec ctx name cl s :
  let n := cs_next (w_ctxs (a_w s)) in
  let '((c, k, err), s') := start_and_sync o ctx name cl s in
  c = child ctx s ∧ k = n ∧ a_clusters s' = a_clusters s ∧ a_indexers s' = a_indexers s ∧
  w_calls (a_w s') = w_calls (a_w s) ++ [CallStart cl c; CallSync cl c] ∧
  w_ctxs (a_w s') = match err with
                    | None => (WithCancel ctx (w_ctxs (a_w s))).2
                    | Some _ => cancel n (WithCancel ctx (w_ctxs (a_w s))).2
                    end.
Proof.
  unfold start_and_sync. unfold a_world, w_WithCancel, ask, w_cancel, mbind, M_bind, mret, M_ret. simpl.
  destruct (o _ _); simpl; rewrite <-app_assoc; done.
Qed.

Lemma engage_spec name cl c s :
  let '(err, s') := engage o mgr name cl c s in
  a_indexers s' = a_indexers s ∧ w_calls (a_w s') = w_calls (a_w s) ++ [CallEngage mgr c name cl] ∧
  match err with
  | None => a_clusters s' = a_clusters s ∧ w_ctxs (a_w s') = w_ctxs (a_w s)
  | Some _ => a_clusters s' = delete name (a_clusters s) ∧
              w_ctxs (a_w s') = match a_clusters s !! name with
                                | Some ac => cancel (ac_Cancel ac) (w_ctxs (a_w s))
                                | None => w_ctxs (a_w s)
                                end
  end.
Proof.
  unfold engage. unfold mbind, M_bind. destruct (a_world _ s) as [err s1] eqn:E.
  unfold a_world, ask in E. injection E as Ee <-. destruct err as [e|]; [|done].
  set (s1 := AState _ _ _). pose proof (removeCluster_eq name s1) as Hr.
  destruct (removeCluster name s1) as [[] s2]. simpl in Hr. subst s2. done.
Qed.

(** The indexers, when none is refused: the cluster was asked for exactly
    these, in this order, and accepted them. *)
Lemma applyIndexers_accepted ctx cl s s' :
  applyIndexers o ctx cl s = (None, s') →
  w_calls (a_w s') = w_calls (a_w s) ++ ((λ i, CallIndex cl ctx i) <$> a_indexers s) ∧
  ∀ i, i ∈ a_indexers s →
    answered_in o (w_calls (a_w s)) ((λ i, CallIndex cl ctx i) <$> a_indexers s) (CallIndex cl ctx i) None.
Proof.
  unfold applyIndexers. unfold mbind at 1, M_bind at 1, get. generalize (a_indexers s) as l. intros l. revert s.
  induction l as [|i l IH]; intros s; cbn [for_range].
  { intros [= <-]. simpl. rewrite app_nil_r. split; [done|]. by intros i ?%elem_of_nil. }
  unfold on_nil, apply_index. unfold mbind, M_bind, mret, M_ret, a_world, ask. simpl.
  destruct (o (w_calls (a_w s)) (CallIndex cl ctx i)) as [e|] eqn:Ho; [done|]. intros Hr.
  apply IH in Hr as [-> Ha]. simpl in *. rewrite <-app_assoc. split; [done|].
  intros j [->|Hj]%elem_of_cons; [rewrite <-Ho; apply answered_in_here|]. by apply (answered_in_app o _ [_]), Ha.
Qed.

Lemma start_and_sync_synced ctx name cl s c k s' :
  start_and_sync o ctx name cl s = ((c, k, None), s') →
  o (w_calls (a_w s) ++ [CallStart cl c]) (CallSync cl c) = None.
Proof.
  unfold start_and_sync. unfold a_world, w_WithCancel, ask, w_cancel, mbind, M_bind, mret, M_ret. simpl.
  destruct (o _ (CallSync _ _)) eqn:Ho; [done|]. by intros [= <- _ _].
Qed.

Lemma engage_accepted name cl c s s' :
  engage o mgr name cl c s = (None, s') → o (w_calls (a_w s)) (CallEngage mgr c name cl) = None.
Proof.
  unfold engage. unfold mbind, M_bind, a_world, ask. simpl. destruct (o _ _); [|done]. by destruct (removeCluster _ _).
Qed.

(** The calls that create a cluster, in their order: it is asked for every
    index, started, waited for and engaged. *)
Definition creation (ctx cctx : context) (name : ClusterName) (cl : cluster) (indexers : list Index) : list call :=
  ((λ i, CallIndex cl ctx i) <$> indexers) ++ [CallStart cl cctx; CallSync cl cctx; CallEngage mgr cctx name cl].

(** They are the calls of [s'] beyond those of [s], and each of them but the
    start, which only ends with the cluster, succeeded. *)
Definition created (ctx cctx : context) (name : ClusterName) (cl : cluster) s s' : Prop :=
  w_calls (a_w s') = w_calls (a_w s) ++ creation ctx cctx name cl (a_indexers s) ∧
  ∀ c, c ∈ creation ctx cctx name cl (a_indexers s) → c ≠ CallStart cl cctx →
    answered_in o (w_calls (a_w s)) (creation ctx cctx name cl (a_indexers s)) c None.

Lemma created_intro ctx cctx name cl s s' :
  w_calls (a_w s') = w_calls (a_w s) ++ creation ctx cctx name cl (a_indexers s) →
  (∀ i, i ∈ a_indexers s →
    answered_in o (w_calls (a_w s)) ((λ i, CallIndex cl ctx i) <$> a_indexers s) (CallIndex cl ctx i) None) →
  let h := w_calls (a_w s) ++ ((λ i, CallIndex cl ctx i) <$> a_indexers s) in
  o (h ++ [CallStart cl cctx]) (CallSync cl cctx) = None →
  o (h ++ [CallStart cl cctx; CallSync cl cctx]) (CallEngage mgr cctx name cl) = None →
  created ctx cctx name cl s s'.
Proof.
  intros Hc Hi h Hs He. split; [done|]. unfold creation. intros c [(i & -> & Hin)%list_elem_of_fmap|Hin]%elem_of_app Hne.
  { eapply answered_in_mono; [by eexists|]. by apply Hi. }
  apply answered_in_app. fold h.
  apply elem_of_cons in Hin as [?|[->|[->|?%elem_of_nil]%elem_of_cons]%elem_of_cons]; [done| | |done].
  - exists [CallStart cl cctx]. split; [by eexists [_]|done].
  - exists [CallStart cl cctx; CallSync cl cctx]. split; [by eexists []|done].
Qed.

Lemma create_cluster_spec ctx name cl h s :
  a_clusters s !! name = None →
  let '(err, s') := create_cluster o mgr ctx name cl h s in
  a_indexers s' = a_indexers s ∧
  match err with
  | None =>
      a_clusters s' = <[name := MkActive cl (child ctx s) (cs_next (w_ctxs (a_w s))) h]> (a_clusters s) ∧
      created ctx (child ctx s) name cl s s'
  | Some _ =>
      a_clusters s' = a_clusters s ∧
      (∀ c, CallStart cl c ∈ w_calls (a_w s') → CallStart cl c ∈ w_calls (a_w s) ∨ done_ctx c (w_ctxs (a_w s')) = true)
  end.
Proof.
  intros Hnone. unfold create_cluster, on_nil. unfold mbind at 1, M_bind at 1.
  pose proof (applyIndexers_spec ctx cl s) as Hi. destruct (applyIndexers o ctx cl s) as [[e|] s1] eqn:Eidx;
    destruct Hi as [(Hc & Hx & Hw & l & Hcs & Hl) _].
  { simpl. split; [done|]. split; [done|]. intros c. rewrite Hcs, elem_of_app. intros [?|?%Hl]; [by left|done]. }
  apply applyIndexers_accepted in Eidx as [Hcs1 Hacc]. unfold mbind at 1, M_bind at 1.
  pose proof (start_and_sync_spec ctx name cl s1) as Hs. destruct (start_and_sync o ctx name cl s1) as [[[c k] err] s2] eqn:Es.
  destruct Hs as (-> & -> & Hc2 & Hx2 & Hcs2 & Hw2). unfold child in *. rewrite Hw in *.
  destruct err as [e|].
  { simpl. rewrite Hc2, Hx2. split; [done|]. split; [done|]. intros c. rewrite Hcs2, Hcs, Hw2, !elem_of_app.
    intros [[?|?]|Hin]; [by left|by edestruct Hl|]. right.
    apply elem_of_cons in Hin as [[= ->]|[?|?%elem_of_nil]%elem_of_cons]; [|done..]. apply cancel_done. simpl. set_solver. }
  apply start_and_sync_synced in Es. unfold mbind, M_bind. unfold setCluster, modify at 1. simpl.
  set (n := cs_next (w_ctxs (a_w s))) in *. set (cc := Ctx (n :: ctx_nodes ctx) (ctx_values ctx)) in *.
  set (s3 := AState _ _ _). pose proof (engage_spec name cl cc s3) as He.
  destruct (engage o mgr name cl cc s3) as [err s4] eqn:Ee. destruct He as (Hx4 & Hcs4 & He).
  simpl in *. rewrite Hx4, Hx2. split; [done|]. destruct err as [e|]; destruct He as [Hc4 Hw4].
  - rewrite Hcs4, Hcs2, Hcs, Hc4, Hc2, Hc, delete_insert_id by done. split; [done|]. intros c.
    rewrite Hw4, lookup_insert_eq. simpl.
    rewrite !elem_of_app. intros [[[?|?]|Hin]|[?|?%elem_of_nil]%elem_of_cons]; [by left|by edestruct Hl| |done..]. right.
    apply elem_of_cons in Hin as [[= ->]|[?|?%elem_of_nil]%elem_of_cons]; [|done..]. apply cancel_done. simpl. set_solver.
  - rewrite Hc4, Hc2, Hc. split; [done|]. apply engage_accepted in Ee. simpl in Ee. rewrite Hcs2, Hcs1 in Ee. rewrite Hcs1 in Es.
    apply created_intro; [|done..]. rewrite Hcs4, Hcs2, Hcs1. unfold creation. by rewrite <-!app_assoc.
Qed.

End lemmas.

(** ** A reconcile implements the specification *)

(** What the head of a provider's reconcile does about what is wished for: it
    drops the cluster unless it is there as wished, and goes on to create the
    wished one or fails; [fails r] says when it fails although the cluster is to
    be left alone. *)
Class HeadSpec {request} (head : context → request → M astate (option error * option (cluster * string)))
    (request_name : request → ClusterName) (wished : request → wish string) (fails : request → Prop) : Prop :=
  head_spec ctx r s :
    let '((err, next), s1) := head ctx r s in
    match wished r with
    | WGone => err = None ∧ next = None ∧ s1 = (removeCluster (request_name r) s).2
    | WKeep => next = None ∧ s1 = s ∧ (err ≠ None ↔ fails r)
    | WRun h =>
        if bool_decide (hashes s !! request_name r = Some h) then err = None ∧ next = None ∧ s1 = s
        else s1 = (removeCluster (request_name r) s).2 ∧
             match next with Some (cl, h') => err = None ∧ h' = h | None => err ≠ None end
    end.

Section synced.
Context `{Tx : ErrorTexts} (o : oracle) (mgr : nat) {request : Type}.
Context (head : context → request → M astate (option error * option (cluster * string))).
Context (request_name : request → ClusterName) (wished : request → wish string) (fails : request → Prop).
Context {HS : HeadSpec head request_name wished fails}.

(** The whole reconcile. *)
Definition reconcile (ctx : context) (r : request) : M astate (option error) :=
  '(err, next) ← head ctx r;
  match next with
  | None => mret err
  | Some (cl, h) => create_cluster o mgr ctx (request_name r) cl h
  end.

Lemma HeadSpec_ReconcileHead : ReconcileHead head request_name.
Proof using HS.
  split.
  - intros ctx r s. pose proof (head_spec ctx r s) as H.
    destruct (head ctx r s) as [[err next] s1]. simpl.
    destruct (wished r); [right; tauto|left; tauto|].
    case_bool_decide; [left; tauto|right; tauto].
  - intros ctx r s Hn. pose proof (head_spec ctx r s) as H.
    destruct (head ctx r s) as [[err next] s1]. simpl in *.
    destruct (wished r); [by destruct H as (_ & -> & _)|by destruct H as (-> & _)|].
    case_bool_decide; [by destruct H as (_ & -> & _)|]. destruct H as [-> _].
    rewrite removeCluster_eq. simpl. apply lookup_delete_eq.
Qed.

(** The fingerprint of the cluster to create is the wished one. *)
Lemma HeadSpec_hash ctx r s cl h : (head ctx r s).1.2 = Some (cl, h) → wished r = WRun h.
Proof using HS.
  intros Hn. pose proof (head_spec ctx r s) as H. destruct (head ctx r s) as [[err next] s1]. simpl in Hn. subst next.
  destruct (wished r) as [| |h']; [by destruct H as (_ & ? & _)|by destruct H as (? & _)|].
  case_bool_decide; [by destruct H as (_ & ? & _)|]. by destruct H as (_ & _ & ->).
Qed.

Lemma reconcile_synced ctx r s :
  let '(err, s') := reconcile ctx r s in
  synced (request_name r) (wished r) err (hashes s) (hashes s') ∧
  (wished r = WKeep → s' = s ∧ (err ≠ None ↔ fails r)) ∧
  a_indexers s' = a_indexers s ∧
  (∀ h, wished r = WRun h → hashes s !! request_name r ≠ Some h → err = None →
     ∃ cl, a_clusters s' !! request_name r = Some (MkActive cl (child ctx s) (cs_next (w_ctxs (a_w s))) h) ∧
       created o mgr ctx (child ctx s) (request_name r) cl s s').
Proof using HS.
  unfold reconcile. unfold mbind, M_bind.
  pose proof (head_spec ctx r s) as H. destruct (head ctx r s) as [[err next] s1].
  assert (a_indexers (removeCluster (request_name r) s).2 = a_indexers s) as Hidx by (by rewrite removeCluster_eq).
  assert (child ctx (removeCluster (request_name r) s).2 = child ctx s ∧
          cs_next (w_ctxs (a_w (removeCluster (request_name r) s).2)) = cs_next (w_ctxs (a_w s))) as [Hch Hnx].
  { rewrite removeCluster_eq. unfold child. simpl. by destruct (a_clusters s !! request_name r). }
  assert (w_calls (a_w (removeCluster (request_name r) s).2) = w_calls (a_w s)) as Hcalls by (by rewrite removeCluster_eq).
  destruct (wished r) as [| |h].
  - destruct H as (-> & -> & ->). simpl. split_ands; try done. by rewrite hashes_delete.
  - destruct H as (-> & -> & He). simpl. by split_ands.
  - case_bool_decide as Hb.
    { destruct H as (-> & -> & ->). simpl. rewrite bool_decide_eq_true_2 by done. split_ands; try done.
      intros h' [= <-] Hne. done. }
    destruct H as [-> Hn]. destruct next as [[cl h']|].
    2:{ simpl. rewrite bool_decide_eq_false_2 by done. destruct err; [|done]. split_ands; try done. by rewrite hashes_delete. }
    destruct Hn as [-> ->]. set (s0 := (removeCluster (request_name r) s).2) in *.
    assert (a_clusters s0 !! request_name r = None) as Hnone by (unfold s0; rewrite removeCluster_eq; apply lookup_delete_eq).
    pose proof (create_cluster_spec o mgr ctx (request_name r) cl h s0 Hnone) as Hc.
    destruct (create_cluster o mgr ctx (request_name r) cl h s0) as [err s2]. destruct Hc as [Hi Hc].
    simpl. rewrite bool_decide_eq_false_2 by done. rewrite Hch, Hnx, Hidx in *.
    destruct err as [e|].
    + destruct Hc as [Hc _]. split_ands; try done. unfold hashes at 1. rewrite Hc. apply hashes_delete.
    + destruct Hc as (Hc & Hcr). unfold created in Hcr. rewrite Hidx, Hcalls in Hcr. split_ands; try done.
      * unfold hashes at 1. rewrite Hc, fmap_insert. simpl. change (ac_Hash <$> a_clusters s0) with (hashes s0).
        unfold s0. by rewrite hashes_delete, insert_delete_eq.
      * intros h' [= <-] _ _. exists cl. rewrite Hc, lookup_insert_eq. done.
Qed.

Lemma reconcile_converges ctx ctx' r s s1 :
  reconcile ctx r s = (None, s1) → reconcile ctx' r s1 = (None, s1).
Proof using HS.
  intros Hr. pose proof (reconcile_synced ctx r s) as Hs. rewrite Hr in Hs. destruct Hs as (Hs & Hk & _).
  unfold reconcile. unfold mbind, M_bind. pose proof (head_spec ctx' r s1) as H.
  destruct (head ctx' r s1) as [[err' next'] s1'].
  destruct (wished r) as [| |h]; simpl in Hs.
  - destruct H as (-> & -> & ->). destruct Hs as [_ Hs]. simpl. f_equal.
    rewrite removeCluster_eq. assert (a_clusters s1 !! request_name r = None) as Hn.
    { assert (hashes s1 !! request_name r = None) as Hh by (rewrite Hs; apply lookup_delete_eq).
      unfold hashes in Hh. rewrite lookup_fmap in Hh. by destruct (a_clusters s1 !! request_name r). }
    rewrite Hn, delete_id by done. by destruct s1 as [? ? []].
  - destruct H as (-> & -> & He'). destruct (Hk eq_refl) as [_ He]. simpl.
    destruct err' as [e|]; [|done]. exfalso. apply (proj2 He); [by apply He'|done].
  - assert (hashes s1 !! request_name r = Some h) as Hh.
    { clear H. case_bool_decide; [by destruct Hs as [_ ->]|]. rewrite Hs. apply lookup_insert_eq. }
    rewrite bool_decide_eq_true_2 in H by done. by destruct H as (-> & -> & ->).
Qed.
End synced.

(** ** No cluster is forgotten while it runs *)
Section leak.
Context `{Tx : ErrorTexts} (o : oracle) (mgr : nat) {request : Type}.
Context (head : context → request → M astate (option error * option (cluster * string))).
Context (request_name : request → ClusterName) {RH : ReconcileHead head request_name} (lists_at_once : bool).
Implicit Types (s : astate) (y : asys).

(** A started cluster is stopped, active, or about to be stored. *)
Definition accounted (cl : cluster) (ctx : context) y : Prop :=
  done_ctx ctx (w_ctxs (a_w (y_s y))) = true ∨
  (∃ name ac, a_clusters (y_s y) !! name = Some ac ∧ ac_Cluster ac = cl ∧ ac_Context ac = ctx) ∨
  ∃ t n, t ∈ y_tasks y ∧ t_cl t = cl ∧ t_stage t = TStore ctx n.

Definition task_ok s (t : task) : Prop :=
  match t_stage t with
  | TIndex | TStart => a_clusters s !! t_name t = None
  | TStore c n => a_clusters s !! t_name t = None ∧ n ∈ ctx_nodes c
  | TEngage _ => True
  end.

Record leak_inv y : Prop := {
  li_ctx : ∀ name ac, a_clusters (y_s y) !! name = Some ac → ac_Cancel ac ∈ ctx_nodes (ac_Context ac);
  li_names : NoDup (t_name <$> y_tasks y);
  li_tasks : ∀ t, t ∈ y_tasks y → task_ok (y_s y) t;
  li_acc : ∀ cl ctx, CallStart cl ctx ∈ w_calls (a_w (y_s y)) → accounted cl ctx y;
}.

(** Removing the cluster of a name. *)
Lemma leak_inv_remove y name ts :
  leak_inv y → NoDup (t_name <$> ts) → (∀ t, t ∈ ts → task_ok (removeCluster name (y_s y)).2 t) →
  (∀ t c n, t ∈ y_tasks y → t_stage t = TStore c n → t ∈ ts) →
  leak_inv (ASys (removeCluster name (y_s y)).2 ts (y_loops y)).
Proof.
  intros [H1 _ _ H4] Hnd Hts Hstore. rewrite removeCluster_eq in *. split; simpl; try done.
  - intros n ac [_ Hn]%lookup_delete_Some. by eapply H1.
  - intros cl ctx Hin. destruct (H4 cl ctx Hin) as [Hd|[(n & ac & Hn & <- & <-)|(t & n & Ht & <- & Hst)]]; unfold accounted; simpl.
    + left. destruct (a_clusters (y_s y) !! name); auto using cancel_mono.
    + destruct (decide (n = name)) as [->|Hne]; [left; rewrite Hn; apply cancel_done; by eapply H1|].
      right. left. exists n, ac. by rewrite lookup_delete_ne.
    + right. right. exists t, n. split; [|done]. by eapply Hstore.
Qed.

Lemma task_ok_remove name s t : task_ok s t → task_ok (removeCluster name s).2 t.
Proof.
  rewrite removeCluster_eq. unfold task_ok. destruct (t_stage t); simpl; rewrite ?lookup_delete_None; tauto.
Qed.

Lemma leak_inv_calls y s' :
  leak_inv y → a_clusters s' = a_clusters (y_s y) →
  (∀ ctx, done_ctx ctx (w_ctxs (a_w (y_s y))) = true → done_ctx ctx (w_ctxs (a_w s')) = true) →
  (∀ cl ctx, CallStart cl ctx ∈ w_calls (a_w s') → CallStart cl ctx ∈ w_calls (a_w (y_s y))) →
  ∀ loops, leak_inv (ASys s' (y_tasks y) loops).
Proof.
  intros [H1 H2 H3 H4] Hc Hd Hcs loops. split; simpl; try done.
  - by rewrite Hc.
  - intros t Ht. specialize (H3 t Ht). unfold task_ok in *. by rewrite Hc.
  - intros cl ctx Hin%Hcs. destruct (H4 cl ctx Hin) as [?|[?|?]]; unfold accounted; simpl; rewrite ?Hc; auto.
Qed.

(** Dropping a task that has nothing to store, after steps that only add calls. *)
Lemma names_delete (ts : list task) i t t' :
  NoDup (t_name <$> ts) → ts !! i = Some t → t_name t' = t_name t → NoDup (t_name <$> delete i ts ++ [t']).
Proof.
  intros Hnd Hi Hn. rewrite delete_take_drop, fmap_app. simpl. rewrite Hn.
  rewrite <-(take_drop_middle ts i t Hi), fmap_app in Hnd. simpl in Hnd.
  rewrite fmap_app. by rewrite <-app_assoc, (Permutation_app_comm (t_name <$> drop (S i) ts)).
Qed.

Lemma names_sub (ts : list task) i : NoDup (t_name <$> ts) → NoDup (t_name <$> delete i ts).
Proof. intros Hnd. eapply sublist_NoDup; [exact Hnd|]. apply fmap_sublist, sublist_delete. Qed.

Lemma names_other (ts : list task) i t u :
  NoDup (t_name <$> ts) → ts !! i = Some t → u ∈ delete i ts → t_name u ≠ t_name t.
Proof.
  intros Hnd Hi Hu Heq. rewrite <-(take_drop_middle ts i t Hi), fmap_app in Hnd. simpl in Hnd.
  apply NoDup_app in Hnd as (_ & Hd & Hnd%NoDup_cons_1_1). rewrite delete_take_drop in Hu.
  apply elem_of_app in Hu as [Hu|Hu].
  - apply (Hd (t_name u)); [by apply list_elem_of_fmap_2|]. rewrite Heq. left.
  - apply Hnd. rewrite <-Heq. by apply list_elem_of_fmap_2.
Qed.

(** A task's section, in the four stages. *)
Section leak_task.
Context (y : asys) (i : nat) (t : task).
Hypothesis (HI : leak_inv y) (Ht : y_tasks y !! i = Some t).

Lemma leak_task_ok : task_ok (y_s y) t.
Proof. by apply (li_tasks _ HI), (list_elem_of_lookup_2 _ i). Qed.

Lemma stores_elsewhere u c n :
  u ∈ y_tasks y → t_stage u = TStore c n → u ∈ delete i (y_tasks y) ∨ t_stage t = TStore c n ∧ u = t.
Proof. intros Hu Hst. destruct (elem_of_delete_or _ _ _ _ Ht Hu) as [->|?]; [by right|by left]. Qed.

(** A section that leaves the map alone: the task goes on as [t'] or ends. *)
Lemma leak_inv_ran s1 (t' : option task) :
  (∀ c n, t_stage t ≠ TStore c n) → a_clusters s1 = a_clusters (y_s y) →
  (∀ ctx, done_ctx ctx (w_ctxs (a_w (y_s y))) = true → done_ctx ctx (w_ctxs (a_w s1)) = true) →
  (∀ u, t' = Some u → t_name u = t_name t ∧ task_ok s1 u) →
  (∀ cl ctx, CallStart cl ctx ∈ w_calls (a_w s1) → CallStart cl ctx ∈ w_calls (a_w (y_s y)) ∨
     done_ctx ctx (w_ctxs (a_w s1)) = true ∨ ∃ u n, t' = Some u ∧ t_cl u = cl ∧ t_stage u = TStore ctx n) →
  leak_inv (ASys s1 (delete i (y_tasks y) ++ option_list t') (y_loops y)).
Proof.
  intros Hns Hc Hd Ht' Hcs. split; simpl.
  - rewrite Hc. apply HI.
  - destruct t' as [u|]; simpl; [|rewrite app_nil_r; apply names_sub, HI].
    eapply names_delete; [apply HI|done|by apply Ht'].
  - intros u [Hu%elem_of_delete_sub%(li_tasks _ HI)|Hu]%elem_of_app; [unfold task_ok in *; by rewrite Hc|].
    destruct t' as [u'|]; simpl in Hu; [|by apply elem_of_nil in Hu]. apply list_elem_of_singleton in Hu as ->. by apply Ht'.
  - intros cl ctx [Hin|[?|(u & n & -> & ? & ?)]]%Hcs; unfold accounted; simpl; [|by left|right; right; exists u, n; split; [apply elem_of_app; right; by left|done]].
    rewrite Hc. destruct (li_acc _ HI cl ctx Hin) as [?|[?|(u & n & Hu & Hcl & Hst)]]; auto.
    right. right. exists u, n. split; [|done]. destruct (stores_elsewhere u _ _ Hu Hst) as [?|[Hx _]]; [|by apply Hns in Hx].
    apply elem_of_app. by left.
Qed.

Lemma leak_inv_index s1 err :
  t_stage t = TIndex → applyIndexers o (t_ctx t) (t_cl t) (y_s y) = (err, s1) →
  leak_inv (ASys s1 (delete i (y_tasks y) ++ option_list (match err with Some _ => None | None => Some (at_stage t TStart) end)) (y_loops y)).
Proof.
  intros Hst Ha. pose proof leak_task_ok as Hok. unfold task_ok in Hok. rewrite Hst in Hok.
  pose proof (applyIndexers_spec o (t_ctx t) (t_cl t) (y_s y)) as Hx. rewrite Ha in Hx. destruct Hx as [(Hc & _ & Hw & l & Hcs & Hl) _].
  apply leak_inv_ran; [by rewrite Hst|done|by rewrite Hw| |].
  - intros u Hu. destruct err; [done|]. injection Hu as <-. split; [done|]. unfold task_ok. simpl. by rewrite Hc.
  - intros cl ctx. rewrite Hcs, elem_of_app. intros [Hin|Hin]; [by left|by apply Hl in Hin].
Qed.

Lemma leak_inv_started s1 c n err :
  t_stage t = TStart → start_and_sync o (t_ctx t) (t_name t) (t_cl t) (y_s y) = (c, n, err, s1) →
  leak_inv (ASys s1 (delete i (y_tasks y) ++ option_list (match err with Some _ => None | None => Some (at_stage t (TStore c n)) end)) (y_loops y)).
Proof.
  intros Hst Ha. pose proof leak_task_ok as Hok. unfold task_ok in Hok. rewrite Hst in Hok.
  pose proof (start_and_sync_spec o (t_ctx t) (t_name t) (t_cl t) (y_s y)) as Hx. rewrite Ha in Hx.
  destruct Hx as (-> & -> & Hc & _ & Hcs & Hw). apply leak_inv_ran; [by rewrite Hst|done| | |].
  - intros ctx Hd. rewrite Hw. destruct err; [by apply cancel_mono|done].
  - intros u Hu. destruct err; [done|]. injection Hu as <-. split; [done|]. unfold task_ok. simpl. rewrite Hc. split; [done|]. left.
  - intros cl ctx. rewrite Hcs, elem_of_app. intros [Hin|Hin]; [by left|right].
    apply elem_of_cons in Hin as [[= -> ->]|[?|?%elem_of_nil]%elem_of_cons]; [|done..]. destruct err.
    + left. rewrite Hw. apply cancel_done. left.
    + right. eexists _, _. done.
Qed.

Lemma leak_inv_stored c n :
  t_stage t = TStore c n →
  leak_inv (ASys (setCluster (t_name t) (MkActive (t_cl t) c n (t_hash t)) (y_s y)).2
             (delete i (y_tasks y) ++ [at_stage t (TEngage c)]) (y_loops y)).
Proof.
  intros Hst. pose proof leak_task_ok as Hok. unfold task_ok in Hok. rewrite Hst in Hok. destruct Hok as [Hnone Hn].
  split; simpl.
  - intros name ac [[<- <-]|[_ Hl]]%lookup_insert_Some; [done|by eapply (li_ctx _ HI)].
  - eapply names_delete; [apply HI|done|done].
  - intros u [Hu|Hu]%elem_of_app; [|by apply list_elem_of_singleton in Hu as ->].
    pose proof (names_other _ _ _ _ (li_names _ HI) Ht Hu) as Hne. apply elem_of_delete_sub, (li_tasks _ HI) in Hu.
    unfold task_ok in *. destruct (t_stage u); simpl; rewrite ?lookup_insert_ne by done; done.
  - intros cl ctx Hin. destruct (li_acc _ HI cl ctx Hin) as [?|[(nm & ac & Hl & ? & ?)|(u & m & Hu & <- & Hu2)]]; unfold accounted; simpl; auto.
    + right. left. exists nm, ac. split; [|done]. rewrite lookup_insert_ne; [done|]. intros <-. congruence.
    + destruct (stores_elsewhere u _ _ Hu Hu2) as [?|[Hx ->]]; [right; right; exists u, m; split; [set_solver|done]|].
      rewrite Hst in Hx. injection Hx as -> ->. right. left. eexists (t_name t), _. by rewrite lookup_insert_eq.
Qed.

Lemma leak_inv_engaged c :
  t_stage t = TEngage c → leak_inv (ASys (engage o mgr (t_name t) (t_cl t) c (y_s y)).2 (delete i (y_tasks y)) (y_loops y)).
Proof.
  intros Hst. pose proof (engage_spec o mgr (t_name t) (t_cl t) c (y_s y)) as He.
  destruct (engage o mgr (t_name t) (t_cl t) c (y_s y)) as [err s1]. destruct He as (_ & Hcs & He). simpl.
  assert (∀ cl ctx, CallStart cl ctx ∈ w_calls (a_w s1) → CallStart cl ctx ∈ w_calls (a_w (y_s y))) as Hcalls.
  { intros cl ctx. rewrite Hcs, elem_of_app. intros [?|[?|?%elem_of_nil]%elem_of_cons]; done. }
  assert (leak_inv (ASys (y_s y) (delete i (y_tasks y)) (y_loops y))) as HI'.
  { pose proof (leak_inv_ran (y_s y) None) as Hx. simpl in Hx. rewrite app_nil_r in Hx. apply Hx; try done; [by rewrite Hst|by left]. }
  destruct err as [e|]; destruct He as [Hc Hw].
  - assert (leak_inv (ASys (removeCluster (t_name t) (y_s y)).2 (delete i (y_tasks y)) (y_loops y))) as HR.
    { apply (leak_inv_remove (ASys (y_s y) (delete i (y_tasks y)) (y_loops y))); [done|apply HI'| |done].
      intros u Hu. apply task_ok_remove, (li_tasks _ HI' u Hu). }
    rewrite removeCluster_eq in HR. eapply (leak_inv_calls (ASys _ _ _) _ HR); simpl; [done| |done]. intros ctx. by rewrite Hw.
  - eapply (leak_inv_calls _ s1 HI'); simpl; [done| |done]. intros ctx. by rewrite Hw.
Qed.
End leak_task.

Lemma leak_inv_task y i y' :
  leak_inv y → yexec o mgr head request_name lists_at_once (YTask i) y = Some y' → leak_inv y'.
Proof.
  intros HI Hs. cbn [yexec] in Hs. destruct (y_tasks y !! i) as [t|] eqn:Ht; [|done]. simpl in Hs.
  unfold task_step in Hs. destruct (t_stage t) as [| |c n|c] eqn:Hst; unfold mbind, M_bind in Hs.
  - destruct (applyIndexers o (t_ctx t) (t_cl t) (y_s y)) as [err s1] eqn:Ha. injection Hs as <-. by apply leak_inv_index.
  - destruct (start_and_sync o (t_ctx t) (t_name t) (t_cl t) (y_s y)) as [[[c n] err] s1] eqn:Ha. injection Hs as <-.
    by apply leak_inv_started.
  - injection Hs as <-. by apply leak_inv_stored.
  - pose proof (leak_inv_engaged y i t HI Ht c Hst) as He.
    destruct (engage o mgr (t_name t) (t_cl t) c (y_s y)) as [err s1]. injection Hs as <-. simpl. by rewrite app_nil_r.
Qed.

Lemma leak_inv_step l y y' :
  leak_inv y → yexec o mgr head request_name lists_at_once l y = Some y' → leak_inv y'.
Proof.
  intros HI Hs. destruct l as [ctx r|i|ctx idx order|i order|parent|n]; [|by eapply leak_inv_task|..]; cbn [yexec] in Hs.
  - destruct (existsb _ _) eqn:Hex; [done|]. pose proof (head_state ctx r (y_s y)) as Hst. pose proof (head_next ctx r (y_s y)) as Hnx.
    destruct (head ctx r (y_s y)) as [[err next] s1]. simpl in Hst, Hnx. injection Hs as <-.
    assert (∀ t, t ∈ y_tasks y → t_name t ≠ request_name r) as Hfresh.
    { intros t Ht Heq. apply not_true_iff_false in Hex. apply Hex, existsb_exists. exists t.
      rewrite <-list_elem_of_In. split; [done|]. by apply bool_decide_eq_true_2. }
    set (ts := y_tasks y ++ _).
    assert (NoDup (t_name <$> ts)) as Hnd.
    { unfold ts. rewrite fmap_app. apply NoDup_app. split; [apply HI|]. split; [|destruct next as [[]|]; repeat constructor; set_solver].
      intros n (t & -> & Ht)%list_elem_of_fmap. destruct next as [[]|]; simpl; [|apply not_elem_of_nil].
      rewrite list_elem_of_singleton. by apply Hfresh. }
    assert (∀ t, t ∈ ts → t ∈ y_tasks y ∨ next ≠ None ∧ t_name t = request_name r ∧ t_stage t = TIndex) as Hts.
    { unfold ts. intros t [?|Ht]%elem_of_app; [by left|right]. destruct next as [[]|]; [|by apply elem_of_nil in Ht].
      by apply list_elem_of_singleton in Ht as ->. }
    destruct Hst as [->| ->].
    + destruct HI as [H1 H2 H3 H4]. split; simpl; try done.
      * intros t [Ht|(Hn & Hname & Hstage)]%Hts; [by apply H3|]. unfold task_ok. rewrite Hstage, Hname. by apply Hnx.
      * intros cl c Hin. destruct (H4 cl c Hin) as [?|[?|(u & n & Hu & ?)]]; unfold accounted; simpl; auto.
        right. right. exists u, n. split; [|done]. unfold ts. set_solver.
    + apply (leak_inv_remove y); [done|done| |intros t c n Ht _; unfold ts; set_solver].
      intros t [Ht|(Hn & Hname & Hstage)]%Hts; [by apply task_ok_remove, HI|]. unfold task_ok. rewrite Hstage, Hname. by apply Hnx.
  - case_bool_decide; [|done]. injection Hs as <-. by apply (leak_inv_calls y).
  - destruct (y_loops y !! i) as [[[ctx idx] listed]|]; [|done]. simpl in Hs. case_bool_decide; [|done]. injection Hs as <-.
    assert (∀ l s, let '(err, s') := a_world (for_range l (index_active o ctx idx)) s in only_calls s s') as Hl.
    { induction l as [|kv l IH]; intros s; [destruct s; apply only_calls_refl|]. unfold a_world. cbn [for_range]. unfold on_nil, mbind, M_bind.
      pose proof (ask_only_calls o (CallIndex (ac_Cluster kv.2) ctx idx) s ltac:(done)) as Hq.
      unfold index_active. unfold mbind, M_bind, mret, M_ret. unfold a_world in Hq.
      destruct (ask o _ (a_w s)) as [[e|] w1]; simpl in *; [done|].
      specialize (IH (AState (a_clusters s) (a_indexers s) w1)). unfold a_world in IH. simpl in IH.
      destruct (for_range l _ w1) as [err w2]. by eapply only_calls_trans. }
    specialize (Hl (default order listed) (y_s y)). destruct (a_world _ (y_s y)) as [err s1]. destruct Hl as (Hc & _ & Hw & l & Hcs & Hnl).
    apply (leak_inv_calls y); simpl; [done|done|intros c; by rewrite Hw|].
    intros cl c. rewrite Hcs, elem_of_app. intros [?|Hin]; [done|by apply Hnl in Hin].
  - injection Hs as <-. by apply (leak_inv_calls y).
  - injection Hs as <-. apply (leak_inv_calls y); simpl; try done. intros c. apply cancel_mono.
Qed.

(** At rest - no reconcile in progress - every cluster that has been started and
    whose context is live is active under some name. *)
Lemma started_are_active y :
  reachable (yexec o mgr head request_name lists_at_once) yinit y → y_tasks y = [] →
  ∀ cl ctx, CallStart cl ctx ∈ w_calls (a_w (y_s y)) → done_ctx ctx (w_ctxs (a_w (y_s y))) = false →
  ∃ name ac, a_clusters (y_s y) !! name = Some ac ∧ ac_Cluster ac = cl ∧ ac_Context ac = ctx.
Proof.
  intros Hr Hts cl ctx Hin Hd.
  assert (leak_inv y) as HI.
  { apply (invariant_reachable (yexec o mgr head request_name lists_at_once) yinit leak_inv);
      [|intros; by eapply leak_inv_step|done].
    intros y0 (Hs & Ht & _). split; rewrite ?Hs, ?Ht; simpl.
    - done.
    - apply NoDup_nil_2.
    - by intros t ?%elem_of_nil.
    - by intros cl' ctx' ?%elem_of_nil. }
  destruct (li_acc _ HI cl ctx Hin) as [?|[?|(t & n & Ht & _)]]; [congruence|done|].
  rewrite Hts in Ht. by apply elem_of_nil in Ht.
Qed.
End leak.

(** ** Fingerprints *)
Section fingerprints.
Context `{Tx : ErrorTexts} (o : oracle) (mgr : nat) {request : Type}.
Context (head : context → request → M astate (option error * option (cluster * string))).
Context (request_name : request → ClusterName) {RH : ReconcileHead head request_name} (lists_at_once : bool).

(** A property of all fingerprints a reconcile starts from. *)
Context (P : string → Prop) (head_hash : ∀ ctx r s cl h, (head ctx r s).1.2 = Some (cl, h) → P h).

Definition hashes_ok (y : asys) : Prop :=
  (∀ name ac, a_clusters (y_s y) !! name = Some ac → P (ac_Hash ac)) ∧ (∀ t, t ∈ y_tasks y → P (t_hash t)).

Lemma hashes_ok_state y s' : (∀ name ac, a_clusters s' !! name = Some ac → a_clusters (y_s y) !! name = Some ac ∨ P (ac_Hash ac)) →
  hashes_ok y → ∀ ts loops, (∀ t, t ∈ ts → t ∈ y_tasks y ∨ P (t_hash t)) → hashes_ok (ASys s' ts loops).
Proof.
  intros Hs [H1 H2] ts loops Ht. split; simpl.
  - intros name ac [?|?]%Hs; [by eapply H1|done].
  - intros t [?|?]%Ht; [by apply H2|done].
Qed.

Lemma hashes_ok_task y i t t' s' :
  hashes_ok y → y_tasks y !! i = Some t → task_step o mgr t (y_s y) = (t', s') →
  ∀ loops, hashes_ok (ASys s' (delete i (y_tasks y) ++ option_list t') loops).
Proof.
  intros HI Hi Hs loops. pose proof HI as [H1 H2]. pose proof (H2 t (list_elem_of_lookup_2 _ _ _ Hi)) as Hp.
  apply (hashes_ok_state y); [|done|].
  - intros name ac Hl. unfold task_step in Hs. destruct (t_stage t); unfold mbind, M_bind in Hs.
    + pose proof (applyIndexers_spec o (t_ctx t) (t_cl t) (y_s y)) as Ha. destruct (applyIndexers _ _ _ _) as [? s1].
      injection Hs as _ <-. destruct Ha as [[<- _] _]. by left.
    + pose proof (start_and_sync_spec o (t_ctx t) (t_name t) (t_cl t) (y_s y)) as Ha. destruct (start_and_sync _ _ _ _ _) as [[[? ?] ?] s1].
      injection Hs as _ <-. destruct Ha as (_ & _ & <- & _). by left.
    + injection Hs as _ <-. simpl in Hl. apply lookup_insert_Some in Hl as [[_ <-]|[_ Hl]]; [by right|by left].
    + pose proof (engage_spec o mgr (t_name t) (t_cl t) clusterCtx (y_s y)) as Ha. destruct (engage _ _ _ _ _ _) as [e s1].
      injection Hs as _ <-. left. destruct Ha as (_ & _ & Ha). destruct e; destruct Ha as [Ha _]; rewrite Ha in Hl; [|done].
      by apply lookup_delete_Some in Hl as [_ Hl].
  - intros u [Hu|Hu]%elem_of_app; [left; by eapply elem_of_delete_sub|]. right.
    assert (t_hash u = t_hash t) as ->; [|done]. unfold task_step in Hs.
    destruct (t_stage t); unfold mbind, M_bind in Hs.
    + destruct (applyIndexers _ _ _ _) as [[?|] s1]; injection Hs as <- _; [by apply elem_of_nil in Hu|].
      by apply list_elem_of_singleton in Hu as ->.
    + destruct (start_and_sync _ _ _ _ _) as [[[? ?] [?|]] s1]; injection Hs as <- _; [by apply elem_of_nil in Hu|].
      by apply list_elem_of_singleton in Hu as ->.
    + injection Hs as <- _. by apply list_elem_of_singleton in Hu as ->.
    + destruct (engage _ _ _ _ _ _). injection Hs as <- _. by apply elem_of_nil in Hu.
Qed.

Lemma reachable_hashes_ok y : reachable (yexec o mgr head request_name lists_at_once) yinit y → hashes_ok y.
Proof.
  apply (invariant_reachable _ _ hashes_ok).
  { intros y0 (Hs & Ht & _). split; rewrite ?Hs, ?Ht; simpl; [done|by intros t ?%elem_of_nil]. }
  intros y0 l y' HI Hs. destruct l as [ctx r|i|ctx idx order|i order|parent|n]; cbn [yexec] in Hs.
  - destruct (existsb _ _); [done|]. pose proof (head_state ctx r (y_s y0)) as Hst. pose proof (head_hash ctx r (y_s y0)) as Hh.
    destruct (head ctx r (y_s y0)) as [[err next] s1]. simpl in *. injection Hs as <-. apply (hashes_ok_state y0); [|done|].
    + intros name ac Hl. left. destruct Hst as [->| ->]; [done|]. rewrite removeCluster_eq in Hl. simpl in Hl.
      by apply lookup_delete_Some in Hl as [_ Hl].
    + intros t [?|Ht]%elem_of_app; [by left|right]. destruct next as [[cl h]|]; [|by apply elem_of_nil in Ht].
      apply list_elem_of_singleton in Ht as ->. by eapply Hh.
  - destruct (y_tasks y0 !! i) as [t|] eqn:Hi; [|done]. simpl in Hs. destruct (task_step _ _ _ _) as [t' s1] eqn:Ht.
    injection Hs as <-. by eapply hashes_ok_task.
  - case_bool_decide; [|done]. injection Hs as <-. apply (hashes_ok_state y0); auto.
  - destruct (y_loops y0 !! i) as [[[ctx idx] listed]|]; [|done]. simpl in Hs. case_bool_decide; [|done]. injection Hs as <-.
    unfold a_world. destruct (for_range _ _ _). apply (hashes_ok_state y0); auto.
  - injection Hs as <-. apply (hashes_ok_state y0); auto.
  - injection Hs as <-. apply (hashes_ok_state y0); auto.
Qed.
End fingerprints.
