(* ===== verification/KubeconfigProvider.v ===== *)
(** * providers/kubeconfig: clusters from kubeconfig Secrets

    A controller of the host manager reconciles the labelled Secrets of one
    namespace: the cluster of a Secret has the Secret's name and runs with the
    kubeconfig in its data, replaced when the data's fingerprint changes.
    Parsing a kubeconfig and constructing a cluster belong to client-go and
    controller-runtime; what they answer, and what the API server answers to a
    [Get], comes with the request. *)

From S2P Require Import Prelude GoErrors GoContext GoNum GoString Sha256 Multicluster Reconcile Objects ActiveClusters.

(* src: providers/kubeconfig/provider.go:46-55 DefaultKubeconfigSecretLabel *)
Definition DefaultKubeconfigSecretLabel : string := "sigs.k8s.io/multicluster-runtime-kubeconfig".
Definition DefaultKubeconfigSecretKey : string := "kubeconfig".
Definition DefaultControllerName : string := "kubeconfig-provider".

Section kubeconfig.
(** client-go's [rest.Config]. *)
Context {rest_Config : Type} (RESTConfigFromKubeConfig : string → result error rest_Config).

(* src: providers/kubeconfig/provider.go:79-93 Options *)
Record Options := MkOptions {
  opt_Namespace : string;
  KubeconfigSecretLabel : string;
  KubeconfigSecretKey : string;
  RESTOptions : list (rest_Config → result error rest_Config);
  ControllerName : string;
}.

#[export] Instance kube_ErrorTexts : ErrorTexts := {
  sync_error _ := "failed to wait for cache sync";
  engage_error _ := "failed to engage manager";
}.

Definition or_default (s d : string) : string := if bool_decide (s = "") then d else s.

(** The provider's options; its clusters and indexers are an [astate]. *)
(* src: providers/kubeconfig/provider.go:59-77 New *)
Definition kube_New (opts : Options) : Options * astate :=
  (MkOptions (opt_Namespace opts) (or_default (KubeconfigSecretLabel opts) DefaultKubeconfigSecretLabel)
     (or_default (KubeconfigSecretKey opts) DefaultKubeconfigSecretKey) (RESTOptions opts)
     (or_default (ControllerName opts) DefaultControllerName),
   AState ∅ [] empty_world).

(** [Get] by name returns the Secret of that name. *)
Inductive secret_answer : Type :=
| SecretIs (labels : gmap string string) (deleting : bool) (data : gmap string string)
| SecretNotFound
| SecretError (e : error).

(** A request to reconcile, and what its calls are answered. *)
Record kube_request := MkKubeRequest {
  kr_req : cr_Request;
  kr_secret : secret_answer;
  kr_newCluster : rest_Config → result error cluster;   (** [cluster.New] *)
}.

Definition kr_name (r : kube_request) : ClusterName := Name (kr_req r).

(** Which Secrets are reconciled. *)
(* src: providers/kubeconfig/provider.go:171-177 Provider.SetupWithManager *)
Definition secret_predicate (opts : Options) (obj : Secret) : bool :=
  bool_decide (sec_Namespace obj = opt_Namespace opts) &&
  bool_decide (sec_Labels obj !! KubeconfigSecretLabel opts = Some "true").

(** [complete] is what building the controller of Secrets answers, given its name
    and predicate. *)
(* src: providers/kubeconfig/provider.go:153-185 Provider.SetupWithManager *)
Definition SetupWithManager (opts : Options) (mgr localMgr : option nat)
    (complete : string → (Secret → bool) → option error) : option error :=
  match mgr, localMgr with
  | None, _ => Some (Errorf "manager is nil")
  | _, None => Some (Errorf "local manager is nil")
  | _, _ => match complete (ControllerName opts) (secret_predicate opts) with
            | Some err => Some (Wrap "failed to create controller" err)
            | None => None
            end
  end.

(* src: providers/kubeconfig/provider.go:144-151 Provider.Get *)
Definition kube_Get (s : astate) (ctx : context) (clusterName : ClusterName) : result error cluster :=
  match getCluster clusterName s with
  | None => Err ErrClusterNotFound
  | Some ac => Ok (ac_Cluster ac)
  end.

(** In an unspecified order. *)
(* src: providers/kubeconfig/provider.go:362-372 Provider.ListClusters *)
Definition ListClusters (s : astate) : list ClusterName := (map_to_list (a_clusters s)).*1.

(* src: providers/kubeconfig/provider.go:242-252 Provider.getSecret *)
Definition getSecret (r : kube_request) : result error (option Secret) :=
  match kr_secret r with
  | SecretIs labels deleting data => Ok (Some (MkSecret (Namespace (kr_req r)) (Name (kr_req r)) labels deleting data))
  | SecretNotFound => Ok None
  | SecretError err => Err (Wrap "failed to get secret" err)
  end.

(* src: providers/kubeconfig/provider.go:254-259 Provider.hashKubeconfig *)
Definition hashKubeconfig (kubeconfigData : string) : string := hex_digest (sha256 (string_bytes kubeconfigData)).

(* src: providers/kubeconfig/provider.go:269-274 Provider.createAndEngageCluster *)
Fixpoint apply_options (opts : list (rest_Config → result error rest_Config)) (cfg : rest_Config) : result error rest_Config :=
  match opts with
  | [] => Ok cfg
  | opt :: opts =>
      match opt cfg with
      | Err err => Err (Wrap "failed to apply REST option" err)
      | Ok cfg => apply_options opts cfg
      end
  end.

(** The cluster is constructed, not yet started. *)
(* src: providers/kubeconfig/provider.go:263-281 Provider.createAndEngageCluster *)
Definition new_cluster (opts : Options) (r : kube_request) (kubeconfigData : string) : result error cluster :=
  match RESTConfigFromKubeConfig kubeconfigData with
  | Err err => Err (Wrap "failed to parse kubeconfig" err)
  | Ok restConfig =>
      match apply_options (RESTOptions opts) restConfig with
      | Err err => Err err
      | Ok restConfig =>
          match kr_newCluster r restConfig with
          | Err err => Err (Wrap "failed to create cluster" err)
          | Ok cl => Ok cl
          end
      end
  end.

(** A reconcile up to the construction of the cluster, and the cluster and
    fingerprint to go on with. *)
(* src: providers/kubeconfig/provider.go:187-232 Provider.Reconcile *)
Definition reconcile_head (opts : Options) (ctx : context) (r : kube_request) :
  M astate (option error * option (cluster * string)) :=
  match getSecret r with
  | Err err => mret (Some err, None)
  | Ok None => _ ← removeCluster (kr_name r); mret (None, None)
  | Ok (Some secret) =>
      let clusterName := sec_Name secret in
      if sec_Deleting secret then _ ← removeCluster clusterName; mret (None, None) else
      match sec_Data secret !! KubeconfigSecretKey opts with
      | None | Some EmptyString => mret (None, None)
      | Some kubeconfigData =>
          let hashStr := hashKubeconfig kubeconfigData in
          let create := match new_cluster opts r kubeconfigData with
                        | Err err => (Some err, None)
                        | Ok cl => (None, Some (cl, hashStr))
                        end in
          existing ← gets (getCluster clusterName);
          match existing with
          | Some existingCluster =>
              if bool_decide (ac_Hash existingCluster = hashStr) then mret (None, None)
              else _ ← removeCluster clusterName; mret create
          | None => mret create
          end
      end
  end.

Section calls.
Context (o : oracle) (mgr : nat).

(* src: providers/kubeconfig/provider.go:187-240 Provider.Reconcile *)
Definition kube_Reconcile (opts : Options) (ctx : context) (r : kube_request) : M astate (Result * option error) :=
  '(err, next) ← reconcile_head opts ctx r;
  match next with
  | None => mret (zero_Result, err)
  | Some (cl, hashStr) =>
      err ← create_cluster o mgr ctx (kr_name r) cl hashStr;
      mret (zero_Result, err)
  end.

(** [order] is the order in which Go iterates over the clusters. *)
(* src: providers/kubeconfig/provider.go:340-360 Provider.IndexField *)
Definition kube_IndexField (ctx : context) (idx : Index) (order : listing) : M astate (option error) :=
  _ ← addIndexer idx;
  a_world (for_range order (index_active o ctx idx)).
End calls.

(** ** Properties *)

(** What the answer to [Get] asks for. *)
Definition kube_wish (opts : Options) (r : kube_request) : wish string :=
  match kr_secret r with
  | SecretNotFound => WGone
  | SecretError _ => WKeep
  | SecretIs _ deleting data =>
      if deleting then WGone else
      match data !! KubeconfigSecretKey opts with
      | None | Some EmptyString => WKeep
      | Some kubeconfigData => WRun (hashKubeconfig kubeconfigData)
      end
  end.

#[export] Instance kube_HeadSpec opts :
  HeadSpec (reconcile_head opts) kr_name (kube_wish opts) (λ r, ∃ e, kr_secret r = SecretError e).
Proof.
  intros ctx r s.
  unfold reconcile_head, kube_wish, getSecret. destruct (kr_secret r) as [labels deleting data| |e].
  2:{ unfold mbind, M_bind, mret, M_ret. by destruct (removeCluster (kr_name r) s) as [[] s1]. }
  2:{ simpl. split_ands; try done. split; [by eexists|done]. }
  simpl. destruct deleting.
  { unfold mbind, M_bind, mret, M_ret. unfold kr_name. by destruct (removeCluster _ s) as [[] s1]. }
  destruct (data !! KubeconfigSecretKey opts) as [[|c d]|]; [|simpl|].
  1,3: simpl; split_ands; try done; split; [done|by intros [e ?]].
  set (kd := String c d). change (Name (kr_req r)) with (kr_name r).
  unfold mbind, M_bind, gets, getCluster, hashes. rewrite lookup_fmap.
  destruct (a_clusters s !! kr_name r) as [ac|] eqn:Hac; simpl.
  - destruct (decide (ac_Hash ac = hashKubeconfig kd)) as [Heq|Hne].
    + by rewrite !bool_decide_eq_true_2 by congruence.
    + rewrite !bool_decide_eq_false_2 by congruence.
      destruct (removeCluster (kr_name r) s) as [[] s1]. simpl. by destruct (new_cluster opts r kd).
  - rewrite removeCluster_None by done. by destruct (new_cluster opts r kd).
Qed.

#[export] Instance kube_ReconcileHead opts : ReconcileHead (reconcile_head opts) kr_name.
Proof. exact (HeadSpec_ReconcileHead _ _ (kube_wish opts) _). Qed.

Lemma kube_Reconcile_eq o mgr opts ctx r s :
  kube_Reconcile o mgr opts ctx r s =
    let '(err, s') := reconcile o mgr (reconcile_head opts) kr_name ctx r s in ((zero_Result, err), s').
Proof.
  unfold kube_Reconcile, reconcile. unfold mbind, M_bind.
  destruct (reconcile_head opts ctx r s) as [[err [[cl h]|]] s1]; [|done].
  by destruct (create_cluster _ _ _ _ _ _ _).
Qed.

(** C11 (refinement): a reconcile implements the specification: seen as a map from
    names to fingerprints, the state changes at most at the Secret's name, where
    the cluster is gone if the Secret is, runs with the kubeconfig's
    fingerprint if the reconcile succeeds, and is dropped with an error if
    not; a Secret without data, or that cannot be read, changes nothing.  The
    reconcile that brings a cluster up makes exactly these calls, in this
    order: the cluster is asked for every registered index, is started and
    waited for within a fresh context that ends with the reconcile's, and is
    engaged within it; and all but the start, which returns when the cluster
    ends, succeeded. *)
Theorem kube_Reconcile_refines_synced o mgr opts ctx r s :
  let '((res, err), s') := kube_Reconcile o mgr opts ctx r s in
  synced (kr_name r) (kube_wish opts r) err (hashes s) (hashes s') ∧ res = zero_Result ∧
  (kube_wish opts r = WKeep → s' = s ∧ (err ≠ None ↔ ∃ e, kr_secret r = SecretError e)) ∧
  a_indexers s' = a_indexers s ∧
  (∀ h, kube_wish opts r = WRun h → hashes s !! kr_name r ≠ Some h → err = None →
     ∃ cl, a_clusters s' !! kr_name r = Some (MkActive cl (child ctx s) (cs_next (w_ctxs (a_w s))) h) ∧
       created o mgr ctx (child ctx s) (kr_name r) cl s s').
Proof.
  rewrite kube_Reconcile_eq. pose proof (reconcile_synced o mgr _ kr_name (kube_wish opts) _ ctx r s) as H.
  destruct (reconcile _ _ _ _ ctx r s) as [err s']. destruct H as (? & ? & ? & ?). by split_ands.
Qed.

(** Complement (functional): reconciling converges: after a reconcile without error, the
    same Secret changes nothing more and makes no call, however often it is
    reconciled again. *)
Theorem kube_Reconcile_converges o mgr opts ctx ctx' r s s1 res :
  kube_Reconcile o mgr opts ctx r s = ((res, None), s1) →
  kube_Reconcile o mgr opts ctx' r s1 = ((zero_Result, None), s1).
Proof.
  rewrite !kube_Reconcile_eq. destruct (reconcile _ _ _ _ ctx r s) as [err s'] eqn:Hr. intros [= _ -> <-].
  pose proof (reconcile_converges o mgr _ kr_name _ _ ctx ctx' r s s' Hr) as ->. done.
Qed.

(** C23 (safety): no cluster is forgotten while it runs: whatever Secrets are
    reconciled, in parallel for different names and interleaved with
    [IndexField], whenever no reconcile is in progress every cluster that was
    started is listed under some name, or its context is done. *)
Theorem kube_forgets_no_running_cluster o mgr opts y cl ctx :
  reachable (yexec o mgr (reconcile_head opts) kr_name false) yinit y → y_tasks y = [] →
  CallStart cl ctx ∈ w_calls (a_w (y_s y)) → done_ctx ctx (w_ctxs (a_w (y_s y))) = false →
  ∃ name, name ∈ ListClusters (y_s y) ∧ kube_Get (y_s y) Background name = Ok cl ∧
    ac_Context <$> getCluster name (y_s y) = Some ctx.
Proof.
  intros Hr Ht Hin Hd. destruct (started_are_active o mgr _ kr_name _ y Hr Ht cl ctx Hin Hd) as (name & ac & Hac & <- & <-).
  exists name. unfold kube_Get, getCluster. rewrite Hac. split; [|done].
  unfold ListClusters. apply list_elem_of_fmap. exists (name, ac). split; [done|]. by apply elem_of_map_to_list.
Qed.

(** Complement (bounds): the fingerprint of every active cluster, in any interleaving, is a
    SHA-256 digest in hexadecimal: 64 characters, each a digit or a lower-case
    letter up to f. *)
Theorem fingerprints_are_hex o mgr opts y name ac :
  reachable (yexec o mgr (reconcile_head opts) kr_name false) yinit y →
  getCluster name (y_s y) = Some ac →
  String.length (ac_Hash ac) = 64%nat ∧ all_chars is_hex (ac_Hash ac) = true.
Proof.
  intros Hr Hac.
  refine (proj1 (reachable_hashes_ok o mgr (reconcile_head opts) kr_name false
    (λ h, String.length h = 64%nat ∧ all_chars is_hex h = true) _ y Hr) name ac Hac).
  intros ctx r s cl h Hn%(HeadSpec_hash _ kr_name (kube_wish opts) _). unfold kube_wish in Hn.
  destruct (kr_secret r) as [labels [] data| |e]; try done.
  destruct (data !! KubeconfigSecretKey opts) as [[|c d]|]; try done. injection Hn as <-. apply hex_digest_shape.
Qed.

(** Complement (functional): [IndexField] registers the index for the clusters to come
    whatever happens; it succeeds exactly if every active cluster accepted
    it, and the first refusal, which it names, is the last cluster asked. *)
Theorem kube_IndexField_stops_at_refusal o ctx idx order s :
  let '(err, s') := kube_IndexField o ctx idx order s in
  a_indexers s' = a_indexers s ++ [idx] ∧ a_clusters s' = a_clusters s ∧
  ∃ asked, asked `prefix_of` order ∧
    w_calls (a_w s') = w_calls (a_w s) ++ ((λ kv, CallIndex (ac_Cluster kv.2) ctx idx) <$> asked) ∧
    match err with
    | None => asked = order
    | Some e => ∃ kv e', last asked = Some kv ∧
        e = Wrap ("failed to index field " +:+ Index_Field idx +:+ " on cluster " +:+ kv.1) e'
    end.
Proof.
  unfold kube_IndexField. unfold mbind, M_bind. simpl.
  assert (∀ w, let '(err, w') := for_range order (index_active o ctx idx) w in
    ∃ asked, asked `prefix_of` order ∧
      w_calls w' = w_calls w ++ ((λ kv, CallIndex (ac_Cluster kv.2) ctx idx) <$> asked) ∧
      match err with
      | None => asked = order
      | Some e => ∃ kv e', last asked = Some kv ∧
          e = Wrap ("failed to index field " +:+ Index_Field idx +:+ " on cluster " +:+ kv.1) e'
      end) as Hl.
  { induction order as [|kv order IH]; intros w; cbn [for_range].
    { exists []. split_ands; [done| |done]. simpl. by rewrite app_nil_r. }
    unfold on_nil. unfold mbind at 1, M_bind at 1. unfold index_active at 1. unfold mbind, M_bind, ask, mret, M_ret.
    destruct (o (w_calls w) _) as [e|].
    - exists [kv]. split; [apply prefix_cons, prefix_nil|]. split; [done|]. by exists kv, e.
    - specialize (IH (World (w_ctxs w) (w_calls w ++ [CallIndex (ac_Cluster kv.2) ctx idx]))).
      destruct (for_range order _ _) as [err w']. destruct IH as (asked & Hp & Hw & He).
      exists (kv :: asked). split; [by apply prefix_cons|]. split; [rewrite Hw; simpl; by rewrite <-app_assoc|].
      destruct err as [e|]; [|by rewrite He]. destruct He as (kv' & e' & Hla & ->). exists kv', e'. split; [|done].
      by destruct asked. }
  unfold a_world. specialize (Hl (a_w s)). simpl. destruct (for_range _ _ _) as [err w']. by split_ands.
Qed.
End kubeconfig.

(** ** Examples and witnesses *)

Definition ex_config (kd : string) : result error string := Ok kd.
Definition ex_kube_opts : @Options string := (kube_New (MkOptions "default" "" "" [] "")).1.
Definition ex_secret (name : string) (kd : string) (cl : cluster) : @kube_request string :=
  MkKubeRequest (MkCrRequest "default" name) (SecretIs {["l" := "true"]} false {["kubeconfig" := kd]}) (λ _, Ok cl).
Definition ex_run (name : string) : list ylabel :=
  [YReconcile Background (ex_secret name "kc" 1%nat); YTask 0%nat; YTask 0%nat; YTask 0%nat; YTask 0%nat].
Definition ex_end : asys :=
  default (ASys (AState ∅ [] empty_world) [] [])
    (run (yexec all_ok 0%nat (reconcile_head ex_config ex_kube_opts) kr_name false) (ex_run "c") (ASys (AState ∅ [] empty_world) [] [])).

Lemma ex_end_reachable : reachable (yexec all_ok 0%nat (reconcile_head ex_config ex_kube_opts) kr_name false) yinit ex_end.
Proof.
  eapply (run_reachable _ _ (ex_run "c") (ASys (AState ∅ [] empty_world) [] [])); [by apply reach_init|].
  vm_compute. reflexivity.
Qed.

Lemma kube_Reconcile_converges_witness :
  ∃ s1, kube_Reconcile ex_config all_ok 0%nat ex_kube_opts Background (ex_secret "c" "kc" 1%nat) (AState ∅ [] empty_world) =
          ((zero_Result, None), s1) ∧ s1 ≠ AState ∅ [] empty_world ∧
        kube_Reconcile ex_config all_ok 0%nat ex_kube_opts Background (ex_secret "c" "kc" 1%nat) s1 = ((zero_Result, None), s1).
Proof.
  eexists. split; [vm_compute; reflexivity|]. split; [by vm_compute|].
  eapply (kube_Reconcile_converges ex_config all_ok 0%nat ex_kube_opts Background Background (ex_secret "c" "kc" 1%nat) (AState ∅ [] empty_world)).
  vm_compute. reflexivity.
Defined.

Lemma kube_forgets_no_running_cluster_witness :
  y_tasks ex_end = [] ∧ CallStart 1%nat (Ctx [0%nat] []) ∈ w_calls (a_w (y_s ex_end)) ∧
  ∃ name, name ∈ ListClusters (y_s ex_end) ∧ kube_Get (y_s ex_end) Background name = Ok 1%nat ∧
    ac_Context <$> getCluster name (y_s ex_end) = Some (Ctx [0%nat] []).
Proof.
  assert (y_tasks ex_end = []) as Ht by (vm_compute; reflexivity).
  assert (CallStart 1%nat (Ctx [0%nat] []) ∈ w_calls (a_w (y_s ex_end))) as Hin by (apply list_elem_of_In; vm_compute; auto).
  split; [done|]. split; [done|].
  apply (kube_forgets_no_running_cluster ex_config all_ok 0%nat ex_kube_opts ex_end 1%nat (Ctx [0%nat] []) ex_end_reachable Ht Hin).
  vm_compute. reflexivity.
Defined.

Lemma fingerprints_are_hex_witness : ∃ ac,
  getCluster "c" (y_s ex_end) = Some ac ∧ String.length (ac_Hash ac) = 64%nat ∧ all_chars is_hex (ac_Hash ac) = true.
Proof.
  eexists. split; [vm_compute; reflexivity|].
  apply (fingerprints_are_hex ex_config all_ok 0%nat ex_kube_opts ex_end "c" _ ex_end_reachable). vm_compute. reflexivity.
Defined.

(** Complement (safety): an index registered while a cluster is being created, after its
    indexers were applied and before it is stored, never reaches it: the
    loop over the active clusters does not see it, and nothing indexes it
    later. *)
Theorem index_can_miss_a_cluster : ∃ y ac idx,
  reachable (yexec all_ok 0%nat (reconcile_head ex_config ex_kube_opts) kr_name false) yinit y ∧
  y_tasks y = [] ∧ y_loops y = [] ∧ idx ∈ a_indexers (y_s y) ∧
  getCluster "c" (y_s y) = Some ac ∧ done_ctx (ac_Context ac) (w_ctxs (a_w (y_s y))) = false ∧
  ∀ ctx, CallIndex (ac_Cluster ac) ctx idx ∉ w_calls (a_w (y_s y)).
Proof.
  set (i := MkIndex "Pod" "f" 0%nat). set (y0 := ASys (AState ∅ [] empty_world) [] []).
  assert (∃ y, run (yexec all_ok 0%nat (reconcile_head ex_config ex_kube_opts) kr_name false)
    [YReconcile Background (ex_secret "c" "kc" 1%nat); YTask 0%nat; YIndexField Background i []; YIndexLoop 0%nat [];
     YTask 0%nat; YTask 0%nat; YTask 0%nat] y0 = Some y ∧
    y = ASys (AState {["c" := MkActive 1%nat (Ctx [0%nat] []) 0%nat (hashKubeconfig "kc")]} [i]
               (World (CtxStore 1 ∅) [CallStart 1%nat (Ctx [0%nat] []); CallSync 1%nat (Ctx [0%nat] []);
                                      CallEngage 0%nat (Ctx [0%nat] []) "c" 1%nat])) [] []) as (y & Hrun & Hy).
  { eexists. split; vm_compute; reflexivity. }
  exists y, (MkActive 1%nat (Ctx [0%nat] []) 0%nat (hashKubeconfig "kc")), i.
  split; [eapply run_reachable; [apply (reach_init _ _ y0); by split_ands|exact Hrun]|]. clear Hrun. subst y.
  split_ands; try done; [by apply list_elem_of_singleton|].
  intros ctx Hin. simpl in Hin. repeat (apply elem_of_cons in Hin as [Hin|Hin]; [done|]). by apply elem_of_nil in Hin.
Qed.
