(* ===== verification/ClusterAPIProvider.v ===== *)
(** * providers/cluster-api: clusters from Cluster API objects

    A controller of the host manager reconciles the Cluster objects: the cluster
    of an object is named after its namespace and name, and runs with the
    kubeconfig that the object's Secret holds, once its control plane is
    initialized.  The operations are translated from this provider's own code;
    that they are those of [ActiveClusters] is proved, so that the
    specification and the interleaving argument apply to it as they do to the
    kubeconfig provider.  Controller-runtime, client-go and Cluster API answer
    with the request. *)

From S2P Require Import Prelude GoErrors GoContext GoNum GoString Sha256 Multicluster Reconcile Objects ActiveClusters.

#[export] Instance capi_ErrorTexts : ErrorTexts := {
  sync_error key := "failed to sync cache for Cluster " +:+ key;
  engage_error key := "failed to engage Cluster " +:+ key;
}.

(** The Go type of an object: Cluster API's current Cluster or another one. *)
Inductive object_type : Type :=
| V1beta2Cluster
| OtherType (name : string).

(** A [client.Object], as far as the provider reads it. *)
Record client_Object := MkObject {
  ob_type : object_type;
  ob_Namespace : string;
  ob_Name : string;
  ob_Deleting : bool;                           (** the deletion timestamp is set *)
  ob_ControlPlaneInitialized : option bool;     (** a pointer in the status of a current Cluster *)
}.

Section capi.
Context {rest_Config : Type} (RESTConfigFromKubeConfig : string → result error rest_Config).

(** The calls of other modules that the defaults make: Cluster API's
    [kubeconfig.FromSecret] by namespace and name, and [cluster.New]. *)
Definition from_secret : Type := string → string → result error string.
Definition cluster_New : Type := rest_Config → result error cluster.

(** An option that is nil is [None]. *)
(* src: providers/cluster-api/provider.go:52-82 Options *)
Record capi_Options := MkCapiOptions {
  o_ObjectToWatch : option object_type;
  o_GetSecret : option (from_secret → client_Object → result error string);
  o_NewCluster : option (cluster_New → client_Object → rest_Config → result error cluster);
  o_IsReady : option (client_Object → bool);
  o_Predicates : list (client_Object → bool);
}.

(** The options after [setDefaults]. *)
Record capi_config := MkCapiConfig {
  ObjectToWatch : object_type;
  GetSecret : from_secret → client_Object → result error string;
  NewCluster : cluster_New → client_Object → rest_Config → result error cluster;
  IsReady : client_Object → bool;
  Predicates : list (client_Object → bool);
}.

(* src: providers/cluster-api/provider.go:88-96 setDefaults *)
Definition default_GetSecret (cl : from_secret) (ccl : client_Object) : result error string :=
  match cl (ob_Namespace ccl) (ob_Name ccl) with
  | Err err => Err (Wrap "failed to get kubeconfig" err)
  | Ok bs => Ok bs
  end.

(* src: providers/cluster-api/provider.go:97-101 setDefaults *)
Definition default_NewCluster (cluster_new : cluster_New) (ccl : client_Object) (cfg : rest_Config) : result error cluster :=
  cluster_new cfg.

(* src: providers/cluster-api/provider.go:102-111 setDefaults *)
Definition default_IsReady (ccl : client_Object) : bool :=
  match ob_type ccl with
  | OtherType _ => false
  | V1beta2Cluster => match ob_ControlPlaneInitialized ccl with Some b => b | None => false end
  end.

(* src: providers/cluster-api/provider.go:84-112 setDefaults *)
Definition setDefaults (opts : capi_Options) : capi_config :=
  MkCapiConfig (default V1beta2Cluster (o_ObjectToWatch opts)) (default default_GetSecret (o_GetSecret opts))
    (default default_NewCluster (o_NewCluster opts)) (default default_IsReady (o_IsReady opts)) (o_Predicates opts).

(* src: providers/cluster-api/provider.go:137-146 New *)
Definition capi_New (opts : capi_Options) : capi_config * astate := (setDefaults opts, AState ∅ [] empty_world).

(** What the API server answers to [Get]. *)
Inductive object_answer : Type :=
| ObjectIs (deleting : bool) (initialized : option bool)
| ObjectNotFound
| ObjectError (e : error).

(** A request to reconcile, and what its calls are answered. *)
Record capi_request := MkCapiRequest {
  cr_req : cr_Request;
  cr_object : object_answer;
  cr_secret : from_secret;
  cr_new : cluster_New;
}.

Definition cr_key (r : capi_request) : ClusterName := NamespacedName_String (cr_req r).

(** Which objects are reconciled, and how many at a time. *)
(* src: providers/cluster-api/provider.go:161-163 Provider.SetupWithManager *)
Definition controller_options (p : capi_config) : (client_Object → bool) * nat :=
  (λ obj, forallb (λ f, f obj) (Predicates p), 1%nat).

(** [complete] is what building the controller answers. *)
(* src: providers/cluster-api/provider.go:148-169 Provider.SetupWithManager *)
Definition capi_SetupWithManager (mgr localMgr : option nat) (complete : option error) : option error :=
  match mgr, localMgr with
  | None, _ => Some (Errorf "manager is nil")
  | _, None => Some (Errorf "local manager is nil")
  | _, _ => match complete with
            | Some err => Some (Wrap "failed to create controller" err)
            | None => None
            end
  end.

(* src: providers/cluster-api/provider.go:171-181 Provider.Get *)
Definition capi_Get (s : astate) (clusterName : ClusterName) : result error cluster :=
  match a_clusters s !! clusterName with
  | None => Err ErrClusterNotFound
  | Some ac => Ok (ac_Cluster ac)
  end.

(** In an unspecified order. *)
(* src: providers/cluster-api/provider.go:362-368 Provider.ListClusters *)
Definition capi_ListClusters (s : astate) : list ClusterName := (map_to_list (a_clusters s)).*1.

(* src: providers/cluster-api/provider.go:248-253 Provider.hashKubeconfig *)
Definition capi_hashKubeconfig (kubeconfigData : string) : string := hex_digest (sha256 (string_bytes kubeconfigData)).

(* src: providers/cluster-api/provider.go:319-337 Provider.removeCluster *)
Definition capi_removeCluster (key : ClusterName) : M astate unit :=
  s ← get;
  match a_clusters s !! key with
  | None => mret tt
  | Some ac =>
      _ ← put (AState (delete key (a_clusters s)) (a_indexers s) (a_w s));
      a_world (w_cancel (ac_Cancel ac))
  end.

Section calls.
Context (o : oracle) (mcMgr : nat).

(* src: providers/cluster-api/provider.go:305-317 Provider.applyIndexers *)
Definition capi_applyIndexers (ctx : context) (cl : cluster) : M astate (option error) :=
  s ← get;
  for_range (a_indexers s) (λ idx,
    err ← a_world (ask o (CallIndex cl ctx idx));
    mret (match err with
          | Some err => Some (Wrap ("failed to index field " +:+ Index_Field idx) err)
          | None => None
          end)).

(** The provider does not keep the cluster's context; the model does, for the
    theorems. *)
(* src: providers/cluster-api/provider.go:255-303 Provider.createAndEngageCluster *)
Definition capi_createAndEngageCluster (p : capi_config) (ctx : context) (key : ClusterName) (ccl : client_Object)
    (cfg : rest_Config) (hashStr : string) (cluster_new : cluster_New) : M astate (option error) :=
  match NewCluster p cluster_new ccl cfg with
  | Err err => mret (Some (Wrap ("failed to create cluster for " +:+ key) err))
  | Ok cl =>
      capi_applyIndexers ctx cl ;?
      (cc ← a_world (w_WithCancel ctx);
       let '(clusterCtx, cancel) := cc in
       _ ← a_world (ask o (CallStart cl clusterCtx));
       err ← a_world (ask o (CallSync cl clusterCtx));
       match err with
       | Some _ => _ ← a_world (w_cancel cancel); mret (Some (Errorf ("failed to sync cache for Cluster " +:+ key)))
       | None =>
           _ ← modify (λ s, AState (<[key := MkActive cl clusterCtx cancel hashStr]> (a_clusters s)) (a_indexers s) (a_w s));
           err ← a_world (ask o (CallEngage mcMgr clusterCtx key cl));
           match err with
           | Some err => _ ← capi_removeCluster key; mret (Some (Wrap ("failed to engage Cluster " +:+ key) err))
           | None => mret None
           end
       end)
  end.

(* src: providers/cluster-api/provider.go:183-246 Provider.Reconcile *)
Definition capi_Reconcile (p : capi_config) (ctx : context) (r : capi_request) : M astate (Result * option error) :=
  let key := cr_key r in
  match cr_object r with
  | ObjectNotFound => _ ← capi_removeCluster key; mret (zero_Result, None)
  | ObjectError err => mret (zero_Result, Some (Wrap ("failed to get Cluster " +:+ key) err))
  | ObjectIs deleting initialized =>
      let ccl := MkObject (ObjectToWatch p) (Namespace (cr_req r)) (Name (cr_req r)) deleting initialized in
      if ob_Deleting ccl then _ ← capi_removeCluster key; mret (zero_Result, None) else
      if negb (IsReady p ccl) then mret (zero_Result, None) else
      match GetSecret p (cr_secret r) ccl with
      | Err err => mret (zero_Result, Some (Wrap ("failed to get kubeconfig for Cluster " +:+ key) err))
      | Ok kubeconfigData =>
          let hashStr := capi_hashKubeconfig kubeconfigData in
          let create :=
            match RESTConfigFromKubeConfig kubeconfigData with
            | Err err => mret (zero_Result, Some (Wrap ("failed to parse kubeconfig for Cluster " +:+ key) err))
            | Ok cfg =>
                err ← capi_createAndEngageCluster p ctx key ccl cfg hashStr (cr_new r);
                mret (zero_Result, err)
            end in
          found ← gets (λ s, a_clusters s !! key);
          match found with
          | Some ac =>
              if bool_decide (ac_Hash ac = hashStr) then mret (zero_Result, None)
              else _ ← capi_removeCluster key; create
          | None => create
          end
      end
  end.

(** The clusters are copied together with adding the index, and indexed after
    the lock is released; [order] is Go's order of the copy. *)
(* src: providers/cluster-api/provider.go:339-360 Provider.IndexField *)
Definition capi_IndexField (ctx : context) (idx : Index) (order : listing) : M astate (option error) :=
  _ ← modify (λ s, AState (a_clusters s) (a_indexers s ++ [idx]) (a_w s));
  a_world (for_range order (λ kv,
    err ← ask o (CallIndex (ac_Cluster kv.2) ctx idx);
    mret (match err with
          | Some err => Some (Wrap ("failed to index field " +:+ Index_Field idx +:+ " on cluster " +:+ kv.1) err)
          | None => None
          end))).
End calls.

(** ** The shared core *)

(** What the answers ask for. *)
Definition capi_wish (p : capi_config) (r : capi_request) : wish string :=
  match cr_object r with
  | ObjectNotFound => WGone
  | ObjectError _ => WKeep
  | ObjectIs deleting initialized =>
      let ccl := MkObject (ObjectToWatch p) (Namespace (cr_req r)) (Name (cr_req r)) deleting initialized in
      if deleting then WGone else
      if negb (IsReady p ccl) then WKeep else
      match GetSecret p (cr_secret r) ccl with
      | Err _ => WKeep
      | Ok kubeconfigData => WRun (capi_hashKubeconfig kubeconfigData)
      end
  end.

(** The cluster that a reconcile constructs. *)
Definition capi_new_cluster (p : capi_config) (r : capi_request) : result error cluster :=
  match cr_object r with
  | ObjectIs deleting initialized =>
      let ccl := MkObject (ObjectToWatch p) (Namespace (cr_req r)) (Name (cr_req r)) deleting initialized in
      match GetSecret p (cr_secret r) ccl with
      | Ok kd => match RESTConfigFromKubeConfig kd with
                 | Ok cfg => match NewCluster p (cr_new r) ccl cfg with
                             | Ok cl => Ok cl
                             | Err err => Err (Wrap ("failed to create cluster for " +:+ cr_key r) err)
                             end
                 | Err err => Err (Wrap ("failed to parse kubeconfig for Cluster " +:+ cr_key r) err)
                 end
      | Err err => Err err
      end
  | _ => Err ErrClusterNotFound
  end.

(** The error of a reconcile that leaves the cluster alone. *)
Definition capi_error (p : capi_config) (r : capi_request) : option error :=
  match cr_object r with
  | ObjectNotFound => None
  | ObjectError err => Some (Wrap ("failed to get Cluster " +:+ cr_key r) err)
  | ObjectIs deleting initialized =>
      let ccl := MkObject (ObjectToWatch p) (Namespace (cr_req r)) (Name (cr_req r)) deleting initialized in
      if negb (IsReady p ccl) then None else
      match GetSecret p (cr_secret r) ccl with
      | Err err => Some (Wrap ("failed to get kubeconfig for Cluster " +:+ cr_key r) err)
      | Ok _ => None
      end
  end.

(** A reconcile up to the construction of the cluster. *)
Definition capi_head (p : capi_config) (ctx : context) (r : capi_request) : M astate (option error * option (cluster * string)) :=
  match capi_wish p r with
  | WGone => _ ← removeCluster (cr_key r); mret (None, None)
  | WKeep => mret (capi_error p r, None)
  | WRun h =>
      v ← gets hashes;
      if bool_decide (v !! cr_key r = Some h) then mret (None, None) else
      _ ← removeCluster (cr_key r);
      mret (match capi_new_cluster p r with Ok cl => (None, Some (cl, h)) | Err e => (Some e, None) end)
  end.

(** This provider's operations are the shared ones. *)
Lemma capi_createAndEngageCluster_eq o mcMgr p ctx key ccl cfg h new s :
  capi_createAndEngageCluster o mcMgr p ctx key ccl cfg h new s =
    match NewCluster p new ccl cfg with
    | Err err => (Some (Wrap ("failed to create cluster for " +:+ key) err), s)
    | Ok cl => create_cluster o mcMgr ctx key cl h s
    end.
Proof.
  unfold capi_createAndEngageCluster, create_cluster, start_and_sync, engage, setCluster, capi_applyIndexers, applyIndexers.
  destruct (NewCluster p new ccl cfg) as [cl|e]; [|done].
  unfold on_nil, mbind, M_bind, mret, M_ret. simpl.
  match goal with |- (let '(_, _) := ?x in _) = (let '(_, _) := ?y in _) => change y with x; destruct x as [[e|] s1]; [done|] end.
  unfold a_world, w_WithCancel, WithCancel, ask. simpl.
  destruct (o _ (CallSync _ _)); [done|]. simpl. by destruct (o _ (CallEngage _ _ _ _)).
Qed.

Lemma capi_Reconcile_eq o mcMgr p ctx r s :
  capi_Reconcile o mcMgr p ctx r s =
    let '(err, s') := reconcile o mcMgr (capi_head p) cr_key ctx r s in ((zero_Result, err), s').
Proof.
  unfold reconcile, capi_head, capi_wish, capi_error, capi_new_cluster, capi_Reconcile.
  unfold mbind, M_bind, mret, M_ret, gets.
  change (capi_removeCluster (cr_key r)) with (removeCluster (cr_key r)).
  destruct (cr_object r) as [deleting initialized| |e]; simpl; [|by destruct (removeCluster (cr_key r) s) as [[] s1]|done].
  set (ccl := MkObject _ _ _ _ _). destruct deleting; [by destruct (removeCluster (cr_key r) s) as [[] s1]|].
  destruct (IsReady p ccl); simpl; [|done].
  destruct (GetSecret p (cr_secret r) ccl) as [kd|e]; simpl; [|done].
  set (h := capi_hashKubeconfig kd). unfold hashes. rewrite lookup_fmap.
  assert (removeCluster (cr_key r) s = (tt, (removeCluster (cr_key r) s).2)) as Hrm by (by destruct (removeCluster _ s) as [[]]).
  destruct (a_clusters s !! cr_key r) as [ac|] eqn:Hac; simpl.
  - destruct (decide (ac_Hash ac = h)) as [Heq|Hne]; [by rewrite !bool_decide_eq_true_2 by congruence|].
    rewrite !bool_decide_eq_false_2 by congruence. rewrite Hrm.
    destruct (RESTConfigFromKubeConfig kd) as [cfg|e]; [|done].
    rewrite capi_createAndEngageCluster_eq. by destruct (NewCluster _ _ _ _).
  - rewrite Hrm, removeCluster_None by done. destruct (RESTConfigFromKubeConfig kd) as [cfg|e]; [|done].
    rewrite capi_createAndEngageCluster_eq. by destruct (NewCluster _ _ _ _).
Qed.

#[export] Instance capi_HeadSpec p : HeadSpec (capi_head p) cr_key (capi_wish p) (λ r, capi_error p r ≠ None).
Proof.
  intros ctx r s. unfold capi_head. destruct (capi_wish p r) as [| |h]; unfold mbind, M_bind, mret, M_ret, gets.
  - by destruct (removeCluster _ s) as [[] s1].
  - done.
  - destruct (bool_decide _); [done|]. destruct (removeCluster _ s) as [[] s1]. by destruct (capi_new_cluster p r).
Qed.

#[export] Instance capi_ReconcileHead p : ReconcileHead (capi_head p) cr_key.
Proof. exact (HeadSpec_ReconcileHead _ _ (capi_wish p) _). Qed.

(** ** Properties *)

(** C22 (refinement): a reconcile of a Cluster object implements the specification:
    seen as a map from names to fingerprints, the state changes at most at the
    object's name, where the cluster is gone if the object is or is being
    deleted, is left alone if the object is not ready, and also - with an
    error - if the object or the kubeconfig of a ready one cannot be read, and
    otherwise runs with the fingerprint of its kubeconfig, or is dropped with
    an error.  The reconcile that brings a cluster up makes exactly these
    calls, in this order: the cluster is asked for every registered index, is
    started and waited for within a fresh context below the reconcile's, and
    is engaged within it; and all but the start, which returns when the
    cluster ends, succeeded. *)
Theorem capi_Reconcile_refines_synced o mcMgr p ctx r s :
  let '((res, err), s') := capi_Reconcile o mcMgr p ctx r s in
  synced (cr_key r) (capi_wish p r) err (hashes s) (hashes s') ∧ res = zero_Result ∧
  (capi_wish p r = WKeep → s' = s ∧ (err ≠ None ↔ capi_error p r ≠ None)) ∧
  a_indexers s' = a_indexers s ∧
  (∀ h, capi_wish p r = WRun h → hashes s !! cr_key r ≠ Some h → err = None →
     ∃ cl, a_clusters s' !! cr_key r = Some (MkActive cl (child ctx s) (cs_next (w_ctxs (a_w s))) h) ∧
       created o mcMgr ctx (child ctx s) (cr_key r) cl s s').
Proof.
  rewrite capi_Reconcile_eq. pose proof (reconcile_synced o mcMgr _ cr_key (capi_wish p) _ ctx r s) as H.
  destruct (reconcile _ _ _ _ ctx r s) as [err s']. destruct H as (? & ? & ? & ?). by split_ands.
Qed.

(** Complement (functional): after a reconcile without error, the same answers change
    nothing more. *)
Theorem capi_Reconcile_converges o mcMgr p ctx ctx' r s s1 res :
  capi_Reconcile o mcMgr p ctx r s = ((res, None), s1) →
  capi_Reconcile o mcMgr p ctx' r s1 = ((zero_Result, None), s1).
Proof.
  rewrite !capi_Reconcile_eq. destruct (reconcile _ _ _ _ ctx r s) as [err s'] eqn:Hr. intros [= _ -> <-].
  pose proof (reconcile_converges o mcMgr _ cr_key _ _ ctx ctx' r s s' Hr) as ->. done.
Qed.

(** Complement (safety): no cluster is forgotten while it runs: reconciles interleaved
    with [IndexField], which lists the clusters and adds the index at once,
    leave, whenever none is in progress, every started cluster listed or its
    context done. *)
Theorem capi_forgets_no_running_cluster o mcMgr p y cl ctx :
  reachable (yexec o mcMgr (capi_head p) cr_key true) yinit y → y_tasks y = [] →
  CallStart cl ctx ∈ w_calls (a_w (y_s y)) → done_ctx ctx (w_ctxs (a_w (y_s y))) = false →
  ∃ name, name ∈ capi_ListClusters (y_s y) ∧ capi_Get (y_s y) name = Ok cl ∧
    ac_Context <$> a_clusters (y_s y) !! name = Some ctx.
Proof.
  intros Hr Ht Hin Hd. destruct (started_are_active o mcMgr _ cr_key _ y Hr Ht cl ctx Hin Hd) as (name & ac & Hac & <- & <-).
  exists name. unfold capi_Get. rewrite Hac. split; [|done].
  unfold capi_ListClusters. apply list_elem_of_fmap. exists (name, ac). split; [done|]. by apply elem_of_map_to_list.
Qed.

(** Complement (functional): with the default [IsReady], objects of an older Cluster type
    are never engaged: whatever the API server answers, a reconcile creates
    no cluster and makes no call. *)
Theorem older_type_is_never_engaged opts t o mcMgr ctx r s :
  o_ObjectToWatch opts = Some (OtherType t) → o_IsReady opts = None →
  let '(_, s') := capi_Reconcile o mcMgr (setDefaults opts) ctx r s in
  (s' = s ∨ s' = (capi_removeCluster (cr_key r) s).2) ∧ w_calls (a_w s') = w_calls (a_w s).
Proof.
  intros Hty Hr. rewrite capi_Reconcile_eq. unfold reconcile, capi_head, capi_wish. unfold mbind, M_bind, mret, M_ret, gets.
  change (capi_removeCluster (cr_key r)) with (removeCluster (cr_key r)).
  assert (w_calls (a_w (removeCluster (cr_key r) s).2) = w_calls (a_w s)) as Hc by (by rewrite removeCluster_eq).
  destruct (cr_object r) as [[] initialized| |e].
  1,3: destruct (removeCluster (cr_key r) s) as [[] s1]; simpl in *; by split; [right|].
  2: by split; [left|].
  unfold setDefaults. rewrite Hty, Hr. simpl. by split; [left|].
Qed.

(** [IndexField] is the shared one. *)
Lemma capi_IndexField_eq o ctx idx order s :
  capi_IndexField o ctx idx order s =
    let '(_, s1) := addIndexer idx s in a_world (for_range order (index_active o ctx idx)) s1.
Proof. done. Qed.
End capi.

(** Complement (roundtrip): the name of a cluster identifies its object: namespaces contain
    no slash, and then different objects have different names. *)
Theorem capi_keys_are_unique (r r' : @capi_request string) :
  no_slash (Namespace (cr_req r)) = true → no_slash (Namespace (cr_req r')) = true →
  cr_key r = cr_key r' → cr_req r = cr_req r'.
Proof. apply NamespacedName_String_inj. Qed.

(** ** Examples and witnesses *)

Definition ex_capi : @capi_config string := setDefaults (MkCapiOptions None None None None []).
Definition ex_capi_request (init : option bool) : @capi_request string :=
  MkCapiRequest (MkCrRequest "ns" "c") (ObjectIs false init) (λ _ _, Ok "kc") (λ _, Ok 1%nat).
Definition ex_capi_config (kd : string) : result error string := Ok kd.

Definition ex_capi_end : asys :=
  default (ASys (AState ∅ [] empty_world) [] [])
    (run (yexec all_ok 0%nat (capi_head ex_capi_config ex_capi) cr_key true)
       [YReconcile Background (ex_capi_request (Some true)); YTask 0%nat; YTask 0%nat; YTask 0%nat; YTask 0%nat]
       (ASys (AState ∅ [] empty_world) [] [])).

Lemma ex_capi_end_reachable : reachable (yexec all_ok 0%nat (capi_head ex_capi_config ex_capi) cr_key true) yinit ex_capi_end.
Proof.
  eapply (run_reachable _ _ [YReconcile Background (ex_capi_request (Some true)); YTask 0%nat; YTask 0%nat; YTask 0%nat; YTask 0%nat]
    (ASys (AState ∅ [] empty_world) [] [])); [by apply reach_init|].
  vm_compute. reflexivity.
Qed.

Lemma capi_Reconcile_converges_witness :
  ∃ s1, capi_Reconcile ex_capi_config all_ok 0%nat ex_capi Background (ex_capi_request (Some true)) (AState ∅ [] empty_world) =
          ((zero_Result, None), s1) ∧ s1 ≠ AState ∅ [] empty_world ∧
        capi_Reconcile ex_capi_config all_ok 0%nat ex_capi Background (ex_capi_request (Some true)) s1 = ((zero_Result, None), s1).
Proof.
  eexists. split; [vm_compute; reflexivity|]. split; [by vm_compute|].
  eapply (capi_Reconcile_converges ex_capi_config all_ok 0%nat ex_capi Background Background (ex_capi_request (Some true)) (AState ∅ [] empty_world)).
  vm_compute. reflexivity.
Defined.

Lemma capi_forgets_no_running_cluster_witness :
  y_tasks ex_capi_end = [] ∧ CallStart 1%nat (Ctx [0%nat] []) ∈ w_calls (a_w (y_s ex_capi_end)) ∧
  ∃ name, name ∈ capi_ListClusters (y_s ex_capi_end) ∧ capi_Get (y_s ex_capi_end) name = Ok 1%nat ∧
    ac_Context <$> a_clusters (y_s ex_capi_end) !! name = Some (Ctx [0%nat] []).
Proof.
  assert (y_tasks ex_capi_end = []) as Ht by (vm_compute; reflexivity).
  assert (CallStart 1%nat (Ctx [0%nat] []) ∈ w_calls (a_w (y_s ex_capi_end))) as Hin by (apply list_elem_of_In; vm_compute; auto).
  split; [done|]. split; [done|].
  apply (capi_forgets_no_running_cluster ex_capi_config all_ok 0%nat ex_capi ex_capi_end 1%nat (Ctx [0%nat] []) ex_capi_end_reachable Ht Hin).
  vm_compute. reflexivity.
Defined.

Lemma older_type_is_never_engaged_witness :
  let opts := MkCapiOptions (rest_Config := string) (Some (OtherType "v1beta1.Cluster")) None None None [] in
  let '(_, s') := capi_Reconcile ex_capi_config all_ok 0%nat (setDefaults opts) Background (ex_capi_request (Some true)) (AState ∅ [] empty_world) in
  (s' = AState ∅ [] empty_world ∨ s' = (capi_removeCluster "ns/c" (AState ∅ [] empty_world)).2) ∧ w_calls (a_w s') = [].
Proof.
  apply (older_type_is_never_engaged ex_capi_config (MkCapiOptions (Some (OtherType "v1beta1.Cluster")) None None None [])
    "v1beta1.Cluster" all_ok 0%nat Background (ex_capi_request (Some true)) (AState ∅ [] empty_world)); reflexivity.
Defined.

Lemma capi_keys_are_unique_witness :
  cr_key (ex_capi_request None) = "ns/c" ∧ cr_req (ex_capi_request None) = cr_req (ex_capi_request (Some true)).
Proof.
  split; [reflexivity|].
  apply (capi_keys_are_unique (ex_capi_request None) (ex_capi_request (Some true))); reflexivity.
Defined.
