(* ===== verification/KubeconfigStrategy.v ===== *)
(** * providers/cluster-inventory-api/kubeconfigstrategy

    How the kubeconfig of a ClusterProfile is found: from an access provider,
    whose configuration belongs to the Cluster Inventory API, or from the one
    Secret that carries the labels of the consumer and of the profile. *)

From stdpp Require Import pretty.
From S2P Require Import Prelude GoErrors GoString Multicluster Reconcile Objects.

(** A ClusterProfile: its conditions belong to [IsReady]. *)
Record ClusterProfile := MkClusterProfile {
  clp_Namespace : string;
  clp_Name : string;
  clp_Conditions : list (string * string);       (** type and status *)
}.

(* src: providers/cluster-inventory-api/kubeconfigstrategy/secret.go:22-29 SecretLabelKeyClusterInventoryConsumer *)
Definition SecretLabelKeyClusterInventoryConsumer : string := "x-k8s.io/cluster-inventory-consumer".
Definition SecretLabelKeyClusterProfile : string := "x-k8s.io/cluster-profile".
Definition SecretDataKeyKubeConfig : string := "Config".

(** Go's [labels[key]]: the empty string if there is none. *)
Definition label (secret : Secret) (key : string) : string := default "" (sec_Labels secret !! key).

Section strategy.
(** client-go's and the Inventory API's part: [rest.Config] and its parser, the
    access configuration and what it makes of a profile. *)
Context {rest_Config access_Config : Type}.
Context (RESTConfigFromKubeConfig : string → result error rest_Config).
Context (BuildConfigFromCP : access_Config → ClusterProfile → result error rest_Config).

(** [client.List] of Secrets in a namespace with given labels. *)
Definition secret_lister : Type := string → gmap string string → result error (list Secret).

(* src: providers/cluster-inventory-api/kubeconfigstrategy/accessprovider.go:18-22 AccessProviderOption *)
Record AccessProviderOption := MkAccessProviderOption { apo_Provider : option access_Config }.

(* src: providers/cluster-inventory-api/kubeconfigstrategy/secret.go:37-42 SecretStrategyOption *)
Record SecretStrategyOption := MkSecretStrategyOption { sso_ConsumerName : string }.

(* src: providers/cluster-inventory-api/kubeconfigstrategy/factory.go:8-23 Option *)
Record Option := MkOption {
  so_Secret : option SecretStrategyOption;
  so_AccessProvider : option AccessProviderOption;
  so_CredentialsProvider : option AccessProviderOption;
}.

(** The two implementations of [Interface]. *)
(* src: providers/cluster-inventory-api/kubeconfigstrategy/interface.go:16-24 Interface *)
Inductive Interface : Type :=
| accessProviderStrategy (provider : access_Config)
| secretStrategy (consumerName : string).

(* src: providers/cluster-inventory-api/kubeconfigstrategy/accessprovider.go:33-41 newAccessProviderStrategy *)
Definition newAccessProviderStrategy (option : AccessProviderOption) : result error Interface :=
  match apo_Provider option with
  | None => Err (Errorf "access provider must be set for AccessProvider strategy")
  | Some provider => Ok (accessProviderStrategy provider)
  end.

(* src: providers/cluster-inventory-api/kubeconfigstrategy/secret.go:44-52 newSecretKubeConfigStrategy *)
Definition newSecretKubeConfigStrategy (option : SecretStrategyOption) : result error Interface :=
  if bool_decide (sso_ConsumerName option = "") then Err (Errorf "consumer name must be set for Secret strategy")
  else Ok (secretStrategy (sso_ConsumerName option)).

Definition count_set {A} (o : option A) : nat := match o with Some _ => 1 | None => 0 end.

(** [None] is a panic: the dereference of a nil pointer. *)
(* src: providers/cluster-inventory-api/kubeconfigstrategy/factory.go:25-53 New *)
Definition strategy_New (option : Option) : Datatypes.option (result error Interface) :=
  let count := (count_set (so_AccessProvider option) + count_set (so_Secret option) + count_set (so_CredentialsProvider option))%nat in
  if bool_decide (count = 0%nat)
  then Some (Err (Errorf "one of AccessProvider, Secret, or CredentialsProvider must be provided")) else
  if bool_decide (1 < count)%nat
  then Some (Err (Errorf "only one of AccessProvider, Secret, or CredentialsProvider can be provided")) else
  let accessProvider := match so_CredentialsProvider option with
                        | Some p => Some p
                        | None => so_AccessProvider option
                        end in
  match so_Secret option with
  | Some s => Some (newSecretKubeConfigStrategy s)
  | None => newAccessProviderStrategy <$> accessProvider
  end.

(** The labels a Secret of the profile must have. *)
(* src: providers/cluster-inventory-api/kubeconfigstrategy/secret.go:93-96 secretStrategy.GetKubeConfig *)
Definition secret_selector (consumerName : string) (clp : ClusterProfile) : gmap string string :=
  <[SecretLabelKeyClusterInventoryConsumer := consumerName]> {[SecretLabelKeyClusterProfile := clp_Name clp]}.

(* src: providers/cluster-inventory-api/kubeconfigstrategy/secret.go:90-115 secretStrategy.GetKubeConfig *)
Definition secret_GetKubeConfig (consumerName : string) (List : secret_lister) (clp : ClusterProfile) : result error rest_Config :=
  match List (clp_Namespace clp) (secret_selector consumerName clp) with
  | Err err => Err (Wrap "failed to list secrets" err)
  | Ok [] => Err (Errorf "no secrets found")
  | Ok [secret] =>
      match sec_Data secret !! SecretDataKeyKubeConfig with
      | None => Err (Errorf ("secret " +:+ sec_Namespace secret +:+ "/" +:+ sec_Name secret +:+ " does not contain Config data"))
      | Some data => RESTConfigFromKubeConfig data
      end
  | Ok items => Err (Errorf ("multiple secrets found, expected one, got " +:+ pretty (length items)))
  end.

(* src: providers/cluster-inventory-api/kubeconfigstrategy/accessprovider.go:48-51 accessProviderStrategy.GetKubeConfig *)
Definition GetKubeConfig (s : Interface) (List : secret_lister) (clp : ClusterProfile) : result error rest_Config :=
  match s with
  | accessProviderStrategy provider => BuildConfigFromCP provider clp
  | secretStrategy consumerName => secret_GetKubeConfig consumerName List clp
  end.

(** Which profiles an event of a Secret asks to reconcile. *)
(* src: providers/cluster-inventory-api/kubeconfigstrategy/secret.go:58-76 secretStrategy.CustomWatches *)
Definition secret_map_func (consumerName : string) (secret : Secret) : list cr_Request :=
  if bool_decide (sec_Labels secret = ∅) || negb (bool_decide (label secret SecretLabelKeyClusterInventoryConsumer = consumerName)) ||
     bool_decide (label secret SecretLabelKeyClusterProfile = "")
  then []
  else [MkCrRequest (sec_Namespace secret) (label secret SecretLabelKeyClusterProfile)].

(* src: providers/cluster-inventory-api/kubeconfigstrategy/secret.go:78-85 secretStrategy.CustomWatches *)
Definition secret_watch_predicate (consumerName : string) (secret : Secret) : bool :=
  bool_decide (label secret SecretLabelKeyClusterInventoryConsumer = consumerName) &&
  negb (bool_decide (label secret SecretLabelKeyClusterProfile = "")).

(** The watches of Secrets: the handler and the predicate. *)
(* src: providers/cluster-inventory-api/kubeconfigstrategy/secret.go:54-88 secretStrategy.CustomWatches *)
Definition CustomWatches (s : Interface) : list ((Secret → list cr_Request) * (Secret → bool)) :=
  match s with
  | accessProviderStrategy _ => []
  | secretStrategy consumerName => [(secret_map_func consumerName, secret_watch_predicate consumerName)]
  end.

(** ** Properties *)

(** A Secret is listed for a profile. *)
Definition selects (consumerName : string) (clp : ClusterProfile) (secret : Secret) : Prop :=
  sec_Namespace secret = clp_Namespace clp ∧ secret_selector consumerName clp ⊆ sec_Labels secret.

(** Complement (safety): constructing a strategy never dereferences a nil pointer, and it
    succeeds exactly if one of the three options is set, and is complete. *)
Theorem strategy_New_never_panics opt : ∃ r, strategy_New opt = Some r ∧
  ((∃ s, r = Ok s) ↔
   (∃ c, opt = MkOption (Some (MkSecretStrategyOption c)) None None ∧ c ≠ "") ∨
   (∃ a, opt = MkOption None (Some (MkAccessProviderOption (Some a))) None) ∨
   (∃ a, opt = MkOption None None (Some (MkAccessProviderOption (Some a))))).
Proof.
  unfold strategy_New, newSecretKubeConfigStrategy, newAccessProviderStrategy.
  destruct opt as [[[c]|] [[[a|]]|] [[[b|]]|]]; simpl;
    try (eexists; split; [reflexivity|]; split; [by intros [? ?]|naive_solver]).
  - destruct (decide (c = "")) as [->|Hc].
    + eexists; split; [reflexivity|]. rewrite bool_decide_eq_true_2 by done. split; [by intros [? ?]|naive_solver].
    + rewrite bool_decide_eq_false_2 by done. eexists; split; [reflexivity|]. split; [|naive_solver].
      intros _. left. by exists c.
  - eexists; split; [reflexivity|]. split; naive_solver.
  - eexists; split; [reflexivity|]. split; naive_solver.
Qed.

(** Complement (equivalence): the watch and the lookup of the Secret strategy agree: for a
    consumer and a profile with names, the Secrets that are read for the
    profile are exactly those whose events ask to reconcile it, and those
    events pass the predicate. *)
Theorem secret_watch_and_lookup_agree consumerName clp secret :
  consumerName ≠ "" → clp_Name clp ≠ "" →
  (selects consumerName clp secret ↔
   secret_map_func consumerName secret = [MkCrRequest (clp_Namespace clp) (clp_Name clp)] ∧
   secret_watch_predicate consumerName secret = true).
Proof.
  intros Hc Hn. unfold selects, secret_map_func, secret_watch_predicate, secret_selector, label.
  assert (∀ k v, v ≠ "" → default "" (sec_Labels secret !! k) = v ↔ sec_Labels secret !! k = Some v) as Hd.
  { intros k v Hv. destruct (sec_Labels secret !! k) as [w|]; simpl; [split; congruence|]. split; congruence. }
  assert (<[SecretLabelKeyClusterInventoryConsumer:=consumerName]> {[SecretLabelKeyClusterProfile := clp_Name clp]} ⊆ sec_Labels secret ↔
    sec_Labels secret !! SecretLabelKeyClusterInventoryConsumer = Some consumerName ∧
    sec_Labels secret !! SecretLabelKeyClusterProfile = Some (clp_Name clp)) as ->.
  { rewrite map_subseteq_spec. split.
    - intros H. split; apply H; [apply lookup_insert_eq|].
      rewrite lookup_insert_ne by done. apply lookup_singleton_eq.
    - intros [H1 H2] k v [[<- <-]|[_ [<- <-]%lookup_singleton_Some]]%lookup_insert_Some; done. }
  rewrite <-!Hd by done. set (c := default "" (sec_Labels secret !! SecretLabelKeyClusterInventoryConsumer)).
  set (n := default "" (sec_Labels secret !! SecretLabelKeyClusterProfile)) in *. split.
  - intros (Hns & Hcons & Hnm). rewrite !(bool_decide_eq_true_2 _ Hcons), Hnm.
    rewrite !(bool_decide_eq_false_2 (clp_Name clp = "")) by done.
    rewrite bool_decide_eq_false_2; [by rewrite Hns|]. intros He. apply Hc. rewrite <-Hcons. unfold c. by rewrite He, lookup_empty.
  - intros [Hm Hp]. apply andb_true_iff in Hp as [Hp1%bool_decide_eq_true_1 Hp2%negb_true_iff%bool_decide_eq_false_1].
    destruct (_ || _); [done|]. injection Hm as Hm1 Hm2. done.
Qed.

(** Complement (error): the kubeconfig is the one Secret's: with none, with more than one,
    and with one that lacks the key, there is an error and nothing is
    parsed. *)
Theorem secret_strategy_needs_one_secret consumerName List clp cfg :
  GetKubeConfig (secretStrategy consumerName) List clp = Ok cfg ↔
  ∃ secret data, List (clp_Namespace clp) (secret_selector consumerName clp) = Ok [secret] ∧
    sec_Data secret !! SecretDataKeyKubeConfig = Some data ∧ RESTConfigFromKubeConfig data = Ok cfg.
Proof.
  simpl. unfold secret_GetKubeConfig. split.
  - destruct (List _ _) as [[|secret [|? ?]]|e]; try done.
    destruct (sec_Data secret !! _) as [data|] eqn:Hd; [|done]. intros H. by exists secret, data.
  - intros (secret & data & -> & -> & H). done.
Qed.
End strategy.

Lemma secret_watch_and_lookup_agree_witness :
  selects "me" (MkClusterProfile "ns" "p" [])
    (MkSecret "ns" "s" {[SecretLabelKeyClusterInventoryConsumer := "me"; SecretLabelKeyClusterProfile := "p"]} false ∅).
Proof.
  apply (secret_watch_and_lookup_agree "me" (MkClusterProfile "ns" "p" [])); [discriminate..|].
  split; vm_compute; reflexivity.
Defined.
