(* ===== verification/InventoryProvider.v ===== *)
(** * providers/cluster-inventory-api: clusters from ClusterProfiles

    A controller of the host manager reconciles ClusterProfiles, one at a time.
    The provider keeps three maps - clusters, cancel functions and
    configurations - and holds its lock while it creates a cluster, waits for
    its cache and engages it.  The abstract state is the map from names to
    configurations, and the specification [synced] of [ActiveClusters]. *)

From S2P Require Import Prelude GoErrors GoContext GoString Multicluster Reconcile Objects ActiveClusters KubeconfigStrategy.

Section inventory.
Context {rest_Config access_Config : Type}.
Context (RESTConfigFromKubeConfig : string → result error rest_Config).
Context (BuildConfigFromCP : access_Config → ClusterProfile → result error rest_Config).

(** [reflect.DeepEqual] on configurations: Go compares functions as unequal, so
    it need not be reflexive. *)
Context (DeepEqual : rest_Config → rest_Config → bool).

Definition cluster_New : Type := rest_Config → result error cluster.

(* src: providers/cluster-inventory-api/provider.go:48-64 Options *)
Record inv_Options := MkInvOptions {
  io_KubeconfigStrategyOption : @Option access_Config;
  io_NewCluster : option (cluster_New → ClusterProfile → rest_Config → result error cluster);
  io_IsReady : option (ClusterProfile → bool);
}.

(** The options after [setDefaults], and the strategy. *)
Record inv_config := MkInvConfig {
  inv_NewCluster : cluster_New → ClusterProfile → rest_Config → result error cluster;
  inv_IsReady : ClusterProfile → bool;
  inv_strategy : @Interface access_Config;
}.

(* src: providers/cluster-inventory-api/provider.go:72-86 Provider *)
Record istate := IState {
  i_mcMgr : option nat;
  i_clusters : gmap ClusterName cluster;
  i_cancelFns : gmap ClusterName cancel_func;
  i_kubeconfig : gmap ClusterName rest_Config;
  i_indexers : list Index;
  i_w : world;
}.

Section defaults.
(** The condition that [IsReady] looks up, with apimachinery's lookup of a
    condition's status, and the status that is true. *)
Context (FindStatusCondition : list (string * string) → string → option string).
Context (ClusterConditionControlPlaneHealthy ConditionTrue : string).

(* src: providers/cluster-inventory-api/provider.go:94-99 setDefaults *)
Definition inv_default_IsReady (clp : ClusterProfile) : bool :=
  match FindStatusCondition (clp_Conditions clp) ClusterConditionControlPlaneHealthy with
  | Some status => bool_decide (status = ConditionTrue)
  | None => false
  end.

(* src: providers/cluster-inventory-api/provider.go:88-100 setDefaults *)
Definition inv_setDefaults (opts : inv_Options) (strategy : Interface) : inv_config :=
  MkInvConfig (default (λ cluster_new _ cfg, cluster_new cfg) (io_NewCluster opts))
    (default inv_default_IsReady (io_IsReady opts)) strategy.

(** [None] is a panic. *)
(* src: providers/cluster-inventory-api/provider.go:102-121 New *)
Definition inv_New (opts : inv_Options) : option (result error (inv_config * istate)) :=
  r ← strategy_New (io_KubeconfigStrategyOption opts);
  Some (match r with
        | Err err => Err (Wrap "failed to create kubeconfig strategy" err)
        | Ok strategy => Ok (inv_setDefaults opts strategy, IState None ∅ ∅ ∅ [] empty_world)
        end).

End defaults.

Definition i_world {B} (m : M world B) : M istate B := fun s =>
  let '(b, w) := m (i_w s) in (b, IState (i_mcMgr s) (i_clusters s) (i_cancelFns s) (i_kubeconfig s) (i_indexers s) w).

(** [complete] is what building the controller answers, given the watches. *)
(* src: providers/cluster-inventory-api/provider.go:123-157 Provider.SetupWithManager *)
Definition inv_SetupWithManager (p : inv_config) (mgr localMgr : option nat)
    (complete : list ((Secret → list cr_Request) * (Secret → bool)) → option error) : M istate (option error) :=
  match mgr with
  | None => mret (Some (Errorf "manager is nil"))
  | Some mgr =>
      _ ← modify (λ s, IState (Some mgr) (i_clusters s) (i_cancelFns s) (i_kubeconfig s) (i_indexers s) (i_w s));
      match localMgr with
      | None => mret (Some (Errorf "local manager is nil"))
      | Some _ => mret (Wrap "failed to create controller" <$> complete (CustomWatches (inv_strategy p)))
      end
  end.

(* src: providers/cluster-inventory-api/provider.go:159-168 Provider.Get *)
Definition inv_Get (s : istate) (clusterName : ClusterName) : result error cluster :=
  match i_clusters s !! clusterName with
  | Some cl => Ok cl
  | None => Err ErrClusterNotFound
  end.

Inductive profile_answer : Type :=
| ProfileIs (conditions : list (string * string))
| ProfileNotFound
| ProfileError (e : error).

(** A request to reconcile, and what its calls are answered. *)
Record inv_request := MkInvRequest {
  ir_req : cr_Request;
  ir_profile : profile_answer;
  ir_secrets : secret_lister;
  ir_new : cluster_New;
}.

Definition ir_key (r : inv_request) : ClusterName := NamespacedName_String (ir_req r).

Definition seconds (n : Z) : Z := n * 1000000000.

(** Forget a cluster without cancelling anything. *)
(* src: providers/cluster-inventory-api/provider.go:232-234 Provider.Reconcile *)
Definition forget (key : ClusterName) : M istate unit :=
  modify (λ s, IState (i_mcMgr s) (delete key (i_clusters s)) (delete key (i_cancelFns s)) (delete key (i_kubeconfig s))
                 (i_indexers s) (i_w s)).

(* src: providers/cluster-inventory-api/provider.go:183-191 Provider.Reconcile *)
Definition profile_gone (key : ClusterName) : M istate unit :=
  _ ← modify (λ s, IState (i_mcMgr s) (delete key (i_clusters s)) (i_cancelFns s) (i_kubeconfig s) (i_indexers s) (i_w s));
  s ← get;
  match i_cancelFns s !! key with
  | Some cancel => i_world (w_cancel cancel)
  | None => mret tt
  end.

(* src: providers/cluster-inventory-api/provider.go:229-235 Provider.Reconcile *)
Definition disengage (key : ClusterName) : M istate unit :=
  s ← get;
  match i_cancelFns s !! key with
  | Some cancel => _ ← i_world (w_cancel cancel); forget key
  | None => mret tt
  end.

Section calls.
Context (o : oracle).

(* src: providers/cluster-inventory-api/provider.go:244-248 Provider.Reconcile *)
Definition inv_apply_indexers (ctx : context) (key : ClusterName) (cl : cluster) : M istate (option error) :=
  s ← get;
  for_range (i_indexers s) (λ idx,
    err ← i_world (ask o (CallIndex cl ctx idx));
    mret (Wrap ("failed to index field " +:+ Index_Field idx +:+ " for " +:+ Index_Object idx +:+ "=" +:+ key) <$> err)).

(** From the construction of the cluster: unlike the other providers, this one
    waits for the cache within the reconcile's own context. *)
(* src: providers/cluster-inventory-api/provider.go:238-280 Provider.Reconcile *)
Definition create_and_engage (p : inv_config) (mcMgr : nat) (ctx : context) (r : inv_request) (clp : ClusterProfile)
    (cfg : rest_Config) : M istate (option error) :=
  let key := ir_key r in
  match inv_NewCluster p (ir_new r) clp cfg with
  | Err err => mret (Some (Wrap ("failed to create cluster for ClusterProfile=" +:+ key) err))
  | Ok cl =>
      inv_apply_indexers ctx key cl ;?
      (cc ← i_world (w_WithCancel ctx);
       let '(clusterCtx, cancel) := cc in
       _ ← i_world (ask o (CallStart cl clusterCtx));
       err ← i_world (ask o (CallSync cl ctx));
       match err with
       | Some _ => _ ← i_world (w_cancel cancel); mret (Some (Errorf ("failed to sync cache for ClusterProfile=" +:+ key)))
       | None =>
           _ ← modify (λ s, IState (i_mcMgr s) (<[key := cl]> (i_clusters s)) (<[key := cancel]> (i_cancelFns s))
                              (<[key := cfg]> (i_kubeconfig s)) (i_indexers s) (i_w s));
           err ← i_world (ask o (CallEngage mcMgr clusterCtx key cl));
           match err with
           | Some err => _ ← forget key; mret (Some err)
           | None => mret None
           end
       end)
  end.

(* src: providers/cluster-inventory-api/provider.go:170-280 Provider.Reconcile *)
Definition inv_Reconcile (p : inv_config) (ctx : context) (r : inv_request) : M istate (Result * option error) :=
  let key := ir_key r in
  match ir_profile r with
  | ProfileNotFound => _ ← profile_gone key; mret (zero_Result, None)
  | ProfileError err => mret (zero_Result, Some (Wrap ("failed to get ClusterProfile " +:+ key) err))
  | ProfileIs conditions =>
      let clp := MkClusterProfile (Namespace (ir_req r)) (Name (ir_req r)) conditions in
      s ← get;
      match i_mcMgr s with
      | None => mret (MkResult false (seconds 2), None)
      | Some mcMgr =>
          if negb (inv_IsReady p clp) then mret (MkResult false (seconds 10), None) else
          match GetKubeConfig RESTConfigFromKubeConfig BuildConfigFromCP (inv_strategy p) (ir_secrets r) clp with
          | Err err => mret (zero_Result, Some (Wrap ("failed to get kubeconfig for ClusterProfile=" +:+ key) err))
          | Ok cfg =>
              let create := err ← create_and_engage p mcMgr ctx r clp cfg; mret (zero_Result, err) in
              match i_clusters s !! key with
              | Some _ =>
                  if match i_kubeconfig s !! key with Some c => DeepEqual c cfg | None => false end
                  then mret (zero_Result, None)
                  else _ ← disengage key; create
              | None => create
              end
          end
      end
  end.

(** [order] is Go's iteration over the clusters; the lock is held throughout. *)
(* src: providers/cluster-inventory-api/provider.go:282-303 Provider.IndexField *)
Definition inv_IndexField (ctx : context) (idx : Index) (order : list (ClusterName * cluster)) : M istate (option error) :=
  _ ← modify (λ s, IState (i_mcMgr s) (i_clusters s) (i_cancelFns s) (i_kubeconfig s) (i_indexers s ++ [idx]) (i_w s));
  i_world (for_range order (λ kv,
    err ← ask o (CallIndex kv.2 ctx idx);
    mret (Wrap ("failed to index field " +:+ Index_Field idx +:+ " on ClusterProfile " +:+ kv.1) <$> err))).
End calls.

(** The provider's methods in sequence: they exclude each other by its lock. *)
Inductive iop : Type :=
| OpReconcile (ctx : context) (r : inv_request)
| OpIndexField (ctx : context) (idx : Index) (order : list (ClusterName * cluster)).

Definition iexec (o : oracle) (p : inv_config) (op : iop) (s : istate) : option istate :=
  Some (match op with
        | OpReconcile ctx r => (inv_Reconcile o p ctx r s).2
        | OpIndexField ctx idx order => (inv_IndexField o ctx idx order s).2
        end).

(** ** Lemmas *)
Section lemmas.
Context (o : oracle) (p : inv_config).
Implicit Types (s : istate).

(** Only calls: the maps and the contexts are as before. *)
Definition same_maps s s' : Prop :=
  i_mcMgr s' = i_mcMgr s ∧ i_clusters s' = i_clusters s ∧ i_cancelFns s' = i_cancelFns s ∧
  i_kubeconfig s' = i_kubeconfig s ∧ w_ctxs (i_w s') = w_ctxs (i_w s).

Lemma inv_apply_indexers_spec ctx key cl s :
  let '(err, s') := inv_apply_indexers o ctx key cl s in
  same_maps s s' ∧ i_indexers s' = i_indexers s ∧
  ∃ l, w_calls (i_w s') = w_calls (i_w s) ++ l ∧ (∀ c, c ∈ l → ∃ i, c = CallIndex cl ctx i) ∧
  (err = None → l = CallIndex cl ctx <$> i_indexers s).
Proof.
  unfold inv_apply_indexers. unfold mbind at 1, M_bind at 1, get.
  generalize (i_indexers s) at 1 3. intros l. revert s. induction l as [|i l IH]; intros s; cbn [for_range].
  { split; [done|]. split; [done|]. exists []. rewrite app_nil_r. split; [done|]. split; [by intros c ?%elem_of_nil|done]. }
  unfold on_nil. unfold mbind at 1, M_bind at 1. unfold mbind at 1, M_bind at 1. unfold i_world at 1, ask at 1, mret, M_ret.
  simpl. destruct (o (w_calls (i_w s)) (CallIndex cl ctx i)) as [e|]; simpl.
  { split; [done|]. split; [done|]. exists [CallIndex cl ctx i]. split; [done|]. split; [|done].
    intros c ->%list_elem_of_singleton. by eexists. }
  specialize (IH (IState (i_mcMgr s) (i_clusters s) (i_cancelFns s) (i_kubeconfig s) (i_indexers s)
    (World (w_ctxs (i_w s)) (w_calls (i_w s) ++ [CallIndex cl ctx i])))).
  unfold mbind, M_bind, mret, M_ret in IH. destruct (for_range l _ _) as [err s']. destruct IH as ((? & ? & ? & ? & ?) & ? & l' & Hl & Hc & He).
  split; [by split_ands|]. split; [done|]. exists (CallIndex cl ctx i :: l'). simpl in Hl. rewrite Hl, <-app_assoc. split; [done|]. split.
  - intros c [->|Hin]%elem_of_cons; [by eexists|by apply Hc].
  - intros ->. by rewrite He.
Qed.

(** What creating a cluster for a name without one does. *)
Lemma create_and_engage_spec m ctx r clp cfg s :
  i_clusters s !! ir_key r = None →
  let n := cs_next (w_ctxs (i_w s)) in
  let c := Ctx (n :: ctx_nodes ctx) (ctx_values ctx) in
  let '(err, s') := create_and_engage o p m ctx r clp cfg s in
  i_mcMgr s' = i_mcMgr s ∧ i_indexers s' = i_indexers s ∧
  match err with
  | None => ∃ cl, inv_NewCluster p (ir_new r) clp cfg = Ok cl ∧
      i_clusters s' = <[ir_key r := cl]> (i_clusters s) ∧ i_cancelFns s' = <[ir_key r := n]> (i_cancelFns s) ∧
      i_kubeconfig s' = <[ir_key r := cfg]> (i_kubeconfig s) ∧ w_ctxs (i_w s') = (WithCancel ctx (w_ctxs (i_w s))).2 ∧
      w_calls (i_w s') = w_calls (i_w s) ++ (CallIndex cl ctx <$> i_indexers s) ++
                         [CallStart cl c; CallSync cl ctx; CallEngage m c (ir_key r) cl]
  | Some _ => i_clusters s' = i_clusters s ∧
      (i_cancelFns s' = i_cancelFns s ∧ i_kubeconfig s' = i_kubeconfig s ∧
       (w_ctxs (i_w s') = w_ctxs (i_w s) ∨ w_ctxs (i_w s') = cancel n (WithCancel ctx (w_ctxs (i_w s))).2) ∧
       (∀ m' c' k' cl', last (w_calls (i_w s')) = Some (CallEngage m' c' k' cl') → last (w_calls (i_w s)) = Some (CallEngage m' c' k' cl')) ∨
       i_cancelFns s' = delete (ir_key r) (i_cancelFns s) ∧ i_kubeconfig s' = delete (ir_key r) (i_kubeconfig s) ∧
       w_ctxs (i_w s') = (WithCancel ctx (w_ctxs (i_w s))).2 ∧
       ∃ cl l, w_calls (i_w s') = l ++ [CallStart cl c; CallSync cl ctx; CallEngage m c (ir_key r) cl])
  end.
Proof.
  intros Hn. unfold create_and_engage. destruct (inv_NewCluster p (ir_new r) clp cfg) as [cl|e].
  2:{ simpl. split_ands; try done. left. split_ands; auto. }
  unfold on_nil. unfold mbind at 1, M_bind at 1. pose proof (inv_apply_indexers_spec ctx (ir_key r) cl s) as Ha.
  destruct (inv_apply_indexers o ctx (ir_key r) cl s) as [[e|] s1]; destruct Ha as ((H1 & H2 & H3 & H4 & H5) & H6 & l & Hl & Hc & He).
  { simpl. rewrite H1, H2, H3, H4, H5, H6. split_ands; try done. left. split_ands; auto.
    intros m' c' k' cl'. rewrite Hl. destruct l as [|x l _] using rev_ind; [by rewrite app_nil_r|].
    rewrite app_assoc, last_snoc. intros [= ->]. destruct (Hc (CallEngage m' c' k' cl')); [set_solver|done]. }
  rewrite (He eq_refl) in *. clear He.
  unfold i_world, w_WithCancel, WithCancel, ask, w_cancel, modify, forget, mbind, M_bind, mret, M_ret. simpl.
  rewrite H5. destruct (o _ (CallSync cl ctx)) as [e|]; simpl.
  { rewrite H1, H2, H3, H4, H6. split_ands; try done. left. split_ands; auto.
    intros m' c' k' cl'. by rewrite last_snoc. }
  destruct (o _ (CallEngage _ _ _ _)) as [e|]; simpl; rewrite H1, H2, H3, H4, H6; (split; [done|]); (split; [done|]).
  - rewrite delete_insert_id by done. split; [done|]. right. rewrite !delete_insert_eq. split_ands; try done.
    exists cl, (w_calls (i_w s1)). by rewrite <-!app_assoc.
  - exists cl. split_ands; try done. by rewrite Hl, <-!app_assoc.
Qed.

(** Well-formed states: every cluster has a cancel function and a configuration. *)
Definition inv_wf s : Prop :=
  ∀ name, is_Some (i_clusters s !! name) → is_Some (i_cancelFns s !! name) ∧ is_Some (i_kubeconfig s !! name).

Lemma profile_gone_eq key s :
  (profile_gone key s).2 =
    IState (i_mcMgr s) (delete key (i_clusters s)) (i_cancelFns s) (i_kubeconfig s) (i_indexers s)
      (World (match i_cancelFns s !! key with Some n => cancel n (w_ctxs (i_w s)) | None => w_ctxs (i_w s) end) (w_calls (i_w s))).
Proof.
  unfold profile_gone, modify, get, mbind, M_bind. simpl. destruct (i_cancelFns s !! key); [done|].
  by destruct s as [? ? ? ? ? []].
Qed.

Lemma disengage_eq key s :
  is_Some (i_cancelFns s !! key) →
  ∃ n, i_cancelFns s !! key = Some n ∧
  disengage key s = (tt, IState (i_mcMgr s) (delete key (i_clusters s)) (delete key (i_cancelFns s)) (delete key (i_kubeconfig s))
                           (i_indexers s) (World (cancel n (w_ctxs (i_w s))) (w_calls (i_w s)))).
Proof.
  intros [n Hn]. exists n. split; [done|]. unfold disengage, get, mbind, M_bind. rewrite Hn. done.
Qed.

(** What the answers ask for. *)
Definition inv_wish s (r : inv_request) : wish rest_Config :=
  match ir_profile r with
  | ProfileNotFound => WGone
  | ProfileError _ => WKeep
  | ProfileIs conditions =>
      let clp := MkClusterProfile (Namespace (ir_req r)) (Name (ir_req r)) conditions in
      match i_mcMgr s with
      | None => WKeep
      | Some _ =>
          if negb (inv_IsReady p clp) then WKeep else
          match GetKubeConfig RESTConfigFromKubeConfig BuildConfigFromCP (inv_strategy p) (ir_secrets r) clp with
          | Err _ => WKeep
          | Ok cfg => WRun cfg
          end
      end
  end.

(** The state before the cluster is created. *)
Definition cleared key s s0 : Prop :=
  i_clusters s0 !! key = None ∧ delete key (i_clusters s) = i_clusters s0 ∧ i_mcMgr s0 = i_mcMgr s ∧ i_indexers s0 = i_indexers s ∧
  delete key (i_cancelFns s) = delete key (i_cancelFns s0) ∧ delete key (i_kubeconfig s) = delete key (i_kubeconfig s0) ∧
  w_calls (i_w s0) = w_calls (i_w s) ∧ (∀ name n, i_cancelFns s0 !! name = Some n → i_cancelFns s !! name = Some n) ∧
  cs_next (w_ctxs (i_w s0)) = cs_next (w_ctxs (i_w s)) ∧
  (w_ctxs (i_w s0) = w_ctxs (i_w s) ∨ ∃ n, i_cancelFns s !! key = Some n ∧ w_ctxs (i_w s0) = cancel n (w_ctxs (i_w s))).

(** A reconcile by cases. *)
Lemma inv_Reconcile_cases ctx r s :
  inv_wf s →
  match inv_wish s r with
  | WGone => inv_Reconcile o p ctx r s = ((zero_Result, None), (profile_gone (ir_key r) s).2)
  | WKeep => ∃ res err, inv_Reconcile o p ctx r s = ((res, err), s)
  | WRun cfg =>
      (∃ cl c, i_clusters s !! ir_key r = Some cl ∧ i_kubeconfig s !! ir_key r = Some c ∧ DeepEqual c cfg = true ∧
         inv_Reconcile o p ctx r s = ((zero_Result, None), s)) ∨
      (∀ c, i_clusters s !! ir_key r ≠ None → i_kubeconfig s !! ir_key r = Some c → DeepEqual c cfg = false) ∧
      ∃ m clp s0, cleared (ir_key r) s s0 ∧
        inv_Reconcile o p ctx r s =
          let '(err, s') := create_and_engage o p m ctx r clp cfg s0 in ((zero_Result, err), s')
  end.
Proof.
  intros Hwf. unfold inv_wish, inv_Reconcile. destruct (ir_profile r) as [conditions| |e].
  2:{ unfold mbind, M_bind. by destruct (profile_gone (ir_key r) s) as [[] s1]. }
  2:{ by eexists _, _. }
  set (clp := MkClusterProfile _ _ _). rewrite get_bind.
  destruct (i_mcMgr s) as [m|] eqn:Hm; [|by eexists _, _]. destruct (inv_IsReady p clp); simpl; [|by eexists _, _].
  destruct (GetKubeConfig _ _ _ _ _) as [cfg|e]; [|by eexists _, _].
  destruct (i_clusters s !! ir_key r) as [cl|] eqn:Hcl.
  - destruct (Hwf (ir_key r)) as [Hcan [c Hc]]; [by eexists|]. rewrite Hc. destruct (DeepEqual c cfg) eqn:Hde.
    { left. by exists cl, c. }
    right. split; [by intros c' _ [= <-]|]. destruct (disengage_eq (ir_key r) s Hcan) as (n & Hn & Hd).
    eexists m, clp, _. split; [|unfold mbind, M_bind; rewrite Hd; reflexivity].
    unfold cleared. simpl. rewrite lookup_delete_eq, !delete_delete_eq. split_ands; try done; [|by right; exists n].
    by intros name k [_ ?]%lookup_delete_Some.
  - right. split; [done|]. exists m, clp, s. split; [|done]. unfold cleared. rewrite delete_id by done. split_ands; auto.
Qed.

(** The abstract state: the configurations of the clusters there are. *)
Definition view s : gmap ClusterName rest_Config := map_zip_with (λ _ cfg, cfg) (i_clusters s) (i_kubeconfig s).

Lemma view_lookup s name :
  inv_wf s → view s !! name = match i_clusters s !! name with Some _ => i_kubeconfig s !! name | None => None end.
Proof.
  intros Hwf. unfold view. rewrite map_lookup_zip_with. destruct (i_clusters s !! name); simpl; [|done].
  by destruct (i_kubeconfig s !! name).
Qed.

(** Reconciling keeps the state well-formed. *)
Lemma inv_wf_reconcile ctx r s : inv_wf s → inv_wf (inv_Reconcile o p ctx r s).2.
Proof.
  intros Hwf. pose proof (inv_Reconcile_cases ctx r s Hwf) as H. destruct (inv_wish s r) as [| |cfg].
  - rewrite H. simpl. rewrite profile_gone_eq. intros name [cl Hcl]. simpl in *.
    apply lookup_delete_Some in Hcl as [_ Hcl]. apply Hwf. by eexists.
  - destruct H as (res & err & ->). done.
  - destruct H as [(cl & c & _ & _ & _ & ->)|(_ & m & clp & s0 & Hs0 & ->)]; [done|].
    destruct Hs0 as (Hnone & Hdel & _ & _ & Hcan & Hkc & _).
    assert (∀ name, name ≠ ir_key r → i_clusters s0 !! name = i_clusters s !! name ∧ i_cancelFns s0 !! name = i_cancelFns s !! name ∧
      i_kubeconfig s0 !! name = i_kubeconfig s !! name) as Hother.
    { intros name Hne. rewrite <-Hdel, lookup_delete_ne by done.
      rewrite <-(lookup_delete_ne (i_cancelFns s0) (ir_key r)), <-Hcan, lookup_delete_ne by done.
      by rewrite <-(lookup_delete_ne (i_kubeconfig s0) (ir_key r)), <-Hkc, lookup_delete_ne by done. }
    pose proof (create_and_engage_spec m ctx r clp cfg s0 Hnone) as Hc.
    destruct (create_and_engage o p m ctx r clp cfg s0) as [err s']. simpl. destruct Hc as (_ & _ & Hc).
    intros name Hname. destruct (decide (name = ir_key r)) as [->|Hne].
    + destruct err as [e|].
      * destruct Hc as [Hc _]. rewrite Hc, Hnone in Hname. by destruct Hname.
      * destruct Hc as (cl & _ & _ & -> & -> & _). rewrite !lookup_insert_eq. split; by eexists.
    + destruct (Hother name Hne) as (Hcl & Hca & Hku). specialize (Hwf name). rewrite <-Hcl, <-Hca, <-Hku in Hwf.
      destruct err as [e|].
      * destruct Hc as [Hc [(-> & -> & _)|(-> & -> & _)]]; rewrite Hc in Hname; [by apply Hwf|].
        rewrite !lookup_delete_ne by done. by apply Hwf.
      * destruct Hc as (cl & _ & Hc & -> & -> & _). rewrite Hc, lookup_insert_ne in Hname by done.
        rewrite !lookup_insert_ne by done. by apply Hwf.
Qed.

Lemma inv_IndexField_same ctx idx order s :
  same_maps s (inv_IndexField o ctx idx order s).2.
Proof.
  unfold inv_IndexField. unfold mbind at 1, M_bind at 1. simpl. unfold i_world.
  assert (∀ w, w_ctxs (for_range order (λ kv, err ← ask o (CallIndex kv.2 ctx idx);
    mret (Wrap ("failed to index field " +:+ Index_Field idx +:+ " on ClusterProfile " +:+ kv.1) <$> err)) w).2 = w_ctxs w) as Hw.
  { intros w. apply (for_range_ind (λ w', w_ctxs w' = w_ctxs w)); [|done]. by intros kv w' _ <-. }
  simpl. specialize (Hw (i_w s)). destruct (for_range _ _ _) as [err w]. done.
Qed.

(** *** The entries of the maps belong together *)

Lemma create_and_engage_calls m ctx r clp cfg s :
  let c := Ctx (cs_next (w_ctxs (i_w s)) :: ctx_nodes ctx) (ctx_values ctx) in
  let '(err, s') := create_and_engage o p m ctx r clp cfg s in
  w_calls (i_w s) `prefix_of` w_calls (i_w s') ∧
  (err = None → ∀ cl, inv_NewCluster p (ir_new r) clp cfg = Ok cl →
     answered o (w_calls (i_w s')) (CallEngage m c (ir_key r) cl) None).
Proof.
  unfold create_and_engage. destruct (inv_NewCluster p (ir_new r) clp cfg) as [cl|e]; [|by split].
  unfold on_nil. unfold mbind at 1, M_bind at 1. pose proof (inv_apply_indexers_spec ctx (ir_key r) cl s) as Ha.
  destruct (inv_apply_indexers o ctx (ir_key r) cl s) as [[e|] s1]; destruct Ha as ((H1 & H2 & H3 & H4 & H5) & H6 & l & Hl & _).
  { simpl. rewrite Hl. split; [by eexists|done]. }
  unfold i_world, w_WithCancel, WithCancel, ask, w_cancel, modify, forget, mbind, M_bind, mret, M_ret. simpl.
  rewrite H5. destruct (o _ (CallSync cl ctx)) as [e|]; simpl.
  { rewrite Hl, <-!app_assoc. split; [by eexists|done]. }
  set (eng := CallEngage _ _ _ _). set (pre := _ ++ [CallSync cl ctx]). assert (w_calls (i_w s) `prefix_of` pre ++ [eng]) as Hp.
  { unfold pre. rewrite Hl, <-!app_assoc. by eexists. }
  pose proof (answered_last o pre eng) as Ha. destruct (o pre eng) as [e|]; simpl; (split; [done|]); [done|].
  by intros _ ? [= <-].
Qed.

(** What the maps hold of a cluster that is known: its cancel function, which has
    not been called; the configuration it was made from; and it was started, and
    accepted by the manager, under the context of that cancel function. *)
Definition entry s (name : ClusterName) (cl : cluster) (n : cancel_func) (cfg : rest_Config) : Prop :=
  i_cancelFns s !! name = Some n ∧ i_kubeconfig s !! name = Some cfg ∧ n ∉ cs_cancelled (w_ctxs (i_w s)) ∧
  (∃ new clp, inv_NewCluster p new clp cfg = Ok cl) ∧
  ∃ ctx m, let c := Ctx (n :: ctx_nodes ctx) (ctx_values ctx) in
    CallStart cl c ∈ w_calls (i_w s) ∧ answered o (w_calls (i_w s)) (CallEngage m c name cl) None.

Record inv_live s : Prop := {
  il_store : store_wf (w_ctxs (i_w s));
  il_lt name n : i_cancelFns s !! name = Some n → (n < cs_next (w_ctxs (i_w s)))%nat;
  il_inj a b n : i_cancelFns s !! a = Some n → i_cancelFns s !! b = Some n → a = b;
  il_entry name cl : i_clusters s !! name = Some cl → ∃ n cfg, entry s name cl n cfg;
}.

Lemma inv_live_wf s : inv_live s → inv_wf s.
Proof. intros HI name [cl Hcl]. destruct (il_entry s HI name cl Hcl) as (n & cfg & Hn & Hc & _). split; by eexists. Qed.

(** The entry of another name, when its cancel function is not called. *)
Lemma entry_frame s s' name cl n cfg :
  i_cancelFns s' !! name = i_cancelFns s !! name → i_kubeconfig s' !! name = i_kubeconfig s !! name →
  (n ∈ cs_cancelled (w_ctxs (i_w s')) → n ∈ cs_cancelled (w_ctxs (i_w s))) →
  w_calls (i_w s) `prefix_of` w_calls (i_w s') → entry s name cl n cfg → entry s' name cl n cfg.
Proof.
  intros H1 H2 H3 Hp (Hn & Hc & Hl & Hnew & ctx & m & Hs & He). unfold entry. rewrite H1, H2. split_ands; auto.
  exists ctx, m. split; [|by eapply answered_mono]. destruct Hp as [k ->]. set_solver.
Qed.

(** Dropping a name and calling its cancel function. *)
Lemma inv_live_drop key s s' :
  inv_live s → i_clusters s' = delete key (i_clusters s) → delete key (i_kubeconfig s') = delete key (i_kubeconfig s) →
  (i_cancelFns s' = i_cancelFns s ∨ i_cancelFns s' = delete key (i_cancelFns s)) → w_calls (i_w s') = w_calls (i_w s) →
  (w_ctxs (i_w s') = w_ctxs (i_w s) ∨ ∃ n, i_cancelFns s !! key = Some n ∧ w_ctxs (i_w s') = cancel n (w_ctxs (i_w s))) →
  inv_live s'.
Proof.
  intros HI Hcl Hk Hca Hcs Hcx.
  assert (∀ name n, i_cancelFns s' !! name = Some n → i_cancelFns s !! name = Some n) as Hsub.
  { intros name n. destruct Hca as [->| ->]; [done|]. by intros [_ ?]%lookup_delete_Some. }
  split.
  - destruct Hcx as [->|(n & Hn & ->)]; [apply HI|]. apply cancel_store_wf; [by eapply (il_lt s HI)|apply HI].
  - intros name n Hn%Hsub%(il_lt s HI). by destruct Hcx as [->|(k & _ & ->)].
  - intros a b n Ha%Hsub Hb%Hsub. by eapply (il_inj s HI).
  - intros name cl Hn. rewrite Hcl in Hn. apply lookup_delete_Some in Hn as [Hne Hn].
    destruct (il_entry s HI name cl Hn) as (n & cfg & He). exists n, cfg. pose proof He as (Hcn & _).
    eapply entry_frame; [..|done].
    + destruct Hca as [->| ->]; [done|]. by rewrite lookup_delete_ne.
    + by rewrite <-(lookup_delete_ne (i_kubeconfig s') key), Hk, lookup_delete_ne.
    + destruct Hcx as [->|(k & Hkk & ->)]; [done|]. simpl. intros [->%elem_of_singleton|?]%elem_of_union; [|done].
      exfalso. apply Hne. by eapply (il_inj s HI).
    + by rewrite Hcs.
Qed.

Lemma cleared_live key s s0 : inv_live s → cleared key s s0 → inv_live s0.
Proof.
  intros HI (Hnone & Hcl & _ & _ & Hca & Hk & Hcs & Hsub & Hnx & Hcx).
  split.
  - destruct Hcx as [->|(n & Hn & ->)]; [apply HI|]. apply cancel_store_wf; [by eapply (il_lt s HI)|apply HI].
  - intros name n Hn%Hsub%(il_lt s HI). by rewrite Hnx.
  - intros a b n Ha%Hsub Hb%Hsub. by eapply (il_inj s HI).
  - intros name cl Hn. assert (name ≠ key) as Hne by (intros ->; congruence).
    rewrite <-Hcl, lookup_delete_ne in Hn by done.
    destruct (il_entry s HI name cl Hn) as (n & cfg & He). exists n, cfg. pose proof He as (Hcn & _).
    eapply entry_frame; [..|done].
    + by rewrite <-(lookup_delete_ne (i_cancelFns s0) key), <-Hca, lookup_delete_ne.
    + by rewrite <-(lookup_delete_ne (i_kubeconfig s0) key), <-Hk, lookup_delete_ne.
    + destruct Hcx as [->|(k & Hkk & ->)]; [done|]. simpl. intros [->%elem_of_singleton|?]%elem_of_union; [|done].
      exfalso. apply Hne. by eapply (il_inj s HI).
    + by rewrite Hcs.
Qed.

Lemma inv_live_create m ctx r clp cfg s :
  inv_live s → i_clusters s !! ir_key r = None → inv_live (create_and_engage o p m ctx r clp cfg s).2.
Proof.
  intros HI Hnone. pose proof (create_and_engage_spec m ctx r clp cfg s Hnone) as Hc.
  pose proof (create_and_engage_calls m ctx r clp cfg s) as Hcs.
  destruct (create_and_engage o p m ctx r clp cfg s) as [err s']. simpl in *. destruct Hcs as [Hp Hans], Hc as (_ & _ & Hc).
  set (n := cs_next (w_ctxs (i_w s))) in *. pose proof (il_lt s HI) as Hlt. pose proof (il_store s HI) as Hst.
  assert (∀ name k, i_cancelFns s !! name = Some k → k ≠ n) as Hfresh by (intros name k ?%Hlt; lia).
  destruct err as [e|].
  - destruct Hc as [Hcl Hc].
    assert ((∀ name k, i_cancelFns s' !! name = Some k → i_cancelFns s !! name = Some k) ∧
      (∀ name, name ≠ ir_key r → i_cancelFns s' !! name = i_cancelFns s !! name ∧ i_kubeconfig s' !! name = i_kubeconfig s !! name) ∧
      ∀ k, k ≠ n → k ∈ cs_cancelled (w_ctxs (i_w s')) → k ∈ cs_cancelled (w_ctxs (i_w s))) as (Hsub & Hoth & Hcan).
    { destruct Hc as [(-> & -> & [->| ->] & _)|(-> & -> & -> & _)]; split_ands; try done; [simpl; set_solver|..].
      - by intros name k [_ ?]%lookup_delete_Some.
      - intros name Hne. by rewrite !lookup_delete_ne. }
    assert (store_wf (w_ctxs (i_w s')) ∧ cs_next (w_ctxs (i_w s)) ≤ cs_next (w_ctxs (i_w s')))%nat as [Hst' Hnx].
    { destruct Hc as [(_ & _ & [->| ->] & _)|(_ & _ & -> & _)]; simpl; split; try done; try lia.
      all: intros k; simpl; rewrite ?elem_of_union, ?elem_of_singleton; intros Hk; try destruct Hk as [->|Hk]; try (apply Hst in Hk); lia. }
    split; [done| | |].
    + intros name k Hk%Hsub%Hlt. lia.
    + intros a b k Ha%Hsub Hb%Hsub. by eapply (il_inj s HI).
    + intros name cl. rewrite Hcl. intros Hn. assert (name ≠ ir_key r) as Hne by (intros ->; congruence).
      destruct (il_entry s HI name cl Hn) as (k & cfg' & He). exists k, cfg'. destruct (Hoth name Hne) as [H1 H2].
      eapply entry_frame; [done|done| |done|done]. apply Hcan. eapply Hfresh, He.
  - destruct Hc as (cl & Hnew & Hcl & Hca & Hk & Hw & Hl). specialize (Hans eq_refl cl Hnew). split.
    + rewrite Hw. intros k Hin%Hst. simpl. lia.
    + intros name k. rewrite Hca, Hw. simpl. intros [[_ <-]|[_ ?%Hlt]]%lookup_insert_Some; lia.
    + intros a b k. rewrite Hca. intros [[<- <-]|[Ha1 Ha2]]%lookup_insert_Some [[Hb1 Hb2]|[Hb1 Hb2]]%lookup_insert_Some; try done.
      * by apply Hfresh in Hb2.
      * subst. by apply Hfresh in Ha2.
      * by eapply (il_inj s HI).
    + intros name cl'. rewrite Hcl. intros [[<- <-]|[Hne Hn]]%lookup_insert_Some.
      * exists n, cfg. unfold entry. rewrite Hca, Hk, !lookup_insert_eq, Hw. split_ands; try done; [by intros ?%Hst; simpl in *; lia|by eexists _, _|].
        exists ctx, m. split; [|done]. rewrite Hl. set_solver.
      * destruct (il_entry s HI name cl' Hn) as (k & cfg' & He). exists k, cfg'.
        eapply entry_frame; [by rewrite Hca, lookup_insert_ne|by rewrite Hk, lookup_insert_ne|by rewrite Hw|done|done].
Qed.

Lemma inv_live_reconcile ctx r s : inv_live s → inv_live (inv_Reconcile o p ctx r s).2.
Proof.
  intros HI. pose proof (inv_Reconcile_cases ctx r s (inv_live_wf s HI)) as H. destruct (inv_wish s r) as [| |cfg].
  - rewrite H. simpl. eapply (inv_live_drop (ir_key r) s); [done|rewrite profile_gone_eq..]; simpl; try done; [by left|].
    destruct (i_cancelFns s !! ir_key r) as [n|]; [right; by exists n|by left].
  - by destruct H as (res & err & ->).
  - destruct H as [(cl & c & _ & _ & _ & ->)|(_ & m & clp & s0 & Hs0 & ->)]; [done|].
    pose proof (inv_live_create m ctx r clp cfg s0 (cleared_live _ _ _ HI Hs0) (proj1 Hs0)) as Hl.
    by destruct (create_and_engage o p m ctx r clp cfg s0).
Qed.

(** What has become unreachable for the provider: a cancel function that no map
    holds and that was not called. *)
Definition orphan (n : cancel_func) s : Prop :=
  (n < cs_next (w_ctxs (i_w s)))%nat ∧ n ∉ cs_cancelled (w_ctxs (i_w s)) ∧ ∀ name, i_cancelFns s !! name ≠ Some n.

Lemma orphan_reconcile n ctx r s : inv_wf s → orphan n s → orphan n (inv_Reconcile o p ctx r s).2.
Proof.
  intros Hwf (Hn & Hc & Hm). pose proof (inv_Reconcile_cases ctx r s Hwf) as H. destruct (inv_wish s r) as [| |cfg].
  - rewrite H. simpl. rewrite profile_gone_eq. unfold orphan. simpl.
    specialize (Hm (ir_key r)) as Hk. destruct (i_cancelFns s !! ir_key r) as [k|]; [|done].
    simpl. split; [done|]. split; [|done]. assert (n ≠ k) by congruence. set_solver.
  - destruct H as (res & err & ->). done.
  - destruct H as [(cl & c & _ & _ & _ & ->)|(_ & m & clp & s0 & Hs0 & ->)]; [done|].
    destruct Hs0 as (Hnone & _ & _ & _ & _ & _ & _ & Hsub & Hnx & Hcx).
    assert (orphan n s0) as (Hn0 & Hc0 & Hm0).
    { unfold orphan. rewrite Hnx. split; [done|]. split.
      - destruct Hcx as [->|(k & Hk & ->)]; [done|]. simpl. assert (n ≠ k) by (intros ->; by apply (Hm (ir_key r))). set_solver.
      - intros name Hin%Hsub. by apply (Hm name). }
    pose proof (create_and_engage_spec m ctx r clp cfg s0 Hnone) as Hce.
    destruct (create_and_engage o p m ctx r clp cfg s0) as [err s']. simpl. destruct Hce as (_ & _ & Hce). unfold orphan.
    assert (n ≠ cs_next (w_ctxs (i_w s0))) as Hfresh by lia.
    destruct err as [e|].
    + destruct Hce as [_ [(-> & _ & [->| ->] & _)|(-> & _ & -> & _)]]; simpl; split_ands; try done; try lia; [set_solver|].
      intros name [_ Hin]%lookup_delete_Some. by apply (Hm0 name).
    + destruct Hce as (cl & _ & _ & -> & _ & -> & _). simpl. split_ands; [lia|done|].
      intros name [[_ ?]|[_ Hin]]%lookup_insert_Some; [by subst|by apply (Hm0 name)].
Qed.

Lemma inv_IndexField_calls ctx idx order s :
  w_calls (i_w s) `prefix_of` w_calls (i_w (inv_IndexField o ctx idx order s).2).
Proof.
  unfold inv_IndexField. unfold mbind at 1, M_bind at 1. simpl. unfold i_world. simpl.
  match goal with |- context [for_range order ?B ?W] =>
    assert (w_calls W `prefix_of` w_calls (for_range order B W).2) as Hp; [|destruct (for_range order B W); exact Hp] end.
  apply (for_range_ind (λ w, w_calls (i_w s) `prefix_of` w_calls w)); [|done].
  intros kv w _ Hp. unfold mbind, M_bind, ask, mret, M_ret. simpl. by apply prefix_app_r.
Qed.

Lemma inv_live_index ctx idx order s : inv_live s → inv_live (inv_IndexField o ctx idx order s).2.
Proof.
  intros HI. pose proof (inv_IndexField_calls ctx idx order s) as Hp.
  destruct (inv_IndexField_same ctx idx order s) as (_ & Hc & Hca & Hk & Hw). split; rewrite ?Hc, ?Hca, ?Hw.
  1-3: apply HI.
  intros name cl Hn. destruct (il_entry s HI name cl Hn) as (n & cfg & He). exists n, cfg.
  eapply entry_frame; [by rewrite Hca|by rewrite Hk|by rewrite Hw|done|done].
Qed.

Lemma iexec_invariant n s s' :
  reachable (iexec o p) (λ s1, s1 = s) s' → inv_wf s ∧ orphan n s → inv_wf s' ∧ orphan n s'.
Proof.
  intros Hr Hs. revert s' Hr. apply (invariant_reachable _ _ (λ s', inv_wf s' ∧ orphan n s')); [by intros ? ->|].
  intros s1 op s2 [Hwf Hor] Hex. destruct op as [ctx r|ctx idx order]; injection Hex as <-.
  - split; [by apply inv_wf_reconcile|by apply orphan_reconcile].
  - destruct (inv_IndexField_same ctx idx order s1) as (_ & Hc & Hca & Hk & Hw).
    unfold inv_wf, orphan in *. by rewrite Hc, Hca, Hk, Hw.
Qed.
End lemmas.

(** ** Properties *)

(** The maps as a new provider and [SetupWithManager] leave them. *)
Definition inv_init (s : istate) : Prop :=
  i_clusters s = ∅ ∧ i_cancelFns s = ∅ ∧ i_kubeconfig s = ∅ ∧ store_wf (w_ctxs (i_w s)).

(** C20 (invariant): the three maps belong together: in every reachable state, whatever
    was reconciled and failed before, the cluster known under a name was
    made from the configuration stored under it, was started and accepted by
    the manager under the context that the stored cancel function cancels, and
    the provider has not cancelled that context - so a cluster that was
    cancelled, because its profile went or because another took its place, is
    never known, also when the creation of the other failed; and no two names
    share a cancel function. *)
Theorem inv_maps_stay_consistent o p s name cl :
  reachable (iexec o p) inv_init s → inv_Get s name = Ok cl →
  ∃ n cfg, entry o p s name cl n cfg ∧ ∀ other, i_cancelFns s !! other = Some n → other = name.
Proof.
  intros Hr Hg. assert (inv_live o p s) as HI.
  { apply (invariant_reachable (iexec o p) inv_init (inv_live o p)); [|intros s0 op s1 H Hex|done].
    - intros s0 (Hc & Hca & _ & Hst). split; [done|rewrite ?Hc, ?Hca; by intros ?? ?%lookup_empty_Some..| |];
        rewrite ?Hc, ?Hca; [by intros ??? ?%lookup_empty_Some|by intros ?? ?%lookup_empty_Some].
    - destruct op as [ctx r|ctx idx order]; injection Hex as <-; [by apply inv_live_reconcile|by apply inv_live_index]. }
  unfold inv_Get in Hg. destruct (i_clusters s !! name) as [cl'|] eqn:Hcl; [|done]. injection Hg as ->.
  destruct (il_entry o p s HI name cl Hcl) as (n & cfg & He). exists n, cfg. split; [done|].
  intros other Ho. eapply (il_inj o p s HI); [exact Ho|apply He].
Qed.

(** Complement (refinement): a reconcile of a ClusterProfile implements the specification of
    the reconciling providers with the configuration itself as fingerprint:
    at most the profile's own entry changes; it goes with the profile, is left
    alone while the profile is not healthy or has no kubeconfig, and else
    runs with that configuration or is dropped with an error. *)
Theorem inv_Reconcile_refines_synced `{EqDecision rest_Config} o p ctx r s :
  inv_wf s → (∀ c c', DeepEqual c c' = bool_decide (c = c')) →
  let '((res, err), s') := inv_Reconcile o p ctx r s in
  synced (ir_key r) (inv_wish p s r) err (view s) (view s') ∧
  (inv_wish p s r = WKeep → s' = s) ∧ i_indexers s' = i_indexers s.
Proof.
  intros Hwf Hde. pose proof (inv_wf_reconcile o p ctx r s Hwf) as Hwf'.
  pose proof (inv_Reconcile_cases o p ctx r s Hwf) as H. destruct (inv_wish p s r) as [| |cfg].
  - rewrite H in *. simpl in *. rewrite profile_gone_eq in *. split_ands; try done.
    apply map_eq. intros name. rewrite view_lookup by done. simpl. destruct (decide (name = ir_key r)) as [->|Hne].
    + by rewrite !lookup_delete_eq.
    + rewrite !lookup_delete_ne by done. by rewrite view_lookup.
  - destruct H as (res & err & ->). by split_ands.
  - destruct H as [(cl & c & Hcl & Hc & He & ->)|(Hne & m & clp & s0 & Hs0 & Heq)].
    + simpl. rewrite bool_decide_eq_true_2; [by split_ands|].
      rewrite view_lookup, Hcl, Hc by done. rewrite Hde in He. apply bool_decide_eq_true_1 in He. congruence.
    + rewrite Heq in *. clear Heq.
      assert (view s !! ir_key r ≠ Some cfg) as Hv.
      { rewrite view_lookup by done. destruct (i_clusters s !! ir_key r) as [cl|]; [|done].
        intros Hk. specialize (Hne cfg ltac:(done) Hk). rewrite Hde, bool_decide_eq_true_2 in Hne; done. }
      destruct Hs0 as (Hnone & Hdel & _ & Hix & _ & Hkc & _).
      pose proof (create_and_engage_spec o p m ctx r clp cfg s0 Hnone) as Hce.
      destruct (create_and_engage o p m ctx r clp cfg s0) as [err s'] eqn:Hcr. simpl. rewrite bool_decide_eq_false_2 by done.
      destruct Hce as (_ & Hix' & Hce).
      assert (∀ name, name ≠ ir_key r → i_clusters s' !! name = i_clusters s !! name ∧ i_kubeconfig s' !! name = i_kubeconfig s !! name) as Hother.
      { intros name Hnk. assert (i_kubeconfig s0 !! name = i_kubeconfig s !! name) as <-.
        { by rewrite <-(lookup_delete_ne (i_kubeconfig s0) (ir_key r)), <-Hkc, lookup_delete_ne by done. }
        rewrite <-(lookup_delete_ne (i_clusters s) (ir_key r)), Hdel by done.
        destruct err as [e|]; [destruct Hce as [-> [(_ & -> & _)|(_ & -> & _)]]|destruct Hce as (cl & _ & -> & _ & -> & _)];
          by rewrite ?lookup_delete_ne, ?lookup_insert_ne by done. }
      split; [|split; [done|congruence]].
      assert (∀ name, name ≠ ir_key r → view s' !! name = view s !! name) as Hvo.
      { intros name Hnk. rewrite !view_lookup by done. by destruct (Hother name Hnk) as [-> ->]. }
      destruct err as [e|]; apply map_eq; intros name; destruct (decide (name = ir_key r)) as [->|Hnk].
      * rewrite lookup_delete_eq, view_lookup by done. destruct Hce as [-> _]. by rewrite Hnone.
      * rewrite lookup_delete_ne by done. by apply Hvo.
      * rewrite lookup_insert_eq, view_lookup by done. destruct Hce as (cl & _ & -> & _ & -> & _). by rewrite !lookup_insert_eq.
      * rewrite lookup_insert_ne by done. by apply Hvo.
Qed.

(** Complement (safety): when the manager refuses a cluster, the provider drops it without
    cancelling its context: the cluster has been started, is not known any
    more, and whatever profiles are reconciled from then on, its cancel
    function is never called. *)
Theorem refused_cluster_is_never_stopped o p ctx r s s1 s2 res e m c key cl :
  inv_wf s → store_wf (w_ctxs (i_w s)) → (∀ name n, i_cancelFns s !! name = Some n → (n < cs_next (w_ctxs (i_w s)))%nat) →
  last (w_calls (i_w s)) ≠ Some (CallEngage m c key cl) →
  inv_Reconcile o p ctx r s = ((res, Some e), s1) → last (w_calls (i_w s1)) = Some (CallEngage m c key cl) →
  reachable (iexec o p) (λ s', s' = s1) s2 →
  CallStart cl c ∈ w_calls (i_w s1) ∧ inv_Get s1 key = Err ErrClusterNotFound ∧
  ∃ n, ctx_nodes c = n :: ctx_nodes ctx ∧ n ∉ cs_cancelled (w_ctxs (i_w s2)).
Proof.
  intros Hwf Hst Hlt Hl0 Hrec Hl1 Hreach. pose proof (inv_wf_reconcile o p ctx r s Hwf) as Hwf1. rewrite Hrec in Hwf1. simpl in Hwf1.
  pose proof (inv_Reconcile_cases o p ctx r s Hwf) as H. destruct (inv_wish p s r) as [| |cfg].
  { rewrite Hrec in H. done. }
  { destruct H as (res' & err & H). rewrite Hrec in H. injection H as _ _ ->. done. }
  destruct H as [(? & ? & _ & _ & _ & H)|(_ & m' & clp & s0 & Hs0 & H)]; [by rewrite Hrec in H|].
  destruct Hs0 as (Hnone & _ & _ & _ & _ & _ & Hcalls & Hsub & Hnx & Hcx).
  pose proof (create_and_engage_spec o p m' ctx r clp cfg s0 Hnone) as Hce.
  rewrite Hrec in H. destruct (create_and_engage o p m' ctx r clp cfg s0) as [err s'].
  injection H as _ <- <-. destruct Hce as (_ & _ & Hcl & [(_ & _ & _ & Hbad)|(Hca & _ & Hw & cl' & l & Hl)]).
  { exfalso. apply Hl0. rewrite <-Hcalls. by apply Hbad. }
  rewrite Hl in Hl1. rewrite last_app in Hl1. injection Hl1 as <- <- <- <-.
  split; [rewrite Hl; set_solver|]. split; [unfold inv_Get; by rewrite Hcl, Hnone|].
  exists (cs_next (w_ctxs (i_w s0))). split; [done|].
  apply (iexec_invariant o p _ s1 s2 Hreach). split; [done|]. unfold orphan. rewrite Hw, Hca. simpl. split; [lia|]. rewrite Hnx. split.
  - destruct Hcx as [->|(k & Hk & ->)]; simpl; intros Hin; [apply Hst in Hin; lia|].
    apply elem_of_union in Hin as [Hin%elem_of_singleton|Hin%Hst]; [apply Hlt in Hk; lia|lia].
  - intros name [_ Hin%Hsub%Hlt]%lookup_delete_Some. lia.
Qed.
End inventory.

(** ** Examples and witnesses *)
Section examples.
Let parse (kd : string) : result error string := Ok kd.
Let build (a : unit) (clp : ClusterProfile) : result error string := Ok ("server-of-" +:+ clp_Name clp).
Let cond (l : list (string * string)) (t : string) : option string := Some "True".
Let eqs (a b : string) : bool := bool_decide (a = b).

Definition ex_inv_config : @inv_config string unit :=
  MkInvConfig (λ new _ cfg, new cfg) (λ _, true) (accessProviderStrategy tt).
Definition ex_inv_request : @inv_request string :=
  MkInvRequest (MkCrRequest "ns" "p") (ProfileIs []) (λ _ _, Ok []) (λ _, Ok 7%nat).
Definition ex_inv_state : @istate string := IState (Some 0%nat) ∅ ∅ ∅ [] empty_world.

(** An oracle that refuses to engage clusters. *)
Definition no_engage : oracle := fun _ c => match c with CallEngage _ _ _ _ => Some (Errorf "refused") | _ => None end.

Lemma inv_maps_stay_consistent_witness :
  let s := (inv_Reconcile parse build eqs all_ok ex_inv_config Background ex_inv_request ex_inv_state).2 in
  inv_Get s "ns/p" = Ok 7%nat ∧ i_cancelFns s !! "ns/p" = Some 0%nat ∧
  ∃ n cfg, entry all_ok ex_inv_config s "ns/p" 7%nat n cfg ∧ ∀ other, i_cancelFns s !! other = Some n → other = "ns/p".
Proof.
  simpl. set (s := (inv_Reconcile parse build eqs all_ok ex_inv_config Background ex_inv_request ex_inv_state).2).
  assert (inv_Get s "ns/p" = Ok 7%nat) as Hg by (vm_compute; reflexivity). split; [done|].
  split; [vm_compute; reflexivity|].
  eapply (inv_maps_stay_consistent parse build eqs all_ok ex_inv_config s "ns/p" 7%nat); [|done].
  apply (reach_step (iexec parse build eqs all_ok ex_inv_config) _ ex_inv_state (OpReconcile Background ex_inv_request) s); [|reflexivity].
  apply reach_init. split; [done|]. split; [done|]. split; [done|]. apply empty_store_wf.
Defined.

Lemma inv_Reconcile_refines_synced_witness :
  let '((res, err), s') := inv_Reconcile parse build eqs all_ok ex_inv_config Background ex_inv_request ex_inv_state in
  synced (ir_key ex_inv_request) (inv_wish parse build ex_inv_config ex_inv_state ex_inv_request) err (view ex_inv_state) (view s') ∧
  (inv_wish parse build ex_inv_config ex_inv_state ex_inv_request = WKeep → s' = ex_inv_state) ∧
  i_indexers s' = i_indexers ex_inv_state.
Proof.
  apply (inv_Reconcile_refines_synced parse build eqs all_ok ex_inv_config Background ex_inv_request ex_inv_state); [|reflexivity].
  intros name [cl Hcl]. unfold ex_inv_state in Hcl. simpl in Hcl. by apply lookup_empty_Some in Hcl.
Defined.

Lemma refused_cluster_is_never_stopped_witness :
  let s1 := (inv_Reconcile parse build eqs no_engage ex_inv_config Background ex_inv_request ex_inv_state).2 in
  CallStart 7%nat (Ctx [0%nat] []) ∈ w_calls (i_w s1) ∧ inv_Get s1 "ns/p" = Err ErrClusterNotFound ∧
  ∃ n, ctx_nodes (Ctx [0%nat] []) = n :: ctx_nodes Background ∧ n ∉ cs_cancelled (w_ctxs (i_w s1)).
Proof.
  simpl. set (s1 := (inv_Reconcile parse build eqs no_engage ex_inv_config Background ex_inv_request ex_inv_state).2).
  apply (refused_cluster_is_never_stopped parse build eqs no_engage ex_inv_config Background ex_inv_request ex_inv_state s1 s1
    zero_Result (Errorf "refused") 0%nat (Ctx [0%nat] []) "ns/p" 7%nat).
  - intros name [cl Hcl]. unfold ex_inv_state in Hcl. simpl in Hcl. by apply lookup_empty_Some in Hcl.
  - apply empty_store_wf.
  - intros name n Hn. unfold ex_inv_state in Hn. simpl in Hn. by apply lookup_empty_Some in Hn.
  - discriminate.
  - vm_compute. reflexivity.
  - vm_compute. reflexivity.
  - by apply reach_init.
Defined.
End examples.
