(* ===== verification/NamespaceClient.v ===== *)
(** * providers/namespace: a client, a cache and informers within one namespace

    Every namespace of the shared cluster appears as a cluster whose only
    namespace is "default".  The wrappers rename namespaces on the way in and
    out; the client they wrap belongs to controller-runtime and is a record of
    operations here.  What they rely on is that the API server treats
    namespaces independently and alike: a class, [NamespacedStore], states it
    with one family of operations on the objects of one namespace.  The
    specification of a wrapped client is then that very family, applied to the
    objects of the cluster's namespace. *)

From S2P Require Import Prelude GoErrors GoContext Multicluster.

(** [metav1.NamespaceDefault] *)
Definition NamespaceDefault : string := "default".

(** A [client.Object] with what the wrappers do not look at in its body. *)
Record Object (B : Type) := MkObj {
  GetNamespace : string;
  GetName : string;
  body : B;
}.
Arguments MkObj {B} _ _ _.
Arguments GetNamespace {B} _.
Arguments GetName {B} _.
Arguments body {B} _.

Definition SetNamespace {B} (ns : string) (obj : Object B) : Object B := MkObj ns (GetName obj) (body obj).

Section client.
Context {St B Opt : Type}.

(** [client.ObjectKey] *)
Definition ObjectKey : Type := string * string.

(** The methods of a [client.Client].  An object that a method is handed is
    modified in place: the method returns what has become of it. *)
Record Client := MkClient {
  cl_Get : ObjectKey → Object B → list Opt → M St (Object B * option error);
  cl_List : list (Object B) → list Opt → M St (list (Object B) * option error);
  cl_Create : Object B → list Opt → M St (Object B * option error);
  cl_Delete : Object B → list Opt → M St (Object B * option error);
  cl_Update : Object B → list Opt → M St (Object B * option error);
  cl_DeleteAllOf : Object B → list Opt → M St (Object B * option error);
  cl_Apply : Object B → list Opt → M St (option error);
}.

(** A [client.SubResourceClient]. *)
Record SubResourceClient := MkSubClient {
  sub_Get : Object B → Object B → list Opt → M St (Object B * Object B * option error);
  sub_Create : Object B → Object B → list Opt → M St (Object B * Object B * option error);
  sub_Update : Object B → list Opt → M St (Object B * option error);
  sub_Apply : Object B → list Opt → M St (option error);
}.

(** Options and errors of controller-runtime and apimachinery: the namespace that
    applying list options in turn leaves, and constructors of errors. *)
Context (InNamespace : string → Opt) (ns_of_opts : list Opt → string).
Context (NewInvalid : Object B → string → error) (NewNotFound : string → error).

Section wrapper.
Context (clusterName : ClusterName).

(* src: providers/namespace/client.go:76-79 NamespacedClient.Create *)
Definition default_only (obj : Object B) : option error :=
  if bool_decide (GetNamespace obj = NamespaceDefault) then None else Some (NewInvalid obj (GetNamespace obj)).

(** [obj] is returned to the default namespace when the method ends. *)
Definition in_cluster (obj : Object B) (call : Object B → M St (Object B * option error)) : M St (Object B * option error) :=
  match default_only obj with
  | Some err => mret (obj, Some err)
  | None =>
      '(obj, err) ← call (SetNamespace (ClusterName_String clusterName) obj);
      mret (SetNamespace NamespaceDefault obj, err)
  end.

(* src: providers/namespace/client.go:42-55 NamespacedClient.Get *)
Definition nc_Get (n : Client) (key : ObjectKey) (obj : Object B) (opts : list Opt) : M St (Object B * option error) :=
  let '(ns, name) := key in
  if bool_decide (ns = NamespaceDefault) then
    '(obj, err) ← cl_Get n (ClusterName_String clusterName, name) obj opts;
    match err with
    | Some err => mret (obj, Some err)
    | None => mret (SetNamespace NamespaceDefault obj, None)
    end
  else mret (obj, Some (NewInvalid obj ns)).

(* src: providers/namespace/client.go:57-73 NamespacedClient.List *)
Definition nc_List (n : Client) (l : list (Object B)) (opts : list Opt) : M St (list (Object B) * option error) :=
  if bool_decide (ns_of_opts opts = NamespaceDefault) then
    '(l, err) ← cl_List n l (opts ++ [InNamespace (ClusterName_String clusterName)]);
    match err with
    | Some err => mret (l, Some err)
    | None => mret (SetNamespace NamespaceDefault <$> l, None)
    end
  else mret (l, Some (NewNotFound (ns_of_opts opts))).

(* src: providers/namespace/client.go:75-84 NamespacedClient.Create *)
Definition nc_Create (n : Client) (obj : Object B) (opts : list Opt) : M St (Object B * option error) :=
  in_cluster obj (λ obj, cl_Create n obj opts).

(* src: providers/namespace/client.go:86-95 NamespacedClient.Delete *)
Definition nc_Delete (n : Client) (obj : Object B) (opts : list Opt) : M St (Object B * option error) :=
  in_cluster obj (λ obj, cl_Delete n obj opts).

(* src: providers/namespace/client.go:97-106 NamespacedClient.Update *)
Definition nc_Update (n : Client) (obj : Object B) (opts : list Opt) : M St (Object B * option error) :=
  in_cluster obj (λ obj, cl_Update n obj opts).

(* src: providers/namespace/client.go:108-113 NamespacedClient.Patch *)
Definition nc_Patch (n : Client) (obj : Object B) (opts : list Opt) : outcome (M St (Object B * option error)) :=
  Panics "implement the three patch types".

(* src: providers/namespace/client.go:115-118 NamespacedClient.Apply *)
Definition nc_Apply (n : Client) (obj : Object B) (opts : list Opt) : M St (option error) := cl_Apply n obj opts.

(* src: providers/namespace/client.go:120-129 NamespacedClient.DeleteAllOf *)
Definition nc_DeleteAllOf (n : Client) (obj : Object B) (opts : list Opt) : M St (Object B * option error) :=
  in_cluster obj (λ obj, cl_DeleteAllOf n obj opts).

(* src: providers/namespace/client.go:150-160 SubResourceNamespacedClient.Get *)
Definition sub_nc_Get (s : SubResourceClient) (obj subResource : Object B) (opts : list Opt) :
  M St (Object B * Object B * option error) :=
  match default_only obj with
  | Some err => mret (obj, subResource, Some err)
  | None =>
      '(obj, subResource, err) ← sub_Get s (SetNamespace (ClusterName_String clusterName) obj) subResource opts;
      mret (SetNamespace NamespaceDefault obj, SetNamespace NamespaceDefault subResource, err)
  end.

(* src: providers/namespace/client.go:162-172 SubResourceNamespacedClient.Create *)
Definition sub_nc_Create (s : SubResourceClient) (obj subResource : Object B) (opts : list Opt) :
  M St (Object B * Object B * option error) :=
  match default_only obj with
  | Some err => mret (obj, subResource, Some err)
  | None =>
      '(obj, subResource, err) ← sub_Create s (SetNamespace (ClusterName_String clusterName) obj) subResource opts;
      mret (SetNamespace NamespaceDefault obj, SetNamespace NamespaceDefault subResource, err)
  end.

(* src: providers/namespace/client.go:174-183 SubResourceNamespacedClient.Update *)
Definition sub_nc_Update (s : SubResourceClient) (obj : Object B) (opts : list Opt) : M St (Object B * option error) :=
  in_cluster obj (λ obj, sub_Update s obj opts).

(* src: providers/namespace/client.go:185-190 SubResourceNamespacedClient.Patch *)
Definition sub_nc_Patch (s : SubResourceClient) (obj : Object B) (opts : list Opt) : outcome (M St (Object B * option error)) :=
  Panics "implement the three patch types".

(* src: providers/namespace/client.go:192-195 SubResourceNamespacedClient.Apply *)
Definition sub_nc_Apply (s : SubResourceClient) (obj : Object B) (opts : list Opt) : M St (option error) := sub_Apply s obj opts.

(** A subresource client with its cluster's name; [client] is the wrapped client's
    [SubResource]. *)
(* src: providers/namespace/client.go:143-148 SubResourceNamespacedClient *)
Definition SubResourceNamespacedClient : Type := ClusterName * SubResourceClient.

(* src: providers/namespace/client.go:136-139 NamespacedClient.SubResource *)
Definition nc_SubResource (client : string → SubResourceClient) (subResource : string) : SubResourceNamespacedClient :=
  (clusterName, client subResource).

(* src: providers/namespace/client.go:131-134 NamespacedClient.Status *)
Definition nc_Status (client : string → SubResourceClient) : SubResourceNamespacedClient := (clusterName, client "status").

(** A cache reads. *)
(* src: providers/namespace/cache.go:45-56 NamespacedCache.Get *)
Definition cache_Get (c : Client) (key : ObjectKey) (obj : Object B) (opts : list Opt) : M St (Object B * option error) :=
  let '(ns, name) := key in
  if bool_decide (ns = NamespaceDefault) then
    '(obj, err) ← cl_Get c (ClusterName_String clusterName, name) obj opts;
    match err with
    | Some err => mret (obj, Some err)
    | None => mret (SetNamespace NamespaceDefault obj, None)
    end
  else mret (obj, Some (NewNotFound name)).

(** The cluster named "*" sees all namespaces. *)
(* src: providers/namespace/cache.go:58-82 NamespacedCache.List *)
Definition cache_List (c : Client) (l : list (Object B)) (opts : list Opt) : M St (list (Object B) * option error) :=
  let ns := ns_of_opts opts in
  if negb (bool_decide (ns = "")) && negb (bool_decide (ns = NamespaceDefault)) then mret (l, None) else
  let ns := if bool_decide (clusterName = "*") then "" else clusterName in
  '(l, err) ← cl_List c l (opts ++ [InNamespace ns]);
  match err with
  | Some err => mret (l, Some err)
  | None => mret (SetNamespace NamespaceDefault <$> l, None)
  end.
End wrapper.

(** ** Informers *)

(** What an informer tells its handlers; a tombstone holds the last state the
    informer saw, if any. *)
Inductive event : Type :=
| EvAdd (obj : Object B) (isInInitialList : bool)
| EvUpdate (oldObj newObj : Object B)
| EvDelete (obj : Object B)
| EvTombstone (obj : option (Object B)).

(** What the wrapped handler is told for an event, if anything. *)
(* src: providers/namespace/cache.go:113-148 ScopedInformer.AddEventHandler *)
Definition scoped_event (clusterName : ClusterName) (e : event) : outcome (option event) :=
  match e with
  | EvAdd obj isInInitialList =>
      Returns (if bool_decide (GetNamespace obj = ClusterName_String clusterName)
               then Some (EvAdd (SetNamespace NamespaceDefault obj) isInInitialList) else None)
  | EvUpdate oldObj newObj =>
      Returns (if bool_decide (GetNamespace newObj = ClusterName_String clusterName)
               then Some (EvUpdate (SetNamespace NamespaceDefault oldObj) (SetNamespace NamespaceDefault newObj)) else None)
  | EvDelete obj | EvTombstone (Some obj) =>
      Returns (if bool_decide (GetNamespace obj = ClusterName_String clusterName)
               then Some (EvDelete (SetNamespace NamespaceDefault obj)) else None)
  | EvTombstone None => Panics "interface conversion: interface is nil, not client.Object"
  end.

(** The same, registered with options; the resync period is such an option. *)
(* src: providers/namespace/cache.go:155-189 ScopedInformer.AddEventHandlerWithOptions *)
Definition scoped_event_with_options (clusterName : ClusterName) (e : event) : outcome (option event) :=
  match e with
  | EvAdd cobj isInInitialList =>
      Returns (if bool_decide (GetNamespace cobj = ClusterName_String clusterName)
               then Some (EvAdd (SetNamespace NamespaceDefault cobj) isInInitialList) else None)
  | EvUpdate oldObj obj =>
      Returns (if bool_decide (GetNamespace obj = ClusterName_String clusterName)
               then Some (EvUpdate (SetNamespace NamespaceDefault oldObj) (SetNamespace NamespaceDefault obj)) else None)
  | EvDelete cobj | EvTombstone (Some cobj) =>
      Returns (if bool_decide (GetNamespace cobj = ClusterName_String clusterName)
               then Some (EvDelete (SetNamespace NamespaceDefault cobj)) else None)
  | EvTombstone None => Panics "interface conversion: interface is nil, not client.Object"
  end.

(** A handler as an informer calls it, and what it makes of an event. *)
Definition ResourceEventHandler : Type := event → M St (outcome unit).

(** What the shared informer is given in place of a handler. *)
Definition scoped (f : event → outcome (option event)) (handler : ResourceEventHandler) : ResourceEventHandler := fun e =>
  match f e with
  | Panics msg => mret (Panics msg)
  | Returns (Some e) => handler e
  | Returns None => mret (Returns tt)
  end.

(** [toolscache.HandlerOptions], [cache.Informer] and [cache.Cache], less the
    methods that are not called. *)
Record HandlerOptions := MkHandlerOptions { ResyncPeriod : option Z }.
Record Informer {Reg : Type} := MkInformer {
  inf_AddEventHandler : ResourceEventHandler → M St (result error Reg);
  inf_AddEventHandlerWithOptions : ResourceEventHandler → HandlerOptions → M St (result error Reg);
}.
Arguments Informer : clear implicits.
Record Cache {Reg GVK : Type} := MkCache {
  ca_GetInformer : Object B → list Opt → M St (result error (Informer Reg));
  ca_GetInformerForKind : GVK → list Opt → M St (result error (Informer Reg));
}.
Arguments Cache : clear implicits.

Section scoped_informer.
Context {Reg GVK : Type}.

(* src: providers/namespace/cache.go:107-111 ScopedInformer *)
Record ScopedInformer := MkScopedInformer {
  si_clusterName : ClusterName;
  si_Informer : Informer Reg;
}.

(* src: providers/namespace/cache.go:113-116 ScopedInformer.AddEventHandler *)
Definition si_AddEventHandler (i : ScopedInformer) (handler : ResourceEventHandler) : M St (result error Reg) :=
  inf_AddEventHandler (si_Informer i) (scoped (scoped_event (si_clusterName i)) handler).

(* src: providers/namespace/cache.go:155-158 ScopedInformer.AddEventHandlerWithOptions *)
Definition si_AddEventHandlerWithOptions (i : ScopedInformer) (handler : ResourceEventHandler) (options : HandlerOptions) : M St (result error Reg) :=
  inf_AddEventHandlerWithOptions (si_Informer i) (scoped (scoped_event_with_options (si_clusterName i)) handler) options.

(* src: providers/namespace/cache.go:150-153 ScopedInformer.AddEventHandlerWithResyncPeriod *)
Definition si_AddEventHandlerWithResyncPeriod (i : ScopedInformer) (handler : ResourceEventHandler) (resyncPeriod : Z) : M St (result error Reg) :=
  si_AddEventHandlerWithOptions i handler (MkHandlerOptions (Some resyncPeriod)).

(* src: providers/namespace/cache.go:84-91 NamespacedCache.GetInformer *)
Definition cache_GetInformer (clusterName : ClusterName) (c : Cache Reg GVK) (obj : Object B) (opts : list Opt) : M St (result error ScopedInformer) :=
  inf ← ca_GetInformer c obj opts;
  mret (match inf with Err err => Err err | Ok inf => Ok (MkScopedInformer clusterName inf) end).

(* src: providers/namespace/cache.go:93-100 NamespacedCache.GetInformerForKind *)
Definition cache_GetInformerForKind (clusterName : ClusterName) (c : Cache Reg GVK) (gvk : GVK) (opts : list Opt) : M St (result error ScopedInformer) :=
  inf ← ca_GetInformerForKind c gvk opts;
  mret (match inf with Err err => Err err | Ok inf => Ok (MkScopedInformer clusterName inf) end).
End scoped_informer.

(* src: providers/namespace/cache.go:102-105 NamespacedCache.RemoveInformer *)
Definition cache_RemoveInformer : option error := Some (Errorf "informer cannot be removed from scoped cache").

(* src: providers/namespace/cache.go:191-194 ScopedInformer.AddIndexers *)
Definition informer_AddIndexers : option error := Some (Errorf "indexes cannot be added to scoped informers").
End client.
Arguments Client : clear implicits.
Arguments SubResourceClient : clear implicits.
Arguments event : clear implicits.

(** ** Specification *)
Section spec.
Context {St B Opt G : Type}.
Context (InNamespace : string → Opt) (ns_of_opts : list Opt → string).
Context (NewInvalid : Object B → string → error) (NewNotFound : string → error).

(** The objects of one namespace by name, next to what the server keeps for all
    namespaces together, such as its revision. *)
Definition section_state : Type := G * gmap string B.

(** An object without its namespace. *)
Definition plain : Type := string * B.
Definition to_plain (obj : Object B) : plain := (GetName obj, body obj).
Definition at_ns (ns : string) (x : plain) : Object B := MkObj ns x.1 x.2.

(** What the server does within one namespace, whichever it is. *)
Record ns_operations := MkNsOps {
  ns_Get : string → plain → list Opt → M section_state (plain * option error);
  ns_List : list Opt → M section_state (list plain * option error);
  ns_Create : plain → list Opt → M section_state (plain * option error);
  ns_Delete : plain → list Opt → M section_state (plain * option error);
  ns_Update : plain → list Opt → M section_state (plain * option error);
  ns_Apply : plain → list Opt → M section_state (option error);
}.

(** A call acts on the section [ns] of a state as [f] does, and returns what [f]
    returns up to [conv]. *)
Definition acts_on {A A'} (glob : St → G) (sect : St → string → gmap string B) (ns : string)
    (call : M St A) (f : M section_state A') (conv : A → A' → Prop) : Prop :=
  ∀ s, conv (call s).1 (f (glob s, sect s ns)).1 ∧
    (glob (call s).2, sect (call s).2 ns) = (f (glob s, sect s ns)).2 ∧
    ∀ ns', ns' ≠ ns → sect (call s).2 ns' = sect s ns'.

(** The same result, and the object under the name of [ns]. *)
Definition same_at (ns : string) (a : Object B * option error) (a' : plain * option error) : Prop :=
  a = (at_ns ns a'.1, a'.2).

(** The same, but the namespace of the object only if there is no error. *)
Definition same_get (a : Object B * option error) (a' : plain * option error) : Prop :=
  to_plain a.1 = a'.1 ∧ a.2 = a'.2.

Definition same_list (ns : string) (a : list (Object B) * option error) (a' : list plain * option error) : Prop :=
  a.2 = a'.2 ∧ (a.2 = None → a.1 = at_ns ns <$> a'.1).

(** Namespaces are independent and alike: the documented behaviour of the API
    server's namespaced resources. *)
Class NamespacedStore (c : Client St B Opt) (ops : ns_operations) := {
  glob : St → G;
  sect : St → string → gmap string B;
  ns_opts_last opts ns : ns_of_opts (opts ++ [InNamespace ns]) = ns;
  law_Get ns name obj opts :
    acts_on glob sect ns (cl_Get c (ns, name) obj opts) (ns_Get ops name (to_plain obj) opts) same_get;
  law_List ns l opts : ns ≠ "" →
    acts_on glob sect ns (cl_List c l (opts ++ [InNamespace ns])) (ns_List ops opts) (same_list ns);
  law_Create obj opts :
    acts_on glob sect (GetNamespace obj) (cl_Create c obj opts) (ns_Create ops (to_plain obj) opts) (same_at (GetNamespace obj));
  law_Delete obj opts :
    acts_on glob sect (GetNamespace obj) (cl_Delete c obj opts) (ns_Delete ops (to_plain obj) opts) (same_at (GetNamespace obj));
  law_Update obj opts :
    acts_on glob sect (GetNamespace obj) (cl_Update c obj opts) (ns_Update ops (to_plain obj) opts) (same_at (GetNamespace obj));
  law_Apply obj opts :
    acts_on glob sect (GetNamespace obj) (cl_Apply c obj opts) (ns_Apply ops (to_plain obj) opts) eq;
}.

(** Requests of a client's user. *)
Inductive client_request : Type :=
| RGet (key : ObjectKey) (obj : Object B) (opts : list Opt)
| RList (opts : list Opt)
| RCreate (obj : Object B) (opts : list Opt)
| RDelete (obj : Object B) (opts : list Opt)
| RUpdate (obj : Object B) (opts : list Opt).

(** Responses; what a failed [Get] or [List] has left in the object or list it
    was handed is not looked at. *)
Inductive response : Type :=
| AnObject (obj : Object B)
| AList (l : list (Object B))
| ObjectAndError (obj : Object B) (err : option error)
| Failed (err : error).

Definition get_response (a : Object B * option error) : response :=
  match a.2 with None => AnObject a.1 | Some err => Failed err end.
Definition list_response (a : list (Object B) * option error) : response :=
  match a.2 with None => AList a.1 | Some err => Failed err end.

(** A user of the client of a cluster ... *)
Definition serve (clusterName : ClusterName) (c : Client St B Opt) (r : client_request) : M St response :=
  match r with
  | RGet key obj opts => a ← nc_Get NewInvalid clusterName c key obj opts; mret (get_response a)
  | RList opts => a ← nc_List InNamespace ns_of_opts NewNotFound clusterName c [] opts; mret (list_response a)
  | RCreate obj opts => a ← nc_Create NewInvalid clusterName c obj opts; mret (ObjectAndError a.1 a.2)
  | RDelete obj opts => a ← nc_Delete NewInvalid clusterName c obj opts; mret (ObjectAndError a.1 a.2)
  | RUpdate obj opts => a ← nc_Update NewInvalid clusterName c obj opts; mret (ObjectAndError a.1 a.2)
  end.

(** ... and of a cluster that has one namespace, "default". *)
Definition in_default (obj : Object B) (f : plain → M section_state (plain * option error)) : M section_state response :=
  match default_only NewInvalid obj with
  | Some err => mret (ObjectAndError obj (Some err))
  | None => a ← f (to_plain obj); mret (ObjectAndError (at_ns NamespaceDefault a.1) a.2)
  end.

Definition serve_spec (ops : ns_operations) (r : client_request) : M section_state response :=
  match r with
  | RGet (ns, name) obj opts =>
      if bool_decide (ns = NamespaceDefault)
      then a ← ns_Get ops name (to_plain obj) opts; mret (get_response (at_ns NamespaceDefault a.1, a.2))
      else mret (Failed (NewInvalid obj ns))
  | RList opts =>
      if bool_decide (ns_of_opts opts = NamespaceDefault)
      then a ← ns_List ops opts; mret (list_response (at_ns NamespaceDefault <$> a.1, a.2))
      else mret (Failed (NewNotFound (ns_of_opts opts)))
  | RCreate obj opts => in_default obj (λ x, ns_Create ops x opts)
  | RDelete obj opts => in_default obj (λ x, ns_Delete ops x opts)
  | RUpdate obj opts => in_default obj (λ x, ns_Update ops x opts)
  end.

Fixpoint serve_all {S} (serve : client_request → M S response) (rs : list client_request) : M S (list response) :=
  match rs with
  | [] => mret []
  | r :: rs => a ← serve r; l ← serve_all serve rs; mret (a :: l)
  end.

Section refinement.
Context (c : Client St B Opt) (ops : ns_operations) `{!NamespacedStore c ops}.

(** The state a cluster's clients see. *)
Definition cluster_view (clusterName : ClusterName) (s : St) : section_state := (glob s, sect s clusterName).

Definition simulates {A} (clusterName : ClusterName) (m : M St A) (f : M section_state A) : Prop :=
  ∀ s, (m s).1 = (f (cluster_view clusterName s)).1 ∧
    cluster_view clusterName (m s).2 = (f (cluster_view clusterName s)).2 ∧
    ∀ ns, ns ≠ clusterName → sect (m s).2 ns = sect s ns.

Lemma simulates_ret {A} cn (a : A) : simulates cn (mret a) (mret a).
Proof. intros s. done. Qed.

Lemma simulates_bind {A A'} cn (m : M St A) (f : M section_state A') conv {R} (k : A → R) (k' : A' → R) :
  acts_on glob sect cn m f conv → (∀ a a', conv a a' → k a = k' a') →
  simulates cn (a ← m; mret (k a)) (a ← f; mret (k' a)).
Proof.
  intros Ha Hk s. unfold cluster_view, mbind, M_bind, mret, M_ret. destruct (Ha s) as (Hc & He & Ho).
  destruct (m s) as [a s1], (f (glob s, sect s cn)) as [a' s1']. simpl in *. split; [by apply Hk|]. by split.
Qed.

Lemma simulates_in_cluster cn (call : Object B → M St (Object B * option error)) f obj :
  (∀ obj, acts_on glob sect (GetNamespace obj) (call obj) (f (to_plain obj)) (same_at (GetNamespace obj))) →
  simulates cn (a ← in_cluster NewInvalid cn obj call; mret (ObjectAndError a.1 a.2)) (in_default obj f).
Proof.
  intros Ha s. unfold in_cluster, in_default. destruct (default_only NewInvalid obj); [by apply simulates_ret|].
  specialize (Ha (SetNamespace cn obj) s) as (Hc & He & Ho). simpl in *.
  unfold cluster_view, mbind, M_bind, mret, M_ret, ClusterName_String in *. change (to_plain (SetNamespace cn obj)) with (to_plain obj) in *.
  destruct (call (SetNamespace cn obj) s) as [[obj' err] s1], (f (to_plain obj) (glob s, sect s cn)) as [[x err'] s1'].
  simpl in *. injection Hc as -> ->. by split.
Qed.

Lemma serve_simulates cn r : cn ≠ "" → simulates cn (serve cn c r) (serve_spec ops r).
Proof.
  intros Hcn. destruct r as [[ns name] obj opts|opts|obj opts|obj opts|obj opts]; simpl.
  - unfold nc_Get. destruct (bool_decide (ns = NamespaceDefault)); [|by apply simulates_ret].
    intros s. destruct (law_Get cn name obj opts s) as ([Hp Hr] & He & Ho).
    unfold cluster_view, mbind, M_bind, mret, M_ret, ClusterName_String. simpl.
    destruct (cl_Get c (cn, name) obj opts s) as [[obj' err] s1], (ns_Get ops name (to_plain obj) opts (glob s, sect s cn)) as [[x err'] s1'].
    simpl in *. subst. by destruct err'.
  - unfold nc_List. destruct (bool_decide _); [|by apply simulates_ret].
    intros s. destruct (law_List cn [] opts Hcn s) as ([Hr Hp] & He & Ho).
    unfold cluster_view, mbind, M_bind, mret, M_ret, ClusterName_String. simpl.
    destruct (cl_List c [] (opts ++ [InNamespace cn]) s) as [[l err] s1], (ns_List ops opts (glob s, sect s cn)) as [[x err'] s1'].
    simpl in *. subst. destruct err' as [e|]; [done|]. rewrite (Hp eq_refl). simpl. split; [|done].
    unfold list_response. simpl. by rewrite <-list_fmap_compose.
  - apply (simulates_in_cluster cn (λ obj, cl_Create c obj opts) (λ x, ns_Create ops x opts)). intros obj'. apply law_Create.
  - apply (simulates_in_cluster cn (λ obj, cl_Delete c obj opts) (λ x, ns_Delete ops x opts)). intros obj'. apply law_Delete.
  - apply (simulates_in_cluster cn (λ obj, cl_Update c obj opts) (λ x, ns_Update ops x opts)). intros obj'. apply law_Update.
Qed.

(** C14 (refinement): the client of a namespace is the client of a cluster of its
    own: whatever its user asks - any sequence of reads, lists, creations,
    updates and deletions, of any namespace - the responses and the effects
    are those of a server whose only namespace is "default" and holds the
    objects of the cluster's namespace, and no other namespace changes. *)
Theorem namespaced_client_is_a_cluster clusterName rs :
  clusterName ≠ "" →
  simulates clusterName (serve_all (serve clusterName c) rs) (serve_all (serve_spec ops) rs).
Proof.
  intros Hcn. induction rs as [|r rs IH]; [by apply simulates_ret|]. intros s. simpl.
  unfold mbind, M_bind, mret, M_ret. destruct (serve_simulates clusterName r Hcn s) as (H1 & H2 & H3).
  destruct (serve clusterName c r s) as [a s1], (serve_spec ops r (cluster_view clusterName s)) as [a' v1]. simpl in *. subst.
  destruct (IH s1) as (H1 & H2 & H4).
  destruct (serve_all (serve clusterName c) rs s1) as [l s2], (serve_all (serve_spec ops) rs (cluster_view clusterName s1)) as [l' v2].
  simpl in *. subst. split_ands; try done. intros ns Hne. by rewrite H4, H3.
Qed.

(** Complement (error): a namespace other than "default" does not exist for the user of a
    client: every method but [DeleteAllOf] of such an object, and the cache's
    [Get], reports an error and changes nothing; the cache's [List] reports
    success and leaves the list as it was. *)
Theorem other_namespaces_do_not_exist clusterName ns name obj l opts s :
  ns ≠ NamespaceDefault → ns ≠ "" → GetNamespace obj = ns → ns_of_opts opts = ns →
  nc_Get NewInvalid clusterName c (ns, name) obj opts s = ((obj, Some (NewInvalid obj ns)), s) ∧
  nc_List InNamespace ns_of_opts NewNotFound clusterName c l opts s = ((l, Some (NewNotFound ns)), s) ∧
  nc_Create NewInvalid clusterName c obj opts s = ((obj, Some (NewInvalid obj ns)), s) ∧
  nc_Delete NewInvalid clusterName c obj opts s = ((obj, Some (NewInvalid obj ns)), s) ∧
  nc_Update NewInvalid clusterName c obj opts s = ((obj, Some (NewInvalid obj ns)), s) ∧
  cache_Get NewNotFound clusterName c (ns, name) obj opts s = ((obj, Some (NewNotFound name)), s) ∧
  cache_List InNamespace ns_of_opts clusterName c l opts s = ((l, None), s).
Proof.
  intros Hd He Ho Hn. unfold nc_Get, nc_List, nc_Create, nc_Delete, nc_Update, in_cluster, cache_Get, cache_List, default_only.
  rewrite Ho, Hn, !(bool_decide_eq_false_2 _ Hd), (bool_decide_eq_false_2 _ He). done.
Qed.

(** Complement (safety): [Apply] is not confined: an applied object is written to the
    namespace it names, of whatever cluster the client is; the cluster's own
    namespace only changes if it is named. *)
Theorem Apply_is_not_confined clusterName obj opts s :
  let '(err, s') := nc_Apply c obj opts s in
  (glob s', sect s' (GetNamespace obj)) = (ns_Apply ops (to_plain obj) opts (glob s, sect s (GetNamespace obj))).2 ∧
  (clusterName ≠ GetNamespace obj → sect s' clusterName = sect s clusterName).
Proof.
  unfold nc_Apply. destruct (law_Apply obj opts s) as (_ & He & Ho). destruct (cl_Apply c obj opts s) as [err s'].
  split; [done|]. intros Hne. by apply Ho.
Qed.

(** Complement (safety): the namespace of the object does not select what [DeleteAllOf]
    deletes, the options do: for any two clusters the client does the same. *)
Theorem DeleteAllOf_ignores_the_cluster cn1 cn2 obj opts s :
  (∀ ns obj opts s, (cl_DeleteAllOf c (SetNamespace ns obj) opts s).2 = (cl_DeleteAllOf c obj opts s).2) →
  (nc_DeleteAllOf NewInvalid cn1 c obj opts s).2 = (nc_DeleteAllOf NewInvalid cn2 c obj opts s).2.
Proof.
  intros Hlaw. unfold nc_DeleteAllOf, in_cluster. destruct (default_only NewInvalid obj); [done|].
  unfold mbind, M_bind. pose proof (Hlaw (ClusterName_String cn1) obj opts s) as H1. pose proof (Hlaw (ClusterName_String cn2) obj opts s) as H2.
  destruct (cl_DeleteAllOf c _ opts s) as [[o1 e1] s1]. destruct (cl_DeleteAllOf c (SetNamespace (ClusterName_String cn2) obj) opts s) as [[o2 e2] s2].
  simpl in *. congruence.
Qed.
End refinement.
End spec.

(** ** Informers *)
Section informer.
Context {B : Type}.

(** A handler that keeps a store, as client-go's caches do. *)
Definition key_of (obj : Object B) : ObjectKey := (GetNamespace obj, GetName obj).

Definition apply_event (m : gmap ObjectKey B) (e : event B) : gmap ObjectKey B :=
  match e with
  | EvAdd obj _ | EvUpdate _ obj => <[key_of obj := body obj]> m
  | EvDelete obj | EvTombstone (Some obj) => delete (key_of obj) m
  | EvTombstone None => m
  end.

(** What the wrapped handler is told of a sequence of events. *)
Fixpoint scoped_events (clusterName : ClusterName) (evs : list (event B)) : outcome (list (event B)) :=
  match evs with
  | [] => Returns []
  | e :: evs =>
      match scoped_event clusterName e with
      | Panics msg => Panics msg
      | Returns e' =>
          match scoped_events clusterName evs with
          | Panics msg => Panics msg
          | Returns evs' => Returns (option_list e' ++ evs')
          end
      end
  end.

Lemma scoped_event_same clusterName (e : event B) :
  scoped_event_with_options clusterName e = scoped_event clusterName e.
Proof. by destruct e as [| | |[]]. Qed.

Lemma scoped_event_replay (cn : ClusterName) (e : event B) (e' : option (event B)) (m m' : gmap ObjectKey B) :
  scoped_event cn e = Returns e' →
  (∀ (ns name : string), m' !! (ns, name) = if bool_decide (ns = NamespaceDefault) then m !! (cn, name) else None) →
  ∀ (ns name : string), fold_left apply_event (option_list e') m' !! (ns, name) =
    if bool_decide (ns = NamespaceDefault) then apply_event m e !! (cn, name) else None.
Proof.
  intros He Hm ns name.
  assert (∀ obj, GetNamespace obj ≠ cn → (key_of obj = (cn, name)) → False) as Hother by (intros obj Hne [= Heq _]; done).
  assert (∀ obj, key_of (SetNamespace NamespaceDefault obj) = (NamespaceDefault, GetName obj)) as Hkey by done.
  destruct e as [obj b|old obj|obj|[obj|]]; simpl in He; [..|done]; injection He as <-; unfold ClusterName_String;
    destruct (decide (GetNamespace obj = cn)) as [Heq|Hne];
    rewrite ?(bool_decide_eq_true_2 _ Heq), ?(bool_decide_eq_false_2 _ Hne); simpl;
    try (rewrite Hm; destruct (bool_decide _); [|done]; rewrite ?lookup_insert_ne, ?lookup_delete_ne by (intros Hk; by eapply Hother); done);
    unfold key_of; simpl; rewrite Heq;
    destruct (decide ((ns, name) = (NamespaceDefault, GetName obj))) as [[= -> ->]|Hk];
    rewrite ?lookup_insert_eq, ?lookup_delete_eq; try done;
    rewrite ?lookup_insert_ne, ?lookup_delete_ne by congruence; rewrite Hm;
    destruct (decide (ns = NamespaceDefault)) as [->|Hns];
    rewrite ?(bool_decide_eq_false_2 _ Hns), ?bool_decide_eq_true_2 by done; try done;
    rewrite ?lookup_insert_ne, ?lookup_delete_ne by congruence; done.
Qed.

(** C36 (invariant): the informers of a cluster keep its handlers consistent with the
    shared informer: after any sequence of events that does not panic, a
    handler that keeps a store knows, under "default", exactly the objects that
    a handler of the shared informer knows in the cluster's namespace. *)
Theorem scoped_handlers_see_their_namespace (clusterName : ClusterName) (evs evs' : list (event B)) :
  scoped_events clusterName evs = Returns evs' →
  ∀ (ns name : string), fold_left apply_event evs' ∅ !! (ns, name) =
    if bool_decide (ns = NamespaceDefault) then fold_left apply_event evs ∅ !! (clusterName, name) else None.
Proof.
  assert (∀ m m', (∀ (ns name : string), m' !! (ns, name) = if bool_decide (ns = NamespaceDefault) then m !! (clusterName, name) else None) →
    scoped_events clusterName evs = Returns evs' →
    ∀ (ns name : string), fold_left apply_event evs' m' !! (ns, name) =
      if bool_decide (ns = NamespaceDefault) then fold_left apply_event evs m !! (clusterName, name) else None) as Hgen.
  { revert evs'. induction evs as [|e evs IH]; intros evs' m m' Hm He; simpl in He; [by injection He as <-|].
    destruct (scoped_event clusterName e) as [e'|] eqn:Hse; [|done].
    destruct (scoped_events clusterName evs) as [evs1|] eqn:Hs; [|done]. injection He as <-.
    intros ns name. rewrite fold_left_app. simpl. apply IH; [|done]. by apply scoped_event_replay. }
  apply Hgen. intros ns name. rewrite !lookup_empty. by destruct (bool_decide _).
Qed.
(** Complement (functional): an informer of a cluster's cache registers, at the shared
    informer and however it is asked to, the handler that sees the cluster's
    namespace; the cache hands one out exactly if the shared cache does. *)
Theorem cache_informers_are_scoped {St Opt Reg GVK} (cn : ClusterName) (c : @Cache St B Opt Reg GVK) obj gvk opts (s : St) :
  (let '(r, s') := cache_GetInformer cn c obj opts s in
   (∀ e, r = Err e ↔ (ca_GetInformer c obj opts s).1 = Err e) ∧ s' = (ca_GetInformer c obj opts s).2 ∧
   ∀ i, r = Ok i → ∃ inf, (ca_GetInformer c obj opts s).1 = Ok inf ∧ si_Informer i = inf ∧
     ∀ handler resync options, ∃ h, (∀ e s, h e s = scoped (scoped_event cn) handler e s) ∧
       si_AddEventHandler i handler = inf_AddEventHandler inf h ∧
       ∃ h', (∀ e s, h' e s = h e s) ∧
         si_AddEventHandlerWithOptions i handler options = inf_AddEventHandlerWithOptions inf h' options ∧
         si_AddEventHandlerWithResyncPeriod i handler resync = inf_AddEventHandlerWithOptions inf h' (MkHandlerOptions (Some resync))) ∧
  (cache_GetInformerForKind cn c gvk opts s).1 =
    match (ca_GetInformerForKind c gvk opts s).1 with Err e => Err e | Ok inf => Ok (MkScopedInformer cn inf) end.
Proof.
  split.
  - unfold cache_GetInformer, mbind, M_bind, mret, M_ret. destruct (ca_GetInformer c obj opts s) as [[inf|e] s']; simpl.
    2:{ split; [intros e'; split; by intros [= ->]|]. by split. }
    split; [by split|]. split; [done|]. intros i [= <-]. exists inf. split; [done|]. split; [done|]. intros handler resync options.
    exists (scoped (scoped_event cn) handler). split; [done|]. split; [done|].
    exists (scoped (scoped_event_with_options cn) handler). split; [|done].
    intros e t. unfold scoped. by rewrite scoped_event_same.
  - unfold cache_GetInformerForKind, mbind, M_bind, mret, M_ret. by destruct (ca_GetInformerForKind c gvk opts s) as [[inf|e] s'].
Qed.
End informer.

(** ** A server

    Any operations within one namespace make a server with many. *)
Section server.
Context {B G : Type} (ops : @ns_operations B string G).

(** Options that only name a namespace; the last one counts. *)
Definition ns_of (opts : list string) : string := default "" (last opts).

Definition server : Type := G * gmap string (gmap string B).
Definition server_sect (s : server) (ns : string) : gmap string B := default ∅ (s.2 !! ns).

Definition within {A} (ns : string) (f : M (@section_state B G) A) : M server A :=
  fun s => let '(a, (g, m)) := f (s.1, server_sect s ns) in (a, (g, <[ns := m]> s.2)).

Definition object_at (ns : string) (f : M (@section_state B G) (@plain B * option error)) : M server (Object B * option error) :=
  a ← within ns f; mret (at_ns ns a.1, a.2).

Definition server_client : Client server B string := MkClient
  (λ key obj opts, object_at key.1 (ns_Get ops key.2 (to_plain obj) opts))
  (λ _ opts, a ← within (ns_of opts) (ns_List ops (removelast opts)); mret (at_ns (ns_of opts) <$> a.1, a.2))
  (λ obj opts, object_at (GetNamespace obj) (ns_Create ops (to_plain obj) opts))
  (λ obj opts, object_at (GetNamespace obj) (ns_Delete ops (to_plain obj) opts))
  (λ obj opts, object_at (GetNamespace obj) (ns_Update ops (to_plain obj) opts))
  (λ obj opts s, ((obj, None),
     if bool_decide (ns_of opts = "") then (s.1, ∅) else (s.1, <[ns_of opts := ∅]> s.2)))
  (λ obj opts, within (GetNamespace obj) (ns_Apply ops (to_plain obj) opts)).

Lemma within_acts {A} ns (f : M (@section_state B G) A) : acts_on fst server_sect ns (within ns f) f eq.
Proof.
  intros s. unfold within. destruct (f (s.1, server_sect s ns)) as [a [g m]]. simpl. split_ands; [done| |].
  - unfold server_sect. simpl. by rewrite lookup_insert_eq.
  - intros ns' Hne. unfold server_sect. simpl. by rewrite lookup_insert_ne by done.
Qed.

Lemma object_at_acts ns (f : M (@section_state B G) (@plain B * option error)) :
  acts_on fst server_sect ns (object_at ns f) f (same_at ns).
Proof.
  intros s. destruct (within_acts ns f s) as (Ha & Hs & Ho). unfold object_at, mbind, M_bind, mret, M_ret, same_at.
  destruct (within ns f s) as [a s1]. simpl in *. by subst.
Qed.

#[export] Instance server_NamespacedStore : NamespacedStore id ns_of server_client ops.
Proof.
  refine {| glob := (fst : server → G); sect := server_sect |}.
  - intros opts ns. unfold ns_of. by rewrite last_snoc.
  - intros ns name obj opts s. destruct (object_at_acts ns (ns_Get ops name (to_plain obj) opts) s) as (Ha & Hs & Ho).
    split; [|done]. unfold same_at, same_get in *. change (cl_Get server_client (ns, name) obj opts s) with (object_at ns (ns_Get ops name (to_plain obj) opts) s).
    destruct (object_at _ _ s) as [a s1]. simpl in *. subst a. split; [|done]. by destruct (ns_Get ops name (to_plain obj) opts (s.1, server_sect s ns)) as [[[? ?] ?] ?].
  - intros ns l opts Hns s. simpl. unfold ns_of. rewrite last_snoc. simpl. unfold id. rewrite removelast_last.
    destruct (within_acts ns (ns_List ops opts) s) as (Ha & Hs & Ho). unfold mbind, M_bind, mret, M_ret, same_list.
    destruct (within ns (ns_List ops opts) s) as [a s1]. simpl in *. by subst.
  - intros obj opts. apply object_at_acts.
  - intros obj opts. apply object_at_acts.
  - intros obj opts. apply object_at_acts.
  - intros obj opts. apply within_acts.
Defined.
End server.

(** ** Examples and witnesses *)

(** A namespace of numbered objects. *)
Definition ex_ops : @ns_operations nat string nat := MkNsOps
  (λ name x _ s, match s.2 !! name with
                 | Some b => (((name, b), None), s)
                 | None => ((x, Some (Sentinel "NotFound")), s)
                 end)
  (λ _ s, ((map_to_list s.2, None), s))
  (λ x _ s, match s.2 !! x.1 with
            | Some _ => ((x, Some (Sentinel "AlreadyExists")), s)
            | None => ((x, None), (S s.1, <[x.1 := x.2]> s.2))
            end)
  (λ x _ s, ((x, None), (S s.1, delete x.1 s.2)))
  (λ x _ s, ((x, None), (S s.1, <[x.1 := x.2]> s.2)))
  (λ x _ s, (None, (S s.1, <[x.1 := x.2]> s.2))).

Definition ex_server : @server nat nat := (0%nat, {["a" := {["x" := 1%nat]}; "b" := {["x" := 2%nat]}]}).
Definition ex_invalid (obj : Object nat) (ns : string) : error := Errorf ("Invalid: " +:+ ns).
Definition ex_notfound (name : string) : error := Errorf ("NotFound: " +:+ name).

Lemma namespaced_client_is_a_cluster_witness :
  let rs := [RCreate (MkObj "default" "y" 5%nat) []; RGet ("default", "x") (MkObj "" "" 0%nat) []; RList ["default"]] in
  (serve_all (serve id ns_of ex_invalid ex_notfound "a" (server_client ex_ops)) rs ex_server).1 =
    [ObjectAndError (MkObj "default" "y" 5%nat) None; AnObject (MkObj "default" "x" 1%nat);
     AList [MkObj "default" "y" 5%nat; MkObj "default" "x" 1%nat]] ∧
  simulates id ns_of (server_client ex_ops) ex_ops "a"
    (serve_all (serve id ns_of ex_invalid ex_notfound "a" (server_client ex_ops)) rs)
    (serve_all (serve_spec ns_of ex_invalid ex_notfound ex_ops) rs).
Proof.
  split; [vm_compute; reflexivity|].
  apply (namespaced_client_is_a_cluster id ns_of ex_invalid ex_notfound (server_client ex_ops) ex_ops "a"). discriminate.
Defined.

Lemma other_namespaces_do_not_exist_witness :
  nc_Get ex_invalid "a" (server_client ex_ops) ("b", "x") (MkObj "b" "x" 0%nat) ["b"] ex_server =
    ((MkObj "b" "x" 0%nat, Some (ex_invalid (MkObj "b" "x" 0%nat) "b")), ex_server).
Proof.
  apply (other_namespaces_do_not_exist id ns_of ex_invalid ex_notfound (server_client ex_ops) "a" "b" "x" (MkObj "b" "x" 0%nat) [] ["b"] ex_server);
    [discriminate..|reflexivity|reflexivity].
Defined.

Lemma Apply_is_not_confined_witness :
  let '(err, s') := nc_Apply (server_client ex_ops) (MkObj "b" "x" 9%nat) [] ex_server in
  (s'.1, server_sect s' "b") = (ns_Apply ex_ops ("x", 9%nat) [] (0%nat, server_sect ex_server "b")).2 ∧
  ("a" ≠ "b" → server_sect s' "a" = server_sect ex_server "a").
Proof.
  pose proof (Apply_is_not_confined id ns_of (server_client ex_ops) ex_ops "a" (MkObj "b" "x" 9%nat) [] ex_server) as H.
  exact H.
Defined.

Lemma DeleteAllOf_ignores_the_cluster_witness :
  server_sect (nc_DeleteAllOf ex_invalid "a" (server_client ex_ops) (MkObj "default" "" 0%nat) [] ex_server).2 "b" = ∅ ∧
  (nc_DeleteAllOf ex_invalid "a" (server_client ex_ops) (MkObj "default" "" 0%nat) [] ex_server).2 =
  (nc_DeleteAllOf ex_invalid "b" (server_client ex_ops) (MkObj "default" "" 0%nat) [] ex_server).2.
Proof.
  split; [vm_compute; reflexivity|].
  apply (DeleteAllOf_ignores_the_cluster ex_invalid (server_client ex_ops) "a" "b"). reflexivity.
Defined.

Lemma scoped_handlers_see_their_namespace_witness :
  let evs := [EvAdd (MkObj "a" "x" 1%nat) true; EvAdd (MkObj "b" "x" 2%nat) true; EvUpdate (MkObj "a" "x" 1%nat) (MkObj "a" "x" 3%nat)] in
  scoped_events "a" evs = Returns [EvAdd (MkObj "default" "x" 1%nat) true; EvUpdate (MkObj "default" "x" 1%nat) (MkObj "default" "x" 3%nat)] ∧
  fold_left apply_event [EvAdd (MkObj "default" "x" 1%nat) true; EvUpdate (MkObj "default" "x" 1%nat) (MkObj "default" "x" 3%nat)] ∅ !! ("default", "x") =
    fold_left apply_event evs ∅ !! ("a", "x").
Proof.
  split; [reflexivity|].
  apply (scoped_handlers_see_their_namespace "a"
    [EvAdd (MkObj "a" "x" 1%nat) true; EvAdd (MkObj "b" "x" 2%nat) true; EvUpdate (MkObj "a" "x" 1%nat) (MkObj "a" "x" 3%nat)] _ eq_refl "default" "x").
Defined.
