(* ===== verification/NamespaceProvider.v ===== *)
(** * providers/namespace: every namespace is a cluster

    The provider watches the namespaces of one shared cluster; its handlers run
    one after the other in the informer's goroutine.  A namespace becomes a
    [NamespacedCluster], a wrapper of the shared cluster ([NamespaceClient]),
    that is engaged until the namespace is deleted. *)

From S2P Require Import Prelude GoErrors GoContext Multicluster NamespaceClient.

(** ** The wrapped cluster *)

(* src: providers/namespace/cluster.go:32-36 NamespacedCluster *)
Record NamespacedCluster := MkNamespacedCluster {
  clusterName : ClusterName;
  nsc_Cluster : cluster;
}.

(* src: providers/namespace/cluster.go:38-41 NamespacedCluster.Name *)
Definition nsc_Name (c : NamespacedCluster) : string := ClusterName_String (clusterName c).

(** A cache and a client are scoped to the cluster's name; [underlying] is what the
    shared cluster returns. *)
(* src: providers/namespace/cluster.go:43-46 NamespacedCluster.GetCache *)
Definition nsc_GetCache {A} (underlying : cluster → A) (c : NamespacedCluster) : ClusterName * A :=
  (clusterName c, underlying (nsc_Cluster c)).

(* src: providers/namespace/cluster.go:48-51 NamespacedCluster.GetClient *)
Definition nsc_GetClient {A} (underlying : cluster → A) (c : NamespacedCluster) : ClusterName * A :=
  (clusterName c, underlying (nsc_Cluster c)).

(* src: providers/namespace/cluster.go:65-68 NamespacedCluster.GetAPIReader *)
Definition nsc_GetAPIReader {A} (underlying_client : cluster → A) (c : NamespacedCluster) : ClusterName * A :=
  nsc_GetClient underlying_client c.

(* src: providers/namespace/cluster.go:53-63 NamespacedCluster.GetEventRecorderFor *)
Definition nsc_GetEventRecorder (c : NamespacedCluster) (name : string) : outcome unit := Panics "implement me".

(* src: providers/namespace/cluster.go:70-73 NamespacedCluster.Start *)
Definition nsc_Start (c : NamespacedCluster) (ctx : context) : option error := None.

(** ** The provider *)

(** [n_heap] are the [NamespacedCluster]s that were allocated, by their pointers,
    and [n_w] is what the provider runs in. *)
(* src: providers/namespace/provider.go:40-52 Provider *)
Record nstate {W : Type} := NState {
  n_cluster : cluster;
  n_mcAware : option nat;
  n_clusters : gmap ClusterName cluster;
  n_cancelFns : gmap ClusterName cancel_func;
  n_heap : list NamespacedCluster;
  n_w : W;
}.
Arguments nstate : clear implicits.
Arguments NState {W} _ _ _ _ _ _.

(* src: providers/namespace/provider.go:54-62 New *)
Definition ns_New {W} (cl : cluster) (w : W) : nstate W := NState cl None ∅ ∅ [] w.

Section provider.
Context {W : Type} {SW : Surroundings W}.

Definition n_lift {A} (m : M W A) : M (nstate W) A := fun s =>
  let '(a, w) := m (n_w s) in (a, NState (n_cluster s) (n_mcAware s) (n_clusters s) (n_cancelFns s) (n_heap s) w).

Definition n_world {A} (m : M world A) : M (nstate W) A := n_lift (in_world m).

(** [&NamespacedCluster{...}]: pointers to it are numbered apart from other
    clusters, which have even numbers. *)
Definition n_alloc (c : NamespacedCluster) : M (nstate W) cluster := fun s =>
  ((2 * length (n_heap s) + 1)%nat, NState (n_cluster s) (n_mcAware s) (n_clusters s) (n_cancelFns s) (n_heap s ++ [c]) (n_w s)).

Definition n_set (name : ClusterName) (cl : cluster) (cancel : cancel_func) : M (nstate W) unit :=
  modify (λ s, NState (n_cluster s) (n_mcAware s) (<[name := cl]> (n_clusters s)) (<[name := cancel]> (n_cancelFns s)) (n_heap s) (n_w s)).

Definition n_forget (name : ClusterName) : M (nstate W) unit :=
  modify (λ s, NState (n_cluster s) (n_mcAware s) (delete name (n_clusters s)) (delete name (n_cancelFns s)) (n_heap s) (n_w s)).

Section handlers.
Context (ctx : context).

(** The part under the lock: a context and a wrapper of the shared cluster. *)
(* src: providers/namespace/provider.go:89-95 Provider.Start *)
Definition add_store (clusterName : ClusterName) : M (nstate W) (context * cluster) :=
  cc ← n_world (w_WithCancel ctx);
  let '(clusterCtx, cancel) := cc in
  s ← get;
  cl ← n_alloc (MkNamespacedCluster clusterName (n_cluster s));
  _ ← n_set clusterName cl cancel;
  mret (clusterCtx, cl).

(** Without the lock; an engagement error is only logged. *)
(* src: providers/namespace/provider.go:97-105 Provider.Start *)
Definition add_engage (clusterName : ClusterName) (clusterCtx : context) (cl : cluster) : M (nstate W) (outcome unit) :=
  s ← get;
  match n_mcAware s with
  | None => mret (Panics "invalid memory address or nil pointer dereference")
  | Some mcAware =>
      err ← n_lift (aware_Engage mcAware clusterCtx clusterName cl);
      match err with
      | Some _ => _ ← n_forget clusterName; mret (Returns tt)
      | None => mret (Returns tt)
      end
  end.

(* src: providers/namespace/provider.go:76-106 Provider.Start *)
Definition AddFunc (ns : ClusterName) : M (nstate W) (outcome unit) :=
  let clusterName := ns in
  s ← get;
  match n_clusters s !! clusterName with
  | Some _ => mret (Returns tt)
  | None =>
      new ← add_store clusterName;
      let '(clusterCtx, cl) := new in
      add_engage clusterName clusterCtx cl
  end.

(** The part under the lock: calling what is found, which may be nil. *)
(* src: providers/namespace/provider.go:121-126 Provider.Start *)
Definition delete_stored (clusterName : ClusterName) : M (nstate W) (outcome unit) :=
  s ← get;
  match n_cancelFns s !! clusterName with
  | None => mret (Panics "invalid memory address or nil pointer dereference")
  | Some cancel => _ ← n_world (w_cancel cancel); _ ← n_forget clusterName; mret (Returns tt)
  end.

(** The cancel function is called before and under the lock. *)
(* src: providers/namespace/provider.go:107-127 Provider.Start *)
Definition DeleteFunc (obj : ClusterName + unit) : M (nstate W) (outcome unit) :=
  match obj with
  | inr _ => mret (Panics "interface conversion: interface is cache.DeletedFinalStateUnknown, not *v1.Namespace")
  | inl ns =>
      let clusterName := ns in
      s ← get;
      match n_cancelFns s !! clusterName with
      | None => mret (Returns tt)
      | Some cancel => _ ← n_world (w_cancel cancel); delete_stored clusterName
      end
  end.

(** What the informer of namespaces tells; there is no handler of updates. *)
Inductive ns_event : Type :=
| NsAdd (ns : ClusterName)
| NsUpdate (ns : ClusterName)
| NsDelete (ns : ClusterName)
| NsTombstone.

Definition ns_handle (e : ns_event) : M (nstate W) (outcome unit) :=
  match e with
  | NsAdd ns => AddFunc ns
  | NsUpdate _ => mret (Returns tt)
  | NsDelete ns => DeleteFunc (inl ns)
  | NsTombstone => DeleteFunc (inr tt)
  end.

Fixpoint ns_handle_all (evs : list ns_event) : M (nstate W) (outcome unit) :=
  match evs with
  | [] => mret (Returns tt)
  | e :: evs => r ← ns_handle e;
                match r with Panics msg => mret (Panics msg) | Returns _ => ns_handle_all evs end
  end.

(** [evs] are the events until the context ends; [informer] and [registration] are
    what getting the informer and adding the handlers answer. *)
(* src: providers/namespace/provider.go:64-135 Provider.Start *)
Definition ns_Start (aware : nat) (informer registration : option error) (evs : list ns_event) : M (nstate W) (outcome (option error)) :=
  _ ← modify (λ s, NState (n_cluster s) (Some aware) (n_clusters s) (n_cancelFns s) (n_heap s) (n_w s));
  match informer with
  | Some err => mret (Returns (Some err))
  | None =>
      match registration with
      | Some err => mret (Returns (Some err))
      | None => r ← ns_handle_all evs;
                mret (match r with Returns _ => Returns None | Panics msg => Panics msg end)
      end
  end.
End handlers.

(* src: providers/namespace/provider.go:137-146 Provider.Get *)
Definition ns_Get (s : nstate W) (clusterName : ClusterName) : result error cluster :=
  match n_clusters s !! clusterName with
  | Some cl => Ok cl
  | None => Err ErrClusterNotFound
  end.

(* src: providers/namespace/provider.go:148-151 Provider.IndexField *)
Definition ns_IndexField (o : oracle) (ctx : context) (idx : Index) : M (nstate W) (option error) :=
  s ← get; n_world (ask o (CallIndex (n_cluster s) ctx idx)).
End provider.

(** ** Properties *)

(** The namespaces there are after a sequence of events. *)
Definition present_step (X : gset ClusterName) (e : ns_event) : gset ClusterName :=
  match e with
  | NsAdd ns => {[ns]} ∪ X
  | NsDelete ns => X ∖ {[ns]}
  | NsUpdate _ | NsTombstone => X
  end.

Definition present (evs : list ns_event) : gset ClusterName :=
  fold_left present_step evs ∅.

Section proofs.
Context (o : oracle) (ctx : context).

Record ns_inv (X : gset ClusterName) (s : nstate world) : Prop := {
  nv_aware : is_Some (n_mcAware s);
  nv_dom name : is_Some (n_clusters s !! name) ↔ name ∈ X;
  nv_cancel name : is_Some (n_clusters s !! name) ↔ is_Some (n_cancelFns s !! name);
  nv_heap name cl : n_clusters s !! name = Some cl →
    ∃ i, cl = (2 * i + 1)%nat ∧ n_heap s !! i = Some (MkNamespacedCluster name (n_cluster s));
  nv_fresh name n : n_cancelFns s !! name = Some n → n < cs_next (w_ctxs (n_w s)) ∧ n ∉ cs_cancelled (w_ctxs (n_w s));
  nv_inj name name' n : n_cancelFns s !! name = Some n → n_cancelFns s !! name' = Some n → name = name';
  nv_store : store_wf (w_ctxs (n_w s));
  nv_calls a c name cl : CallEngage a c name cl ∈ w_calls (n_w s) →
    ∃ n, ctx_nodes c = n :: ctx_nodes ctx ∧
      (n_clusters s !! name = Some cl ∧ n_cancelFns s !! name = Some n ∨ n ∈ cs_cancelled (w_ctxs (n_w s)));
}.

Lemma ns_inv_add X ns s :
  (∀ cs a c name cl, o cs (CallEngage a c name cl) = None) → ns_inv X s →
  let '(r, s') := AddFunc (SW:=outside o) ctx ns s in r = Returns tt ∧ n_cluster s' = n_cluster s ∧ ns_inv ({[ns]} ∪ X) s'.
Proof.
  intros Ho [Haw Hd Hc Hh Hf Hj Hst Hcs]. unfold AddFunc. rewrite get_bind. destruct (n_clusters s !! ns) as [cl|] eqn:Hns.
  { split; [done|]. split; [done|]. replace ({[ns]} ∪ X) with X; [by split|]. assert (ns ∈ X) as Hin by (apply Hd; by eexists). clear -Hin. set_solver. }
  destruct Haw as [a Ha].
  unfold n_world, n_lift, add_store, add_engage, delete_stored, get, w_WithCancel, WithCancel, n_alloc, n_set, ask, modify, mbind, M_bind, mret, M_ret. simpl.
  rewrite Ha. simpl. rewrite Ho. split; [done|]. split; [done|].
  assert (n_cancelFns s !! ns = None) as Hcn.
  { destruct (n_cancelFns s !! ns) eqn:E; [|done]. destruct (proj2 (Hc ns)) as [? ?]; [by eexists|congruence]. }
  split; simpl.
  - by eexists.
  - intros name. rewrite lookup_insert_is_Some, Hd, elem_of_union, elem_of_singleton.
    destruct (decide (ns = name)) as [->|]; naive_solver.
  - intros name. rewrite !lookup_insert_is_Some, Hc. done.
  - intros name cl [[<- <-]|[_ Hl]]%lookup_insert_Some.
    + exists (length (n_heap s)). split; [done|]. by apply list_lookup_middle.
    + destruct (Hh _ _ Hl) as (i & -> & Hi). exists i. split; [done|]. by apply lookup_app_l_Some.
  - intros name n [[<- <-]|[_ Hl]]%lookup_insert_Some.
    + split; [lia|]. intros Hin%Hst. lia.
    + apply Hf in Hl as [? ?]. split; [lia|done].
  - intros name name' n [[<- <-]|[Hn1 Hl1]]%lookup_insert_Some [[<- Heq]|[Hn2 Hl2]]%lookup_insert_Some; [done|..|by eapply Hj].
    + apply Hf in Hl2 as [? _]. lia.
    + subst. apply Hf in Hl1 as [? _]. lia.
  - intros n Hn%Hst. simpl. lia.
  - intros a' c name cl Hin. apply elem_of_app in Hin as [Hin|Hin].
    + destruct (Hcs _ _ _ _ Hin) as (n & Hcx & [[Hl1 Hl2]|Hl]); exists n; (split; [done|]); [left|by right].
      assert (name ≠ ns) by congruence. by rewrite !lookup_insert_ne.
    + apply list_elem_of_singleton in Hin as [= -> -> -> ->]. eexists. split; [reflexivity|].
      left. by rewrite !lookup_insert_eq.
Qed.

Lemma ns_inv_delete X ns s :
  ns_inv X s →
  let '(r, s') := DeleteFunc (SW:=outside o) (inl ns) s in r = Returns tt ∧ n_cluster s' = n_cluster s ∧ ns_inv (X ∖ {[ns]}) s'.
Proof.
  intros HI. pose proof HI as [Haw Hd Hc Hh Hf Hj Hst Hcs]. unfold DeleteFunc. rewrite get_bind.
  destruct (n_cancelFns s !! ns) as [k|] eqn:Hk.
  2:{ split; [done|]. split; [done|]. replace (X ∖ {[ns]}) with X; [done|].
      assert (ns ∉ X) as Hnin. { rewrite <-Hd, Hc, Hk. by intros [? ?]. } clear -Hnin. set_solver. }
  unfold n_world, n_lift, add_store, add_engage, delete_stored, get, w_cancel, n_forget, modify, mbind, M_bind, mret, M_ret. simpl. rewrite Hk. simpl.
  split; [done|]. split; [done|]. split; simpl.
  - done.
  - intros name. rewrite lookup_delete_is_Some, Hd, elem_of_difference, elem_of_singleton. naive_solver.
  - intros name. by rewrite !lookup_delete_is_Some, Hc.
  - intros name cl [_ Hl]%lookup_delete_Some. by apply Hh.
  - intros name n [Hne Hl]%lookup_delete_Some. apply Hf in Hl as Hl'. split; [apply Hl'|].
    assert (n ≠ k) as Hnk. { intros ->. by apply Hne, (Hj ns name k). } destruct Hl' as [_ Hl']. clear -Hnk Hl'. set_solver.
  - intros name name' n [_ Hl]%lookup_delete_Some [_ Hl']%lookup_delete_Some. by eapply Hj.
  - apply Hf in Hk as [Hlt _]. repeat (apply cancel_store_wf; [done|]). done.
  - intros a c name cl Hin. destruct (Hcs _ _ _ _ Hin) as (n & Hcx & [[Hl1 Hl2]|Hl]); exists n; (split; [done|]).
    + destruct (decide (name = ns)) as [->|Hne]; [right; pose proof (eq_trans (eq_sym Hk) Hl2) as [= ->]; clear; set_solver|].
      left. by rewrite !lookup_delete_ne.
    + right. clear -Hl. set_solver.
Qed.

Lemma ns_inv_all evs X s :
  (∀ cs a c name cl, o cs (CallEngage a c name cl) = None) → NsTombstone ∉ evs → ns_inv X s →
  let '(r, s') := ns_handle_all (SW:=outside o) ctx evs s in
  r = Returns tt ∧ n_cluster s' = n_cluster s ∧
  ns_inv (fold_left present_step evs X) s'.
Proof.
  intros Ho. revert X s. induction evs as [|e evs IH]; intros X s Hts HI; [done|].
  apply not_elem_of_cons in Hts as [Hne Hts]. cbn [ns_handle_all fold_left]. rewrite bind_eq.
  destruct e as [ns|ns|ns|]; cbn [ns_handle].
  - pose proof (ns_inv_add X ns s Ho HI) as H. destruct (AddFunc (SW:=outside o) ctx ns s) as [r s1]. destruct H as (-> & <- & H).
    by apply IH.
  - by apply IH.
  - pose proof (ns_inv_delete X ns s HI) as H. destruct (DeleteFunc (SW:=outside o) (inl ns) s) as [r s1]. destruct H as (-> & <- & H).
    by apply IH.
  - done.
Qed.
End proofs.

(** Complement (functional): the namespaces are the clusters: as long as the manager accepts
    them, after any sequence of events without tombstones the provider knows
    exactly the namespaces there are, each as a wrapper of the shared cluster
    under its own name; what was engaged is either the cluster of an existing
    namespace, within a context the provider has not cancelled, or cancelled. *)
Theorem namespaces_are_the_clusters o ctx cl aware evs :
  (∀ cs a c name cl, o cs (CallEngage a c name cl) = None) → NsTombstone ∉ evs →
  let '(r, s) := ns_Start (SW:=outside o) ctx aware None None evs (ns_New cl empty_world) in
  r = Returns None ∧
  (∀ name, name ∈ present evs ↔ ∃ c, ns_Get s name = Ok c) ∧
  (∀ name c, ns_Get s name = Ok c → ∃ i, c = (2 * i + 1)%nat ∧ n_heap s !! i = Some (MkNamespacedCluster name cl)) ∧
  (∀ a c name k, CallEngage a c name k ∈ w_calls (n_w s) → ∃ n, ctx_nodes c = n :: ctx_nodes ctx ∧
     (name ∈ present evs ∧ ns_Get s name = Ok k ∧ n ∉ cs_cancelled (w_ctxs (n_w s)) ∨ n ∈ cs_cancelled (w_ctxs (n_w s)))).
Proof.
  intros Ho Hts. unfold ns_Start. unfold mbind, M_bind, modify, mret, M_ret. simpl. set (s0 := NState cl (Some aware) _ _ _ _).
  assert (ns_inv ctx ∅ s0) as HI.
  { unfold s0. split; simpl; try done.
    - intros name. rewrite lookup_empty. split; [by intros [? ?]|by intros ?%elem_of_empty].
    - intros a c name k Hin. by apply elem_of_nil in Hin. }
  pose proof (ns_inv_all o ctx evs ∅ s0 Ho Hts HI) as H. change (fold_left _ evs ∅) with (present evs) in H.
  destruct (ns_handle_all (SW:=outside o) ctx evs s0) as [r s]. destruct H as (-> & Hcl & [_ Hd Hc Hh Hf _ _ Hcs]). rewrite Hcl in Hh. simpl in Hh.
  assert (∀ name c, ns_Get s name = Ok c ↔ n_clusters s !! name = Some c) as Hget.
  { intros name c. unfold ns_Get. destruct (n_clusters s !! name); split; congruence. }
  split_ands; [done|..].
  - intros name. rewrite <-Hd. unfold is_Some. by setoid_rewrite Hget.
  - intros name c ?%Hget. by apply Hh.
  - intros a c name k Hin. destruct (Hcs a c name k Hin) as (n & Hn & [[Hk Hk2]|?]); exists n; (split; [done|]); [left|by right].
    split; [apply Hd; by eexists|]. split; [by apply Hget|]. by apply (Hf name n).
Qed.

(** Complement (error): a namespace whose deletion the watch has missed is reported by a
    tombstone, which the handler does not expect: it panics, whatever the
    state, although the informers of this package unwrap tombstones. *)
Theorem tombstone_of_a_namespace_panics o ctx evs s :
  NsTombstone ∈ evs → is_Some (n_mcAware s) →
  (∀ name, is_Some (n_clusters s !! name) ↔ is_Some (n_cancelFns s !! name)) →
  ∃ msg, (ns_handle_all (SW:=outside o) ctx evs s).1 = Panics msg.
Proof.
  intros Hin Haw Hdom. revert s Haw Hdom. induction evs as [|e evs IH]; intros s Haw Hdom; [by apply elem_of_nil in Hin|].
  apply elem_of_cons in Hin as [<-|Hin]; [by eexists|]. cbn [ns_handle_all]. rewrite bind_eq.
  destruct e as [ns|ns|ns|]; cbn [ns_handle]; [..|by eexists].
  - unfold AddFunc. rewrite get_bind. destruct (n_clusters s !! ns) eqn:Hns; [by apply IH|]. destruct Haw as [a Ha].
    unfold n_world, n_lift, add_store, add_engage, delete_stored, get, w_WithCancel, WithCancel, n_alloc, n_set, n_forget, ask, modify, mbind, M_bind, mret, M_ret. simpl.
    rewrite Ha. simpl. destruct (o _ _); apply IH; simpl; try done; intros name;
      rewrite ?lookup_delete_is_Some, !lookup_insert_is_Some, Hdom; done.
  - by apply IH.
  - unfold DeleteFunc. rewrite get_bind. destruct (n_cancelFns s !! ns) eqn:Hk; [|by apply IH].
    unfold n_world, n_lift, add_store, add_engage, delete_stored, get, w_cancel, n_forget, modify, mbind, M_bind, mret, M_ret. simpl. rewrite Hk. simpl.
    apply IH; simpl; try done. intros name. by rewrite !lookup_delete_is_Some, Hdom.
Qed.

(** Complement (safety): a namespace the manager refuses is forgotten, without cancelling the
    context it was engaged with and without another attempt: updates of the
    namespace do nothing. *)
Theorem refused_namespace_is_forgotten o ctx ns s e a :
  store_wf (w_ctxs (n_w s)) → n_clusters s !! ns = None → n_mcAware s = Some a →
  (∀ cs c cl, o cs (CallEngage a c ns cl) = Some e) →
  let '(r, s') := ns_handle_all (SW:=outside o) ctx [NsAdd ns; NsUpdate ns; NsUpdate ns] s in
  r = Returns tt ∧ ns_Get s' ns = Err ErrClusterNotFound ∧ n_cancelFns s' !! ns = None ∧
  ∃ c n cl, w_calls (n_w s') = w_calls (n_w s) ++ [CallEngage a c ns cl] ∧ ctx_nodes c = n :: ctx_nodes ctx ∧
    n ∉ cs_cancelled (w_ctxs (n_w s')) ∧ done_ctx c (w_ctxs (n_w s')) = done_ctx ctx (w_ctxs (n_w s)).
Proof.
  intros Hst Hns Ha Ho. unfold ns_handle_all, ns_handle. rewrite bind_eq. unfold AddFunc. rewrite get_bind, Hns.
  unfold n_world, n_lift, add_store, add_engage, delete_stored, get, w_WithCancel, n_alloc, n_set, n_forget, ask, modify, mbind, M_bind, mret, M_ret. simpl.
  rewrite Ha. simpl. rewrite Ho. simpl. unfold ns_Get. simpl. rewrite !lookup_delete_eq. split_ands; try done.
  eexists _, _, _. split; [reflexivity|]. split; [reflexivity|]. split.
  - intros Hin%Hst. lia.
  - by apply (WithCancel_live ctx (w_ctxs (n_w s)) _ (cs_next (w_ctxs (n_w s)))).
Qed.

(** ** Witnesses *)

Lemma namespaces_are_the_clusters_witness :
  let '(r, s) := ns_Start (SW:=outside all_ok) Background 0 None None [NsAdd "a"; NsAdd "b"; NsDelete "a"] (ns_New 4 empty_world) in
  r = Returns None ∧
  (∀ name, name ∈ present [NsAdd "a"; NsAdd "b"; NsDelete "a"] ↔ ∃ c, ns_Get s name = Ok c) ∧
  (∀ name c, ns_Get s name = Ok c → ∃ i, c = (2 * i + 1)%nat ∧ n_heap s !! i = Some (MkNamespacedCluster name 4)) ∧
  (∀ a c name k, CallEngage a c name k ∈ w_calls (n_w s) → ∃ n, ctx_nodes c = n :: ctx_nodes Background ∧
     (name ∈ present [NsAdd "a"; NsAdd "b"; NsDelete "a"] ∧ ns_Get s name = Ok k ∧ n ∉ cs_cancelled (w_ctxs (n_w s)) ∨
      n ∈ cs_cancelled (w_ctxs (n_w s)))).
Proof.
  apply (namespaces_are_the_clusters all_ok Background 4 0 [NsAdd "a"; NsAdd "b"; NsDelete "a"]); [reflexivity|].
  rewrite !not_elem_of_cons. split_ands; try done. apply not_elem_of_nil.
Defined.

Lemma tombstone_of_a_namespace_panics_witness :
  ∃ msg, (ns_handle_all (SW:=outside all_ok) Background [NsAdd "a"; NsTombstone] (NState 4 (Some 0) ∅ ∅ [] empty_world)).1 = Panics msg.
Proof.
  apply (tombstone_of_a_namespace_panics all_ok Background [NsAdd "a"; NsTombstone]); [right; left|by eexists|].
  intros name. simpl. by rewrite !lookup_empty.
Defined.

Lemma refused_namespace_is_forgotten_witness :
  let o : oracle := λ _ _, Some (Errorf "refused") in
  let '(r, s') := ns_handle_all (SW:=outside o) Background [NsAdd "a"; NsUpdate "a"; NsUpdate "a"] (NState 4 (Some 0) ∅ ∅ [] empty_world) in
  r = Returns tt ∧ ns_Get s' "a" = Err ErrClusterNotFound ∧ n_cancelFns s' !! "a" = None ∧
  ∃ c n cl, w_calls (n_w s') = [] ++ [CallEngage 0 c "a" cl] ∧ ctx_nodes c = n :: [] ∧
    n ∉ cs_cancelled (w_ctxs (n_w s')) ∧ done_ctx c (w_ctxs (n_w s')) = done_ctx Background empty_store.
Proof.
  apply (refused_namespace_is_forgotten (λ _ _, Some (Errorf "refused")) Background "a" (NState 4 (Some 0) ∅ ∅ [] empty_world) (Errorf "refused") 0);
    [apply empty_store_wf|reflexivity..].
Defined.
