(* ===== verification/NamespaceRaces.v ===== *)
(** * providers/namespace: a provider that is started more than once

    Every [Start] registers its handlers with the informer of namespaces.  An
    informer calls one handler for one event after the other, but different
    handlers independently of each other.  Here the handlers of several starts
    are interleaved at their lock operations and calls: started once, the
    provider behaves as its handlers run through ([NamespaceProvider]); started
    twice - as examples/namespace does, itself and through the manager - the
    checks before the lock race. *)

From S2P Require Import Prelude GoErrors GoContext Multicluster NamespaceClient NamespaceProvider.

(** Where a handler's goroutine is: waiting for an event, between the check and
    the lock, about to engage, about to forget, about to cancel, about to take
    the lock to delete. *)
Inductive ns_pc : Type :=
| PIdle
| PStore (ns : ClusterName)
| PEngage (ns : ClusterName) (clusterCtx : context) (cl : cluster)
| PForget (ns : ClusterName)
| PCancel (ns : ClusterName) (cancel : cancel_func)
| PDelete (ns : ClusterName).

(** A registered handler: where it is, and the events it has still to be told. *)
Record listener := MkListener {
  l_pc : ns_pc;
  l_events : list ns_event;
}.

(** A panic of a goroutine ends the process. *)
Record rstate := RState {
  r_n : nstate world;
  r_listeners : list listener;
  r_panic : bool;
}.

Section races.
Context (o : oracle) (ctx : context).

#[local] Instance in_outside : Surroundings world := outside o.

(** One step of a handler. *)
(* src: providers/namespace/provider.go:76-127 Provider.Start *)
Definition handler_step (l : listener) : M (nstate world) (outcome listener) :=
  s ← get;
  match l_pc l, l_events l with
  | PIdle, [] => mret (Returns l)
  | PIdle, NsAdd ns :: evs =>
      mret (Returns (MkListener (match n_clusters s !! ns with Some _ => PIdle | None => PStore ns end) evs))
  | PIdle, NsUpdate _ :: evs => mret (Returns (MkListener PIdle evs))
  | PIdle, NsDelete ns :: evs =>
      mret (Returns (MkListener (match n_cancelFns s !! ns with Some cancel => PCancel ns cancel | None => PIdle end) evs))
  | PIdle, NsTombstone :: evs =>
      mret (Panics "interface conversion: interface is cache.DeletedFinalStateUnknown, not *v1.Namespace")
  | PStore ns, evs =>
      new ← add_store ctx ns;
      let '(clusterCtx, cl) := new in mret (Returns (MkListener (PEngage ns clusterCtx cl) evs))
  | PEngage ns clusterCtx cl, evs =>
      match n_mcAware s with
      | None => mret (Panics "invalid memory address or nil pointer dereference")
      | Some mcAware =>
          err ← n_lift (aware_Engage mcAware clusterCtx ns cl);
          mret (Returns (MkListener (match err with Some _ => PForget ns | None => PIdle end) evs))
      end
  | PForget ns, evs => _ ← n_forget ns; mret (Returns (MkListener PIdle evs))
  | PCancel ns cancel, evs => _ ← n_world (w_cancel cancel); mret (Returns (MkListener (PDelete ns) evs))
  | PDelete ns, evs =>
      r ← delete_stored ns;
      mret (match r with Returns _ => Returns (MkListener PIdle evs) | Panics msg => Panics msg end)
  end.

(** The informer tells every handler; a handler takes a step. *)
Inductive rlabel : Type :=
| RInform (e : ns_event)
| RStep (g : nat).

Definition told (e : ns_event) (l : listener) : listener := MkListener (l_pc l) (l_events l ++ [e]).

Definition rexec (lb : rlabel) (s : rstate) : option rstate :=
  if r_panic s then None else
  match lb with
  | RInform e => Some (RState (r_n s) (told e <$> r_listeners s) false)
  | RStep g =>
      l ← r_listeners s !! g;
      match handler_step l (r_n s) with
      | (Returns l', n) => Some (RState n (<[g := l']> (r_listeners s)) false)
      | (Panics _, n) => Some (RState n (r_listeners s) true)
      end
  end.

(** The provider after [k] starts. *)
Definition started (k : nat) (s : rstate) : Prop :=
  is_Some (n_mcAware (r_n s)) ∧ n_clusters (r_n s) = ∅ ∧ n_cancelFns (r_n s) = ∅ ∧
  store_wf (w_ctxs (n_w (r_n s))) ∧ r_listeners s = replicate k (MkListener PIdle []) ∧ r_panic s = false.

(** ** One start *)

Definition informed (ls : list rlabel) : list ns_event :=
  omap (λ lb, match lb with RInform e => Some e | RStep _ => None end) ls.

(** What is left of the handler that runs. *)
Definition rest_of (pc : ns_pc) : M (nstate world) (outcome unit) :=
  match pc with
  | PIdle => mret (Returns tt)
  | PStore ns => '(clusterCtx, cl) ← add_store ctx ns; add_engage ns clusterCtx cl
  | PEngage ns clusterCtx cl => add_engage ns clusterCtx cl
  | PForget ns => _ ← n_forget ns; mret (Returns tt)
  | PCancel ns cancel => _ ← n_world (w_cancel cancel); delete_stored ns
  | PDelete ns => delete_stored ns
  end.

(** What the only handler has found out is still true. *)
Definition sure (pc : ns_pc) (n : nstate world) : Prop :=
  is_Some (n_mcAware n) ∧
  match pc with
  | PCancel ns cancel => n_cancelFns n !! ns = Some cancel
  | PDelete ns => is_Some (n_cancelFns n !! ns)
  | _ => True
  end.

Definition weight (pc : ns_pc) : nat :=
  match pc with PIdle => 0 | PStore _ => 3 | PEngage _ _ _ => 2 | PForget _ => 1 | PCancel _ _ => 2 | PDelete _ => 1 end.

Lemma ns_handle_all_snoc evs e n n' :
  ns_handle_all ctx evs n = (Returns tt, n') → ns_handle_all ctx (evs ++ [e]) n = ns_handle ctx e n'.
Proof.
  revert n. induction evs as [|e' evs IH]; intros n; cbn [ns_handle_all app].
  - unfold mret, M_ret. intros [= <-]. rewrite bind_eq. by destruct (ns_handle ctx e n) as [[[]|msg] n1].
  - rewrite !bind_eq. destruct (ns_handle ctx e' n) as [[[]|msg] n1]; [apply IH|done].
Qed.

(** A step of the only handler is a step of the rest of what it runs, or the
    beginning of the next event's handler. *)
Lemma handler_step_sequential l n :
  sure (l_pc l) n → NsTombstone ∉ l_events l →
  ∃ l' n', handler_step l n = (Returns l', n') ∧ sure (l_pc l') n' ∧
    match l_pc l with
    | PIdle => match l_events l with
               | [] => l' = l ∧ n' = n
               | e :: evs => l_events l' = evs ∧ weight (l_pc l') ≤ 3 ∧ rest_of (l_pc l') n' = ns_handle ctx e n
               end
    | pc => l_events l' = l_events l ∧ weight (l_pc l') < weight pc ∧ rest_of (l_pc l') n' = rest_of pc n
    end.
Proof.
  intros [[a Ha] Hs] Hts. destruct l as [pc evs]. cbn [l_pc l_events] in *. unfold handler_step. rewrite get_bind. cbn [l_pc l_events].
  destruct pc as [|ns|ns c cl|ns|ns k|ns].
  - destruct evs as [|[ns|ns|ns|] evs]; [| | | |by destruct Hts; left].
    + do 2 eexists. split; [done|]. split; [by split; [exists a|]|done].
    + do 2 eexists. split; [done|]. cbn [l_pc l_events ns_handle]. unfold AddFunc. rewrite get_bind.
      destruct (n_clusters n !! ns); (split; [by split; [exists a|]|]); (split; [done|]); split; [simpl; lia|done|simpl; lia|done].
    + do 2 eexists. split; [done|]. split; [by split; [exists a|]|]. split; [done|]. split; [simpl; lia|done].
    + do 2 eexists. split; [done|]. cbn [l_pc l_events ns_handle]. unfold DeleteFunc. rewrite get_bind.
      destruct (n_cancelFns n !! ns) eqn:Hk; (split; [by split; [exists a|]|]); (split; [done|]); split; [simpl; lia|done|simpl; lia|done].
  - rewrite bind_eq. unfold rest_of. rewrite bind_eq. destruct (add_store ctx ns n) as [[c cl] n'] eqn:Hst.
    do 2 eexists. split; [done|]. split; [|split; [done|split; [simpl; lia|done]]]. split; [|done].
    unfold add_store, n_world, n_lift, w_WithCancel, WithCancel, n_alloc, n_set, get, modify, mbind, M_bind, mret, M_ret in Hst.
    simpl in Hst. injection Hst as _ _ <-. by exists a.
  - rewrite Ha, bind_eq. unfold rest_of, add_engage. rewrite get_bind, Ha, bind_eq.
    destruct (n_lift _ n) as [[err|] n'] eqn:He; (do 2 eexists; split; [done|]); (split; [split; [|done]|split; [done|split; [simpl; lia|done]]]);
      unfold n_lift in He; destruct (aware_Engage _ _ _ _ _) in He; injection He as _ <-; by exists a.
  - rewrite bind_eq. do 2 eexists. split; [done|]. split; [by split; [exists a|]|]. split; [done|]. split; [simpl; lia|done].
  - rewrite bind_eq. do 2 eexists. split; [done|]. split; [split; [by exists a|by eexists]|]. split; [done|]. split; [simpl; lia|done].
  - rewrite bind_eq. destruct Hs as [k Hk]. unfold rest_of, delete_stored. rewrite !get_bind, Hk.
    do 2 eexists. split; [done|]. split; [by split; [exists a|]|]. split; [done|]. split; [simpl; lia|done].
Qed.

(** What holds of the provider that was started once. *)
Definition sequential (n0 : nstate world) (evs : list ns_event) (s : rstate) : Prop :=
  r_panic s = false ∧ ∃ l handled, r_listeners s = [l] ∧ evs = handled ++ l_events l ∧ sure (l_pc l) (r_n s) ∧
    ns_handle_all ctx handled n0 = rest_of (l_pc l) (r_n s).

Lemma sequential_step n0 evs s :
  sequential n0 evs s → NsTombstone ∉ evs →
  ∃ s', rexec (RStep 0) s = Some s' ∧ sequential n0 evs s' ∧
    ∀ l l', r_listeners s = [l] → r_listeners s' = [l'] →
      4 * length (l_events l') + weight (l_pc l') < 4 * length (l_events l) + weight (l_pc l) ∨ (l_pc l = PIdle ∧ l_events l = []).
Proof.
  intros (Hp & l & handled & Hl & -> & Hsure & Hall) Hts.
  destruct (handler_step_sequential l (r_n s) Hsure) as (l' & n' & Hstep & Hsure' & Hrest); [set_solver|].
  unfold rexec. rewrite Hp, Hl. simpl. rewrite Hstep. eexists. split; [done|]. split.
  - split; [done|]. destruct (l_pc l) eqn:Hpc.
    + destruct (l_events l) as [|e evs] eqn:Hev.
      * destruct Hrest as [-> ->]. exists l, handled. by rewrite Hev, Hpc.
      * destruct Hrest as (<- & _ & Hr). exists l', (handled ++ [e]). simpl. rewrite <-app_assoc, Hr. split_ands; try done. by apply ns_handle_all_snoc.
    + destruct Hrest as (<- & _ & Hr). exists l', handled. simpl. by rewrite Hr.
    + destruct Hrest as (<- & _ & Hr). exists l', handled. simpl. by rewrite Hr.
    + destruct Hrest as (<- & _ & Hr). exists l', handled. simpl. by rewrite Hr.
    + destruct Hrest as (<- & _ & Hr). exists l', handled. simpl. by rewrite Hr.
    + destruct Hrest as (<- & _ & Hr). exists l', handled. simpl. by rewrite Hr.
  - simpl. intros l1 l2 [= <-] [= <-]. destruct (l_pc l) eqn:Hpc.
    + destruct (l_events l) as [|e evs] eqn:Hev; [by right|]. destruct Hrest as (<- & Hw & _). left. simpl. lia.
    + destruct Hrest as (-> & Hw & _). left. lia.
    + destruct Hrest as (-> & Hw & _). left. lia.
    + destruct Hrest as (-> & Hw & _). left. lia.
    + destruct Hrest as (-> & Hw & _). left. lia.
    + destruct Hrest as (-> & Hw & _). left. lia.
Qed.

Lemma sequential_run n0 evs ls s s' :
  sequential n0 evs s → run rexec ls s = Some s' → NsTombstone ∉ evs ++ informed ls → sequential n0 (evs ++ informed ls) s'.
Proof.
  revert evs s. induction ls as [|lb ls IH]; intros evs s HI; cbn [run]; [intros [= <-] _; by rewrite app_nil_r|].
  destruct (rexec lb s) as [s1|] eqn:Hs1; [|done]. intros Hrun Hts. destruct lb as [e|g]; cbn [informed omap list_omap] in *.
  - change (sequential n0 (evs ++ [e] ++ informed ls) s'). rewrite app_assoc. apply (IH _ s1); [|done|by rewrite <-app_assoc].
    destruct HI as (Hp & l & handled & Hl & -> & Hs & Hall). unfold rexec in Hs1. rewrite Hp, Hl in Hs1. injection Hs1 as <-.
    split; [done|]. exists (told e l), handled. simpl. by rewrite app_assoc.
  - apply (IH _ s1); [|done|done]. destruct g as [|g].
    + destruct (sequential_step n0 evs s HI) as (s2 & Hs2 & HI2 & _); [set_solver|]. congruence.
    + destruct HI as (Hp & l & handled & Hl & _). unfold rexec in Hs1. rewrite Hp, Hl in Hs1. done.
Qed.

Lemma sequential_ends n0 evs s :
  sequential n0 evs s → NsTombstone ∉ evs →
  ∃ k n, run rexec (replicate k (RStep 0)) s = Some (RState n [MkListener PIdle []] false) ∧
    ns_handle_all ctx evs n0 = (Returns tt, n).
Proof.
  intros HI Hts. pose proof HI as (_ & l & _ & Hl & _).
  remember (4 * length (l_events l) + weight (l_pc l)) as m eqn:Hm. revert s l HI Hl Hm.
  induction (lt_wf m) as [m _ IH]. intros s l HI Hl ->.
  destruct (sequential_step n0 evs s HI Hts) as (s' & Hs' & HI' & Hdec). pose proof HI' as (_ & l' & _ & Hl' & _).
  destruct (Hdec l l' Hl Hl') as [Hlt|[Hpc Hev]].
  - destruct (IH _ Hlt s' l' HI' Hl' eq_refl) as (k & n & Hrun & Hn). exists (S k), n. cbn [replicate run]. by rewrite Hs'.
  - destruct HI as (Hp & l0 & handled & Hl0 & -> & _ & Hall). rewrite Hl in Hl0. injection Hl0 as <-.
    exists 0, (r_n s). rewrite Hev, app_nil_r, Hpc in *. split; [|done]. destruct s as [n ls pn]. simpl in *. subst.
    destruct l as [pc le]. simpl in *. by subst.
Qed.

(** C25 (equivalence): a provider that is started once behaves as if each handler ran
    in one piece, although it takes the lock anew for each access: without
    tombstones it does not panic - what the check before the lock has found is
    still so under the lock; whenever no handler runs, the provider's state is
    that of the handlers of the events so far, run through one after the other;
    and from wherever it is it gets through the events it has been told. *)
Theorem started_once_is_sequential ls s0 s :
  started 1 s0 → run rexec ls s0 = Some s → NsTombstone ∉ informed ls →
  r_panic s = false ∧
  (∃ l handled, r_listeners s = [l] ∧ informed ls = handled ++ l_events l ∧
     (l_pc l = PIdle → ns_handle_all ctx handled (r_n s0) = (Returns tt, r_n s))) ∧
  ∃ k n, run rexec (replicate k (RStep 0)) s = Some (RState n [MkListener PIdle []] false) ∧
    ns_handle_all ctx (informed ls) (r_n s0) = (Returns tt, n).
Proof.
  intros (Ha & _ & _ & _ & Hl & Hp) Hrun Hts.
  assert (sequential (r_n s0) [] s0) as HI by (split; [done|exists (MkListener PIdle []), []; by rewrite Hl]).
  apply (sequential_run _ _ _ _ _ HI Hrun) in Hts as HI'. pose proof HI' as (Hp' & l & handled & Hl' & Hev & _ & Hall).
  split_ands; [done| |by apply sequential_ends].
  exists l, handled. split_ands; [done|done|]. intros Hpc. by rewrite Hpc in Hall.
Qed.
End races.

(** ** Two starts *)

(** The provider of examples/namespace, whose Start runs in a goroutine of the
    example and again as a runnable of the manager. *)
Definition root1 : context := Ctx [0] [].
Definition started_twice : rstate :=
  RState (NState 4 (Some 0) ∅ ∅ [] (World (CtxStore 1 ∅) [])) [MkListener PIdle []; MkListener PIdle []] false.

Lemma started_twice_started : started 2 started_twice.
Proof.
  split; [by eexists|]. split; [done|]. split; [done|]. split; [|by split].
  intros n ?%elem_of_empty. done.
Qed.

(** Both handlers check before either deletes. *)
Definition both_delete : list rlabel :=
  [RInform (NsAdd "a"); RStep 0; RStep 0; RStep 0; RStep 1; RInform (NsDelete "a");
   RStep 0; RStep 1; RStep 0; RStep 1; RStep 0; RStep 1].

(** Both handlers check before either adds; the one that stored first engages last. *)
Definition both_add : list rlabel :=
  [RInform (NsAdd "a"); RStep 0; RStep 1; RStep 0; RStep 1; RStep 1; RStep 0; RInform (NsDelete "a");
   RStep 0; RStep 0; RStep 0; RStep 1].

(** Complement (safety): started twice, the provider can panic: both handlers
    of a deletion find the cancel function, the first deletes it, and the second
    calls what is then nil. *)
Theorem started_twice_can_panic :
  ∃ s, run (rexec all_ok root1) both_delete started_twice = Some s ∧ r_panic s = true.
Proof. eexists. split; [vm_compute; reflexivity|reflexivity]. Qed.

(** Complement (safety): started twice, the provider can lose the cancel function
    of an engagement: both handlers of a new namespace store a cluster and
    engage it, and when the namespace is deleted only the context that was
    stored last is cancelled - the cluster that was engaged last stays engaged
    with a live context for good. *)
Theorem started_twice_can_leak :
  ∃ s c cl calls, run (rexec all_ok root1) both_add started_twice = Some s ∧ r_panic s = false ∧
    r_listeners s = [MkListener PIdle []; MkListener PIdle []] ∧
    ns_Get (r_n s) "a" = Err ErrClusterNotFound ∧ n_cancelFns (r_n s) !! "a" = None ∧
    w_calls (n_w (r_n s)) = calls ++ [CallEngage 0 c "a" cl] ∧ done_ctx c (w_ctxs (n_w (r_n s))) = false.
Proof.
  set (s := default started_twice (run (rexec all_ok root1) both_add started_twice)).
  exists s, (Ctx [1; 0] []), 1, [CallEngage 0 (Ctx [2; 0] []) "a" 3]. vm_compute. repeat split.
Qed.

Lemma started_once_is_sequential_witness :
  let s0 := RState (NState 4 (Some 0) ∅ ∅ [] (World (CtxStore 1 ∅) [])) [MkListener PIdle []] false in
  ∃ s, run (rexec all_ok root1) both_delete s0 = None ∧
    run (rexec all_ok root1) [RInform (NsAdd "a"); RStep 0; RInform (NsDelete "a"); RStep 0] s0 = Some s ∧
    ∃ k n, run (rexec all_ok root1) (replicate k (RStep 0)) s = Some (RState n [MkListener PIdle []] false) ∧
      ns_Get n "a" = Err ErrClusterNotFound.
Proof.
  intros s0. set (ls := [RInform (NsAdd "a"); RStep 0; RInform (NsDelete "a"); RStep 0]).
  exists (default s0 (run (rexec all_ok root1) ls s0)). split; [vm_compute; reflexivity|]. split; [vm_compute; reflexivity|].
  destruct (started_once_is_sequential all_ok root1 ls s0 (default s0 (run (rexec all_ok root1) ls s0))) as (_ & _ & k & n & Hrun & Hn).
  - split; [by eexists|]. split; [done|]. split; [done|]. split; [|by split]. intros n ?%elem_of_empty. done.
  - vm_compute. reflexivity.
  - change (informed ls) with [NsAdd "a"; NsDelete "a"]. by intros [Hx|[Hx|Hx%elem_of_nil]%elem_of_cons]%elem_of_cons.
  - exists k, n. split; [exact Hrun|]. unfold ns_Get.
    assert (n_clusters (ns_handle_all (SW:=in_outside all_ok) root1 (informed ls) (r_n s0)).2 !! ("a" : ClusterName) = None) as Hx by (vm_compute; reflexivity).
    rewrite Hn in Hx. simpl in Hx. by rewrite Hx.
Defined.
