(* ===== verification/System.v ===== *)
(** * A running system: namespaces, the manager and its controllers

    The parts joined: the provider of [NamespaceProvider] engages the clusters
    it finds with the basic coordinator ([Basic]) of a manager, which engages
    them with controllers ([Controller]) - all of them the components' own
    definitions, over one world.  What holds of the whole, in any interleaving
    of namespace events, new sources, the controllers' goroutines and the end
    of the provider's context, is what each part was meant for. *)

From S2P Require Import Prelude GoErrors GoContext Multicluster Basic Manager Controller NamespaceClient NamespaceProvider.

(** ** The system *)

(** A controller without the world, which all controllers share. *)
Record ctrl := Ctrl {
  c_mc : mcController;
  c_fresh : nat;
  c_waiters : list (context * ClusterName * nat);
}.

Record fleet := Fleet {
  fl_ctrls : list ctrl;
  fl_w : world;
}.

Definition as_mstate (c : ctrl) (w : world) : mstate := MState (c_mc c) w (c_fresh c) (c_waiters c).
Definition of_mstate (s : mstate) : ctrl := Ctrl (m_c s) (m_fresh s) (m_waiters s).

(** A method of controller [i]. *)
Definition on_ctrl {A} (i : nat) (d : A) (m : M mstate A) : M fleet A := fun f =>
  match fl_ctrls f !! i with
  | None => (d, f)
  | Some c => let '(a, s) := m (as_mstate c (fl_w f)) in (a, Fleet (<[i := of_mstate s]> (fl_ctrls f)) (m_w s))
  end.

Section system.
Context (o : oracle) (quote : string → string).

(** The [Engage] of controller [i], as the coordinator holds it. *)
Definition ctrl_aware (i : nat) : AwareOn fleet := fun ctx name cl =>
  on_ctrl i None (Controller.Engage o quote ctx name cl).

(** The coordinator after the controllers were added, which is what the
    [Engage] of the manager runs ([Manager.Engage]). *)
Definition fleet_coord (n : nat) : basic_on fleet := fold_left basic_AddAware (ctrl_aware <$> seq 0 n) basic_New.

#[export] Instance fleet_surroundings : Surroundings fleet := {|
  in_world A m := λ f, let '(a, w) := m (fl_w f) in (a, Fleet (fl_ctrls f) w);
  aware_Engage _ := λ ctx name cl f, basic_Engage (fleet_coord (length (fl_ctrls f))) ctx name cl f;
|}.

Context (root : context).

(** An event of the informer of namespaces; a step of a controller of its own:
    a new source, or a goroutine whose context is done; the end of a context
    that the provider's descends from. *)
Inductive sys_label : Type :=
| LEvent (e : ns_event)
| LWatch (i : nat) (src : TypedSource)
| LWake (i j : nat)
| LStop (n : cancel_func).

Definition ctrl_step (i : nat) (l : mlabel) (s : nstate fleet) : option (nstate fleet) :=
  c ← fl_ctrls (n_w s) !! i;
  ms ← mexec o quote l (as_mstate c (fl_w (n_w s)));
  Some (n_lift (λ _, (tt, Fleet (<[i := of_mstate ms]> (fl_ctrls (n_w s))) (m_w ms))) s).2.

Definition sys_exec (l : sys_label) (s : nstate fleet) : option (nstate fleet) :=
  match l with
  | LEvent e => match ns_handle root e s with (Returns _, s') => Some s' | (Panics _, _) => None end
  | LWatch i src => ctrl_step i (MWatch src) s
  | LWake i j => ctrl_step i (MWake j) s
  | LStop n => if bool_decide (n ∈ ctx_nodes root) then Some (n_world (w_cancel n) s).2 else None
  end.

(** The provider has been started; the controllers have sources but no clusters. *)
Definition sys_init (s : nstate fleet) : Prop :=
  is_Some (n_mcAware s) ∧ n_clusters s = ∅ ∧ n_cancelFns s = ∅ ∧ n_heap s = [] ∧
  (∀ i c, fl_ctrls (n_w s) !! i = Some c → mc_clusters (c_mc c) = ∅ ∧ c_waiters c = []) ∧
  store_wf (w_ctxs (fl_w (n_w s))) ∧ ctx_wf root (w_ctxs (fl_w (n_w s))).

(** ** The invariant *)

(** Cluster [name] is engaged with controller [i]. *)
Definition engaged (f : fleet) (i : nat) (name : ClusterName) (ec : engagedCluster) : Prop :=
  ∃ c, fl_ctrls f !! i = Some c ∧ mc_clusters (c_mc c) !! name = Some ec.

(** What is true of each controller by itself; [hp] bounds the clusters. *)
Record ctrl_inv (hp : nat) (w : world) (c : ctrl) : Prop := {
  ci_ec name ec : mc_clusters (c_mc c) !! name = Some ec →
    ec_cluster ec < hp ∧ ec_cancel ec ∈ ctx_nodes (ec_ctx ec) ∧ ctx_wf (ec_ctx ec) (w_ctxs w) ∧
    (ec_ctx ec, name, ec_token ec) ∈ c_waiters c ∧
    ∀ src, src ∈ mc_sources (c_mc c) → watched (w_calls w) src name (ec_cluster ec) (ec_ctx ec);
  ci_wait ctx key tok : (ctx, key, tok) ∈ c_waiters c →
    tok < c_fresh c ∧ ∀ ec, mc_clusters (c_mc c) !! key = Some ec → ec_token ec = tok → ctx = ec_ctx ec;
}.

Definition all_total (f : fleet) : Prop :=
  ∀ i c src, fl_ctrls f !! i = Some c → src ∈ mc_sources (c_mc c) → total src.

(** The maps [cls] and [cns] of the provider, and the controllers; [skip] excepts
    those that are still to be engaged. *)
Record fleet_inv (cls : gmap ClusterName cluster) (cns : gmap ClusterName cancel_func) (hp : nat)
    (skip : nat → ClusterName → Prop) (f : fleet) : Prop := {
  fi_store : store_wf (w_ctxs (fl_w f));
  fi_root : ctx_wf root (w_ctxs (fl_w f));
  fi_dom name : is_Some (cls !! name) ↔ is_Some (cns !! name);
  fi_hp name cl : cls !! name = Some cl → cl < hp;
  fi_cn name k : cns !! name = Some k →
    k < cs_next (w_ctxs (fl_w f)) ∧ k ∉ cs_cancelled (w_ctxs (fl_w f)) ∧ k ∉ ctx_nodes root ∧
    ∀ name', cns !! name' = Some k → name' = name;
  fi_ctrl i c : fl_ctrls f !! i = Some c → ctrl_inv hp (fl_w f) c;
  fi_own i name ec : engaged f i name ec →
    (∀ name', cns !! name' ≠ Some (ec_cancel ec)) ∧ ec_cancel ec ∉ ctx_nodes root ∧
    ∀ i' name' ec', engaged f i' name' ec' → ec_cancel ec' = ec_cancel ec → i' = i ∧ name' = name;
  fi_engaged i c name cl k : done_ctx root (w_ctxs (fl_w f)) = false →
    fl_ctrls f !! i = Some c → cls !! name = Some cl → cns !! name = Some k → ¬ skip i name →
    ∃ ec, engaged f i name ec ∧ ec_cluster ec = cl ∧ ctx_nodes (ec_ctx ec) = ec_cancel ec :: k :: ctx_nodes root ∧
          ec_cancel ec ∉ cs_cancelled (w_ctxs (fl_w f));
  fi_only i name ec : accepting o → all_total f → engaged f i name ec →
    done_ctx (ec_ctx ec) (w_ctxs (fl_w f)) = false →
    cls !! name = Some (ec_cluster ec) ∧ ∃ k, cns !! name = Some k ∧ k ∈ ctx_nodes (ec_ctx ec);
}.

Definition sys_inv (s : nstate fleet) : Prop :=
  is_Some (n_mcAware s) ∧
  fleet_inv (n_clusters s) (n_cancelFns s) (2 * length (n_heap s)) (λ _ _, False) (n_w s).

(** ** Lemmas: one change at a time *)

Implicit Types (f : fleet) (c : ctrl).

Lemma ctrl_inv_mono hp hp' w w' c :
  hp ≤ hp' → cs_next (w_ctxs w) ≤ cs_next (w_ctxs w') → (∀ x, x ∈ w_calls w → x ∈ w_calls w') →
  ctrl_inv hp w c → ctrl_inv hp' w' c.
Proof.
  intros Hhp Hn Hc [He Hw]. split; [|done]. intros name ec Hec. destruct (He name ec Hec) as (H1 & H2 & H3 & H4 & H5).
  split_ands; [lia|done| |done|].
  - intros m Hm%H3. lia.
  - intros src Hs. eapply watched_mono; [done|by apply H5].
Qed.

Lemma done_mono ctx cs cs' :
  cs_cancelled cs ⊆ cs_cancelled cs' → done_ctx ctx cs' = false → done_ctx ctx cs = false.
Proof. intros Hsub. rewrite !done_ctx_false. intros H n Hn Hc. by apply (H n Hn), Hsub. Qed.

Lemma ctrl_cancel_lt hp w c name ec :
  ctrl_inv hp w c → mc_clusters (c_mc c) !! name = Some ec → ec_cancel ec < cs_next (w_ctxs w).
Proof. intros [He _] Hec. destruct (He name ec Hec) as (_ & H1 & H2 & _). by apply H2. Qed.

(** A controller that is replaced by another. *)
Lemma engaged_insert f i c c' w j name ec :
  fl_ctrls f !! i = Some c →
  engaged (Fleet (<[i := c']> (fl_ctrls f)) w) j name ec ↔
  (j = i ∧ mc_clusters (c_mc c') !! name = Some ec) ∨ (j ≠ i ∧ engaged f j name ec).
Proof.
  intros Hi. unfold engaged. simpl. destruct (decide (j = i)) as [->|Hj].
  - rewrite list_lookup_insert_eq by (by eapply lookup_lt_Some). naive_solver.
  - rewrite list_lookup_insert_ne by done. naive_solver.
Qed.

Lemma all_total_insert f i c c' w :
  fl_ctrls f !! i = Some c → (∀ src, src ∈ mc_sources (c_mc c) → src ∈ mc_sources (c_mc c')) →
  all_total (Fleet (<[i := c']> (fl_ctrls f)) w) → all_total f.
Proof.
  intros Hi Hs Ht j c0 src Hj Hin. destruct (decide (j = i)) as [->|Hne].
  - rewrite Hi in Hj. injection Hj as <-. eapply (Ht i c' src); [simpl; apply list_lookup_insert_eq; by eapply lookup_lt_Some|auto].
  - eapply (Ht j c0 src); [simpl; by rewrite list_lookup_insert_ne|done].
Qed.

(** The provider stores a new cluster, within a fresh context. *)
Lemma fleet_store cls cns hp hp' f name cl :
  fleet_inv cls cns hp (λ _ _, False) f → cls !! name = None → hp ≤ cl < hp' →
  let cs := w_ctxs (fl_w f) in
  fleet_inv (<[name := cl]> cls) (<[name := cs_next cs]> cns) hp' (λ _ nm, nm = name)
    (Fleet (fl_ctrls f) (World (CtxStore (S (cs_next cs)) (cs_cancelled cs)) (w_calls (fl_w f)))).
Proof.
  intros [Hst Hrt Hdom Hhp Hcn Hct Hown Heng Honly] Hn Hcl cs. subst cs. split; simpl.
  - intros m Hm%Hst. simpl. lia.
  - intros m Hm%Hrt. simpl. lia.
  - intros nm. by rewrite !lookup_insert_is_Some, Hdom.
  - intros nm cl' [[_ <-]|[_ H%Hhp]]%lookup_insert_Some; lia.
  - intros nm k [[<- <-]|[Hne Hk]]%lookup_insert_Some.
    + split_ands; [lia|intros H%Hst; lia|intros H%Hrt; lia|].
      intros nm' [[<- _]|[_ Hk]]%lookup_insert_Some; [done|]. apply Hcn in Hk as [? _]. lia.
    + destruct (Hcn nm k Hk) as (H1 & H2 & H3 & H4). split_ands; [lia|done..|].
      intros nm' [[<- Hk']|[_ Hk']]%lookup_insert_Some; [lia|by apply H4].
  - intros i c Hi. eapply ctrl_inv_mono; [| | |by apply (Hct i)]; simpl; [lia|lia|done].
  - intros i nm ec He. destruct (Hown i nm ec He) as (H1 & H2 & H3). split_ands; [|done|exact H3].
    destruct He as (c & Hc & Hl). pose proof (ctrl_cancel_lt _ _ _ nm ec (Hct i c Hc) Hl).
    intros nm' [[_ Hk]|[_ Hk]]%lookup_insert_Some; [lia|by eapply H1].
  - intros i c nm cl' k Hd Hi Hl Hk Hsk. rewrite lookup_insert_ne in Hl, Hk by done.
    destruct (Heng i c nm cl' k Hd Hi Hl Hk) as (ec & He); [tauto|]. by exists ec.
  - intros i nm ec Ha Ht He Hd. destruct (Honly i nm ec Ha Ht He Hd) as (H1 & k & H2 & H3).
    assert (nm ≠ name) by congruence. split; [by rewrite lookup_insert_ne|]. exists k. by rewrite lookup_insert_ne.
Qed.

(** Controller [i] engages a cluster that the provider has stored, or refuses
    it: the controller becomes [c'] and the world [w']; [new] is the entry for
    the cluster, if there is one, and [X] are the contexts that were cancelled. *)
Section update.
Context (cls : gmap ClusterName cluster) (cns : gmap ClusterName cancel_func) (hp : nat) (skip : nat → ClusterName → Prop).
Context (f : fleet) (i : nat) (c c' : ctrl) (w' : world) (name : ClusterName) (cl : cluster) (k : cancel_func).
Context (new : option engagedCluster) (engCtx : context) (X : gset nat).
Local Notation n := (cs_next (w_ctxs (fl_w f))).
Local Notation f' := (Fleet (<[i := c']> (fl_ctrls f)) w').
Hypothesis (HI : fleet_inv cls cns hp skip f).
Hypothesis (Hi : fl_ctrls f !! i = Some c).
Hypothesis (Hcl : cls !! name = Some cl).
Hypothesis (Hk : cns !! name = Some k).
Hypothesis (Hctx : engCtx = Ctx (n :: k :: ctx_nodes root) (ctx_values engCtx)).
Hypothesis (Hn : cs_next (w_ctxs w') = S n).
Hypothesis (HX : cs_cancelled (w_ctxs w') = X ∪ cs_cancelled (w_ctxs (fl_w f))).
Hypothesis (HXm : ∀ m, m ∈ X → (m = n ∧ new = None) ∨ ∃ old, engaged f i name old ∧ m = ec_cancel old).
Hypothesis (Hcalls : ∀ x, x ∈ w_calls (fl_w f) → x ∈ w_calls w').
Hypothesis (Hsrc : mc_sources (c_mc c') = mc_sources (c_mc c)).
Hypothesis (Hcs : ∀ nm, mc_clusters (c_mc c') !! nm = if decide (nm = name) then new else mc_clusters (c_mc c) !! nm).
Hypothesis (Hnew :
  match new with
  | Some ec =>
      ec = MkEngaged (c_fresh c) name cl engCtx n ∧ c_fresh c' = S (c_fresh c) ∧
      c_waiters c' = c_waiters c ++ [(engCtx, name, c_fresh c)] ∧
      ∀ src, src ∈ mc_sources (c_mc c) → watched (w_calls w') src name cl engCtx
  | None => c_fresh c' = c_fresh c ∧ c_waiters c' = c_waiters c ∧
            ¬ (accepting o ∧ ∀ src, src ∈ mc_sources (c_mc c) → total src)
  end).

Lemma update_old j nm ec : engaged f j nm ec → ec_cancel ec < n.
Proof. intros (c0 & Hc0 & Hl). exact (ctrl_cancel_lt _ _ _ nm ec (fi_ctrl _ _ _ _ _ HI j c0 Hc0) Hl). Qed.

Lemma update_dead m : m ∈ X → m ≤ n.
Proof. intros [[-> _]|(old & Ho & ->)]%HXm; [done|]. apply update_old in Ho. lia. Qed.

Lemma update_split j nm ec :
  engaged f' j nm ec → (j = i ∧ nm = name ∧ new = Some ec) ∨ (¬ (j = i ∧ nm = name) ∧ engaged f j nm ec).
Proof.
  intros [[-> Hl]|[Hj He]]%(engaged_insert f i c c' w'); [|right; split; [by intros [? _]|done]|done].
  rewrite Hcs in Hl. destruct (decide (nm = name)) as [->|Hne]; [by left|right]. split; [by intros [_ ?]|by exists c].
Qed.

Lemma update_keep j nm ec : ¬ (j = i ∧ nm = name) → engaged f j nm ec → engaged f' j nm ec.
Proof.
  intros Hne He. apply (engaged_insert f i c c' w' j nm ec Hi). destruct (decide (j = i)) as [->|]; [left|by right].
  split; [done|]. rewrite Hcs. destruct He as (c0 & Hc0 & Hl). rewrite Hi in Hc0. injection Hc0 as <-.
  destruct (decide (nm = name)) as [->|]; [|done]. exfalso. by apply Hne.
Qed.

Lemma update_new ec : new = Some ec → ec = MkEngaged (c_fresh c) name cl engCtx n.
Proof. intros Hx. rewrite Hx in Hnew. by destruct Hnew. Qed.

Lemma update_waiters ctx key tok :
  (ctx, key, tok) ∈ c_waiters c' →
  (ctx, key, tok) ∈ c_waiters c ∨ ∃ ec, new = Some ec ∧ ctx = engCtx ∧ key = name ∧ tok = c_fresh c.
Proof.
  intros Hin. destruct new as [ec|]; [destruct Hnew as (_ & _ & Hwt & _)|destruct Hnew as (_ & Hwt & _)]; rewrite Hwt in Hin; [|by left].
  apply elem_of_app in Hin as [?|[= -> -> ->]%list_elem_of_singleton]; [by left|right; eauto].
Qed.

(** The entry of the cluster, and those of the others. *)
Lemma update_entry nm ec :
  mc_clusters (c_mc c') !! nm = Some ec →
  ec_cluster ec < hp ∧ ec_cancel ec ∈ ctx_nodes (ec_ctx ec) ∧ ctx_wf (ec_ctx ec) (w_ctxs w') ∧
  (ec_ctx ec, nm, ec_token ec) ∈ c_waiters c' ∧
  ∀ src, src ∈ mc_sources (c_mc c') → watched (w_calls w') src nm (ec_cluster ec) (ec_ctx ec).
Proof.
  rewrite Hcs, Hsrc. destruct (decide (nm = name)) as [->|Hne].
  - intros Hx. rewrite Hx in Hnew. destruct Hnew as (-> & Hf & Hwt & Hsrcs). simpl. split_ands.
    + by eapply (fi_hp _ _ _ _ _ HI).
    + rewrite Hctx. by left.
    + rewrite Hctx. intros m. rewrite Hn. simpl. intros [->|[->|Hm]%elem_of_cons]%elem_of_cons; [lia| |].
      * destruct (fi_cn _ _ _ _ _ HI name k Hk) as [? _]. lia.
      * apply (fi_root _ _ _ _ _ HI) in Hm. lia.
    + rewrite Hwt. apply elem_of_app. right. by apply list_elem_of_singleton.
    + exact Hsrcs.
  - intros Hl. destruct (ci_ec _ _ _ (fi_ctrl _ _ _ _ _ HI i c Hi) nm ec Hl) as (H1 & H2 & H3 & H4 & H5). split_ands; [done|done| | |].
    + intros m Hm%H3. rewrite Hn. lia.
    + destruct new; [destruct Hnew as (_ & _ & -> & _)|destruct Hnew as (_ & -> & _)]; [apply elem_of_app; by left|done].
    + intros src Hs. eapply watched_mono; [done|by apply H5].
Qed.

Lemma update_ctrl : ctrl_inv hp w' c'.
Proof.
  split; [exact update_entry|]. intros ctx key tok [Hin|(ec & Hx & -> & -> & ->)]%update_waiters.
  - destruct (ci_wait _ _ _ (fi_ctrl _ _ _ _ _ HI i c Hi) ctx key tok Hin) as [Ht Htk]. split.
    { destruct new; [destruct Hnew as (_ & -> & _)|destruct Hnew as (-> & _)]; lia. }
    intros ec. rewrite Hcs. destruct (decide (key = name)) as [->|]; [|by apply Htk].
    intros ->%update_new <-. simpl in Ht. lia.
  - pose proof (update_new ec Hx) as Hec. rewrite Hx in Hnew. destruct Hnew as (_ & -> & _). split; [lia|].
    intros ec'. rewrite Hcs, decide_True, Hx by done. intros [= <-] _. by rewrite Hec.
Qed.

(** The context of the new entry is nobody else's. *)
Lemma update_own j nm ec :
  engaged f' j nm ec →
  (∀ nm', cns !! nm' ≠ Some (ec_cancel ec)) ∧ ec_cancel ec ∉ ctx_nodes root ∧
  ∀ j' nm' ec', engaged f' j' nm' ec' → ec_cancel ec' = ec_cancel ec → j' = j ∧ nm' = nm.
Proof.
  intros [(-> & -> & Hx)|[Hne He]]%update_split.
  - rewrite (update_new ec Hx). simpl. split_ands.
    + intros nm' [Hk' _]%(fi_cn _ _ _ _ _ HI). lia.
    + intros Hm%(fi_root _ _ _ _ _ HI). lia.
    + intros j' nm' ec' [(-> & -> & _)|[_ He']]%update_split Heq; [done|]. apply update_old in He'. lia.
  - destruct (fi_own _ _ _ _ _ HI j nm ec He) as (H1 & H2 & H3). split_ands; [done|done|].
    intros j' nm' ec' [(-> & -> & Hx')|[_ He']]%update_split Heq; [|by apply (H3 j' nm' ec')].
    rewrite (update_new ec' Hx') in Heq. simpl in Heq. apply update_old in He. lia.
Qed.

Lemma update_engaged j nm cl' k' :
  done_ctx root (w_ctxs w') = false → is_Some (fl_ctrls f' !! j) → cls !! nm = Some cl' → cns !! nm = Some k' →
  (if new then skip j nm → j = i ∧ nm = name else ¬ (skip j nm ∨ nm = name)) →
  ∃ ec, engaged f' j nm ec ∧ ec_cluster ec = cl' ∧ ctx_nodes (ec_ctx ec) = ec_cancel ec :: k' :: ctx_nodes root ∧
        ec_cancel ec ∉ cs_cancelled (w_ctxs w').
Proof.
  intros Hd Hj Hl Hk' Hsk. apply (done_mono _ (w_ctxs (fl_w f))) in Hd; [|rewrite HX; clear; set_solver].
  destruct (decide (j = i ∧ nm = name)) as [[-> ->]|Hne].
  - destruct new as [ec|] eqn:Hx; [|exfalso; apply Hsk; by right]. pose proof (proj1 Hnew) as Hec. exists ec.
    pose proof (eq_trans (eq_sym Hl) Hcl) as [= ->]. pose proof (eq_trans (eq_sym Hk') Hk) as [= ->]. rewrite Hec. simpl. split_ands; [|done|by rewrite Hctx|].
    + apply (engaged_insert f i c c' w' i name _ Hi). left. split; [done|]. rewrite Hcs, decide_True by done. by rewrite <-Hec.
    + rewrite HX. intros [Hm|Hm]%elem_of_union; [|apply (fi_store _ _ _ _ _ HI) in Hm; lia].
      apply HXm in Hm as [[_ ?]|(old & He & Heq)]; [done|]. apply update_old in He. lia.
  - assert (∃ c1, fl_ctrls f !! j = Some c1) as [c1 Hc1].
    { destruct (decide (j = i)) as [->|]; [by eexists|]. simpl in Hj. by rewrite list_lookup_insert_ne in Hj. }
    destruct (fi_engaged _ _ _ _ _ HI j c1 nm cl' k' Hd Hc1 Hl Hk') as (ec & He & H1 & H2 & H3).
    { intros Hs. destruct new; [by apply Hne, Hsk|]. apply Hsk. by left. }
    exists ec. split_ands; [by apply update_keep|done|done|]. rewrite HX. intros [Hm|]%elem_of_union; [|done].
    apply HXm in Hm as [[Heq _]|(old & Ho & Heq)]; [apply update_old in He; lia|].
    by apply Hne, (proj2 (proj2 (fi_own _ _ _ _ _ HI i name old Ho)) j nm ec He).
Qed.

Lemma update_only j nm ec :
  accepting o → all_total f' → engaged f' j nm ec → done_ctx (ec_ctx ec) (w_ctxs w') = false →
  cls !! nm = Some (ec_cluster ec) ∧ ∃ k', cns !! nm = Some k' ∧ k' ∈ ctx_nodes (ec_ctx ec).
Proof.
  intros Ha Ht [(-> & -> & Hx)|[Hne He]]%update_split Hd.
  - rewrite (update_new ec Hx). simpl. split; [done|]. exists k. split; [done|]. rewrite Hctx. right. by left.
  - apply (done_mono _ (w_ctxs (fl_w f))) in Hd; [|rewrite HX; clear; set_solver].
    apply (fi_only _ _ _ _ _ HI j nm ec Ha); [|done|done].
    eapply all_total_insert; [exact Hi| |exact Ht]. by rewrite Hsrc.
Qed.

Lemma fleet_update :
  fleet_inv cls cns hp (λ j nm, match new with Some _ => skip j nm ∧ ¬ (j = i ∧ nm = name) | None => skip j nm ∨ nm = name end) f'.
Proof.
  split; simpl.
  - intros m. rewrite HX, Hn. intros [Hm%update_dead|Hm%(fi_store _ _ _ _ _ HI)]%elem_of_union; lia.
  - intros m Hm%(fi_root _ _ _ _ _ HI). rewrite Hn. lia.
  - apply HI.
  - apply HI.
  - intros nm k' Hk'. destruct (fi_cn _ _ _ _ _ HI nm k' Hk') as (H1 & H2 & H3 & H4). split_ands; [rewrite Hn; lia| |done|done].
    rewrite HX. intros [Hm|]%elem_of_union; [|done]. apply HXm in Hm as [[-> _]|(old & He & ->)]; [lia|].
    by apply (proj1 (fi_own _ _ _ _ _ HI i name old He) nm).
  - intros j c0 Hj. destruct (decide (j = i)) as [->|Hne].
    + rewrite list_lookup_insert_eq in Hj by (by eapply lookup_lt_Some). injection Hj as <-. exact update_ctrl.
    + rewrite list_lookup_insert_ne in Hj by done.
      eapply ctrl_inv_mono; [| | |by apply (fi_ctrl _ _ _ _ _ HI j)]; [lia|rewrite Hn; lia|done].
  - exact update_own.
  - intros j c0 nm cl' k' Hd Hj Hl Hk' Hsk. apply update_engaged; [done|by eexists|done|done|].
    destruct new; [|done]. intros Hs. apply dec_stable. by intros Hne; apply Hsk.
  - exact update_only.
Qed.
End update.

(** A step of a controller that cancels nothing and forgets only what is done. *)
Lemma fleet_quiet cls cns hp skip f i c c' w' :
  fleet_inv cls cns hp skip f → fl_ctrls f !! i = Some c → w_ctxs w' = w_ctxs (fl_w f) →
  (∀ x, x ∈ w_calls (fl_w f) → x ∈ w_calls w') → ctrl_inv hp w' c' →
  (∀ src, src ∈ mc_sources (c_mc c) → src ∈ mc_sources (c_mc c')) →
  (∀ nm ec, mc_clusters (c_mc c') !! nm = Some ec → mc_clusters (c_mc c) !! nm = Some ec) →
  (∀ nm ec, mc_clusters (c_mc c) !! nm = Some ec →
     mc_clusters (c_mc c') !! nm = Some ec ∨ done_ctx (ec_ctx ec) (w_ctxs (fl_w f)) = true) →
  fleet_inv cls cns hp skip (Fleet (<[i := c']> (fl_ctrls f)) w').
Proof.
  intros [Hst Hrt Hdom Hhp Hcn Hct Hown Heng Honly] Hi Hw Hcalls Hc' Hsrc Hsub Hkept.
  assert (∀ j nm ec, engaged (Fleet (<[i := c']> (fl_ctrls f)) w') j nm ec → engaged f j nm ec) as Hback.
  { intros j nm ec [[-> Hl]|[_ He]]%(engaged_insert f i c c' w'); [|done|done]. exists c. eauto. }
  split; simpl; rewrite ?Hw; try done.
  - intros j c0 Hj. destruct (decide (j = i)) as [->|Hne].
    + rewrite list_lookup_insert_eq in Hj by (by eapply lookup_lt_Some). by injection Hj as <-.
    + rewrite list_lookup_insert_ne in Hj by done. eapply ctrl_inv_mono; [| | |by apply (Hct j)]; [done|by rewrite Hw|done].
  - intros j nm ec He%Hback. destruct (Hown j nm ec He) as (H1 & H2 & H3). split_ands; [done|done|]. intros j' nm' ec' He'%Hback. by apply H3.
  - intros j c0 nm cl k Hd Hj Hl Hk Hsk.
    assert (∃ c1, fl_ctrls f !! j = Some c1) as [c1 Hc1].
    { destruct (decide (j = i)) as [->|]; [by eexists|]. rewrite list_lookup_insert_ne in Hj by done. by eexists. }
    destruct (Heng j c1 nm cl k Hd Hc1 Hl Hk Hsk) as (ec & He & H1 & H2 & H3). exists ec. split_ands; try done.
    apply (engaged_insert f i c c' w' j nm ec Hi). destruct (decide (j = i)) as [->|]; [left; split; [done|]|by right].
    destruct He as (c2 & Hc2 & Hl2). rewrite Hi in Hc2. injection Hc2 as <-. destruct (Hkept nm ec Hl2) as [|Hx]; [done|]. exfalso.
    apply done_ctx_true in Hx as (m & Hm & Hc). rewrite H2 in Hm. apply elem_of_cons in Hm as [->|Hm]; [done|].
    apply elem_of_cons in Hm as [->|Hm]; [by apply Hcn in Hk as (_ & ? & _)|].
    by apply (proj1 (done_ctx_false root _) Hd m).
  - intros j nm ec Ha Ht He%Hback Hd. apply (Honly j nm ec Ha); [|done|done]. by eapply all_total_insert.
Qed.

(** The provider forgets a cluster, which is done wherever it was engaged if
    nothing refuses clusters. *)
Lemma fleet_forget cls cns hp f name :
  fleet_inv cls cns hp (λ _ nm, nm = name) f →
  (accepting o → all_total f → ∀ i ec, engaged f i name ec → done_ctx (ec_ctx ec) (w_ctxs (fl_w f)) = true) →
  fleet_inv (delete name cls) (delete name cns) hp (λ _ _, False) f.
Proof.
  intros [Hst Hrt Hdom Hhp Hcn Hct Hown Heng Honly] Hdead. split; try done.
  - intros nm. by rewrite !lookup_delete_is_Some, Hdom.
  - intros nm cl [_ Hl]%lookup_delete_Some. by eapply Hhp.
  - intros nm k [Hne Hk]%lookup_delete_Some. destruct (Hcn nm k Hk) as (H1 & H2 & H3 & H4). split_ands; [done..|].
    intros nm' [_ Hk']%lookup_delete_Some. by apply H4.
  - intros i nm ec He. destruct (Hown i nm ec He) as (H1 & H2 & H3). split_ands; [|done|done].
    intros nm' [_ Hk']%lookup_delete_Some. by apply (H1 nm').
  - intros i c nm cl k Hd Hi [Hne Hl]%lookup_delete_Some [_ Hk]%lookup_delete_Some _. apply (Heng i c nm cl k); [done..|]. congruence.
  - intros i nm ec Ha Ht He Hd. destruct (decide (nm = name)) as [->|Hne].
    + by rewrite (Hdead Ha Ht i ec He) in Hd.
    + destruct (Honly i nm ec Ha Ht He Hd) as (H1 & k & H2 & H3). split; [by rewrite lookup_delete_ne|].
      exists k. by rewrite lookup_delete_ne.
Qed.

(** A node is cancelled that is the provider's own: an ancestor of its context, or
    that of the cluster it forgets at the same time. *)
Lemma fleet_cancel cls cns cls' cns' hp f (n : cancel_func) w' :
  fleet_inv cls cns hp (λ _ _, False) f → n < cs_next (w_ctxs (fl_w f)) →
  n ∈ ctx_nodes root ∨ (∃ name, cns !! name = Some n) →
  (∀ nm k, cns' !! nm = Some k ↔ cns !! nm = Some k ∧ k ≠ n) →
  (∀ nm cl, cls' !! nm = Some cl ↔ cls !! nm = Some cl ∧ cns !! nm ≠ Some n) →
  cs_next (w_ctxs w') = cs_next (w_ctxs (fl_w f)) → w_calls w' = w_calls (fl_w f) →
  (∀ m, m ∈ cs_cancelled (w_ctxs w') ↔ m = n ∨ m ∈ cs_cancelled (w_ctxs (fl_w f))) →
  fleet_inv cls' cns' hp (λ _ _, False) (Fleet (fl_ctrls f) w').
Proof.
  intros [Hst Hrt Hdom Hhp Hcn Hct Hown Heng Honly] Hlt Hn Hcns Hcls Hnx Hcalls Hcd.
  assert (cs_cancelled (w_ctxs (fl_w f)) ⊆ cs_cancelled (w_ctxs w')) as Hsub by (intros m Hm; apply Hcd; by right).
  split; simpl; try done.
  - intros m [->|Hm%Hst]%Hcd; rewrite Hnx; [done|lia].
  - intros m Hm%Hrt. by rewrite Hnx.
  - intros nm. split; intros [x Hx].
    + apply Hcls in Hx as [Hx Hne]. destruct (proj1 (Hdom nm) (ex_intro _ _ Hx)) as [k Hk].
      exists k. apply Hcns. split; [done|congruence].
    + apply Hcns in Hx as [Hx Hne]. destruct (proj2 (Hdom nm) (ex_intro _ _ Hx)) as [cl Hcl].
      exists cl. apply Hcls. split; [done|congruence].
  - intros nm cl [Hl _]%Hcls. by eapply Hhp.
  - intros nm k [Hk Hkn]%Hcns. destruct (Hcn nm k Hk) as (H1 & H2 & H3 & H4). rewrite Hnx. split_ands; [done| |done|].
    + rewrite Hcd. tauto.
    + intros nm' [Hk' _]%Hcns. by apply H4.
  - intros i c Hi. eapply ctrl_inv_mono; [| | |by apply (Hct i)]; [done|by rewrite Hnx|by rewrite Hcalls].
  - intros i nm ec He. destruct (Hown i nm ec He) as (H1 & H2 & H3). split_ands; [|done|done]. intros nm' [Hk _]%Hcns. by eapply H1.
  - intros i c nm cl k Hd Hi [Hl _]%Hcls [Hk _]%Hcns _. apply (done_mono _ _ _ Hsub) in Hd as Hd'.
    destruct (Heng i c nm cl k Hd' Hi Hl Hk) as (ec & He & H1 & H2 & H3); [tauto|]. exists ec. split_ands; try done.
    rewrite Hcd. intros [Heq|?]; [|done]. destruct (Hown i nm ec He) as (H4 & H5 & _). destruct Hn as [Hn|(nm' & Hn)]; [congruence|].
    apply (H4 nm'). by rewrite Heq.
  - intros i nm ec Ha Ht He Hd. destruct (Honly i nm ec Ha Ht He (done_mono _ _ _ Hsub Hd)) as (H1 & k & H2 & H3).
    assert (k ≠ n). { intros ->. apply (proj1 (done_ctx_false _ _) Hd n H3). apply Hcd. by left. }
    split; [apply Hcls; split; [done|congruence]|]. exists k. split; [by apply Hcns|done].
Qed.

Lemma fleet_weaken cls cns hp (skip skip' : nat → ClusterName → Prop) f :
  (∀ i nm, i < length (fl_ctrls f) → skip i nm → skip' i nm) → fleet_inv cls cns hp skip f → fleet_inv cls cns hp skip' f.
Proof.
  intros Hsk [Hst Hrt Hdom Hhp Hcn Hct Hown Heng Honly]. split; try done.
  intros i c nm cl k Hd Hi Hl Hk Hs. apply (Heng i c nm cl k); try done. intros Hx. apply Hs, Hsk; [by eapply lookup_lt_Some|done].
Qed.

(** One controller after the other is engaged, up to the first refusal. *)
Lemma fleet_engage_one cls cns hp f i name cl k ctx :
  fleet_inv cls cns hp (λ j nm, nm = name ∧ i ≤ j) f → i < length (fl_ctrls f) →
  cls !! name = Some cl → cns !! name = Some k → ctx_nodes ctx = k :: ctx_nodes root →
  (∀ j ec, i ≤ j → engaged f j name ec → ec_cluster ec < cl) →
  let '(err, f') := ctrl_aware i ctx name cl f in
  length (fl_ctrls f') = length (fl_ctrls f) ∧ (all_total f' → all_total f) ∧
  match err with
  | None => fleet_inv cls cns hp (λ j nm, nm = name ∧ S i ≤ j) f' ∧ ∀ j ec, S i ≤ j → engaged f' j name ec → ec_cluster ec < cl
  | Some _ => fleet_inv cls cns hp (λ _ nm, nm = name) f' ∧ ¬ (accepting o ∧ all_total f')
  end.
Proof.
  intros HI Hlen Hcl Hk Hctx Hfresh. unfold ctrl_aware, on_ctrl.
  destruct (fl_ctrls f !! i) as [c|] eqn:Hi; [|apply lookup_ge_None in Hi; lia].
  pose proof (Engage_effect o quote ctx name cl (as_mstate c (fl_w f))) as He.
  destruct (Controller.Engage o quote ctx name cl (as_mstate c (fl_w f))) as [err s']. cbv zeta in He.
  destruct He as (Hsrc & Hcalls & Hn & (dead & Hdead & Hcd) & He).
  { simpl. intros old Hold Heq. exfalso. assert (ec_cluster old < cl) as Hlt; [|lia]. apply (Hfresh i); [done|by exists c]. }
  simpl in *. rewrite length_insert. split; [done|]. split; [apply (all_total_insert f i c); [done|by simpl; rewrite Hsrc]|]. rewrite Hctx in He.
  pose proof (λ new engCtx X, fleet_update cls cns hp _ f i c (of_mstate s') (m_w s') name cl k new engCtx X HI Hi Hcl Hk) as Hup.
  set (n := cs_next (w_ctxs (fl_w f))) in *. set (engCtx := Ctx (n :: k :: ctx_nodes root) (ctx_values ctx)) in *.
  assert (∀ (new : option engagedCluster) m, m ∈ dead → (m = n ∧ new = None) ∨ ∃ old, engaged f i name old ∧ m = ec_cancel old) as Hd.
  { intros new m (old & Ho & ->)%Hdead. right. exists old. split; [by exists c|done]. }
  destruct err as [e|].
  - destruct He as (Hm & Hf & Hw & Hno). split.
    + eapply fleet_weaken; [|apply (Hup None engCtx ({[n]} ∪ dead)); try done].
      * intros j nm _ [[? _]|?]; done.
      * by rewrite Hcd, (assoc_L (∪)).
      * intros m [->%elem_of_singleton|Hm']%elem_of_union; [by left|by apply Hd].
      * intros nm. simpl. rewrite Hm. destruct (decide (nm = name)) as [->|]; [by rewrite lookup_delete_eq|by rewrite lookup_delete_ne].
    + intros [Ha Ht]. apply Hno. split; [done|]. intros src Hs. apply (Ht i (of_mstate s')); simpl; [|by rewrite Hsrc].
      by apply list_lookup_insert_eq.
  - destruct He as (Hm & Hf & Hw & Hwatch). split.
    + eapply fleet_weaken; [|apply (Hup (Some (MkEngaged (c_fresh c) name cl engCtx n)) engCtx dead); try done].
      * intros j nm _ [[-> Hj] Hne]. split; [done|]. destruct (decide (j = i)) as [->|]; [by exfalso; apply Hne|lia].
      * by rewrite Hcd, (left_id_L ∅ _).
      * apply Hd.
      * intros nm. simpl. rewrite Hm. destruct (decide (nm = name)) as [->|]; [by rewrite lookup_insert_eq|by rewrite lookup_insert_ne].
    + intros j ec Hj [[-> _]|[_ He]]%(engaged_insert f i c (of_mstate s') (m_w s')); [lia| |done]. apply (Hfresh j); [lia|done].
Qed.

Lemma fleet_engage_all cls cns hp f i len name cl k ctx :
  fleet_inv cls cns hp (λ j nm, nm = name ∧ i ≤ j) f → i + len = length (fl_ctrls f) →
  cls !! name = Some cl → cns !! name = Some k → ctx_nodes ctx = k :: ctx_nodes root →
  (∀ j ec, i ≤ j → engaged f j name ec → ec_cluster ec < cl) →
  let '(err, f') := for_range (ctrl_aware <$> seq i len) (λ r, r ctx name cl) f in
  (all_total f' → all_total f) ∧
  match err with
  | None => fleet_inv cls cns hp (λ _ _, False) f'
  | Some _ => fleet_inv cls cns hp (λ _ nm, nm = name) f' ∧ ¬ (accepting o ∧ all_total f')
  end.
Proof.
  revert f i. induction len as [|len IH]; intros f i HI Hlen Hcl Hk Hctx Hfresh; simpl.
  { split; [done|]. eapply fleet_weaken; [|exact HI]. intros j nm Hj [_ ?]. lia. }
  unfold on_nil. rewrite bind_eq.
  pose proof (fleet_engage_one cls cns hp f i name cl k ctx HI ltac:(lia) Hcl Hk Hctx Hfresh) as H1.
  destruct (ctrl_aware i ctx name cl f) as [[e|] f1]; destruct H1 as (Hl1 & Ht1 & H1); [by split|]. destruct H1 as [HI1 Hf1].
  pose proof (IH f1 (S i) HI1 ltac:(lia) Hcl Hk Hctx Hf1) as H2. destruct (for_range _ _ f1) as [err f2]. destruct H2 as [Ht2 H2].
  split; [tauto|exact H2].
Qed.

Lemma sys_inv_add ns s :
  sys_inv s → let '(r, s') := AddFunc root ns s in r = Returns tt ∧ sys_inv s' ∧
    (all_total (n_w s') → all_total (n_w s)) ∧
    (accepting o → all_total (n_w s') → ∀ nm, is_Some (n_clusters s' !! nm) ↔ nm = ns ∨ is_Some (n_clusters s !! nm)).
Proof.
  intros [[a Ha] HI]. unfold AddFunc. rewrite get_bind. destruct (n_clusters s !! ns) as [cl|] eqn:Hns.
  { unfold mret, M_ret. cbv iota beta. split_ands; [done|split; [by exists a|done]|done|]. intros _ _ nm. split; [by right|]. intros [->|?]; [by eexists|done]. }
  unfold add_store, add_engage, n_world, n_lift, w_WithCancel, WithCancel, n_alloc, n_set, modify, get, mbind, M_bind, mret, M_ret. simpl.
  rewrite Ha. simpl. unfold basic_Engage, fleet_coord. rewrite awares_added. simpl.
  destruct s as [hc aw cls cns heap [ctrls w]]. simpl in *.
  pose proof (fleet_store cls cns (2 * length heap) (2 * length (heap ++ [MkNamespacedCluster ns hc])) _ ns (2 * length heap + 1) HI Hns) as Hst.
  cbv zeta in Hst. simpl in Hst. specialize (Hst ltac:(rewrite length_app; simpl; lia)).
  set (f1 := Fleet ctrls (World _ _)) in *. set (k := cs_next (w_ctxs w)) in *.
  pose proof (fleet_engage_all _ _ _ f1 0 (length ctrls) ns (2 * length heap + 1) k (Ctx (k :: ctx_nodes root) (ctx_values root))
    (fleet_weaken _ _ _ _ _ f1 (λ _ _ _ H, conj H (Nat.le_0_l _)) Hst)) as Hall.
  specialize (Hall eq_refl (lookup_insert_eq _ _ _) (lookup_insert_eq _ _ _) eq_refl).
  match type of Hall with ?P → _ => assert P as Hfr end.
  { intros j ec _ (c & Hc & Hl). pose proof (fi_ctrl _ _ _ _ _ HI j c Hc) as [Hec _]. destruct (Hec ns ec Hl) as [? _]. lia. }
  specialize (Hall Hfr). replace (length heap + (length heap + 0) + 1) with (2 * length heap + 1) by lia.
  destruct (for_range _ _ f1) as [[e|] f2]; destruct Hall as [Htot Hall]; simpl; (split; [done|]); (split; [split; [by exists a|]|split]); simpl; [| | |exact Hall| |].
  - destruct Hall as [Hinv Hno]. apply fleet_forget; [exact Hinv|]. intros Hacc Ht. by destruct Hno.
  - exact Htot.
  - intros Hacc Ht. by destruct (proj2 Hall).
  - exact Htot.
  - intros _ _ nm. rewrite lookup_insert_is_Some. destruct (decide (ns = nm)); naive_solver.
Qed.

Lemma sys_inv_delete ns s :
  sys_inv s → let '(r, s') := DeleteFunc (SW:=fleet_surroundings) (inl ns) s in r = Returns tt ∧ sys_inv s' ∧
    (all_total (n_w s') → all_total (n_w s)) ∧
    ∀ nm, is_Some (n_clusters s' !! nm) ↔ nm ≠ ns ∧ is_Some (n_clusters s !! nm).
Proof.
  intros [Ha HI]. unfold DeleteFunc. rewrite get_bind. destruct (n_cancelFns s !! ns) as [k|] eqn:Hk.
  2:{ unfold mret, M_ret. cbv iota beta. split_ands; [done..|]. intros nm. split; [|by intros [_ ?]]. intros Hx. split; [|done]. intros ->.
      apply (fi_dom _ _ _ _ _ HI) in Hx as [? ?]. congruence. }
  unfold delete_stored, n_world, n_lift, w_cancel, n_forget, modify, get, mbind, M_bind, mret, M_ret. simpl. rewrite Hk. simpl.
  split; [done|]. split; [split; [done|]|split; [done|intros nm; simpl; rewrite lookup_delete_is_Some; naive_solver]].
  simpl. destruct (fi_cn _ _ _ _ _ HI ns k Hk) as (Hlt & _ & _ & Hinj).
  apply (fleet_cancel (n_clusters s) (n_cancelFns s) _ _ _ (n_w s) k); simpl; try done.
  - right. by exists ns.
  - intros nm k'. rewrite lookup_delete_Some. split; intros [H1 H2].
    + split; [done|]. intros ->. by apply H1, eq_sym, Hinj.
    + split; [|done]. intros <-. rewrite Hk in H1. by injection H1 as ->.
  - intros nm cl. rewrite lookup_delete_Some. split; intros [H1 H2].
    + split; [done|]. intros Heq. by apply H1, eq_sym, Hinj.
    + split; [|done]. by intros <-.
  - intros m. rewrite !elem_of_union, !elem_of_singleton. tauto.
Qed.

Lemma ctrl_disengage_eq key tok s :
  disengage key tok s =
    (tt, MState (MkController (mc_aware (m_c s))
      (match mc_clusters (m_c s) !! key with
       | Some cur => if bool_decide (ec_token cur = tok) then delete key (mc_clusters (m_c s)) else mc_clusters (m_c s)
       | None => mc_clusters (m_c s)
       end) (mc_sources (m_c s))) (m_w s) (m_fresh s) (m_waiters s)).
Proof.
  unfold disengage. rewrite get_bind. destruct s as [[a m srcs] w fr ws]. simpl.
  destruct (m !! key) as [cur|]; [|done]. by destruct (bool_decide _).
Qed.

(** A controller watches with another source. *)
Lemma sys_inv_watch i src s s' : sys_inv s → ctrl_step i (MWatch src) s = Some s' → sys_inv s'.
Proof.
  intros [Ha HI]. unfold ctrl_step. destruct (fl_ctrls (n_w s) !! i) as [c|] eqn:Hi; [|done]. simpl.
  pose proof (fi_ctrl _ _ _ _ _ HI i c Hi) as Hci. intros [= <-]. split; [done|]. simpl.
  pose proof (MultiClusterWatch_spec o quote src (as_mstate c (fl_w (n_w s)))) as Hs.
  pose proof (MultiClusterWatch_only_calls o quote src (as_mstate c (fl_w (n_w s)))) as Hf.
  destruct (MultiClusterWatch _ _ _ _) as [err ms]. destruct Hs as (Hm & Hw & Hcalls & Hr), Hf as (Hfr & Hx). simpl in *.
  apply (fleet_quiet _ _ _ _ _ i c); simpl; try done.
  - split; simpl.
    + intros nm ec. rewrite Hm, Hw. intros Hec. destruct (ci_ec _ _ _ Hci nm ec Hec) as (H1 & H2 & H3 & H4 & H5).
      split_ands; [done|done|by rewrite Hx|done|]. intros src' Hin. destruct err as [e|].
      * rewrite Hr in Hin. eapply watched_mono; [done|by apply H5].
      * destruct Hr as [Hsrc Hall]. rewrite Hsrc in Hin. apply elem_of_app in Hin as [Hin|Hin%list_elem_of_singleton].
        -- eapply watched_mono; [done|by apply H5].
        -- subst src'. by apply Hall.
    + intros ctx key tok. rewrite Hw, Hfr, Hm. apply (ci_wait _ _ _ Hci).
  - intros src' Hin. destruct err; [by rewrite Hr|]. destruct Hr as [-> _]. apply elem_of_app. by left.
  - intros nm ec. by rewrite Hm.
  - intros nm ec. rewrite Hm. by left.
Qed.

(** What the goroutine of engagement [tok] leaves of the entries. *)
Lemma disengage_lookup c key tok nm ec :
  (match mc_clusters (c_mc c) !! key with
   | Some cur => if bool_decide (ec_token cur = tok) then delete key (mc_clusters (c_mc c)) else mc_clusters (c_mc c)
   | None => mc_clusters (c_mc c)
   end) !! nm = Some ec ↔ mc_clusters (c_mc c) !! nm = Some ec ∧ ¬ (nm = key ∧ ec_token ec = tok).
Proof.
  destruct (mc_clusters (c_mc c) !! key) as [cur|] eqn:Hcur; [case_bool_decide as Ht|].
  - rewrite lookup_delete_Some. split; [intros [? ?]; split; [done|by intros [-> _]]|].
    intros [Hl Hne]. split; [|done]. intros ->. apply Hne. by simplify_eq.
  - split; [intros Hl; split; [done|intros [-> ?]; congruence]|by intros [? _]].
  - split; [intros Hl; split; [done|intros [-> ?]; congruence]|by intros [? _]].
Qed.

(** The goroutine of an engagement whose context is done runs. *)
Lemma sys_inv_wake i j s s' : sys_inv s → ctrl_step i (MWake j) s = Some s' → sys_inv s'.
Proof.
  intros [Ha HI]. unfold ctrl_step. destruct (fl_ctrls (n_w s) !! i) as [c|] eqn:Hi; [|done]. simpl.
  pose proof (fi_ctrl _ _ _ _ _ HI i c Hi) as Hci.
  destruct (c_waiters c !! j) as [[[ctx key] tok]|] eqn:Hj; [|done]. simpl.
  destruct (done_ctx ctx _) eqn:Hd; [|done]. intros [= <-]. rewrite ctrl_disengage_eq. split; [done|]. simpl.
  destruct (ci_wait _ _ _ Hci ctx key tok) as [Htok Hkey]; [by eapply list_elem_of_lookup_2|].
  apply (fleet_quiet _ _ _ _ _ i c); simpl; try done.
  - destruct Hci as [Hec Hwt]. split; simpl.
    + intros nm ec [Hl Hne]%disengage_lookup. destruct (Hec nm ec Hl) as (H1 & H2 & H3 & H4 & H5). split_ands; try done.
      destruct (elem_of_delete_or _ _ _ _ Hj H4) as [Heq|?]; [|done]. exfalso. apply Hne. by injection Heq.
    + intros ctx' key' tok' Hin%elem_of_delete_sub. destruct (Hwt ctx' key' tok' Hin) as [H1 H2]. split; [done|].
      intros ec [Hl _]%disengage_lookup. by apply H2.
  - by intros nm ec [? _]%disengage_lookup.
  - intros nm ec Hl. destruct (decide (nm = key ∧ ec_token ec = tok)) as [[-> Ht]|Hne]; [right|left; by apply disengage_lookup].
    by rewrite <-(Hkey ec Hl Ht).
Qed.

Lemma sys_inv_ctrl i l s s' :
  sys_inv s → (∀ p, l ≠ MNewCtx p) → (∀ n, l ≠ MCancel n) → (∀ ctx nm cl, l ≠ MEngage ctx nm cl) →
  ctrl_step i l s = Some s' → sys_inv s'.
Proof.
  intros HI Hl1 Hl2 Hl3. destruct l as [p|n|ctx nm cl|src|j]; [by edestruct Hl1|by edestruct Hl2|by edestruct Hl3| |].
  - by apply sys_inv_watch.
  - by apply sys_inv_wake.
Qed.

Lemma sys_inv_step l s s' : sys_inv s → sys_exec l s = Some s' → sys_inv s'.
Proof.
  intros HI. destruct l as [e|i src|i j|n]; cbn [sys_exec].
  - destruct e as [ns|ns|ns|]; cbn [ns_handle].
    + pose proof (sys_inv_add ns s HI) as H. destruct (AddFunc root ns s) as [r s1]. destruct H as (-> & H & _). intros Hx. by injection Hx as <-.
    + by intros [= <-].
    + pose proof (sys_inv_delete ns s HI) as H. destruct (DeleteFunc (inl ns) s) as [r s1]. destruct H as (-> & H & _). intros Hx. by injection Hx as <-.
    + done.
  - by apply sys_inv_ctrl.
  - by apply sys_inv_ctrl.
  - case_bool_decide as Hn; [|done]. intros [= <-]. destruct HI as [Ha HI]. split; [done|]. simpl.
    pose proof (fi_root _ _ _ _ _ HI n Hn) as Hlt.
    apply (fleet_cancel (n_clusters s) (n_cancelFns s) _ _ _ (n_w s) n); simpl; try done.
    + by left.
    + intros nm k. split; [|by intros [? _]]. intros Hk. split; [done|]. intros ->.
      by destruct (fi_cn _ _ _ _ _ HI nm n Hk) as (_ & _ & ? & _).
    + intros nm cl. split; [|by intros [? _]]. intros Hk. split; [done|]. intros Hx.
      by destruct (fi_cn _ _ _ _ _ HI nm n Hx) as (_ & _ & ? & _).
    + intros m. by rewrite elem_of_union, elem_of_singleton.
Qed.

Lemma sys_inv_init s : sys_init s → sys_inv s.
Proof.
  intros (Ha & Hcl & Hcn & Hh & Hct & Hst & Hrt). split; [done|]. rewrite Hcl, Hcn, Hh.
  assert (∀ i nm ec, ¬ engaged (n_w s) i nm ec) as Hno.
  { intros i nm ec (c & Hc & Hl). destruct (Hct i c Hc) as [Hx _]. by rewrite Hx in Hl. }
  split; try done.
  - intros i c Hc. destruct (Hct i c Hc) as [Hm Hw]. split.
    + intros nm ec. by rewrite Hm.
    + intros ctx key tok. rewrite Hw. by intros ?%elem_of_nil.
  - intros i nm ec He. by apply Hno in He.
  - intros i nm ec _ _ He. by apply Hno in He.
Qed.

Lemma sys_inv_reachable s : reachable sys_exec sys_init s → sys_inv s.
Proof. apply (invariant_reachable sys_exec sys_init sys_inv); [apply sys_inv_init|intros; by eapply sys_inv_step]. Qed.

(** ** What the provider knows *)

Definition events (ls : list sys_label) : list ns_event :=
  omap (λ l, match l with LEvent e => Some e | _ => None end) ls.

Lemma ctrl_step_keeps i l s s' :
  (∃ src, l = MWatch src) ∨ (∃ j, l = MWake j) → ctrl_step i l s = Some s' →
  n_clusters s' = n_clusters s ∧ (all_total (n_w s') → all_total (n_w s)).
Proof.
  intros Hl. unfold ctrl_step. destruct (fl_ctrls (n_w s) !! i) as [c|] eqn:Hi; [|done]. simpl.
  destruct Hl as [[src ->]|[j ->]]; simpl.
  - intros [= <-]. split; [done|]. apply (all_total_insert _ i c); [done|]. simpl.
    pose proof (MultiClusterWatch_spec o quote src (as_mstate c (fl_w (n_w s)))) as Hs.
    destruct (MultiClusterWatch _ _ _ _) as [[e|] ms]; destruct Hs as (_ & _ & _ & Hr); simpl in *.
    + by rewrite Hr.
    + destruct Hr as [-> _]. intros src' Hin. apply elem_of_app. by left.
  - destruct (c_waiters c !! j) as [[[ctx key] tok]|]; [|done]. simpl. destruct (done_ctx _ _); [|done]. intros [= <-].
    rewrite ctrl_disengage_eq. split; [done|]. by apply (all_total_insert _ i c).
Qed.

Lemma sys_step_knows l s s' :
  sys_inv s → sys_exec l s = Some s' →
  (all_total (n_w s') → all_total (n_w s)) ∧
  (accepting o → all_total (n_w s') → ∀ nm, is_Some (n_clusters s' !! nm) ↔
     match l with
     | LEvent (NsAdd ns) => nm = ns ∨ is_Some (n_clusters s !! nm)
     | LEvent (NsDelete ns) => nm ≠ ns ∧ is_Some (n_clusters s !! nm)
     | _ => is_Some (n_clusters s !! nm)
     end).
Proof.
  intros HI. destruct l as [e|i src|i j|n]; cbn [sys_exec].
  - destruct e as [ns|ns|ns|]; cbn [ns_handle].
    + pose proof (sys_inv_add ns s HI) as H. destruct (AddFunc root ns s) as [r s1]. destruct H as (-> & _ & H).
      intros Hx. injection Hx as <-. exact H.
    + by intros [= <-].
    + pose proof (sys_inv_delete ns s HI) as H. destruct (DeleteFunc (inl ns) s) as [r s1]. destruct H as (-> & _ & H1 & H2).
      intros Hx. by injection Hx as <-.
    + done.
  - intros [Hc Ht]%ctrl_step_keeps; [|left; by eexists]. split; [done|]. by rewrite Hc.
  - intros [Hc Ht]%ctrl_step_keeps; [|right; by eexists]. split; [done|]. by rewrite Hc.
  - case_bool_decide; [|done]. by intros [= <-].
Qed.

Lemma run_knows ls s s' X :
  sys_inv s → run sys_exec ls s = Some s' → (∀ nm, is_Some (n_clusters s !! nm) ↔ nm ∈ X) →
  sys_inv s' ∧ (all_total (n_w s') → all_total (n_w s)) ∧
  (accepting o → all_total (n_w s') → ∀ nm, is_Some (n_clusters s' !! nm) ↔ nm ∈ fold_left present_step (events ls) X).
Proof.
  intros HI Hrun HX. revert s X HI Hrun HX.
  induction ls as [|l ls IH]; intros s X HI; cbn [run]; [by intros [= <-]|].
  destruct (sys_exec l s) as [s1|] eqn:Hs1; [|done]. intros Hrun HX.
  pose proof (sys_inv_step l s s1 HI Hs1) as HI1. destruct (sys_step_knows l s s1 HI Hs1) as [Ht Hk].
  destruct (IH s1 (dom (n_clusters s1)) HI1 Hrun) as (HI' & Ht' & _); [by intros nm; rewrite elem_of_dom|].
  split_ands; [done|tauto|]. intros Ha Htot.
  destruct (IH s1 (match l with LEvent e => present_step X e | _ => X end) HI1 Hrun) as (_ & _ & IH').
  { intros nm. rewrite (Hk Ha (Ht' Htot)). destruct l as [[ns|ns|ns|]| | |]; cbn [present_step]; try apply HX.
    - by rewrite elem_of_union, elem_of_singleton, HX.
    - rewrite elem_of_difference, elem_of_singleton, HX. tauto. }
  intros nm. rewrite (IH' Ha Htot). by destruct l.
Qed.

(** ** Wake-ups *)

Definition is_wake (l : sys_label) : Prop := ∃ i j, l = LWake i j.

Definition quiescent s : Prop := ∀ i j, sys_exec (LWake i j) s = None.

Definition waiting s : nat := sum_list_with (λ c, length (c_waiters c)) (fl_ctrls (n_w s)).

Lemma sum_list_insert {A} (f : A → nat) (l : list A) i x y :
  l !! i = Some x → f y < f x → sum_list_with f (<[i := y]> l) < sum_list_with f l.
Proof.
  revert i. induction l as [|z l IH]; intros [|i]; simpl; [done|done|intros [= ->]; lia|]. intros Hi Hf. specialize (IH i Hi Hf). lia.
Qed.

(** Every wake-up leaves one goroutine less, so they come to an end. *)
Lemma wake_decreases i j s s' : sys_exec (LWake i j) s = Some s' → waiting s' < waiting s ∧ n_clusters s' = n_clusters s ∧
  w_ctxs (fl_w (n_w s')) = w_ctxs (fl_w (n_w s)).
Proof.
  simpl. unfold ctrl_step. destruct (fl_ctrls (n_w s) !! i) as [c|] eqn:Hi; [|done]. simpl.
  destruct (c_waiters c !! j) as [[[ctx key] tok]|] eqn:Hj; [|done]. simpl. destruct (done_ctx _ _); [|done]. intros [= <-].
  rewrite ctrl_disengage_eq. split_ands; [|done|done]. unfold waiting. simpl. apply (sum_list_insert _ _ i c); [done|]. simpl.
  apply lookup_lt_Some in Hj as Hlt. rewrite length_delete; [lia|by eexists].
Qed.

Lemma wakes_come_to_an_end s :
  ∃ ls s', run sys_exec ls s = Some s' ∧ Forall is_wake ls ∧ quiescent s' ∧ n_clusters s' = n_clusters s ∧
    w_ctxs (fl_w (n_w s')) = w_ctxs (fl_w (n_w s)).
Proof.
  remember (waiting s) as n eqn:Hn. revert s Hn. induction (lt_wf n) as [n _ IH]. intros s ->.
  destruct (decide (Exists (λ i, Exists (λ j, is_Some (sys_exec (LWake i j) s))
    (seq 0 (match fl_ctrls (n_w s) !! i with Some c => length (c_waiters c) | None => 0 end))) (seq 0 (length (fl_ctrls (n_w s)))))) as [He|Hne].
  - apply Exists_exists in He as (i & _ & (j & _ & [s1 Hs1])%Exists_exists).
    destruct (wake_decreases i j s s1 Hs1) as (Hlt & Hc & Hx). destruct (IH _ Hlt s1 eq_refl) as (ls & s' & Hrun & Hw & Hq & Hc' & Hx').
    exists (LWake i j :: ls), s'. split_ands; [by cbn [run]; rewrite Hs1|constructor; [by exists i, j|done]|done|congruence|congruence].
  - exists [], s. split_ands; [done|done| |done|done]. intros i j. destruct (sys_exec (LWake i j) s) as [s1|] eqn:Hs1; [|done].
    exfalso. apply Hne. apply Exists_exists. exists i. pose proof Hs1 as Hs2. simpl in Hs1. unfold ctrl_step in Hs1.
    destruct (fl_ctrls (n_w s) !! i) as [c|] eqn:Hi; [|done]. simpl in Hs1.
    destruct (c_waiters c !! j) as [w|] eqn:Hj; [|done]. split.
    + apply elem_of_seq. apply lookup_lt_Some in Hi. lia.
    + apply Exists_exists. exists j. split; [|by eexists]. apply elem_of_seq. apply lookup_lt_Some in Hj. lia.
Qed.

(** When no goroutine is left to run, an engagement is live. *)
Lemma quiescent_live s i c name ec :
  sys_inv s → quiescent s → fl_ctrls (n_w s) !! i = Some c → mc_clusters (c_mc c) !! name = Some ec →
  done_ctx (ec_ctx ec) (w_ctxs (fl_w (n_w s))) = false.
Proof.
  intros [_ HI] Hq Hi Hl. destruct (done_ctx _ _) eqn:Hd; [|done]. exfalso.
  destruct (ci_ec _ _ _ (fi_ctrl _ _ _ _ _ HI i c Hi) name ec Hl) as (_ & _ & _ & [j Hj]%list_elem_of_lookup & _).
  specialize (Hq i j). simpl in Hq. unfold ctrl_step in Hq. rewrite Hi in Hq. simpl in Hq. rewrite Hj in Hq. simpl in Hq. by rewrite Hd in Hq.
Qed.

Lemma quiescent_mirror s i c name :
  sys_inv s → quiescent s → accepting o → all_total (n_w s) → done_ctx root (w_ctxs (fl_w (n_w s))) = false →
  fl_ctrls (n_w s) !! i = Some c → ec_cluster <$> mc_clusters (c_mc c) !! name = n_clusters s !! name.
Proof.
  intros HS Hq Ha Ht Hd Hi. pose proof (proj2 HS) as HI. destruct (mc_clusters (c_mc c) !! name) as [ec|] eqn:Hl; simpl.
  - symmetry. apply (fi_only _ _ _ _ _ HI i name ec Ha Ht); [by exists c|by eapply quiescent_live].
  - destruct (n_clusters s !! name) as [cl|] eqn:Hcl; [|done].
    destruct (proj1 (fi_dom _ _ _ _ _ HI name) (ex_intro _ _ Hcl)) as [k Hk].
    destruct (fi_engaged _ _ _ _ _ HI i c name cl k Hd Hi Hcl Hk) as (ec & (c' & Hc' & Hl') & _); [tauto|]. congruence.
Qed.

(** ** Properties *)

(** C7 (safety): a namespace that the provider knows is watched by every controller,
    in every reachable state between two of its events, whatever the clusters
    answer and in whatever order namespaces come and go, sources are added and
    goroutines run: as long as the
    provider's context lives, each controller has the provider's cluster engaged
    within a live context, and has started in it every source that wants the
    cluster. *)
Theorem known_namespaces_are_watched s name cl i c :
  reachable sys_exec sys_init s → done_ctx root (w_ctxs (fl_w (n_w s))) = false →
  ns_Get s name = Ok cl → fl_ctrls (n_w s) !! i = Some c →
  ∃ ec, mc_clusters (c_mc c) !! name = Some ec ∧ ec_cluster ec = cl ∧
    done_ctx (ec_ctx ec) (w_ctxs (fl_w (n_w s))) = false ∧
    ∀ src, src ∈ mc_sources (c_mc c) → ∃ n should, src name cl = Ok (n, should) ∧
      (should = true → CallWatch n cl (ec_ctx ec) ∈ w_calls (fl_w (n_w s))).
Proof.
  intros Hr Hd Hg Hi. destruct (sys_inv_reachable s Hr) as [_ HI].
  assert (n_clusters s !! name = Some cl) as Hcl. { unfold ns_Get in Hg. destruct (n_clusters s !! name); congruence. }
  destruct (proj1 (fi_dom _ _ _ _ _ HI name) (ex_intro _ _ Hcl)) as [k Hk].
  destruct (fi_engaged _ _ _ _ _ HI i c name cl k Hd Hi Hcl Hk) as (ec & (c' & Hc' & Hl) & <- & Hn & Hx); [tauto|].
  assert (c' = c) as -> by congruence. exists ec. split_ands; [done|done| |].
  - apply done_ctx_false. rewrite Hn. intros m [->|[->|Hm]%elem_of_cons]%elem_of_cons; [done|by apply (fi_cn _ _ _ _ _ HI name k)|].
    by apply (proj1 (done_ctx_false root _) Hd m).
  - intros src Hs. by apply (ci_ec _ _ _ (fi_ctrl _ _ _ _ _ HI i c Hi) name ec Hl).
Qed.

(** C8 (refinement): the controllers follow the namespaces.  After any run in which
    nothing refuses a cluster, the goroutines that are left to run come to an
    end, and then each controller has engaged exactly the namespaces that there
    are after the run's events - each with the cluster the provider resolves its
    name to - until the provider's context ends. *)
Theorem controllers_follow_the_namespaces ls s0 s :
  sys_init s0 → run sys_exec ls s0 = Some s → accepting o → all_total (n_w s) →
  done_ctx root (w_ctxs (fl_w (n_w s))) = false →
  ∃ wakes s', run sys_exec wakes s = Some s' ∧ Forall is_wake wakes ∧ quiescent s' ∧
    ∀ i c, fl_ctrls (n_w s') !! i = Some c → ∀ name,
      match mc_clusters (c_mc c) !! name with
      | Some ec => name ∈ present (events ls) ∧ ns_Get s' name = Ok (ec_cluster ec) ∧
                   done_ctx (ec_ctx ec) (w_ctxs (fl_w (n_w s'))) = false
      | None => name ∉ present (events ls) ∧ ns_Get s' name = Err ErrClusterNotFound
      end.
Proof.
  intros H0 Hrun Ha Ht Hd. pose proof (sys_inv_init s0 H0) as HI0.
  destruct (run_knows ls s0 s ∅ HI0 Hrun) as (HI & _ & Hk).
  { intros nm. destruct H0 as (_ & -> & _). split; [by intros [? ?]|by intros ?%elem_of_empty]. }
  specialize (Hk Ha Ht). destruct (wakes_come_to_an_end s) as (wakes & s' & Hw & Hf & Hq & Hc & Hx).
  exists wakes, s'. split_ands; try done. intros i c Hi name.
  assert (sys_inv s' ∧ all_total (n_w s')) as [HI' Ht'].
  { clear -HI Ht Hw Hf. revert s HI Ht Hw. induction Hf as [|l wakes (i & j & ->) _ IH]; intros s HI Ht; cbn [run]; [by intros [= <-]|].
    destruct (sys_exec (LWake i j) s) as [s1|] eqn:Hs1; [|done]. apply IH; [by eapply sys_inv_step|].
    clear -Ht Hs1. simpl in Hs1. unfold ctrl_step in Hs1. destruct (fl_ctrls (n_w s) !! i) as [c|] eqn:Hi; [|done]. simpl in Hs1.
    destruct (c_waiters c !! j) as [[[ctx key] tok]|]; [|done]. simpl in Hs1. destruct (done_ctx _ _); [|done]. injection Hs1 as <-.
    rewrite ctrl_disengage_eq. intros i' c' src. simpl. destruct (decide (i' = i)) as [->|].
    - rewrite list_lookup_insert_eq by (by eapply lookup_lt_Some). intros [= <-]. simpl. by apply (Ht i c).
    - rewrite list_lookup_insert_ne by done. by apply Ht. }
  pose proof (quiescent_mirror s' i c name HI' Hq Ha Ht') as Hm. rewrite Hx in Hm. specialize (Hm Hd Hi).
  rewrite <-Hc in Hk. specialize (Hk name). unfold ns_Get. destruct (mc_clusters (c_mc c) !! name) as [ec|] eqn:Hl; simpl in Hm; rewrite <-Hm.
  - split_ands; [|done|by eapply quiescent_live]. apply Hk. rewrite <-Hm. by eexists.
  - split; [|done]. rewrite <-Hm in Hk. rewrite <-Hk. by intros [? ?].
Qed.
End system.

(** ** Two controllers *)

(** A source for each of two controllers, and a cluster that refuses the second. *)
Definition config_maps : TypedSource := λ _ cl, Ok (10 + cl, true).
Definition secrets : TypedSource := λ _ cl, Ok (20 + cl, true).
Definition no_secrets : oracle := λ _ c,
  match c with CallWatch n _ _ => if bool_decide (20 ≤ n) then Some (Errorf "forbidden") else None | _ => None end.

Definition new_ctrl (srcs : list TypedSource) : ctrl := Ctrl (MkController None ∅ srcs) 0 [].

(** The provider's context has node 0. *)
Definition root0 : context := Ctx [0] [].
Definition demo_system : nstate fleet :=
  NState 4 (Some 0) ∅ ∅ [] (Fleet [new_ctrl [config_maps]; new_ctrl [secrets]] (World (CtxStore 1 ∅) [])).

Lemma demo_system_init : sys_init root0 demo_system.
Proof.
  unfold sys_init. simpl. split; [by eexists|]. split; [done|]. split; [done|]. split; [done|]. split; [|split].
  - intros [|[|i]] c; simpl; [by intros [= <-]|by intros [= <-]|done].
  - intros n ?%elem_of_empty. done.
  - intros n ->%list_elem_of_singleton. simpl. lia.
Qed.

Definition demo_labels : list sys_label :=
  [LEvent (NsAdd "a"); LEvent (NsAdd "b"); LWatch 0 secrets; LEvent (NsDelete "a"); LEvent (NsAdd "a"); LWake 0 0].

(** Complement (safety): a namespace that one controller refuses stays with the
    controllers before it: they go on watching it in a live context although the
    provider has forgotten the cluster - requests for it are dropped - and even
    when the namespace has been deleted. *)
Theorem refused_namespace_is_still_watched :
  ∃ s c ec, reachable (sys_exec no_secrets id root0) (sys_init root0) s ∧
    run (sys_exec no_secrets id root0) [LEvent (NsAdd "a"); LEvent (NsDelete "a")] demo_system = Some s ∧
    ns_Get s "a" = Err ErrClusterNotFound ∧
    fl_ctrls (n_w s) !! 0 = Some c ∧ mc_clusters (c_mc c) !! "a" = Some ec ∧
    done_ctx (ec_ctx ec) (w_ctxs (fl_w (n_w s))) = false ∧
    CallWatch (10 + ec_cluster ec) (ec_cluster ec) (ec_ctx ec) ∈ w_calls (fl_w (n_w s)) ∧
    quiescent no_secrets id root0 s.
Proof.
  set (s := default demo_system (run (sys_exec no_secrets id root0) [LEvent (NsAdd "a"); LEvent (NsDelete "a")] demo_system)).
  assert (run (sys_exec no_secrets id root0) [LEvent (NsAdd "a"); LEvent (NsDelete "a")] demo_system = Some s) as Hr by (vm_compute; reflexivity).
  exists s. do 2 eexists. split; [exact (run_reachable _ (sys_init root0) _ demo_system s (reach_init _ _ _ demo_system_init) Hr)|]. split; [exact Hr|].
  split; [vm_compute; reflexivity|]. split; [reflexivity|]. split; [vm_compute; reflexivity|]. split; [vm_compute; reflexivity|].
  split; [vm_compute; left|]. intros i j. destruct i as [|[|i]]; destruct j as [|j]; vm_compute; reflexivity.
Qed.

(** ** Witnesses *)

Definition demo_run (ls : list sys_label) : nstate fleet :=
  default demo_system (run (sys_exec all_ok id root0) ls demo_system).

Lemma demo_run_total ls :
  (λ c, mc_sources (c_mc c)) <$> fl_ctrls (n_w (demo_run ls)) = [[config_maps]; [secrets]] → all_total (n_w (demo_run ls)).
Proof.
  intros Hs i c src Hi Hin.
  assert ([[config_maps]; [secrets]] !! i = Some (mc_sources (c_mc c))) as Hl by (rewrite <-Hs, list_lookup_fmap; by rewrite Hi).
  destruct i as [|[|i]]; [| |done]; injection Hl as Hl; rewrite <-Hl in Hin; apply list_elem_of_singleton in Hin as ->; by intros ? ?.
Qed.

Lemma known_namespaces_are_watched_witness :
  ∃ c ec, fl_ctrls (n_w (demo_run demo_labels)) !! 0 = Some c ∧ mc_clusters (c_mc c) !! "a" = Some ec ∧ ec_cluster ec = 5 ∧
    CallWatch 15 5 (ec_ctx ec) ∈ w_calls (fl_w (n_w (demo_run demo_labels))).
Proof.
  destruct (fl_ctrls (n_w (demo_run demo_labels)) !! 0) as [c|] eqn:Hc; [|vm_compute in Hc; discriminate].
  destruct (known_namespaces_are_watched all_ok id root0 (demo_run demo_labels) "a" 5 0 c) as (ec & Hl & He & _ & Hs).
  - refine (run_reachable (sys_exec all_ok id root0) (sys_init root0) demo_labels demo_system _ (reach_init _ _ _ demo_system_init) _).
    vm_compute. reflexivity.
  - vm_compute. reflexivity.
  - vm_compute. reflexivity.
  - exact Hc.
  - exists c, ec. split; [done|]. split; [done|]. split; [done|].
    assert (head (mc_sources (c_mc c)) = Some config_maps) as Hh.
    { assert (head ∘ mc_sources ∘ c_mc <$> fl_ctrls (n_w (demo_run demo_labels)) !! 0 = Some (Some config_maps)) as Hx by (vm_compute; reflexivity).
      rewrite Hc in Hx. by injection Hx. }
    destruct (Hs config_maps) as (n & should & Heq & Hw).
    { destruct (mc_sources (c_mc c)); [done|]. injection Hh as ->. left. }
    injection Heq as <- <-. by apply Hw.
Defined.

Definition demo_events : list sys_label := [LEvent (NsAdd "a"); LEvent (NsAdd "b"); LEvent (NsDelete "a")].

Lemma controllers_follow_the_namespaces_witness :
  ∃ wakes s', run (sys_exec all_ok id root0) wakes (demo_run demo_events) = Some s' ∧
    ∀ i c, fl_ctrls (n_w s') !! i = Some c → is_Some (mc_clusters (c_mc c) !! ("b" : ClusterName)) ∧ mc_clusters (c_mc c) !! ("a" : ClusterName) = None.
Proof.
  destruct (controllers_follow_the_namespaces all_ok id root0 demo_events demo_system (demo_run demo_events) demo_system_init)
    as (wakes & s' & Hw & _ & _ & H).
  - vm_compute. reflexivity.
  - by split.
  - apply demo_run_total. vm_compute. reflexivity.
  - vm_compute. reflexivity.
  - exists wakes, s'. split; [exact Hw|]. intros i c Hi.
    assert ("b" ∈ present (events demo_events) ∧ "a" ∉ present (events demo_events)) as [Hb Ha].
    { apply (bool_decide_unpack (_ ∧ _)). vm_compute. exact I. }
    split.
    + generalize (H i c Hi "b"). destruct (mc_clusters (c_mc c) !! ("b" : ClusterName)); [intros _; by eexists|intros [Hx _]; destruct (Hx Hb)].
    + generalize (H i c Hi "a"). destruct (mc_clusters (c_mc c) !! ("a" : ClusterName)); [intros [Hx _]; destruct (Ha Hx)|reflexivity].
Defined.
