(* ===== verification/ShardedSystem.v ===== *)
(** * A running system: namespaces and the sharded coordinator

    The namespace provider ([NamespaceProvider]) engages the clusters it finds
    with the sharded coordinator ([Coordinator]), as the example
    sharded-namespace sets them up: both are the components' own definitions,
    over one state.  The coordinator keeps an engagement for each cluster until
    the context ends that the provider gave with it; here is what that makes of
    the two together, in any interleaving of namespace events, recomputations,
    renewals, releases, cleanups and calls of awares, whatever the Lease API
    answers.

    The awares are code that is handed contexts.  They may make contexts below
    them, as the controller's [Engage] does, and cancel what they have made, in
    this call or in a later one or in a goroutine of theirs; they have no other
    cancel functions.  The set [sh_made] holds what awares have made so far, and
    a step in which an aware would cancel anything else is not a step. *)

From S2P Require Import Prelude GoErrors GoContext GoNum Multicluster Sharder LeaseAPI LeaseGuard Peers Coordinator NamespaceClient NamespaceProvider.
#[local] Open Scope nat_scope.

(** ** What the coordinator leaves alone

    The coordinator cancels contexts of its own only: those it has made for
    clusters it runs and those of its renew loops.  [P] are the nodes of others,
    [made] those that awares have made. *)
Section quiet.
Context {A : Type} {LC : LeaseClient A} (c : Coordinator) (P : nat → Prop) (made : gset nat).
Implicit Types (s : cstate A).

Definition cancelled s : gset nat := cs_cancelled (w_ctxs (c_world s)).
Definition next s : nat := cs_next (w_ctxs (c_world s)).

(** A node that the coordinator or an aware may cancel. *)
Definition own s (n : nat) : Prop := n < next s ∧ ¬ P n.

(** What a call of an aware may do to the contexts: make some, and cancel some
    that awares have made. *)
Definition fresh_nodes s s' : gset nat := set_seq (next s) (next s' - next s).
Definition aware_ok s s' : Prop :=
  next s ≤ next s' ∧ cancelled s ⊆ cancelled s' ∧ cancelled s' ⊆ cancelled s ∪ made ∪ fresh_nodes s s'.
#[export] Instance aware_ok_dec s s' : Decision (aware_ok s s').
Proof. unfold aware_ok. apply _. Defined.

Record tame s : Prop := {
  tm_store : store_wf (w_ctxs (c_world s));
  tm_others n : P n → n < next s;
  tm_entries name e n : c_engaged s !! name = Some e → en_cancel e = Some n → own s n;
  tm_guards gid g n : c_guards s !! gid = Some g → g_cancel g = Some n → own s n;
  tm_made n : n ∈ made → own s n;
}.

(** What identifies an engagement. *)
Definition ident (e : engagement) : nat * cluster := (en_token e, en_cl e).

Record quiet s s' : Prop := {
  qt_tame : tame s';
  qt_next : next s ≤ next s';
  qt_more : cancelled s ⊆ cancelled s';
  qt_others n : P n → n ∈ cancelled s' → n ∈ cancelled s;
  qt_ident name : ident <$> c_engaged s' !! name = ident <$> c_engaged s !! name;
  qt_waits p k t : TCleanup p k t ∈ c_tasks s' ↔ TCleanup p k t ∈ c_tasks s;
  qt_fresh : c_fresh s' = c_fresh s;
}.

Lemma calm_refl s : tame s → quiet s s.
Proof. by split. Qed.

Lemma calm_trans s1 s2 s3 : quiet s1 s2 → quiet s2 s3 → quiet s1 s3.
Proof.
  intros [? N1 M1 O1 I1 W1 F1] [? N2 M2 O2 I2 W2 F2]. split; [done|lia|by etrans| | | |congruence].
  - intros n Hn Hc. by apply O1, O2.
  - intros name. by rewrite I2, I1.
  - intros p k t. by rewrite W2, W1.
Qed.

Lemma own_mono s s' n : next s ≤ next s' → own s n → own s' n.
Proof. intros Hle [? ?]. split; [lia|done]. Qed.

(** A computation from [s] that is quiet, and what holds of its result. *)
Definition quietly {B} (m : M (cstate A) B) s (Q : B → cstate A → Prop) : Prop :=
  tame s → quiet s (m s).2 ∧ Q (m s).1 (m s).2.

Lemma q_ret {B} (b : B) s (Q : B → cstate A → Prop) : Q b s → quietly (mret b) s Q.
Proof. intros HQ Ht. split; [by apply calm_refl|done]. Qed.

Lemma q_bind {B B'} (m : M (cstate A) B) (k : B → M (cstate A) B') s Q R :
  quietly m s Q → (∀ b s', quiet s s' → Q b s' → quietly (k b) s' R) → quietly (b ← m; k b) s R.
Proof.
  intros Hm Hk Ht. destruct (Hm Ht) as [Hq HQ]. unfold mbind, M_bind. destruct (m s) as [b s1]. simpl in *.
  destruct (Hk b s1 Hq HQ (qt_tame _ _ Hq)) as [Hq2 HR]. split; [by eapply calm_trans|done].
Qed.

Lemma q_weaken {B} (m : M (cstate A) B) s (Q Q' : B → cstate A → Prop) :
  quietly m s Q → (∀ b s', quiet s s' → Q b s' → Q' b s') → quietly m s Q'.
Proof. intros Hm Hi Ht. destruct (Hm Ht) as [Hq HQ]. split; [done|by apply Hi]. Qed.

Lemma q_tame {B} (m : M (cstate A) B) s Q : (tame s → quietly m s Q) → quietly m s Q.
Proof. intros H Ht. by apply H. Qed.

Lemma q_gets {B} (f : cstate A → B) s (Q : B → cstate A → Prop) : Q (f s) s → quietly (gets f) s Q.
Proof. intros HQ Ht. split; [by apply calm_refl|done]. Qed.

(** The world changes, and nothing that is not the coordinator's is cancelled. *)
Lemma q_world s w :
  tame s → store_wf (w_ctxs w) → next s ≤ cs_next (w_ctxs w) → cancelled s ⊆ cs_cancelled (w_ctxs w) →
  (∀ n, P n → n ∈ cs_cancelled (w_ctxs w) → n ∈ cancelled s) → quiet s (set_world w s).
Proof.
  intros [H1 H2 H3 H4 H5] Hst Hn Hm Ho. split; try done. split; simpl; try done.
  - intros n Hp. apply H2 in Hp. unfold next in *. simpl. lia.
  - intros name e n He Hc. eapply own_mono; [|by eapply H3]. done.
  - intros gid g n Hg Hc. eapply own_mono; [|by eapply H4]. done.
  - intros n Hin. eapply own_mono; [|by apply H5]. done.
Qed.

Lemma q_cancel n s : own s n → quietly (lift_world (w_cancel n)) s (λ _ s', n ∈ cancelled s' ∧ c_engaged s' = c_engaged s ∧ c_tasks s' = c_tasks s).
Proof.
  intros [Hn HP] Ht. split; [|by split_ands; [apply elem_of_union; left; apply elem_of_singleton|..]].
  apply q_world; [done| |done| |]; simpl.
  - apply cancel_store_wf; [done|by apply tm_store].
  - apply union_subseteq_r.
  - intros m Hm [->%elem_of_singleton|?]%elem_of_union; done.
Qed.

Lemma q_WithCancel parent s :
  quietly (lift_world (w_WithCancel parent)) s (λ r s', own s' r.2 ∧ c_engaged s' = c_engaged s).
Proof.
  intros Ht. pose proof Ht as [H1 H2 _ _ _]. split.
  - apply q_world; [done| |simpl; unfold next; lia|done|done]. intros n Hn%H1. simpl. lia.
  - simpl. split; [|done]. split; [unfold next; simpl; lia|]. intros Hp%H2. unfold next in Hp. lia.
Qed.

(** An entry is replaced by one of the same identity. *)
Lemma q_put name e s :
  ident <$> c_engaged s !! name = Some (ident e) → (∀ n, en_cancel e = Some n → own s n) →
  quietly (put_engm name e) s (λ _ s', c_engaged s' = <[name := e]> (c_engaged s) ∧ c_tasks s' = c_tasks s).
Proof.
  intros Hid Hc [H1 H2 H3 H4 H5]. split; [|done]. split; simpl; try done.
  - split; simpl; try done. intros nm e' n [[<- <-]|[_ He]]%lookup_insert_Some; [apply Hc|by eapply H3].
  - intros nm. destruct (decide (nm = name)) as [->|Hne]; [by rewrite lookup_insert_eq|by rewrite lookup_insert_ne].
Qed.

Lemma q_spawn t s (Q : () → cstate A → Prop) :
  (∀ p k n, t ≠ TCleanup p k n) → Q tt (set_tasks (c_tasks s ++ [t]) s) → quietly (spawn t) s Q.
Proof.
  intros Hne HQ [H1 H2 H3 H4 H5]. split; [|done]. split; simpl; try done.
  intros p k n. rewrite elem_of_app, list_elem_of_singleton. split; [intros [?|Heq]; [done|by destruct (Hne p k n)]|by left].
Qed.

(** A guard's operation is on contexts of its own. *)
Definition guard_op {B} (op : leaseGuard → M (env A) (B * leaseGuard)) : Prop :=
  ∀ g e, let '((_, g'), e') := op g e in
    cs_next (e_ctxs e) ≤ cs_next (e_ctxs e') ∧ cs_cancelled (e_ctxs e) ⊆ cs_cancelled (e_ctxs e') ∧
    (∀ n, n ∈ cs_cancelled (e_ctxs e') → n ∈ cs_cancelled (e_ctxs e) ∨ g_cancel g = Some n) ∧
    (∀ n, g_cancel g' = Some n → g_cancel g = Some n ∨ cs_next (e_ctxs e) ≤ n < cs_next (e_ctxs e')).

Lemma TryAcquire_op ctx : guard_op (TryAcquire (A:=A) ctx).
Proof.
  intros g e. destruct (g_held g) eqn:Hh; [unfold TryAcquire; rewrite Hh; run_m; by split_ands; auto|].
  destruct (done_ctx ctx (e_ctxs e)) eqn:Hd; [rewrite TryAcquire_done by done; by split_ands; auto|].
  rewrite TryAcquire_live by done. destruct (lease_Get (g_key g) (e_api e)) as [r a1]. cbv zeta.
  destruct (match r with Found _ => _ | NotFound => _ | GetError _ => _ end) as [m|]; [|by split_ands; auto].
  destruct (m _) as [[er|] a2]; simpl; [by split_ands; auto|]. split_ands; [lia|done|by left|]. intros n [= <-]. right. lia.
Qed.

Lemma renew_op_op ctx k : guard_op (renew_op (A:=A) ctx k).
Proof.
  intros g e. unfold renew_op. rewrite bind_eq. destruct (done_ctx ctx (e_ctxs e)) eqn:Hd; [rewrite renewOnce_done by done; run_m; by split_ands; auto|].
  rewrite renewOnce_live by done. destruct (lease_Get k (e_api e)) as [r a1].
  destruct (match r with Found _ => _ | NotFound => _ | GetError _ => _ end) as [l|]; [|run_m; by split_ands; auto].
  destruct (lease_Update l _) as [er a2]. run_m. by split_ands; auto.
Qed.

Lemma Release_op_op ctx : guard_op (Release_op (A:=A) ctx).
Proof.
  intros g e. unfold Release_op. rewrite bind_eq, Release_eq. unfold stop_loop. destruct (g_held g); [|run_m; by split_ands; auto].
  assert (let cs := match g_cancel g with Some n => cancel n (e_ctxs e) | None => e_ctxs e end in
    cs_next (e_ctxs e) ≤ cs_next cs ∧ cs_cancelled (e_ctxs e) ⊆ cs_cancelled cs ∧
    (∀ n, n ∈ cs_cancelled cs → n ∈ cs_cancelled (e_ctxs e) ∨ g_cancel g = Some n)) as Hs.
  { destruct (g_cancel g) as [m|]; simpl; split_ands; [lia|apply union_subseteq_r| |lia|done|by left].
    intros n [->%elem_of_singleton|?]%elem_of_union; [by right|by left]. }
  destruct Hs as (H1 & H2 & H3). simpl in *.
  destruct (done_ctx ctx _); simpl; [by split_ands; auto|].
  destruct (lease_Get _ (e_api e)) as [r a1]; simpl. by split_ands; auto.
Qed.

Lemma q_guard {B} gid (d : B) op s : guard_op op → quietly (on_guard gid d op) s (λ _ s', c_engaged s' = c_engaged s).
Proof.
  intros Hop Ht. pose proof Ht as [H1 H2 H3 H4 H5]. unfold on_guard. destruct (c_guards s !! gid) as [g|] eqn:Hg; [|split; [by apply calm_refl|done]].
  specialize (Hop g (Env (c_api s) (w_ctxs (c_world s)) (c_now s) [])). destruct (op g _) as [[b g'] e']. simpl in *.
  destruct Hop as (Hn & Hm & Ho & Hc). split; [|done]. split; simpl; try done.
  - split; simpl; try done.
    + intros n Hin. apply Ho in Hin as [Hin|Hin]; [apply H1 in Hin; lia|]. destruct (H4 gid g n Hg Hin) as [Hlt _]. unfold next in Hlt. lia.
    + intros n Hp%H2. unfold next in *. simpl. lia.
    + intros name e n He Hn'. eapply own_mono; [|by eapply H3]. done.
    + intros gid' g0 n Hl Hn'. destruct (decide (gid' = gid)) as [->|Hne].
      * rewrite list_lookup_insert_eq in Hl by (by eapply lookup_lt_Some). injection Hl as <-. apply Hc in Hn' as [Hn'|Hn'].
        -- eapply own_mono; [|by eapply H4]. done.
        -- split; [unfold next; simpl; lia|]. intros Hp%H2. unfold next in Hp. lia.
      * rewrite list_lookup_insert_ne in Hl by done. eapply own_mono; [|by eapply H4]. done.
    + intros n Hin. eapply own_mono; [|by apply H5]. done.
  - intros n Hp Hin. apply Ho in Hin as [?|Hin]; [done|]. by destruct (H4 gid g n Hg Hin).
  - intros p k t. rewrite elem_of_app. split; [|by left]. intros [?|Hin]; [done|]. apply list_elem_of_fmap in Hin as (? & ? & _). done.
Qed.

Lemma q_new_guard ns nm id d r ol s :
  quietly (new_guard (newLeaseGuard ns nm id d r ol)) s (λ _ s', c_engaged s' = c_engaged s).
Proof.
  intros [H1 H2 H3 H4 H5]. split; [|done]. split; simpl; try done. split; simpl; try done.
  intros gid g n [Hl|[_ Hl]]%lookup_app_Some Hn; [by eapply H4|].
  apply list_lookup_singleton_Some in Hl as [_ <-]. done.
Qed.

(** Nodes collected for cancelling stay the coordinator's. *)
Definition all_own s (l : list nat) : Prop := ∀ n, n ∈ l → own s n.

Lemma all_own_mono s s' l : quiet s s' → all_own s l → all_own s' l.
Proof. intros Hq Hl n Hn. eapply own_mono; [by apply (qt_next _ _ Hq)|by apply Hl]. Qed.

Lemma q_ensure_fence name e s :
  c_engaged s !! name = Some e →
  quietly (ensure_fence c name e) s (λ r s', ∃ e', r.2 = e' ∧ c_engaged s' !! name = Some e' ∧ ident e' = ident e ∧ en_cancel e' = en_cancel e).
Proof.
  intros He. unfold ensure_fence. destruct (en_fence e); [apply q_ret; by exists e|].
  eapply q_bind; [apply q_new_guard|]. intros gid s1 Hq1 Heq. eapply q_bind.
  - apply q_tame. intros Ht. apply (q_put name _ s1); [by rewrite Heq, He|]. simpl. intros n Hn. by eapply tm_entries; [|rewrite Heq; exact He|].
  - intros [] s2 Hq2 [He2 _]. apply q_ret. eexists. split; [reflexivity|]. rewrite He2, lookup_insert_eq. done.
Qed.

Lemma q_recompute_one parent peers now pl name s :
  all_own s (pl_stops pl) →
  quietly (recompute_one c parent peers now pl name) s (λ pl' s', all_own s' (pl_stops pl')).
Proof.
  intros Hpl. unfold recompute_one. eapply q_bind; [by apply (q_gets c_engaged s (λ b s', b = c_engaged s ∧ s' = s))|].
  intros ? ? _ [-> ->]. destruct (c_engaged s !! name) as [e|] eqn:He; [|by apply q_ret].
  destruct (co_sharder c _ peers _ && negb (en_started e)).
  - eapply q_bind; [by apply q_ensure_fence|]. intros [gid e1] s1 Hq1 (e' & Heq & He1 & Hid & Hc). simpl in Heq. subst e'.
    pose proof (all_own_mono _ _ _ Hq1 Hpl) as Hpl1. destruct (now <? en_nextTry e1)%Z; [by apply q_ret|].
    eapply q_bind; [apply q_guard, TryAcquire_op|]. intros ok s2 Hq2 He2. pose proof (all_own_mono _ _ _ Hq2 Hpl1) as Hpl2.
    rewrite <-He2 in He1. destruct ok; simpl.
    + eapply q_bind; [apply q_WithCancel|]. intros [ctx n] s3 Hq3 [Hn He3]. simpl in Hn. rewrite <-He3 in He1.
      eapply q_bind; [apply q_put; [by rewrite He1|by intros ? [= <-]]|]. intros [] s4 Hq4 _. apply q_ret. simpl.
      eapply all_own_mono; [exact Hq4|]. by eapply all_own_mono.
    + eapply q_bind; [apply q_tame; intros Ht; apply q_put; [by rewrite He1|intros n Hn; by eapply tm_entries]|]. intros [] s3 Hq3 _. apply q_ret.
      by eapply all_own_mono.
  - destruct (negb _ && en_started e); [|by apply q_ret].
    apply q_tame. intros Ht. assert (all_own s (match en_cancel e with Some n => pl_stops pl ++ [n] | None => pl_stops pl end)) as Hst.
    { destruct (en_cancel e) as [n|] eqn:Hc; [|done]. intros m [?| ->%list_elem_of_singleton]%elem_of_app; [by apply Hpl|by eapply tm_entries]. }
    eapply (q_bind _ _ s (λ _ s', c_engaged s' = c_engaged s)).
    + destruct (en_fence e); [by apply q_spawn|by apply q_ret].
    + intros [] s1 Hq1 He1. eapply q_bind; [apply q_put; [by rewrite He1, He|done]|]. intros [] s2 Hq2 _. apply q_ret. simpl.
      eapply all_own_mono; [exact Hq2|]. by eapply all_own_mono.
Qed.

Lemma q_recompute_loop parent peers now order pl s :
  all_own s (pl_stops pl) →
  quietly (recompute_loop c parent peers now order pl) s (λ pl' s', all_own s' (pl_stops pl')).
Proof.
  revert pl s. induction order as [|name order IH]; intros pl s Hpl; [by apply q_ret|].
  cbn [recompute_loop]. eapply q_bind; [by apply q_recompute_one|]. intros pl1 s1 _ Hpl1. by apply IH.
Qed.

Lemma q_for_each {X} (l : list X) (body : X → M (cstate A) unit) s (I : cstate A → Prop) :
  I s → (∀ s s', quiet s s' → I s → I s') → (∀ x s, x ∈ l → I s → quietly (body x) s (λ _ _, True)) →
  quietly (for_each l body) s (λ _ _, True).
Proof.
  intros HI Hmono. revert s HI. induction l as [|x l IH]; intros s HI Hb; [by apply q_ret|]. cbn [for_each].
  eapply q_bind; [apply Hb; [by left|done]|]. intros [] s1 Hq _. apply IH; [by eapply Hmono|]. intros y s2 Hy. apply Hb. by right.
Qed.

Lemma q_recompute order peers parent s : quietly (recompute c order peers parent) s (λ _ _, True).
Proof.
  unfold recompute. eapply q_bind; [by apply (q_gets c_now s (λ _ s', s' = s))|]. intros now ? _ ->.
  eapply q_bind; [apply q_recompute_loop; by intros n ?%elem_of_nil|]. intros pl s1 _ Hpl. eapply q_bind.
  - apply (q_for_each _ _ s1 (λ s, all_own s (pl_stops pl))); [done|intros ?? Hq Ha; by eapply all_own_mono|].
    intros n s2 Hn Ha. eapply q_weaken; [by apply q_cancel, Ha|done].
  - intros [] s2 _ _. apply (q_for_each _ _ s2 (λ _, True)); [done|done|]. intros st s3 _ _. by apply q_spawn.
Qed.

(** Stopping an entry: its context is cancelled, it stays. *)
Lemma q_stop name e n s :
  c_engaged s !! name = Some e → en_cancel e = Some n →
  quietly (_ ← lift_world (w_cancel n); put_engm name (MkEngagement (en_token e) (en_name e) (en_cl e) (en_ctx e)
            (en_cancel e) false (en_fence e) (en_nextTry e))) s (λ _ _, True).
Proof.
  intros He Hn. apply q_tame. intros Ht. pose proof (tm_entries _ Ht name e n He Hn) as Ho.
  eapply q_bind; [by apply q_cancel|]. intros [] s1 Hq1 (_ & He1 & _). eapply q_weaken; [apply q_put|done].
  - by rewrite He1, He.
  - simpl. rewrite Hn. intros ? [= <-]. eapply own_mono; [apply (qt_next _ _ Hq1)|done].
Qed.

Lemma q_onLost name s : quietly (onLost name) s (λ _ _, True).
Proof.
  unfold onLost. eapply q_bind; [by apply (q_gets c_engaged s (λ b s', b = c_engaged s ∧ s' = s))|].
  intros ? ? _ [-> ->]. destruct (c_engaged s !! name) as [e|] eqn:He; [|by apply q_ret].
  destruct (en_started e); [|by apply q_ret]. destruct (en_cancel e) as [n|] eqn:Hn; [|by apply q_ret].
  rewrite <-Hn. by apply q_stop.
Qed.

Lemma q_renew_tick ctx gid s : quietly (renew_tick ctx gid) s (λ _ _, True).
Proof.
  unfold renew_tick. eapply q_bind; [by apply (q_gets c_guards s (λ b s', b = c_guards s ∧ s' = s))|].
  intros ? ? _ [-> ->]. destruct (c_guards s !! gid) as [g|]; [|by apply q_ret].
  eapply q_bind; [apply q_guard, renew_op_op|]. intros ok s1 _ _. destruct ok; by apply q_spawn.
Qed.

Lemma q_renew_lost gid s : quietly (renew_lost gid) s (λ _ _, True).
Proof.
  unfold renew_lost. eapply q_bind; [by apply (q_gets c_guards s (λ b s', b = c_guards s ∧ s' = s))|].
  intros ? ? _ [-> ->]. destruct (c_guards s !! gid) as [g|]; [|by apply q_ret].
  eapply (q_bind _ _ s (λ _ _, True)); [destruct (g_onLost g); [apply q_onLost|by apply q_ret]|]. intros [] s2 _ _. by apply q_spawn.
Qed.

Lemma q_start_failed name s : quietly (start_failed name) s (λ _ _, True).
Proof.
  unfold start_failed. eapply q_bind; [by apply (q_gets c_engaged s (λ b s', b = c_engaged s ∧ s' = s))|].
  intros ? ? _ [-> ->]. destruct (c_engaged s !! name) as [e|] eqn:He; [|by apply q_ret].
  destruct (en_cancel e) as [n|] eqn:Hn; [|by apply q_ret]. rewrite <-Hn. by apply q_stop.
Qed.

(** An aware is called, and does what it may. *)
Lemma fresh_elem s s' n : n ∈ fresh_nodes s s' ↔ next s ≤ n < next s'.
Proof. unfold fresh_nodes. rewrite elem_of_set_seq. lia. Qed.

Lemma start_iter_world ctx name cl todo s :
  ∃ w ts, (start_iter ctx name cl todo s).2 = set_tasks (c_tasks s ++ ts) (set_world w s) ∧ ∀ p k n, TCleanup p k n ∉ ts.
Proof.
  destruct todo as [|a todo].
  { exists (c_world s), []. split; [simpl; rewrite app_nil_r; by destruct s|]. by intros * ?%elem_of_nil. }
  unfold start_iter, engage_aware, lift_world. rewrite bind_eq. destruct (a ctx name cl (c_world s)) as [[er|] w]; simpl.
  - exists w, [TStartFailed name]. split; [done|]. by intros * ?%list_elem_of_singleton.
  - exists w, [TEngage ctx name cl todo]. split; [done|]. by intros * ?%list_elem_of_singleton.
Qed.

Lemma q_start_iter ctx name cl todo s :
  tame s → aware_ok s (start_iter ctx name cl todo s).2 → quiet s (start_iter ctx name cl todo s).2.
Proof.
  intros Ht. destruct (start_iter_world ctx name cl todo s) as (w & ts & -> & Hts). intros (Hn & Hm & Ho).
  unfold fresh_nodes, next, cancelled in *. simpl in *. pose proof Ht as [H1 H2 H3 H4 H5].
  assert (∀ n, n ∈ cs_cancelled (w_ctxs w) → n ∈ cs_cancelled (w_ctxs (c_world s)) ∨ (n < cs_next (w_ctxs w) ∧ ¬ P n)) as Hc.
  { intros n Hin. apply Ho in Hin. rewrite !elem_of_union, elem_of_set_seq in Hin. destruct Hin as [[?|Hin]|Hin]; [by left|right..].
    - destruct (H5 n Hin) as [? ?]. unfold next in *. split; [lia|done].
    - split; [lia|]. intros Hp%H2. unfold next in Hp. lia. }
  assert (quiet s (set_world w s)) as Hq.
  { apply q_world; try done.
    - intros n Hin. destruct (Hc n Hin) as [Hx|[Hx _]]; [apply H1 in Hx; lia|done].
    - intros n Hp Hin. by destruct (Hc n Hin) as [?|[_ ?]]. }
  destruct Hq as [[T1 T2 T3 T4 T5] Q2 Q3 Q4 Q5 Q6 Q7]. split; try done. intros p k t. simpl. rewrite elem_of_app.
  split; [|by left]. intros [?|Hin]; [done|]. by apply Hts in Hin.
Qed.

End quiet.

(** What the call has made is the awares' from then on. *)
Lemma tame_made {A} P made (s s' : cstate A) :
  (∀ n, P n → n < next s) → tame P made s' → tame P (made ∪ fresh_nodes s s') s'.
Proof.
  intros HP [H1 H2 H3 H4 H5]. split; try done. intros n [?|Hf%fresh_elem]%elem_of_union; [by apply H5|].
  split; [lia|]. intros Hp%HP. lia.
Qed.

(** ** The system *)

Section system.
Context {A : Type} {LC : LeaseClient A} (c : Coordinator).

(** The provider runs in the state of the coordinator, which is its aware. *)
#[export] Instance sharded_surroundings : Surroundings (cstate A) := {|
  in_world B m := lift_world m;
  aware_Engage _ := Engage;
|}.

Context (root : context).

(** An event of the informer of namespaces; a move of the coordinator, its
    goroutines and those of awares, the clock or other clients of the Lease API;
    the end of a context that the provider's descends from. *)
Inductive sh_label : Type :=
| SEvent (e : ns_event)
| STick (d : Z)
| SApi (a : A)
| SRunnable (ctx : context)
| SRun (i : nat) (order : list ClusterName) (peers : list PeerInfo)
| SEnd (i : nat)
| SPeersEnd (i : nat)
| SMake (parent : context)     (** an aware makes a context outside of [Engage] *)
| SUnmake (n : cancel_func)    (** ... and cancels one that awares have made *)
| SStop (n : cancel_func).

(** [sh_made] are the nodes that awares have made. *)
Record sh_state := ShState {
  sh_sys : nstate (cstate A);
  sh_made : gset nat;
}.

Definition coord_step (l : clabel A) (s : nstate (cstate A)) : option (nstate (cstate A)) :=
  w ← cexec c l (n_w s); Some (n_lift (λ _, (tt, w)) s).2.

Definition sys_exec (l : sh_label) (made : gset nat) (s : nstate (cstate A)) : option (nstate (cstate A)) :=
  match l with
  | SEvent e => match ns_handle root e s with (Returns _, s') => Some s' | (Panics _, _) => None end
  | STick d => coord_step (CTick d) s
  | SApi a => coord_step (CApi a) s
  | SRunnable ctx => coord_step (CRunnable ctx) s
  | SRun i order peers => coord_step (CRun i order peers) s
  | SEnd i => coord_step (CStop i) s
  | SPeersEnd i => coord_step (CPeersEnd i) s
  | SMake parent => coord_step (CNewCtx parent) s
  | SUnmake n => if bool_decide (n ∈ made) then coord_step (CCancelCtx n) s else None
  | SStop n => if bool_decide (n ∈ ctx_nodes root) then coord_step (CCancelCtx n) s else None
  end.

(** Is the step a move of an aware? *)
Definition aware_moves (l : sh_label) (w : cstate A) : bool :=
  match l with
  | SRun i _ _ => match c_tasks w !! i with Some (TEngage _ _ _ _) => true | _ => false end
  | SMake _ => true
  | _ => false
  end.

Definition sh_exec (l : sh_label) (x : sh_state) : option sh_state :=
  s ← sys_exec l (sh_made x) (sh_sys x);
  let w := n_w (sh_sys x) in
  if aware_moves l w then
    if bool_decide (aware_ok (sh_made x) w (n_w s)) then Some (ShState s (sh_made x ∪ fresh_nodes w (n_w s))) else None
  else Some (ShState s (sh_made x)).

(** The provider has been started with a new coordinator, to which awares may
    have been added. *)
Definition sh_init (x : sh_state) : Prop :=
  let s := sh_sys x in
  is_Some (n_mcAware s) ∧ n_clusters s = ∅ ∧ n_cancelFns s = ∅ ∧ cinit (n_w s) ∧ sh_made x = ∅ ∧
  store_wf (w_ctxs (c_world (n_w s))) ∧ ctx_wf root (w_ctxs (c_world (n_w s))).

Definition live (w : cstate A) : bool := negb (done_ctx root (w_ctxs (c_world w))).

(** The nodes that are not the coordinator's. *)
Definition others (cns : gmap ClusterName cancel_func) (n : nat) : Prop := n ∈ ctx_nodes root ∨ ∃ name, cns !! name = Some n.

Section contexts.
(** What awares have made. *)
Context (made : gset nat).

Record sh_maps (cls : gmap ClusterName cluster) (cns : gmap ClusterName cancel_func) (w : cstate A) : Prop := {
  sm_dom name : is_Some (cls !! name) ↔ is_Some (cns !! name);
  sm_tame : tame (others cns) made w;
  sm_cancel name k : cns !! name = Some k →
    k ∉ cancelled w ∧ k ∉ ctx_nodes root ∧ ∀ name', cns !! name' = Some k → name' = name;
  sm_token p key t : TCleanup p key t ∈ c_tasks w → t < c_fresh w;
  sm_unique p p' key key' t : TCleanup p key t ∈ c_tasks w → TCleanup p' key' t ∈ c_tasks w → p = p' ∧ key = key';
  sm_entry name t cl : ident <$> c_engaged w !! name = Some (t, cl) →
    ∃ pctx, TCleanup pctx name t ∈ c_tasks w ∧
      (done_ctx pctx (w_ctxs (c_world w)) = true ∨ ∃ k, cls !! name = Some cl ∧ cns !! name = Some k ∧ ctx_nodes pctx = k :: ctx_nodes root);
  sm_known name cl k : live w = true → cls !! name = Some cl → cns !! name = Some k →
    ∃ t pctx, ident <$> c_engaged w !! name = Some (t, cl) ∧ TCleanup pctx name t ∈ c_tasks w ∧ ctx_nodes pctx = k :: ctx_nodes root;
}.

Definition sys_inv (s : nstate (cstate A)) : Prop :=
  is_Some (n_mcAware s) ∧ sh_maps (n_clusters s) (n_cancelFns s) (n_w s).

Lemma live_others cns w w' : quiet (others cns) made w w' → live w' = live w.
Proof.
  intros Hq. unfold live. f_equal. apply eq_true_iff_eq. rewrite !done_ctx_true.
  split; intros (n & Hn & Hc); exists n; (split; [done|]); [eapply (qt_others _ _ _ _ Hq); [by left|done]|by apply (qt_more _ _ _ _ Hq)].
Qed.

Lemma done_more ctx (w w' : cstate A) :
  cancelled w ⊆ cancelled w' → done_ctx ctx (w_ctxs (c_world w)) = true → done_ctx ctx (w_ctxs (c_world w')) = true.
Proof. rewrite !done_ctx_true. intros Hs (n & Hn & Hc). exists n. split; [done|by apply Hs]. Qed.

Lemma maps_quiet cls cns w w' : sh_maps cls cns w → quiet (others cns) made w w' → sh_maps cls cns w'.
Proof.
  intros [H1 H2 H3 H4 H5 H6 H7] Hq. pose proof (live_others cns w w' Hq) as Hl. destruct Hq as [Q1 Q2 Q3 Q4 Q5 Q6 Q7]. split; try done.
  - intros name k Hk. destruct (H3 name k Hk) as (Hc & ? & ?). split_ands; [|done|done]. intros Hx. apply Hc, Q4; [right; by exists name|done].
  - intros p key t Ht%Q6. rewrite Q7. by eapply H4.
  - intros p p' key key' t Ht%Q6 Ht'%Q6. by eapply H5.
  - intros name t cl. rewrite Q5. intros Hi. destruct (H6 name t cl Hi) as (pctx & Hp & Hd). exists pctx. rewrite Q6. split; [done|].
    destruct Hd as [Hd|?]; [left; by eapply done_more|by right].
  - intros name cl k. rewrite Hl. intros Hlv Hcl Hk. destruct (H7 name cl k Hlv Hcl Hk) as (t & pctx & Hi & Hp & Hn).
    exists t, pctx. by rewrite Q5, Q6.
Qed.

Lemma cancelled_more X (w w' : cstate A) : cs_cancelled (w_ctxs (c_world w')) = X ∪ cancelled w → cancelled w ⊆ cancelled w'.
Proof. unfold cancelled at 3. intros ->. apply union_subseteq_r. Qed.

Lemma cancelled_cancel m n (w : cstate A) : m ∈ cancelled (lift_world (w_cancel n) w).2 ↔ m = n ∨ m ∈ cancelled w.
Proof. unfold cancelled. simpl. by rewrite elem_of_union, elem_of_singleton. Qed.

(** A node that is the provider's, or above it, is cancelled. *)
Lemma maps_cancel cls cns w n :
  sh_maps cls cns w → n ∈ ctx_nodes root → sh_maps cls cns (lift_world (w_cancel n) w).2.
Proof.
  intros [H1 [T1 T2 T3 T4 T5] H3 H4 H5 H6 H7] Hn. split; try done.
  - split; try done. apply cancel_store_wf; [apply T2; by left|done].
  - intros name k Hk. destruct (H3 name k Hk) as (Hc & ? & ?). split_ands; [|done|done].
    by intros [->|?]%cancelled_cancel.
  - intros name t cl Hi. destruct (H6 name t cl Hi) as (pctx & Hp & [Hd|Hk]); exists pctx; (split; [done|]); [left|by right].
    by apply cancel_mono.
  - intros name cl k Hl. unfold live in Hl. simpl in Hl. by rewrite cancel_done in Hl.
Qed.

(** A namespace goes: its context is cancelled, the maps forget it. *)
Lemma maps_delete cls cns w name k :
  sh_maps cls cns w → cns !! name = Some k →
  sh_maps (delete name cls) (delete name cns) (lift_world (w_cancel k) w).2.
Proof.
  intros [H1 [T1 T2 T3 T4 T5] H3 H4 H5 H6 H7] Hk. destruct (H3 name k Hk) as (Hkc & Hkr & Hku).
  assert (∀ n, others (delete name cns) n → others cns n) as Hsub.
  { intros n [?|(nm & [_ ?]%lookup_delete_Some)]; [by left|right; by exists nm]. }
  split; simpl; try done.
  - intros nm. by rewrite !lookup_delete_is_Some, H1.
  - split; simpl; try done.
    + apply cancel_store_wf; [apply T2; right; by exists name|done].
    + intros n Hn%Hsub. by apply T2.
    + intros nm e n He Hn. destruct (T3 nm e n He Hn) as [? Hp]. split; [done|]. intros Hx. by apply Hp, Hsub.
    + intros gid g n Hg Hn. destruct (T4 gid g n Hg Hn) as [? Hp]. split; [done|]. intros Hx. by apply Hp, Hsub.
    + intros n Hn. destruct (T5 n Hn) as [? Hp]. split; [done|]. intros Hx. by apply Hp, Hsub.
  - intros nm k' [Hne Hk']%lookup_delete_Some. destruct (H3 nm k' Hk') as (Hc & Hr & Hu). split_ands; [|done|].
    + intros [->|?]%cancelled_cancel; [|done]. by destruct (Hku nm Hk').
    + intros nm' [_ ?]%lookup_delete_Some. by apply Hu.
  - intros nm t cl Hi. destruct (H6 nm t cl Hi) as (pctx & Hp & Hd). exists pctx. split; [done|].
    destruct Hd as [Hd|(k' & Hcl & Hk' & Hn)]; [left; by apply cancel_mono|].
    destruct (decide (nm = name)) as [->|Hne].
    + left. apply cancel_done. rewrite Hn. pose proof (eq_trans (eq_sym Hk) Hk') as [= <-]. by left.
    + right. exists k'. by rewrite !lookup_delete_ne.
  - intros nm cl k' Hl [Hne Hcl]%lookup_delete_Some [_ Hk']%lookup_delete_Some. apply H7; [|done|done].
    unfold live in *. simpl in Hl. by rewrite cancel_other in Hl.
Qed.

(** What [Engage] leaves behind on a context that is live. *)
Definition engaged_anew (parent : context) (name : ClusterName) (cl : cluster) (w : cstate A) : cstate A :=
  let cur := c_engaged w !! name in
  CState (c_api w) (match cur ≫= en_cancel with Some n => (w_cancel n (c_world w)).2 | None => c_world w end) (c_now w)
    (<[name := MkEngagement (c_fresh w) name cl None None false (cur ≫= en_fence) zero_time]> (c_engaged w))
    (c_awares w) (c_guards w) (S (c_fresh w)) ((c_tasks w ++ [TCleanup parent name (c_fresh w)]) ++ [TRecompute parent]).

Lemma Engage_anew parent name cl (w : cstate A) :
  done_ctx parent (w_ctxs (c_world w)) = false → Engage parent name cl w = (None, engaged_anew parent name cl w).
Proof.
  intros Hd. unfold Engage. rewrite bind_eq. unfold gets at 1, w_Err, ctx_Err. rewrite Hd. rewrite bind_eq. unfold gets at 1.
  unfold engaged_anew. destruct (c_engaged w !! name) as [cur|]; cbn [option_bind mbind].
  - unfold cancel_opt, new_engagement, put_engm, spawn, lift_world. destruct (en_cancel cur); run_m; done.
  - unfold new_engagement, put_engm, spawn. run_m. done.
Qed.

(** A namespace comes: a context of its own, and the maps know it.  [w'] is
    what engaging it leaves behind, [X] the contexts that were cancelled. *)
Section store.
Context (cls : gmap ClusterName cluster) (cns : gmap ClusterName cancel_func) (w : cstate A) (name : ClusterName) (cl : cluster).
Local Notation k := (next w).
Local Notation parent := (Ctx (next w :: ctx_nodes root) (ctx_values root)).
Hypothesis (HM : sh_maps cls cns w).

Lemma store_fresh n : others cns n → n < k.
Proof. apply (tm_others _ _ _ (sm_tame _ _ _ HM)). Qed.

Lemma cancelled_fresh n : n ∈ cancelled w → n < k.
Proof. apply (tm_store _ _ _ (sm_tame _ _ _ HM)). Qed.

Lemma others_insert n : others (<[name := k]> cns) n → n = k ∨ others cns n.
Proof. intros [?|(nm & [[_ <-]|[_ ?]]%lookup_insert_Some)]; [right; by left|by left|right; right; by exists nm]. Qed.

Context (w' : cstate A) (e0 : engagement) (X : gset nat).
Hypothesis (He : c_engaged w' = <[name := e0]> (c_engaged w)) (Hid : ident e0 = (c_fresh w, cl)) (Hc0 : en_cancel e0 = None).
Hypothesis (Hg : c_guards w' = c_guards w) (Hf : c_fresh w' = S (c_fresh w)).
Hypothesis (Ht : ∀ t, t ∈ c_tasks w' ↔ t ∈ c_tasks w ∨ t = TCleanup parent name (c_fresh w) ∨ t = TRecompute parent).
Hypothesis (Hcx : w_ctxs (c_world w') = CtxStore (S k) (X ∪ cancelled w)) (HX : ∀ n, n ∈ X → own (others cns) w n).

Lemma store_cancelled n : n ∈ cancelled w' ↔ n ∈ X ∨ n ∈ cancelled w.
Proof. unfold cancelled at 1. rewrite Hcx. apply elem_of_union. Qed.

Lemma store_own n : own (others cns) w n → own (others (<[name := k]> cns)) w' n.
Proof.
  intros [Hlt Hp]. split; [unfold next; rewrite Hcx; simpl; lia|].
  intros [->|?]%others_insert; [lia|done].
Qed.

Lemma store_tame : tame (others (<[name := k]> cns)) made w'.
Proof.
  destruct (sm_tame _ _ _ HM) as [T1 T2 T3 T4 T5]. split.
  - rewrite Hcx. intros n. simpl. intros [Hx|Hc%cancelled_fresh]%elem_of_union; [destruct (HX n Hx)|]; lia.
  - intros n. unfold next at 2. rewrite Hcx. intros [->|Hp%store_fresh]%others_insert; simpl; lia.
  - intros nm e n. rewrite He. intros [[<- <-]|[_ Hl]]%lookup_insert_Some; [by rewrite Hc0|]. intros Hx. apply store_own. by eapply T3.
  - intros gid g n. rewrite Hg. intros Hl Hx. apply store_own. by eapply T4.
  - intros n Hn. by apply store_own, T5.
Qed.

Lemma store_cancel nm k' :
  <[name := k]> cns !! nm = Some k' →
  k' ∉ cancelled w' ∧ k' ∉ ctx_nodes root ∧ ∀ nm', <[name := k]> cns !! nm' = Some k' → nm' = nm.
Proof.
  assert (∀ nm', cns !! nm' = Some k → False) as Hnk by (intros nm' Hk'; pose proof (store_fresh k (or_intror (ex_intro _ nm' Hk'))); lia).
  intros [[<- <-]|[Hne Hk']]%lookup_insert_Some.
  - split_ands.
    + intros [Hx|Hc%cancelled_fresh]%store_cancelled; [destruct (HX _ Hx)|]; lia.
    + intros Hr. pose proof (store_fresh k (or_introl Hr)). lia.
    + intros nm' [[<- _]|[_ []%Hnk]]%lookup_insert_Some. done.
  - destruct (sm_cancel _ _ _ HM nm k' Hk') as (Hc & Hr & Hu). split_ands; [|done|].
    + intros [Hx|?]%store_cancelled; [|done]. destruct (HX _ Hx) as [_ Hp]. apply Hp. right. by exists nm.
    + intros nm' [[<- <-]|[_ Hk2]]%lookup_insert_Some; [by apply Hnk in Hk'|by apply Hu].
Qed.

Lemma store_unique p p' key key' t :
  TCleanup p key t ∈ c_tasks w' → TCleanup p' key' t ∈ c_tasks w' → p = p' ∧ key = key'.
Proof.
  rewrite !Ht. intros [Hi|[E|?]] [Hi'|[E'|?]]; try done.
  - by eapply (sm_unique _ _ _ HM).
  - injection E' as -> -> ->. apply (sm_token _ _ _ HM) in Hi. lia.
  - injection E as -> -> ->. apply (sm_token _ _ _ HM) in Hi'. lia.
  - injection E as -> -> ->. by injection E' as -> ->.
Qed.

Lemma store_entry nm t cl' :
  ident <$> c_engaged w' !! nm = Some (t, cl') →
  ∃ pctx, TCleanup pctx nm t ∈ c_tasks w' ∧
    (done_ctx pctx (w_ctxs (c_world w')) = true ∨
     ∃ k', <[name := cl]> cls !! nm = Some cl' ∧ <[name := k]> cns !! nm = Some k' ∧ ctx_nodes pctx = k' :: ctx_nodes root).
Proof.
  intros Hi. rewrite He in Hi. destruct (decide (nm = name)) as [->|Hne].
  - rewrite lookup_insert_eq in Hi. simpl in Hi. rewrite Hid in Hi. injection Hi as <- <-.
    exists parent. rewrite Ht. split; [by right; left|]. right. exists k. by rewrite !lookup_insert_eq.
  - rewrite lookup_insert_ne in Hi by done. destruct (sm_entry _ _ _ HM nm t cl' Hi) as (pctx & Hp & Hd). exists pctx. rewrite Ht. split; [by left|].
    destruct Hd as [Hd|(k' & ? & ? & ?)]; [left|right; exists k'; by rewrite !lookup_insert_ne].
    eapply done_more; [|exact Hd]. intros n Hc. apply store_cancelled. by right.
Qed.

Lemma store_known nm cl' k' :
  live w = true → <[name := cl]> cls !! nm = Some cl' → <[name := k]> cns !! nm = Some k' →
  ∃ t pctx, ident <$> c_engaged w' !! nm = Some (t, cl') ∧ TCleanup pctx nm t ∈ c_tasks w' ∧ ctx_nodes pctx = k' :: ctx_nodes root.
Proof.
  intros Hl [[<- <-]|[Hne Hcl]]%lookup_insert_Some Hk'.
  - rewrite lookup_insert_eq in Hk'. injection Hk' as <-. exists (c_fresh w), parent. rewrite He, lookup_insert_eq, Ht. simpl. rewrite Hid.
    split_ands; [done|by right; left|done].
  - rewrite lookup_insert_ne in Hk' by done. destruct (sm_known _ _ _ HM nm cl' k' Hl Hcl Hk') as (t & pctx & Hi & Hp & Hnd).
    exists t, pctx. rewrite He, lookup_insert_ne, Ht by done. split_ands; [done|by left|done].
Qed.

Lemma maps_stored : live w = true → sh_maps (<[name := cl]> cls) (<[name := k]> cns) w'.
Proof.
  intros Hl. split.
  - intros nm. by rewrite !lookup_insert_is_Some, (sm_dom _ _ _ HM).
  - exact store_tame.
  - exact store_cancel.
  - intros p key t. rewrite Hf, Ht. intros [Hi|[[= -> -> ->]|?]]; [apply (sm_token _ _ _ HM) in Hi; lia|lia|done].
  - exact store_unique.
  - exact store_entry.
  - intros nm cl' k' _. by apply store_known.
Qed.
End store.

Lemma maps_store cls cns w name cl :
  sh_maps cls cns w → live w = true →
  let k := next w in let w1 := (lift_world (w_WithCancel root) w).2 in
  let w' := (Engage (Ctx (k :: ctx_nodes root) (ctx_values root)) name cl w1).2 in
  (Engage (Ctx (k :: ctx_nodes root) (ctx_values root)) name cl w1).1 = None ∧
  sh_maps (<[name := cl]> cls) (<[name := k]> cns) w' ∧ cancelled w ⊆ cancelled w'.
Proof.
  intros HM Hlv k w1. set (parent := Ctx _ _).
  assert (done_ctx parent (w_ctxs (c_world w1)) = false) as Hpl.
  { apply done_ctx_false. simpl. intros n [->|Hr]%elem_of_cons Hc; [apply (cancelled_fresh cls cns w HM) in Hc; unfold k in Hc; lia|].
    unfold live in Hlv. apply negb_true_iff in Hlv. by apply (proj1 (done_ctx_false _ _) Hlv n). }
  rewrite Engage_anew by exact Hpl. split; [done|]. unfold engaged_anew. cbn [snd].
  change (c_engaged w1) with (c_engaged w). change (c_fresh w1) with (c_fresh w).
  destruct (c_engaged w !! name ≫= en_cancel) as [n|] eqn:Hcur.
  - split; [|by apply (cancelled_more {[n]})]. eapply (maps_stored cls cns w name cl HM _ _ {[n]}); try reflexivity; simpl; try done.
    + intros t; rewrite !elem_of_app, !list_elem_of_singleton; clear; tauto.
    + intros m ->%elem_of_singleton. apply bind_Some in Hcur as (cur & Hcur & Hc). by eapply (tm_entries _ _ _ (sm_tame _ _ _ HM)).
  - split; [|done]. eapply (maps_stored cls cns w name cl HM _ _ ∅); try reflexivity; simpl; try done.
    + intros t; rewrite !elem_of_app, !list_elem_of_singleton; clear; tauto.
    + by rewrite union_empty_l_L.
Qed.

(** A goroutine cleans up: an entry goes whose context is done. *)
Lemma cleanup_entry key t (w : cstate A) :
  let w' := (cleanup key t w).2 in
  (w' = w ∧ (∀ e, c_engaged w !! key = Some e → en_token e ≠ t)) ∨
  ∃ e ts X, c_engaged w !! key = Some e ∧ en_token e = t ∧ c_engaged w' = delete key (c_engaged w) ∧
    c_guards w' = c_guards w ∧ c_fresh w' = c_fresh w ∧ c_tasks w' = c_tasks w ++ ts ∧
    (∀ x, x ∈ ts → ∃ gid, x = TRelease Background gid) ∧ w_ctxs (c_world w') = CtxStore (next w) (X ∪ cancelled w) ∧
    (∀ n, n ∈ X → en_cancel e = Some n) ∧ (∀ n, en_started e = true → en_cancel e = Some n → n ∈ X).
Proof.
  intros w'. subst w'. unfold cleanup. rewrite bind_eq. unfold gets. destruct (c_engaged w !! key) as [e|] eqn:He; [|left; split; done].
  case_bool_decide as Ht; [|left; split; [done|by intros ? [= <-]]]. right. exists e.
  exists (match en_fence e with Some gid => [TRelease Background gid] | None => [] end).
  exists (if en_started e then match en_cancel e with Some n => {[n]} | None => ∅ end else ∅).
  unfold cancel_opt, lift_world, w_cancel, spawn.
  destruct (en_started e), (en_cancel e) as [n|], (en_fence e) as [gid|]; run_m; simpl; rewrite ?app_nil_r, ?union_empty_l_L;
    (split_ands; [done|done|done|done|done|done| |by destruct w as [? [[] ?]]| |]); try (by intros ? ?%elem_of_nil); try (by intros ? ?%elem_of_empty);
    try (by intros ? ?%list_elem_of_singleton; eexists); try (by intros ? ->%elem_of_singleton);
    try done; try (by intros ? _ [= <-]; apply elem_of_singleton).
Qed.

(** A cleanup whose context is done: task [i] of [w], for the engagement [t]. *)
Section clean.
Context (cls : gmap ClusterName cluster) (cns : gmap ClusterName cancel_func) (w : cstate A).
Context (i : nat) (pctx : context) (key : ClusterName) (t : nat).
Hypothesis (HM : sh_maps cls cns w) (Hi : c_tasks w !! i = Some (TCleanup pctx key t)).
Local Notation w0 := (set_tasks (delete i (c_tasks w)) w).

Lemma clean_sub x : x ∈ c_tasks w0 → x ∈ c_tasks w.
Proof. apply elem_of_delete_sub. Qed.

(** Another engagement's cleanup stays. *)
Lemma clean_keep p nm t' : TCleanup p nm t' ∈ c_tasks w → t' ≠ t → TCleanup p nm t' ∈ c_tasks w0.
Proof. intros Hp Hne. eapply elem_of_delete; [exact Hi|done|congruence]. Qed.

Lemma clean_only p nm : TCleanup p nm t ∈ c_tasks w → p = pctx ∧ nm = key.
Proof. intros Hp. by apply (sm_unique _ _ _ HM _ _ _ _ _ Hp), (list_elem_of_lookup_2 _ i). Qed.

(** The entry is somebody else's. *)
Lemma maps_cleanup_stale : (∀ e, c_engaged w !! key = Some e → en_token e ≠ t) → sh_maps cls cns w0.
Proof.
  intros Hno.
  assert (∀ nm t' cl, ident <$> c_engaged w !! nm = Some (t', cl) → ∀ p, TCleanup p nm t' ∈ c_tasks w → TCleanup p nm t' ∈ c_tasks w0) as Hstill.
  { intros nm t' cl Hid p Hp. apply clean_keep; [done|]. intros ->. destruct (clean_only _ _ Hp) as [_ ->].
    destruct (c_engaged w !! key) as [e|] eqn:He; [|done]. simpl in Hid. injection Hid as Hid _. by apply (Hno e). }
  destruct HM as [H1 [T1 T2 T3 T4 T5] H3 H4 H5 H6 H7]. split; try done.
  - intros p nm t' Hp%clean_sub. by eapply H4.
  - intros p p' nm nm' t' Hp%clean_sub Hp'%clean_sub. by eapply H5.
  - intros name t' cl Hid. destruct (H6 name t' cl Hid) as (p & Hp & Hx). exists p. split; [by eapply Hstill|done].
  - intros name cl k Hl Hcl Hk. destruct (H7 name cl k Hl Hcl Hk) as (t' & p & Hid & Hp & Hn). exists t', p. split_ands; [done|by eapply Hstill|done].
Qed.

(** The entry is removed: [X] are the contexts cancelled, [ts] the releases begun. *)
Context (w' : cstate A) (e : engagement) (ts : list (Coordinator.task)) (X : gset nat).
Hypothesis (He : c_engaged w !! key = Some e) (Het : en_token e = t) (Heng : c_engaged w' = delete key (c_engaged w)).
Hypothesis (Hg : c_guards w' = c_guards w) (Hf : c_fresh w' = c_fresh w).
Hypothesis (Hts : c_tasks w' = c_tasks w0 ++ ts) (Hrel : ∀ x, x ∈ ts → ∃ gid, x = TRelease Background gid).
Hypothesis (Hcx : w_ctxs (c_world w') = CtxStore (next w) (X ∪ cancelled w)) (HX : ∀ n, n ∈ X → en_cancel e = Some n).

Lemma clean_own n : n ∈ X → own (others cns) w n.
Proof. intros Hn%HX. by eapply (tm_entries _ _ _ (sm_tame _ _ _ HM)). Qed.

Lemma clean_cancelled n : n ∈ cancelled w' ↔ n ∈ X ∨ n ∈ cancelled w.
Proof. unfold cancelled at 1. rewrite Hcx. apply elem_of_union. Qed.

Lemma clean_others n : others cns n → n ∈ cancelled w' → n ∈ cancelled w.
Proof. intros Hp [Hx%clean_own|?]%clean_cancelled; [by destruct Hx|done]. Qed.

Lemma clean_waits p nm t' : TCleanup p nm t' ∈ c_tasks w' ↔ TCleanup p nm t' ∈ c_tasks w0.
Proof. rewrite Hts, elem_of_app. split; [|by left]. by intros [?|[gid ?]%Hrel]. Qed.

Lemma clean_still nm t' p : nm ≠ key → TCleanup p nm t' ∈ c_tasks w → TCleanup p nm t' ∈ c_tasks w'.
Proof. intros Hne Hp. apply clean_waits, clean_keep; [done|]. intros ->. by destruct (clean_only _ _ Hp). Qed.

Lemma clean_live : live w' = live w.
Proof.
  unfold live. f_equal. apply eq_true_iff_eq. rewrite !done_ctx_true. split; intros (n & Hn & Hc); exists n; (split; [done|]).
  - apply clean_others; [by left|done].
  - apply clean_cancelled. by right.
Qed.

Lemma clean_tame : tame (others cns) made w'.
Proof.
  destruct (sm_tame _ _ _ HM) as [T1 T2 T3 T4 T5].
  assert (next w' = next w) as Hnx by (unfold next at 1; by rewrite Hcx).
  assert (∀ n, own (others cns) w n → own (others cns) w' n) as Hown by (intros n [? ?]; split; [by rewrite Hnx|done]).
  split.
  - rewrite Hcx. intros n [Hx|Hc]%elem_of_union; simpl; [by apply clean_own|by apply T1].
  - intros n Hp. rewrite Hnx. by apply T2.
  - intros name e' n. rewrite Heng. intros [_ Hl]%lookup_delete_Some Hn. apply Hown. by eapply T3.
  - intros gid g n. rewrite Hg. intros Hl Hn. apply Hown. by eapply T4.
  - intros n Hn. by apply Hown, T5.
Qed.

Lemma clean_entry nm t' cl :
  ident <$> c_engaged w' !! nm = Some (t', cl) →
  ∃ p, TCleanup p nm t' ∈ c_tasks w' ∧
    (done_ctx p (w_ctxs (c_world w')) = true ∨ ∃ k, cls !! nm = Some cl ∧ cns !! nm = Some k ∧ ctx_nodes p = k :: ctx_nodes root).
Proof.
  rewrite Heng. destruct (decide (nm = key)) as [->|Hne]; [by rewrite lookup_delete_eq|rewrite lookup_delete_ne by done].
  intros Hid. destruct (sm_entry _ _ _ HM nm t' cl Hid) as (p & Hp & Hx). exists p. split; [by apply clean_still|].
  destruct Hx as [Hx|?]; [left|by right]. eapply done_more; [|exact Hx]. intros n Hn. apply clean_cancelled. by right.
Qed.

Lemma clean_known nm cl k :
  done_ctx pctx (w_ctxs (c_world w)) = true → live w = true → cls !! nm = Some cl → cns !! nm = Some k →
  ∃ t' p, ident <$> c_engaged w' !! nm = Some (t', cl) ∧ TCleanup p nm t' ∈ c_tasks w' ∧ ctx_nodes p = k :: ctx_nodes root.
Proof.
  intros Hd Hl Hcl Hk. destruct (sm_known _ _ _ HM nm cl k Hl Hcl Hk) as (t' & p & Hid & Hp & Hn).
  assert (nm ≠ key) as Hne.
  { intros ->. rewrite He in Hid. simpl in Hid. injection Hid as Ht' _. subst t'. rewrite Het in Hp.
    destruct (clean_only _ _ Hp) as [-> _].
    apply done_ctx_true in Hd as (m & Hm & Hmc). rewrite Hn in Hm. apply elem_of_cons in Hm as [->|Hm].
    - by destruct (sm_cancel _ _ _ HM key k Hk).
    - unfold live in Hl. apply negb_true_iff in Hl. by apply (proj1 (done_ctx_false _ _) Hl m). }
  exists t', p. rewrite Heng, lookup_delete_ne by done. split_ands; [done|by apply clean_still|done].
Qed.

Lemma maps_cleaned : done_ctx pctx (w_ctxs (c_world w)) = true → sh_maps cls cns w'.
Proof.
  intros Hd. split.
  - apply HM.
  - exact clean_tame.
  - intros name k Hk. destruct (sm_cancel _ _ _ HM name k Hk) as (Hc & ? & ?). split_ands; [|done|done].
    intros Hx%clean_others; [done|]. right. by exists name.
  - intros p nm t'. rewrite clean_waits, Hf. intros Hp%clean_sub. by eapply (sm_token _ _ _ HM).
  - intros p p' nm nm' t'. rewrite !clean_waits. intros Hp%clean_sub Hp'%clean_sub. by eapply (sm_unique _ _ _ HM).
  - exact clean_entry.
  - intros nm cl k. rewrite clean_live. by apply clean_known.
Qed.
End clean.

Lemma maps_cleanup cls cns w i pctx key t :
  sh_maps cls cns w → c_tasks w !! i = Some (TCleanup pctx key t) → done_ctx pctx (w_ctxs (c_world w)) = true →
  sh_maps cls cns (cleanup key t (set_tasks (delete i (c_tasks w)) w)).2.
Proof.
  intros HM Hi Hd.
  destruct (cleanup_entry key t (set_tasks (delete i (c_tasks w)) w)) as [[-> Hno]|(e & ts & X & He & Het & Heng & Hg & Hf & Hts & Hrel & Hcx & HX & _)].
  - by eapply maps_cleanup_stale.
  - by eapply (maps_cleaned cls cns w i pctx key t HM Hi _ e ts X).
Qed.

(** A task that is not a cleanup is taken off. *)
Lemma take_quiet P i t (w : cstate A) :
  tame P made w → c_tasks w !! i = Some t → (∀ p k n, t ≠ TCleanup p k n) → quiet P made w (set_tasks (delete i (c_tasks w)) w).
Proof.
  intros [H1 H2 H3 H4 H5] Ht Hne. split; simpl; try done. intros p k n. split; [apply elem_of_delete_sub|].
  intros Hp. eapply elem_of_delete; [exact Ht|done|]. intros <-. by destruct (Hne p k n).
Qed.

(** The moves of the coordinator that the system has, cleanups apart, are quiet. *)
Lemma coord_quiet P l (w w' : cstate A) :
  tame P made w → cexec c l w = Some w' →
  match l with
  | CTick _ | CApi _ | CRunnable _ | CStop _ | CPeersEnd _ | CNewCtx _ => True
  | CRun i _ _ => (∀ p k t, c_tasks w !! i ≠ Some (TCleanup p k t)) ∧
      (∀ ctx nm cl todo, c_tasks w !! i = Some (TEngage ctx nm cl todo) → aware_ok made w w')
  | CCancelCtx n => n ∈ made
  | _ => False
  end → quiet P made w w'.
Proof.
  intros HT Hx Hl. pose proof HT as [H1 H2 H3 H4 H5].
  destruct l as [d|a|p|n|r|p nm cl|ctx|i order peers|i|i]; try done; simpl in Hx.
  - destruct (0 <=? d)%Z; [|done]. injection Hx as <-. by split; try done; split.
  - injection Hx as <-. by split; try done; split.
  - injection Hx as <-. by apply (q_WithCancel _ _ p w).
  - injection Hx as <-. by apply (q_cancel _ _ n w (H5 n Hl)).
  - injection Hx as <-. by apply (q_spawn _ _ _ w (λ _ _, True)).
  - destruct (c_tasks w !! i) as [t|] eqn:Ht; [|done]. simpl in Hx. destruct Hl as [Hl Haw].
    assert (∀ p k n, t ≠ TCleanup p k n) as Hne by (intros p k n ->; by eapply Hl).
    pose proof (take_quiet P i t w HT Ht Hne) as Hq. apply (calm_trans _ _ _ _ _ Hq).
    pose proof (qt_tame _ _ _ _ Hq) as HT'. set (w0 := set_tasks _ w) in *.
    assert (∀ ctx, quiet P made w0 ((_ ← recompute c order peers ctx; spawn (TRunnable ctx)) w0).2) as Hloop.
    { intros ctx. by apply (q_bind _ _ _ _ _ (λ _ _, True) (λ _ _, True)); [apply q_recompute|intros [] s' _ _; apply q_spawn|]. }
    destruct t as [p k n|parent|ctx|ctx|ctx nm cl|ctx nm cl todo|nm|ctx gid|gid|ctx gid]; simpl in Hx.
    + by destruct (Hne p k n).
    + destruct (bool_decide _); [|done]. injection Hx as <-. by apply q_recompute.
    + destruct (bool_decide _); [|done]. injection Hx as <-. apply Hloop.
    + destruct (bool_decide _); [|done]. injection Hx as <-. apply Hloop.
    + injection Hx as <-. by apply (q_spawn _ _ _ w0 (λ _ _, True)).
    + injection Hx as <-. apply q_start_iter; [done|]. exact (Haw ctx nm cl todo eq_refl).
    + injection Hx as <-. by apply q_start_failed.
    + injection Hx as <-. by apply q_renew_tick.
    + injection Hx as <-. by apply q_renew_lost.
    + injection Hx as <-. apply (q_guard P made gid tt (Release_op ctx) w0 (Release_op_op ctx) HT').
  - destruct (c_tasks w !! i) as [t|] eqn:Ht; [|done]. simpl in Hx.
    destruct t; try done; destruct (c_done _ _); try done; injection Hx as <-; by eapply take_quiet.
  - destruct (c_tasks w !! i) as [t|] eqn:Ht; [|done]. simpl in Hx.
    destruct t; try done; destruct (peers_Run_returns _ _ _); try done; injection Hx as <-; by eapply take_quiet.
Qed.

Lemma sys_inv_coord l s s' :
  sys_inv s → coord_step l s = Some s' →
  match l with
  | CTick _ | CApi _ | CRunnable _ | CStop _ | CPeersEnd _ | CNewCtx _ => True
  | CRun i _ _ => ∀ ctx nm cl todo, c_tasks (n_w s) !! i = Some (TEngage ctx nm cl todo) → aware_ok made (n_w s) (n_w s')
  | CCancelCtx n => n ∈ ctx_nodes root ∨ n ∈ made
  | _ => False
  end →
  sys_inv s' ∧ n_clusters s' = n_clusters s ∧ cancelled (n_w s) ⊆ cancelled (n_w s') ∧ n_cancelFns s' = n_cancelFns s.
Proof.
  intros [Ha HM] Hx Hl. unfold coord_step in Hx. destruct (cexec c l (n_w s)) as [w'|] eqn:Hw; [|done]. injection Hx as <-.
  cut (sh_maps (n_clusters s) (n_cancelFns s) w' ∧ cancelled (n_w s) ⊆ cancelled w').
  { intros [HM' Hc]. by split_ands. }
  assert (quiet (others (n_cancelFns s)) made (n_w s) w' → sh_maps (n_clusters s) (n_cancelFns s) w' ∧ cancelled (n_w s) ⊆ cancelled w') as Hq
    by (intros Hq; split; [by eapply maps_quiet|apply (qt_more _ _ _ _ Hq)]).
  destruct l as [d|a|p|n|r|p nm cl|ctx|i order peers|i|i]; try done;
    try (apply Hq; eapply coord_quiet; [by apply sm_tame in HM|exact Hw|done]).
  - destruct Hl as [Hl|Hl]; [|apply Hq; eapply coord_quiet; [by apply sm_tame in HM|exact Hw|done]].
    injection Hw as <-. split; [by apply maps_cancel|by apply (cancelled_more {[n]})].
  - destruct (c_tasks (n_w s) !! i) as [t|] eqn:Ht; [|by simpl in Hw; rewrite Ht in Hw].
    assert ((∃ p k n, t = TCleanup p k n) ∨ ∀ p k n, t ≠ TCleanup p k n) as [(p & k & n & ->)|Hne]
      by (destruct t; try (by right); left; by do 3 eexists).
    + simpl in Hw. rewrite Ht in Hw. simpl in Hw. unfold c_done in Hw. simpl in Hw. destruct (done_ctx p _) eqn:Hd; [|done]. injection Hw as <-.
      split; [by eapply maps_cleanup|].
      destruct (cleanup_entry k n (set_tasks (delete i (c_tasks (n_w s))) (n_w s))) as [[-> _]|(e & ts & X & _ & _ & _ & _ & _ & _ & _ & Hcx & _)]; [done|].
      apply (cancelled_more X). by rewrite Hcx.
    + apply Hq. eapply coord_quiet; [by apply sm_tame in HM|exact Hw|]. split.
      * intros p k n. rewrite Ht. intros [= ->]. by destruct (Hne p k n).
      * intros ctx nm cl todo. rewrite Ht. intros [= ->]. by apply (Hl ctx nm cl todo).
Qed.

(** An event of the informer, while the provider's context lives. *)
Lemma sys_inv_event e s :
  sys_inv s → e ≠ NsTombstone →
  let '(r, s') := ns_handle root e s in
  r = Returns tt ∧ sys_inv s' ∧ cancelled (n_w s) ⊆ cancelled (n_w s') ∧
  (live (n_w s) = true → ∀ name, is_Some (n_clusters s' !! name) ↔ name ∈ present_step (dom (n_clusters s)) e).
Proof.
  intros [[a Ha] HM] Hne. destruct e as [ns|ns|ns|]; [| | |done]; cbn [ns_handle present_step].
  - unfold AddFunc. rewrite get_bind. destruct (n_clusters s !! ns) as [cl0|] eqn:Hcl.
    { split; [done|]. split; [split; [by eexists|done]|]. split; [done|]. intros _ name. rewrite elem_of_union, elem_of_singleton, elem_of_dom.
      split; [by right|]. intros [->|?]; [by eexists|done]. }
    rewrite bind_eq. unfold add_store, n_world, n_lift, n_alloc, n_set. run_m. unfold w_WithCancel, WithCancel. simpl.
    set (w1 := set_world _ (n_w s)). set (cl := length (n_heap s) + (length (n_heap s) + 0) + 1). set (k := cs_next (w_ctxs (c_world (n_w s)))).
    unfold add_engage. rewrite get_bind. simpl. rewrite Ha. rewrite bind_eq. unfold n_lift. simpl.
    destruct (live (n_w s)) eqn:Hl.
    + destruct (maps_store _ _ _ ns cl HM Hl) as (Hok & HM' & Hmo). change (next (n_w s)) with k in Hok, HM', Hmo.
      change (lift_world (w_WithCancel root) (n_w s)).2 with w1 in Hok, HM', Hmo.
      destruct (Engage _ ns cl w1) as [err w2]. simpl in Hok, HM', Hmo. subst err. run_m. split; [done|]. split; [split; [by eexists|exact HM']|]. split; [exact Hmo|].
      intros _ name. rewrite lookup_insert_is_Some, elem_of_union, elem_of_singleton, elem_of_dom. destruct (decide (ns = name)) as [->|]; naive_solver.
    + assert (done_ctx (Ctx (k :: ctx_nodes root) (ctx_values root)) (w_ctxs (c_world w1)) = true) as Hd.
      { unfold live in Hl. apply negb_false_iff in Hl. apply done_ctx_true in Hl as (n & Hn & Hc). apply done_ctx_true. exists n. split; [by right|done]. }
      unfold Engage. rewrite bind_eq. unfold gets at 1, w_Err, ctx_Err. rewrite Hd. unfold n_forget. run_m.
      split; [done|]. split; [|by split]. split; [by eexists|]. simpl. rewrite !delete_insert_id; [|..].
      * eapply maps_quiet; [exact HM|]. exact (proj1 (q_WithCancel _ _ root (n_w s) (sm_tame _ _ _ HM))).
      * pose proof (sm_dom _ _ _ HM ns) as Hdom. rewrite Hcl in Hdom. destruct (n_cancelFns s !! ns); [|done]. exfalso. destruct (proj2 Hdom); [by eexists|done].
      * done.
  - split; [done|]. split; [split; [by eexists|done]|]. split; [done|]. intros _ name. by rewrite elem_of_dom.
  - unfold DeleteFunc. rewrite get_bind. destruct (n_cancelFns s !! ns) as [k|] eqn:Hk.
    2:{ split; [done|]. split; [split; [by eexists|done]|]. split; [done|]. intros _ name. rewrite elem_of_difference, elem_of_singleton, elem_of_dom.
        split; [|by intros [? _]]. intros Hs. split; [done|]. intros ->. apply (sm_dom _ _ _ HM) in Hs. rewrite Hk in Hs. by destruct Hs. }
    unfold delete_stored, n_world, n_lift, n_forget. run_m. rewrite Hk. run_m.
    split; [done|]. split.
    + split; [by eexists|]. simpl. pose proof (maps_delete _ _ _ ns k HM Hk) as HM'.
      eapply maps_quiet; [exact HM'|]. apply q_world; simpl.
      * by apply sm_tame in HM'.
      * apply cancel_store_wf; [|by apply sm_tame in HM' as [? _ _ _ _]]. simpl. apply sm_tame in HM as [_ Ho _ _ _]. apply Ho. right. by exists ns.
      * done.
      * apply union_subseteq_r.
      * intros n _ [->%elem_of_singleton|?]%elem_of_union; [apply (cancelled_cancel k k (n_w s)); by left|done].
    + split; [apply (cancelled_more ({[k]} ∪ {[k]})); simpl; by rewrite <-union_assoc_L|].
      intros _ name. rewrite lookup_delete_is_Some, elem_of_difference, elem_of_singleton, elem_of_dom. naive_solver.
Qed.

End contexts.

Lemma sys_inv_made made s X :
  sys_inv made s → (∀ n, n ∈ X → n < next (n_w s) ∧ ¬ others (n_cancelFns s) n) → sys_inv (made ∪ X) s.
Proof.
  intros [Ha [H1 [T1 T2 T3 T4 T5] H3 H4 H5 H6 H7]] HX. split; [done|]. split; try done. split; try done.
  intros n [?|?]%elem_of_union; [by apply T5|by apply HX].
Qed.

Definition sh_inv (x : sh_state) : Prop := sys_inv (sh_made x) (sh_sys x).

Lemma sh_inv_init x : sh_init x → sh_inv x.
Proof.
  destruct x as [s made]. unfold sh_init, sh_inv. simpl. intros (Ha & Hc & Hk & (He & Hg & Ht & _) & -> & Hst & Hrt).
  split; [done|]. rewrite Hc, Hk. split.
  - intros name. rewrite !lookup_empty. done.
  - split; try done.
    + intros n [?|(name & Hn)]; [by apply Hrt|by rewrite lookup_empty in Hn].
    + intros name e n. by rewrite He, lookup_empty.
    + intros gid g n. by rewrite Hg.
  - intros name k. by rewrite lookup_empty.
  - intros p key t. rewrite Ht. by intros ?%elem_of_nil.
  - intros p p' key key' t. rewrite Ht. by intros ?%elem_of_nil.
  - intros name t cl. by rewrite He, lookup_empty.
  - intros name cl k _. by rewrite lookup_empty.
Qed.

(** The events of a run. *)
Definition sh_event (l : sh_label) : option ns_event := match l with SEvent e => Some e | _ => None end.
Definition sh_events (ls : list sh_label) : list ns_event := omap sh_event ls.

Lemma sys_step l made s s' :
  sys_inv made s → sys_exec l made s = Some s' →
  (∀ i order peers ctx nm cl todo, l = SRun i order peers → c_tasks (n_w s) !! i = Some (TEngage ctx nm cl todo) →
     aware_ok made (n_w s) (n_w s')) →
  sys_inv made s' ∧ cancelled (n_w s) ⊆ cancelled (n_w s') ∧
  (live (n_w s) = true → dom (n_clusters s') = fold_left present_step (sh_events [l]) (dom (n_clusters s))) ∧
  (aware_moves l (n_w s) = true → n_cancelFns s' = n_cancelFns s).
Proof.
  intros HI Hx Haw.
  assert (∀ cl, coord_step cl s = Some s' → match cl with
      | CTick _ | CApi _ | CRunnable _ | CStop _ | CPeersEnd _ | CNewCtx _ => True
      | CRun i _ _ => ∀ ctx nm cl todo, c_tasks (n_w s) !! i = Some (TEngage ctx nm cl todo) → aware_ok made (n_w s) (n_w s')
      | CCancelCtx n => n ∈ ctx_nodes root ∨ n ∈ made
      | _ => False
      end → sh_events [l] = [] → sys_inv made s' ∧ cancelled (n_w s) ⊆ cancelled (n_w s') ∧
    (live (n_w s) = true → dom (n_clusters s') = fold_left present_step (sh_events [l]) (dom (n_clusters s))) ∧
    (aware_moves l (n_w s) = true → n_cancelFns s' = n_cancelFns s)) as Hco.
  { intros cl Hs Hl ->. destruct (sys_inv_coord made cl s s' HI Hs Hl) as (? & Hcl & ? & ?).
    split_ands; [done|done| |done]. intros _. by rewrite Hcl. }
  destruct l as [e|d|a|ctx|i order peers|i|i|p|n|n]; simpl in Hx;
    try (by eapply Hco; [exact Hx|..]); [| | |].
  - assert (e ≠ NsTombstone) as Hne by (intros ->; done).
    pose proof (sys_inv_event made e s HI Hne) as H. destruct (ns_handle root e s) as [[[]|msg] s1]; [|done]. injection Hx as <-.
    destruct H as (_ & HI' & Hc & Hp). split_ands; [done|done| |done]. intros Hl. apply set_eq. intros name. rewrite elem_of_dom. simpl. by apply Hp.
  - eapply Hco; [exact Hx| |done]. intros ctx nm cl todo. by apply (Haw i order peers ctx nm cl todo eq_refl).
  - case_bool_decide; [|done]. eapply Hco; [exact Hx|by right|done].
  - case_bool_decide; [|done]. eapply Hco; [exact Hx|by left|done].
Qed.

Lemma sh_step l x x' :
  sh_inv x → sh_exec l x = Some x' →
  sh_inv x' ∧ cancelled (n_w (sh_sys x)) ⊆ cancelled (n_w (sh_sys x')) ∧
  (live (n_w (sh_sys x)) = true → dom (n_clusters (sh_sys x')) = fold_left present_step (sh_events [l]) (dom (n_clusters (sh_sys x)))).
Proof.
  destruct x as [s made]. unfold sh_exec. simpl. intros HI Hx. destruct (sys_exec l made s) as [s1|] eqn:Hs; [|done]. simpl in Hx.
  assert (∀ i order peers ctx nm cl todo, l = SRun i order peers → c_tasks (n_w s) !! i = Some (TEngage ctx nm cl todo) →
     aware_ok made (n_w s) (n_w s1)) as Haw.
  { intros i order peers ctx nm cl todo -> Ht. simpl in Hx. rewrite Ht in Hx. by case_bool_decide. }
  destruct (sys_step l made s s1 HI Hs Haw) as (HI1 & Hc & Hd & Hk).
  destruct (aware_moves l (n_w s)); [|injection Hx as <-; by split_ands].
  case_bool_decide as Hok; [|done]. injection Hx as <-. split_ands; [|done|done]. unfold sh_inv. simpl. apply sys_inv_made; [done|].
  intros n Hn%fresh_elem. split; [lia|]. rewrite (Hk eq_refl). intros Ho. apply (tm_others _ _ _ (sm_tame _ _ _ _ (proj2 HI))) in Ho. simpl in Ho. lia.
Qed.

Lemma live_before (w w' : cstate A) : cancelled w ⊆ cancelled w' → live w' = true → live w = true.
Proof.
  unfold live. rewrite !negb_true_iff, !done_ctx_false. intros Hs H n Hn Hc. by apply (H n Hn), Hs.
Qed.

Lemma sh_run ls x x' :
  sh_inv x → run sh_exec ls x = Some x' →
  sh_inv x' ∧ cancelled (n_w (sh_sys x)) ⊆ cancelled (n_w (sh_sys x')) ∧
  (live (n_w (sh_sys x')) = true → dom (n_clusters (sh_sys x')) = fold_left present_step (sh_events ls) (dom (n_clusters (sh_sys x)))).
Proof.
  revert x. induction ls as [|l ls IH]; intros x HI; cbn [run]; [by intros [= <-]|].
  destruct (sh_exec l x) as [x1|] eqn:Hx; [|done]. intros Hr. destruct (sh_step l x x1 HI Hx) as (HI1 & Hc1 & Hd1).
  destruct (IH x1 HI1 Hr) as (HI' & Hc' & Hd'). split_ands; [done|by etrans|]. intros Hl. rewrite Hd' by done.
  assert (live (n_w (sh_sys x1)) = true) as Hl1 by (by eapply live_before).
  rewrite Hd1 by (by eapply live_before). unfold sh_events. rewrite <-fold_left_app, <-omap_app. done.
Qed.

Lemma sh_inv_reachable x : reachable sh_exec sh_init x → sh_inv x.
Proof. apply (invariant_reachable sh_exec sh_init sh_inv); [apply sh_inv_init|]. intros x0 l x1 HI Hx. by eapply sh_step. Qed.

(** ** Cleanups come to an end *)

Definition is_cleanup (t : task) : Prop := match t with TCleanup _ _ _ => True | _ => False end.
#[local] Instance is_cleanup_dec t : Decision (is_cleanup t).
Proof. destruct t; simpl; apply _. Defined.

Definition waiting (w : cstate A) : nat := length (filter is_cleanup (c_tasks w)).

(** A cleanup whose context is done. *)
Definition due (w : cstate A) (t : task) : bool := match t with TCleanup p _ _ => done_ctx p (w_ctxs (c_world w)) | _ => false end.

(** Nothing is left to clean up. *)
Definition settled (w : cstate A) : Prop := ∀ p key t, TCleanup p key t ∈ c_tasks w → done_ctx p (w_ctxs (c_world w)) = false.

(** An entry is as it was, or gone and what it ran stopped. *)
Definition kept_or_stopped (w w' : cstate A) : Prop := ∀ name,
  match c_engaged w !! name with
  | None => c_engaged w' !! name = None
  | Some e => c_engaged w' !! name = Some e ∨
      (c_engaged w' !! name = None ∧ ∀ n, en_started e = true → en_cancel e = Some n → n ∈ cancelled w')
  end.

Lemma cleanup_less i p key t (w : cstate A) :
  c_tasks w !! i = Some (TCleanup p key t) →
  let w' := (cleanup key t (set_tasks (delete i (c_tasks w)) w)).2 in
  S (waiting w') = waiting w ∧ kept_or_stopped w w'.
Proof.
  intros Hi w'. assert (S (length (filter is_cleanup (delete i (c_tasks w)))) = waiting w) as Hw.
  { unfold waiting. rewrite (Permutation_length (filter_Permutation is_cleanup _ _ (delete_Permutation _ _ _ Hi))).
    by rewrite filter_cons_True. }
  destruct (cleanup_entry key t (set_tasks (delete i (c_tasks w)) w)) as [[Heq _]|(e & ts & X & He & Het & Heng & _ & _ & Hts & Hrel & Hcx & HX & HXs)].
  - unfold w'. rewrite Heq. split; [exact Hw|]. intros name. simpl. destruct (c_engaged w !! name); [by left|done].
  - fold w' in Heng, Hts, Hcx. split.
    + rewrite <-Hw. unfold waiting. rewrite Hts, filter_app, length_app. simpl.
      assert (filter is_cleanup ts = []) as ->; [|simpl; lia].
      clear -Hrel. induction ts as [|x ts IH]; [done|]. rewrite filter_cons_False; [apply IH; intros y Hy; apply Hrel; by right|].
      destruct (Hrel x) as [gid ->]; [by left|]. by intros ?.
    + intros name. rewrite Heng. simpl in He |- *. destruct (decide (name = key)) as [->|Hne].
      2:{ rewrite lookup_delete_ne by done. destruct (c_engaged w !! name); [by left|done]. }
      rewrite He. right. rewrite lookup_delete_eq. split; [done|]. intros n Hs Hn.
      unfold cancelled. rewrite Hcx. apply elem_of_union. left. by apply HXs.
Qed.

Lemma cleanups_end x :
  sh_inv x → ∃ ls x', run sh_exec ls x = Some x' ∧ (∀ l, l ∈ ls → ∃ i, l = SRun i [] []) ∧ sh_inv x' ∧
    settled (n_w (sh_sys x')) ∧ n_clusters (sh_sys x') = n_clusters (sh_sys x) ∧
    live (n_w (sh_sys x')) = live (n_w (sh_sys x)) ∧ kept_or_stopped (n_w (sh_sys x)) (n_w (sh_sys x')).
Proof.
  remember (waiting (n_w (sh_sys x))) as m eqn:Hm. revert x Hm. induction (lt_wf m) as [m _ IH]. intros [s made] -> HI. simpl.
  destruct (decide (Exists (λ t, due (n_w s) t = true) (c_tasks (n_w s)))) as [Hex|Hno].
  - apply list.Exists_exists in Hex as (t & Ht & Hd). destruct t as [p key t| | | | | | | | |]; try done. simpl in Hd.
    apply list_elem_of_lookup in Ht as [i Hi]. destruct (cleanup_less i p key t (n_w s) Hi) as [Hless Hkept].
    set (w1 := (cleanup key t _).2) in *. set (x1 := ShState (n_lift (λ _, (tt, w1)) s).2 made).
    assert (sh_exec (SRun i [] []) (ShState s made) = Some x1) as Hx.
    { unfold sh_exec. simpl. unfold coord_step. simpl. rewrite Hi. simpl. unfold c_done. simpl. rewrite Hd. simpl. done. }
    destruct (sh_step _ _ _ HI Hx) as (HI1 & Hc1 & _).
    destruct (IH (waiting w1) ltac:(simpl in *; lia) x1 eq_refl HI1) as (ls & x' & Hr & Hls & HI' & Hset & Hcl & Hlv & Hk).
    exists (SRun i [] [] :: ls), x'. cbn [run]. rewrite Hx. split_ands; try done.
    + intros l [->|?]%elem_of_cons; [by exists i|by apply Hls].
    + rewrite Hlv. simpl.
      destruct (live (n_w s)) eqn:Hl.
      * unfold live in *. apply negb_true_iff in Hl. apply negb_true_iff, done_ctx_false. intros n Hn Hc.
        destruct (cleanup_entry key t (set_tasks (delete i (c_tasks (n_w s))) (n_w s))) as [[Heq _]|(e & ts & X & He & _ & _ & _ & _ & _ & _ & Hcx & HX & _)].
        -- unfold w1 in Hc. rewrite Heq in Hc. by apply (proj1 (done_ctx_false _ _) Hl n).
        -- fold w1 in Hcx. rewrite Hcx in Hc. apply elem_of_union in Hc as [Hc|Hc]; [|by apply (proj1 (done_ctx_false _ _) Hl n)].
           destruct (tm_entries _ _ _ (sm_tame _ _ _ _ (proj2 HI)) key e n He (HX n Hc)) as [_ Hp]. apply Hp. by left.
      * apply not_true_iff_false. intros Hl1. assert (live (n_w s) = true) by (eapply live_before; [exact Hc1|exact Hl1]). congruence.
    + intros name. specialize (Hkept name). specialize (Hk name). change (n_w (sh_sys x1)) with w1 in Hk.
      destruct (c_engaged (n_w s) !! name) as [e|]; [|by rewrite Hkept in Hk].
      destruct Hkept as [H1|[H1 H2]]; rewrite H1 in Hk; [done|]. right. split; [done|]. intros n Hs Hn.
      destruct (sh_run ls _ x' HI1 Hr) as (_ & Hmo & _). apply Hmo. by apply H2.
  - exists [], (ShState s made). cbn [run]. split_ands; try done.
    + by intros l ?%elem_of_nil.
    + intros p key t Ht. apply not_true_iff_false. intros Hd. apply Hno, list.Exists_exists. by exists (TCleanup p key t).
    + intros name. simpl. destruct (c_engaged (n_w s) !! name); [by left|done].
Qed.

(** ** Properties *)

(** Complement (safety): while the provider's context lives, every namespace that the
    provider knows is engaged with the coordinator as the provider's cluster, and
    the goroutine that would clean the engagement up waits for a context that is
    live - in every reachable state, whatever the Lease API answers and however
    goroutines interleave. *)
Theorem known_namespaces_are_engaged x name cl :
  let s := sh_sys x in
  reachable sh_exec sh_init x → live (n_w s) = true → ns_Get s name = Ok cl →
  ∃ e, c_engaged (n_w s) !! name = Some e ∧ en_cl e = cl ∧
    (∃ p, TCleanup p name (en_token e) ∈ c_tasks (n_w s)) ∧
    ∀ p key, TCleanup p key (en_token e) ∈ c_tasks (n_w s) → done_ctx p (w_ctxs (c_world (n_w s))) = false.
Proof.
  intros s Hr%sh_inv_reachable Hl Hg. destruct Hr as [_ HM]. fold s in HM.
  assert (n_clusters s !! name = Some cl) as Hcl by (unfold ns_Get in Hg; destruct (n_clusters s !! name); congruence).
  destruct (proj1 (sm_dom _ _ _ _ HM name) (ex_intro _ _ Hcl)) as [k Hk].
  destruct (sm_known _ _ _ _ HM name cl k Hl Hcl Hk) as (t & p & Hid & Hp & Hn).
  destruct (c_engaged (n_w s) !! name) as [e|]; [|done]. simpl in Hid. injection Hid as <- <-. exists e.
  split_ands; [done|done|by exists p|]. intros p' key Hp'. destruct (sm_unique _ _ _ _ HM _ _ _ _ _ Hp Hp') as [<- _].
  apply done_ctx_false. rewrite Hn. intros m [->|Hm]%elem_of_cons; [by apply (sm_cancel _ _ _ _ HM name k)|].
  unfold live in Hl. apply negb_true_iff in Hl. by apply (proj1 (done_ctx_false _ _) Hl m).
Qed.

(** C10 (refinement): the coordinator's engagements follow the namespaces.  After any
    run that has not ended the provider's context, the goroutines that clean up
    can all come to their end, and then the coordinator has engaged exactly the
    namespaces there are after the run's events, each as the cluster that the
    provider resolves its name to and as it was before - recomputations decide
    about these and no others - and what it ran of the namespaces that have
    gone is stopped.  Nothing is assumed of the Lease API, of other processes or
    of the peers; of the awares, that they can cancel no contexts but those that
    awares have made ([sh_exec]): they may make any, as the controllers do. *)
Theorem sharded_engagements_follow_the_namespaces ls x0 x :
  sh_init x0 → run sh_exec ls x0 = Some x → live (n_w (sh_sys x)) = true →
  ∃ cleanups x', run sh_exec cleanups x = Some x' ∧ (∀ l, l ∈ cleanups → ∃ i, l = SRun i [] []) ∧ settled (n_w (sh_sys x')) ∧
    let s := sh_sys x in let s' := sh_sys x' in
    ∀ name, match c_engaged (n_w s') !! name with
            | Some e => name ∈ present (sh_events ls) ∧ ns_Get s' name = Ok (en_cl e) ∧ c_engaged (n_w s) !! name = Some e
            | None => name ∉ present (sh_events ls) ∧ ns_Get s' name = Err ErrClusterNotFound ∧
                      ∀ e n, c_engaged (n_w s) !! name = Some e → en_started e = true → en_cancel e = Some n → n ∈ cancelled (n_w s')
            end.
Proof.
  intros H0 Hr Hl. destruct (sh_run ls x0 x (sh_inv_init x0 H0) Hr) as (HI & _ & Hd). specialize (Hd Hl).
  destruct H0 as (_ & Hc0 & _). rewrite Hc0, dom_empty_L in Hd. change (fold_left present_step (sh_events ls) ∅) with (present (sh_events ls)) in Hd.
  destruct (cleanups_end x HI) as (cs & x' & Hrun & Hcs & [_ HM] & Hset & Hcl & Hlv & Hk). exists cs, x'. split_ands; [done|done|done|].
  destruct x as [s made], x' as [s' made']. simpl in *.
  rewrite Hl in Hlv. intros name. specialize (Hk name). rewrite <-Hd, <-Hcl. unfold ns_Get.
  destruct (c_engaged (n_w s') !! name) as [e|] eqn:He; rewrite elem_of_dom.
  - assert (n_clusters s' !! name = Some (en_cl e)) as ->.
    { destruct (sm_entry _ _ _ _ HM name (en_token e) (en_cl e)) as (p & Hp & [Hx|(k & Hx & _)]); [by rewrite He| |done].
      by rewrite (Hset _ _ _ Hp) in Hx. }
    split_ands; [by eexists|done|]. destruct (c_engaged (n_w s) !! name) as [e0|]; [|congruence]. destruct Hk as [?|[? _]]; congruence.
  - assert (n_clusters s' !! name = None) as ->.
    { destruct (n_clusters s' !! name) as [cl|] eqn:Hx; [|done]. exfalso.
      destruct (proj1 (sm_dom _ _ _ _ HM name) (ex_intro _ _ Hx)) as [k Hkk].
      destruct (sm_known _ _ _ _ HM name cl k Hlv Hx Hkk) as (t & p & Hid & _). by rewrite He in Hid. }
    split_ands; [by intros [? ?]|done|]. intros e n Hes Hst Hn. rewrite Hes in Hk. destruct Hk as [?|[_ Hk]]; [congruence|by apply Hk].
Qed.
End system.

(** ** Witness *)

(** A coordinator of its own on an empty Lease server with an aware that makes a
    context for every cluster, as a controller does; and a namespace that comes,
    is recomputed, started and engaged with the aware, and goes again while
    another comes. *)
Definition making_aware : Aware := fun ctx name cl => cc ← w_WithCancel ctx; mret None.
Definition sh_root : context := Ctx [0] [].
Definition sh_coordinator : Coordinator := New "peer-0" [].
Definition sh_start : sh_state (A:=store) :=
  ShState (NState 4 (Some 0) ∅ ∅ [] (CState (MkStore [] 0 []) (World (CtxStore 1 ∅) []) 1%Z ∅ [making_aware] [] 0 [])) ∅.
Definition sh_labels : list (sh_label (A:=store)) :=
  [SEvent (NsAdd "a"); SRun 1 ["a"] [MkPeer "peer-0" 1]; SRun 2 [] []; SRun 2 [] []; SEvent (NsAdd "b"); SEvent (NsDelete "a")].
Definition sh_end : sh_state := default sh_start (run (sh_exec sh_coordinator sh_root) sh_labels sh_start).

Lemma sharded_engagements_follow_the_namespaces_witness :
  (∃ e n, c_engaged (n_w (sh_sys sh_end)) !! ("a" : ClusterName) = Some e ∧ en_started e = true ∧ en_cancel e = Some n) ∧
  sh_made sh_end = {[4]} ∧
  ∃ cleanups x', run (sh_exec sh_coordinator sh_root) cleanups sh_end = Some x' ∧ settled (n_w (sh_sys x')) ∧
    c_engaged (n_w (sh_sys x')) !! ("a" : ClusterName) = None ∧ ∃ e, c_engaged (n_w (sh_sys x')) !! ("b" : ClusterName) = Some e.
Proof.
  split; [do 2 eexists; split_ands; vm_compute; reflexivity|]. split; [vm_compute; reflexivity|].
  destruct (sharded_engagements_follow_the_namespaces sh_coordinator sh_root sh_labels sh_start sh_end) as (cs & x' & Hr & _ & Hs & Hall).
  - split; [by eexists|]. split; [done|]. split; [done|]. split; [by split|]. split; [done|]. split; [by intros n ?%elem_of_empty|].
    intros n ->%list_elem_of_singleton. simpl. lia.
  - vm_compute. reflexivity.
  - vm_compute. reflexivity.
  - exists cs, x'. split_ands; [exact Hr|exact Hs| |].
    + cbv zeta in Hall. specialize (Hall "a"). destruct (c_engaged (n_w (sh_sys x')) !! ("a" : ClusterName)) as [e|]; [|done].
      destruct Hall as (Hin & _). exfalso. revert Hin. assert (present (sh_events sh_labels) = {["b"]}) as -> by (vm_compute; reflexivity).
      by intros ?%elem_of_singleton.
    + cbv zeta in Hall. specialize (Hall "b"). destruct (c_engaged (n_w (sh_sys x')) !! ("b" : ClusterName)) as [e|]; [by exists e|].
      destruct Hall as (Hin & _). exfalso. apply Hin. assert (present (sh_events sh_labels) = {["b"]}) as -> by (vm_compute; reflexivity).
      by apply elem_of_singleton.
Defined.
