(* ===== verification/KindProvider.v ===== *)
(** * providers/kind: the kind clusters on this machine

    The provider lists the kind clusters every two seconds, creates and engages
    those that are new and removes those that are gone.  kind, client-go and
    controller-runtime answer what a pass asks them: the list, the kubeconfigs
    and the clusters made from them. *)

From S2P Require Import Prelude GoErrors GoContext Multicluster.

Section kind.
Context {rest_Config : Type} (RESTConfigFromKubeConfig : string → result error rest_Config).

(** [strings.HasPrefix] is [String.prefix]. *)
Definition HasPrefix (s prefix : string) : bool := String.prefix prefix s.

(* src: providers/kind/provider.go:46-54 Options *)
Record kind_Options := MkKindOptions {
  Prefix : string;
  kind_RESTOptions : list (rest_Config → result error rest_Config);
}.

(* src: providers/kind/provider.go:72-82 Provider *)
Record kstate := KState {
  k_mcAware : option nat;
  k_clusters : gmap ClusterName cluster;
  k_cancelFns : gmap ClusterName cancel_func;
  k_indexers : list Index;
  k_w : world;
}.

(* src: providers/kind/provider.go:56-64 New *)
Definition kind_New : kstate := KState None ∅ ∅ [] empty_world.

(* src: providers/kind/provider.go:84-93 Provider.Get *)
Definition kind_Get (s : kstate) (clusterName : ClusterName) : result error cluster :=
  match k_clusters s !! clusterName with
  | Some cl => Ok cl
  | None => Err ErrClusterNotFound
  end.

Definition k_world {A} (m : M world A) : M kstate A := fun s =>
  let '(a, w) := m (k_w s) in (a, KState (k_mcAware s) (k_clusters s) (k_cancelFns s) (k_indexers s) w).

(** The sections under the lock. *)
(* src: providers/kind/provider.go:176-179 Provider.Start *)
Definition k_remember (name : ClusterName) (cl : cluster) (cancel : cancel_func) : M kstate unit :=
  modify (λ s, KState (k_mcAware s) (<[name := cl]> (k_clusters s)) (<[name := cancel]> (k_cancelFns s)) (k_indexers s) (k_w s)).

(* src: providers/kind/provider.go:186-189 Provider.Start *)
Definition k_forget (name : ClusterName) : M kstate unit :=
  modify (λ s, KState (k_mcAware s) (delete name (k_clusters s)) (delete name (k_cancelFns s)) (k_indexers s) (k_w s)).

(** What a pass is answered. *)
Record kind_env := MkKindEnv {
  ke_List : result error (list string);
  ke_KubeConfig : string → result error string;
  ke_New : string → rest_Config → result error cluster;
}.

(** How the function that is polled ends: [done] and an error. *)
Definition poll_result : Type := bool * option error.
Definition keep_going : outcome poll_result := Returns (false, None).

Section calls.
Context (o : oracle) (opts : kind_Options).

(* src: providers/kind/provider.go:145-150 Provider.Start *)
Fixpoint k_apply_options (ropts : list (rest_Config → result error rest_Config)) (cfg : rest_Config) : result error rest_Config :=
  match ropts with
  | [] => Ok cfg
  | opt :: ropts => match opt cfg with Err err => Err err | Ok cfg => k_apply_options ropts cfg end
  end.

(** The construction of a cluster; an error is logged, and ends the pass. *)
(* src: providers/kind/provider.go:134-156 Provider.Start *)
Definition kind_new_cluster (env : kind_env) (clusterName : ClusterName) : result error cluster :=
  match ke_KubeConfig env (ClusterName_String clusterName) with
  | Err err => Err err
  | Ok kubeconfig =>
      match RESTConfigFromKubeConfig kubeconfig with
      | Err err => Err err
      | Ok cfg =>
          match k_apply_options (kind_RESTOptions opts) cfg with
          | Err err => Err err
          | Ok cfg => ke_New env clusterName cfg
          end
      end
  end.

(** The body of the loop over the listed names: [Some] leaves the polled function. *)
(* src: providers/kind/provider.go:119-192 Provider.Start *)
Definition kind_add (env : kind_env) (ctx : context) (clusterName : ClusterName) : M kstate (option (outcome poll_result)) :=
  if negb (bool_decide (Prefix opts = "")) && negb (HasPrefix (ClusterName_String clusterName) (Prefix opts)) then mret None else
  s ← get;
  match k_clusters s !! clusterName with
  | Some _ => mret None
  | None =>
      match kind_new_cluster env clusterName with
      | Err _ => mret (Some keep_going)
      | Ok cl =>
          s ← get;
          err ← for_range (k_indexers s) (λ idx,
            err ← k_world (ask o (CallIndex cl ctx idx));
            mret (Wrap ("failed to index field " +:+ Index_Field idx) <$> err));
          match err with
          | Some err => mret (Some (Returns (false, Some err)))
          | None =>
              cc ← k_world (w_WithCancel ctx);
              let '(clusterCtx, cancel) := cc in
              _ ← k_world (ask o (CallStart cl clusterCtx));
              err ← k_world (ask o (CallSync cl ctx));
              match err with
              | Some _ => _ ← k_world (w_cancel cancel); mret (Some keep_going)
              | None =>
                  _ ← k_remember clusterName cl cancel;
                  match k_mcAware s with
                  | None => mret (Some (Panics "invalid memory address or nil pointer dereference"))
                  | Some mcAware =>
                      err ← k_world (ask o (CallEngage mcAware clusterCtx clusterName cl));
                      match err with
                      | Some _ => _ ← k_forget clusterName; mret (Some keep_going)
                      | None => mret None
                      end
                  end
              end
          end
      end
  end.

(** Calling a cancel function that is not there is a panic. *)
(* src: providers/kind/provider.go:199-210 Provider.Start *)
Definition kind_remove (listed : list string) (name : ClusterName) : M kstate (option string) :=
  if bool_decide (ClusterName_String name ∈ listed) then mret None else
  s ← get;
  match k_cancelFns s !! name with
  | None => mret (Some "invalid memory address or nil pointer dereference")
  | Some cancel => _ ← k_world (w_cancel cancel); _ ← k_forget name; mret None
  end.

(** One call of the polled function; [keys] is Go's order of a map's keys. *)
(* src: providers/kind/provider.go:108-213 Provider.Start *)
Definition kind_pass (keys : gmap ClusterName cluster → list ClusterName) (env : kind_env) (ctx : context) :
  M kstate (outcome poll_result) :=
  match ke_List env with
  | Err _ => mret keep_going
  | Ok list =>
      r ← for_range list (kind_add env ctx);
      match r with
      | Some r => mret r
      | None =>
          s ← get;
          p ← for_range (keys (k_clusters s)) (kind_remove list);
          mret (match p with Some msg => Panics msg | None => keep_going end)
      end
  end.

(** The passes until the context ends, when polling returns the context's error. *)
Fixpoint poll (keys : gmap ClusterName cluster → list ClusterName) (ctx : context) (envs : list kind_env) : M kstate (outcome (option error)) :=
  match envs with
  | [] => s ← get; mret (Returns (w_Err ctx (k_w s)))
  | env :: envs =>
      r ← kind_pass keys env ctx;
      match r with
      | Panics msg => mret (Panics msg)
      | Returns (_, Some err) => mret (Returns (Some err))
      | Returns (true, None) => mret (Returns None)
      | Returns (false, None) => poll keys ctx envs
      end
  end.

(* src: providers/kind/provider.go:95-214 Provider.Start *)
Definition kind_Start (keys : gmap ClusterName cluster → list ClusterName) (ctx : context) (mcAware : nat)
    (first : result error (list string)) (envs : list kind_env) : M kstate (outcome (option error)) :=
  _ ← modify (λ s, KState (Some mcAware) (k_clusters s) (k_cancelFns s) (k_indexers s) (k_w s));
  match first with
  | Err err => mret (Returns (Some err))
  | Ok _ => poll keys ctx envs
  end.

(** [order] is Go's iteration over the clusters. *)
(* src: providers/kind/provider.go:216-236 Provider.IndexField *)
Definition kind_IndexField (ctx : context) (idx : Index) (order : list (ClusterName * cluster)) : M kstate (option error) :=
  _ ← modify (λ s, KState (k_mcAware s) (k_clusters s) (k_cancelFns s) (k_indexers s ++ [idx]) (k_w s));
  k_world (for_range order (λ kv,
    err ← ask o (CallIndex kv.2 ctx idx);
    mret (Wrap ("failed to index field " +:+ Index_Field idx +:+ " on cluster " +:+ kv.1) <$> err))).
End calls.

(** ** Lemmas *)

(** A listed name the provider is to have a cluster for. *)
Definition wanted (opts : kind_Options) (name : ClusterName) : bool :=
  bool_decide (Prefix opts = "") || HasPrefix name (Prefix opts).

Record kind_inv (opts : kind_Options) (s : kstate) : Prop := {
  ki_aware : is_Some (k_mcAware s);
  ki_dom name : is_Some (k_clusters s !! name) ↔ is_Some (k_cancelFns s !! name);
  ki_wanted name : is_Some (k_clusters s !! name) → wanted opts name = true;
}.

Section lemmas.
Context (o : oracle) (opts : kind_Options).

Definition k_same (s s' : kstate) : Prop :=
  k_mcAware s' = k_mcAware s ∧ k_clusters s' = k_clusters s ∧ k_cancelFns s' = k_cancelFns s ∧ k_indexers s' = k_indexers s.

(** Indexing a new cluster: only calls, up to the first refusal. *)
Definition k_index (ctx : context) (cl : cluster) (l : list Index) : M kstate (option error) :=
  for_range l (λ idx, err ← k_world (ask o (CallIndex cl ctx idx));
    mret (Wrap ("failed to index field " +:+ Index_Field idx) <$> err)).

Lemma k_index_spec ctx cl l s :
  let '(err, s') := k_index ctx cl l s in
  k_same s s' ∧ w_ctxs (k_w s') = w_ctxs (k_w s) ∧
  (∀ e, err = Some e → ∃ cs i e', i ∈ l ∧ o cs (CallIndex cl ctx i) = Some e' ∧ e = Wrap ("failed to index field " +:+ Index_Field i) e').
Proof.
  revert s. induction l as [|i l IH]; intros s; [by repeat split|].
  unfold k_index. cbn [for_range]. unfold on_nil. rewrite !bind_eq. unfold k_world at 1, ask at 1, mret, M_ret. simpl.
  destruct (o (w_calls (k_w s)) (CallIndex cl ctx i)) as [e|] eqn:Ho; simpl.
  { split; [done|]. split; [done|]. intros e0 [= <-]. exists (w_calls (k_w s)), i, e. by repeat split; [left|]. }
  specialize (IH (KState (k_mcAware s) (k_clusters s) (k_cancelFns s) (k_indexers s) (World (w_ctxs (k_w s)) (w_calls (k_w s) ++ [CallIndex cl ctx i])))).
  unfold k_index in IH. destruct (for_range l _ _) as [err s']. destruct IH as ((? & ? & ? & ?) & ? & He). simpl in *.
  split; [by repeat split|]. split; [done|]. intros e0 Hx0. destruct (He e0 Hx0) as (cs & i' & e' & Hi & ? & ?).
  exists cs, i', e'. split; [by right|]. done.
Qed.

Definition fails_somewhere : Prop := ∃ cs c, o cs c ≠ None.

(** The cases of the loop's body: the name is skipped, a cluster is added, or the
    pass ends with the maps as they were. *)
Lemma kind_add_cases env ctx name s :
  kind_inv opts s →
  let '(r, s') := kind_add o opts env ctx name s in
  k_mcAware s' = k_mcAware s ∧ k_indexers s' = k_indexers s ∧
  ((r = None ∧ s' = s ∧ (wanted opts name = false ∨ is_Some (k_clusters s !! name))) ∨
   (r = None ∧ wanted opts name = true ∧ k_clusters s !! name = None ∧
    ∃ cl, kind_new_cluster opts env name = Ok cl ∧ k_clusters s' = <[name := cl]> (k_clusters s) ∧
      k_cancelFns s' = <[name := cs_next (w_ctxs (k_w s))]> (k_cancelFns s) ∧
      w_ctxs (k_w s') = (WithCancel ctx (w_ctxs (k_w s))).2) ∨
   (wanted opts name = true ∧ k_clusters s !! name = None ∧ k_clusters s' = k_clusters s ∧ k_cancelFns s' = k_cancelFns s ∧
    (r = Some keep_going ∧ ((∃ e, kind_new_cluster opts env name = Err e) ∧ s' = s ∨ fails_somewhere) ∨
     ∃ cs i cl e', i ∈ k_indexers s ∧ o cs (CallIndex cl ctx i) = Some e' ∧
       r = Some (Returns (false, Some (Wrap ("failed to index field " +:+ Index_Field i) e')))))).
Proof.
  intros [[a Ha] Hd Hw]. unfold kind_add. change (ClusterName_String name) with name.
  assert ((negb (bool_decide (Prefix opts = "")) && negb (HasPrefix name (Prefix opts))) = negb (wanted opts name)) as ->.
  { unfold wanted. by destruct (bool_decide _), (HasPrefix _ _). }
  destruct (wanted opts name) eqn:Hwn; simpl; [|by (split; [done|]; split; [done|]; left; auto)].
  rewrite get_bind. destruct (k_clusters s !! name) as [cl|] eqn:Hcl.
  { split; [done|]. split; [done|]. left. split; [done|]. split; [done|]. right. by eexists. }
  assert (k_cancelFns s !! name = None) as Hcan.
  { destruct (k_cancelFns s !! name) eqn:E; [|done]. destruct (proj2 (Hd name)) as [? Hx]; [by eexists|]. by rewrite Hcl in Hx. }
  destruct (kind_new_cluster opts env name) as [cl|e] eqn:Hnew.
  2:{ split; [done|]. split; [done|]. right. right. split_ands; try done. left. split; [done|]. left. split; [by eexists|done]. }
  rewrite get_bind, bind_eq. pose proof (k_index_spec ctx cl (k_indexers s) s) as Hi. unfold k_index in Hi.
  destruct (for_range (k_indexers s) _ s) as [[e|] s1]; destruct Hi as ((H1 & H2 & H3 & H4) & H5 & He).
  { rewrite <-H2, <-H3. split; [done|]. split; [done|]. right. right. split_ands; try done. right.
    destruct (He e eq_refl) as (cs & i & e' & Hin & Hoi & ->). by exists cs, i, cl, e'. }
  clear He. unfold k_world, w_WithCancel, ask, w_cancel, k_remember, k_forget, modify, mbind, M_bind, mret, M_ret. simpl.
  destruct (o _ (CallSync cl ctx)) as [e|] eqn:Hs; simpl.
  { rewrite H1, H2, H3, H4. split; [done|]. split; [done|]. right. right. split_ands; try done. left. split; [done|]. right.
    eexists _, _. by rewrite Hs. }
  rewrite Ha. simpl. destruct (o _ (CallEngage _ _ _ _)) as [e|] eqn:Hen; simpl; rewrite H1, H2, H3, H4, H5; (split; [done|]); (split; [done|]).
  - right. right. rewrite !delete_insert_id by done. split_ands; try done. left. split; [done|]. right. eexists _, _. by rewrite Hen.
  - right. left. split_ands; try done. by exists cl.
Qed.

Lemma kind_add_inv env ctx name s : kind_inv opts s → kind_inv opts (kind_add o opts env ctx name s).2.
Proof.
  intros HI. pose proof (kind_add_cases env ctx name s HI) as H. pose proof HI as [Ha Hd Hw].
  destruct (kind_add o opts env ctx name s) as [r s']. simpl.
  destruct H as (Haw & _ & [(_ & -> & _)|[(_ & Hwn & _ & cl & _ & Hc & Hk & _)|(_ & _ & Hc & Hk & _)]]); [done|..];
    split; rewrite ?Haw, ?Hc, ?Hk; try done.
  - intros n. by rewrite !lookup_insert_is_Some, Hd.
  - intros n. rewrite lookup_insert_is_Some. intros [<-|[_ ?]]; [done|by apply Hw].
Qed.

Lemma kind_add_loop_inv env ctx (l : list string) s :
  kind_inv opts s → kind_inv opts (for_range l (kind_add o opts env ctx) s).2.
Proof. intros HI. apply for_range_ind; [|done]. intros; by apply kind_add_inv. Qed.

(** The loop that removes. *)
Lemma kind_remove_loop listed keys s :
  kind_inv opts s → NoDup keys → (∀ n, n ∈ keys → is_Some (k_clusters s !! n)) →
  let '(r, s') := for_range keys (kind_remove listed) s in
  r = None ∧ kind_inv opts s' ∧
  ∀ n, k_clusters s' !! n = (if bool_decide (n ∈ keys ∧ n ∉ listed) then None else k_clusters s !! n).
Proof.
  revert s. induction keys as [|k keys IH]; intros s HI Hnd Hk; cbn [for_range].
  { split; [done|]. split; [done|]. intros n. rewrite bool_decide_eq_false_2; [done|]. by intros [?%elem_of_nil _]. }
  apply NoDup_cons in Hnd as [Hnk Hnd]. unfold on_nil. rewrite bind_eq. unfold kind_remove at 1.
  change (ClusterName_String k) with k. destruct (decide (k ∈ listed)) as [Hin|Hout].
  - rewrite bool_decide_eq_true_2 by done. unfold mret at 1, M_ret at 1.
    specialize (IH s HI Hnd). destruct (for_range keys (kind_remove listed) s) as [r s'].
    destruct IH as (-> & HI' & Hs'); [intros n Hn; apply Hk; by right|]. split; [done|]. split; [done|]. intros n. rewrite Hs'.
    repeat case_bool_decide; try done; exfalso; set_solver.
  - rewrite bool_decide_eq_false_2 by done. rewrite get_bind. pose proof HI as [Ha Hd Hw].
    destruct (proj1 (Hd k)) as [c Hc]; [apply Hk; by left|]. rewrite Hc.
    unfold k_world, w_cancel, k_forget, modify, mbind, M_bind, mret, M_ret. simpl. set (s1 := KState _ _ _ _ _).
    assert (kind_inv opts s1) as HI1.
    { split; unfold s1; simpl; [done|intros n; by rewrite !lookup_delete_is_Some, Hd|].
      intros n [_ ?]%lookup_delete_is_Some. by apply Hw. }
    specialize (IH s1 HI1 Hnd). destruct (for_range keys (kind_remove listed) s1) as [r s'].
    destruct IH as (-> & HI' & Hs').
    { intros n Hn. unfold s1. simpl. rewrite lookup_delete_is_Some. split; [by intros ->|]. apply Hk. by right. }
    split; [done|]. split; [done|]. intros n. rewrite Hs'. unfold s1. simpl.
    destruct (decide (n = k)) as [->|Hne].
    + rewrite lookup_delete_eq, (bool_decide_eq_true_2 (k ∈ k :: keys ∧ k ∉ listed)) by (split; [left|done]). by case_bool_decide.
    + rewrite lookup_delete_ne by done. repeat case_bool_decide; try done; exfalso; set_solver.
Qed.

Definition keys_of (keys : gmap ClusterName cluster → list ClusterName) : Prop :=
  ∀ m, NoDup (keys m) ∧ ∀ n, n ∈ keys m ↔ is_Some (m !! n).

(** A pass: it never panics and keeps the invariant. *)
Lemma kind_pass_ok keys env ctx s :
  keys_of keys → kind_inv opts s →
  let '(r, s') := kind_pass o opts keys env ctx s in (∃ x, r = Returns x) ∧ kind_inv opts s'.
Proof.
  intros Hk HI. unfold kind_pass. destruct (ke_List env) as [l|e]; [|by split; [eexists|]]. rewrite bind_eq.
  assert (∀ r, (for_range l (kind_add o opts env ctx) s).1 = Some r → ∃ x, r = Returns x) as Hr.
  { clear -HI. revert s HI. induction l as [|n l IH]; intros s HI r; cbn [for_range]; [done|].
    unfold on_nil. rewrite bind_eq. pose proof (kind_add_cases env ctx n s HI) as H. pose proof (kind_add_inv env ctx n s HI) as HI1.
    destruct (kind_add o opts env ctx n s) as [r1 s1]. destruct r1 as [r1|]; simpl in *; [|by apply IH].
    intros [= <-]. destruct H as (_ & _ & [(? & _)|[(? & _)|(_ & _ & _ & _ & [[[= ->] _]|(cs & i & cl & e & _ & _ & [= ->])])]]); try done; by eexists. }
  pose proof (kind_add_loop_inv env ctx l s HI) as HI1.
  destruct (for_range l (kind_add o opts env ctx) s) as [[r|] s1]; simpl in *; [split; [by apply Hr|exact HI1]|].
  rewrite get_bind, bind_eq. destruct (Hk (k_clusters s1)) as [Hnd Hkm].
  pose proof (kind_remove_loop l (keys (k_clusters s1)) s1 HI1 Hnd (λ n, proj1 (Hkm n))) as H.
  destruct (for_range (keys _) _ s1) as [r s2]. destruct H as (-> & HI2 & _). by split; [eexists|].
Qed.

Lemma kind_add_loop_ok env ctx (l : list string) s :
  kind_inv opts s → (∀ cs c, o cs c = None) →
  (∀ n, n ∈ l → wanted opts n = true → k_clusters s !! n = None → ∃ cl, kind_new_cluster opts env n = Ok cl) →
  let '(r, s') := for_range l (kind_add o opts env ctx) s in
  r = None ∧ (∀ n c, k_clusters s !! n = Some c → k_clusters s' !! n = Some c) ∧
  ∀ n, is_Some (k_clusters s' !! n) ↔ is_Some (k_clusters s !! n) ∨ n ∈ l ∧ wanted opts n = true.
Proof.
  intros HI Ho. revert s HI. induction l as [|n l IH]; intros s HI Hnew; cbn [for_range].
  { split; [done|]. split; [done|]. intros n. split; [by left|]. by intros [?|[?%elem_of_nil _]]. }
  unfold on_nil. rewrite bind_eq. pose proof (kind_add_cases env ctx n s HI) as H. pose proof (kind_add_inv env ctx n s HI) as HI1.
  destruct (kind_add o opts env ctx n s) as [r s1]. cbn [snd] in HI1.
  destruct H as (_ & _ & [(-> & -> & Hskip)|[(-> & Hw & Hno & cl & _ & Hc & _)|(Hw & Hno & _ & _ & Hbad)]]).
  - specialize (IH s HI). destruct (for_range l _ s) as [r s']. destruct IH as (-> & Hk & Hd).
    { intros n' Hn'. apply Hnew. by right. }
    split; [done|]. split; [done|]. intros n'. rewrite Hd, elem_of_cons. split; [tauto|].
    intros [?|[[->|?] Hwn]]; [by left| |by right]. destruct Hskip as [?|?]; [congruence|by left].
  - specialize (IH s1 HI1). destruct (for_range l _ s1) as [r s']. destruct IH as (-> & Hk & Hd).
    { intros n' Hn' Hwn Hnn. apply Hnew; [by right|done|]. rewrite Hc in Hnn. by apply lookup_insert_None in Hnn as [? _]. }
    split; [done|]. split.
    + intros n' c Hl. apply Hk. rewrite Hc. apply lookup_insert_Some. right. split; [|done]. intros <-.
      pose proof (eq_trans (eq_sym Hno) Hl). done.
    + intros n'. rewrite Hd, Hc, lookup_insert_is_Some, elem_of_cons. destruct (decide (n = n')) as [->|]; naive_solver.
  - exfalso. destruct Hbad as [(_ & [([e He] & _)|(cs & c & Hoc)])|(cs & i & cl & e & _ & Hoc & _)].
    + destruct (Hnew n) as [cl Hcl]; [by left|done|done|congruence].
    + by rewrite Ho in Hoc.
    + by rewrite Ho in Hoc.
Qed.

Lemma poll_ok keys ctx envs s :
  keys_of keys → kind_inv opts s → ∃ e, (poll o opts keys ctx envs s).1 = Returns e.
Proof.
  intros Hk. revert s. induction envs as [|env envs IH]; intros s HI; cbn [poll]; [by eexists|].
  rewrite bind_eq. pose proof (kind_pass_ok keys env ctx s Hk HI) as H.
  destruct (kind_pass o opts keys env ctx s) as [r s1]. destruct H as [[[[|] [e|]] ->] HI1]; [by eexists..|]. by apply IH.
Qed.
End lemmas.

(** ** Properties *)

(** Complement (functional): a pass in which nothing fails makes the clusters those that are
    listed: afterwards there is a cluster exactly for the listed names with the
    prefix, those that were known are kept, and polling goes on. *)
Theorem kind_pass_matches_the_list o opts keys env ctx s l :
  keys_of keys → kind_inv opts s → ke_List env = Ok l → (∀ cs c, o cs c = None) →
  (∀ n, n ∈ l → wanted opts n = true → k_clusters s !! n = None → ∃ cl, kind_new_cluster opts env n = Ok cl) →
  let '(r, s') := kind_pass o opts keys env ctx s in
  r = keep_going ∧
  (∀ n, (∃ cl, kind_Get s' n = Ok cl) ↔ n ∈ l ∧ wanted opts n = true) ∧
  (∀ n cl, n ∈ l → kind_Get s n = Ok cl → kind_Get s' n = Ok cl).
Proof.
  intros Hk HI Hl Ho Hnew. unfold kind_pass. rewrite Hl, bind_eq.
  pose proof (kind_add_loop_ok o opts env ctx l s HI Ho Hnew) as H. pose proof (kind_add_loop_inv o opts env ctx l s HI) as HI1.
  destruct (for_range l (kind_add o opts env ctx) s) as [r s1]. cbn [snd] in HI1. destruct H as (-> & Hkeep & Hd).
  rewrite get_bind, bind_eq. destruct (Hk (k_clusters s1)) as [Hnd Hkm].
  pose proof (kind_remove_loop opts l (keys (k_clusters s1)) s1 HI1 Hnd (λ n, proj1 (Hkm n))) as H.
  destruct (for_range (keys _) _ s1) as [r s2]. destruct H as (-> & _ & Hs2). split; [done|].
  assert (∀ s n cl, kind_Get s n = Ok cl ↔ k_clusters s !! n = Some cl) as Hget.
  { intros s0 n cl. unfold kind_Get. destruct (k_clusters s0 !! n); split; congruence. }
  split.
  - intros n. setoid_rewrite Hget. rewrite Hs2. case_bool_decide as Hb.
    + split; [by intros [? ?]|]. by destruct Hb as [_ Hb]; intros [? _].
    + rewrite <-(is_Some_alt (k_clusters s1 !! n)) || fold (is_Some (k_clusters s1 !! n)). rewrite Hd. split.
      * intros Hs. assert (is_Some (k_clusters s1 !! n)) as Hs1 by (by apply Hd). split.
        -- destruct (decide (n ∈ l)); [done|]. exfalso. apply Hb. split; [by apply Hkm|done].
        -- by apply (ki_wanted _ _ HI1).
      * intros ?. by right.
  - intros n cl Hn Hc%Hget. apply Hget. rewrite Hs2, bool_decide_eq_false_2; [by apply Hkeep|]. by intros [_ ?].
Qed.

(** Complement (safety): one cluster that cannot be constructed holds up all others: the pass
    ends at it, so the clusters listed after it are not created and those that
    are gone are not removed, in this pass and in every later one. *)
Theorem broken_cluster_blocks_the_others o opts keys env ctx s pre (n : ClusterName) post e :
  kind_inv opts s → ke_List env = Ok (pre ++ n :: post) →
  (∀ m, m ∈ pre → wanted opts m = false ∨ is_Some (k_clusters s !! m)) →
  wanted opts n = true → k_clusters s !! n = None → kind_new_cluster opts env n = Err e →
  ∀ k, poll o opts keys ctx (replicate k env) s = poll o opts keys ctx [] s.
Proof.
  intros HI Hl Hpre Hw Hn Hnew.
  assert (kind_pass o opts keys env ctx s = (keep_going, s)) as Hpass.
  { unfold kind_pass. rewrite Hl, bind_eq, for_range_app.
    assert (∀ pre, (∀ m, m ∈ pre → wanted opts m = false ∨ is_Some (k_clusters s !! m)) →
      for_range (pre : list string) (kind_add o opts env ctx) s = (None, s)) as Hskip.
    { clear Hl Hpre. intros pre0 Hpre. induction pre0 as [|m pre0 IH]; [done|]. cbn [for_range]. unfold on_nil. rewrite bind_eq.
      assert (kind_add o opts env ctx m s = (None, s)) as ->.
      { pose proof (kind_add_cases o opts env ctx m s HI) as H. destruct (kind_add o opts env ctx m s) as [r s1].
        destruct (Hpre m) as [Hm|[? Hm]]; [by left|..];
          destruct H as (_ & _ & [(-> & -> & _)|[(_ & Hwm & Hno & _)|(Hwm & Hno & _)]]); try done; try congruence. }
      apply IH. intros m' Hm'. apply Hpre. by right. }
    unfold on_nil. rewrite bind_eq, (Hskip pre Hpre). cbn [for_range]. unfold on_nil. rewrite bind_eq.
    assert (kind_add o opts env ctx n s = (Some keep_going, s)) as ->; [|done].
    unfold kind_add. change (ClusterName_String n) with n.
    assert ((negb (bool_decide (Prefix opts = "")) && negb (HasPrefix n (Prefix opts))) = false) as ->.
    { unfold wanted in Hw. by destruct (bool_decide _), (HasPrefix _ _). }
    rewrite get_bind. replace (k_clusters s !! n) with (@None cluster) by (symmetry; exact Hn). by rewrite Hnew. }
  intros k. induction k as [|k IH]; [done|]. cbn [replicate poll]. by rewrite bind_eq, Hpass.
Qed.

(** Complement (safety): starting never panics - the cancel function of a cluster that
    is removed is always there - whatever kind, the clusters and the manager
    answer, for any number of passes. *)
Theorem kind_Start_never_panics o opts keys ctx mcAware first envs :
  keys_of keys → ∃ err, (kind_Start o opts keys ctx mcAware first envs kind_New).1 = Returns err.
Proof.
  intros Hk. unfold kind_Start. rewrite bind_eq. cbn [modify]. destruct first as [l|e]; [|by eexists].
  apply poll_ok; [done|]. split; simpl; [by eexists|done|]. intros n [? Hn]. by apply lookup_empty_Some in Hn.
Qed.

(** Complement (error): only an index that a new cluster refuses ends the provider: every other
    failure of a pass lets polling go on. *)
Theorem only_indexing_ends_the_provider o opts keys env ctx s err s' :
  keys_of keys → kind_inv opts s → kind_pass o opts keys env ctx s = (Returns (false, Some err), s') →
  ∃ cs cl i e, o cs (CallIndex cl ctx i) = Some e ∧ err = Wrap ("failed to index field " +:+ Index_Field i) e.
Proof.
  intros Hk HI. unfold kind_pass. destruct (ke_List env) as [l|e]; [|done]. rewrite bind_eq.
  assert (∀ s0, kind_inv opts s0 → (for_range l (kind_add o opts env ctx) s0).1 = Some (Returns (false, Some err)) →
    ∃ cs cl i e, o cs (CallIndex cl ctx i) = Some e ∧ err = Wrap ("failed to index field " +:+ Index_Field i) e) as Hloop.
  { clear. induction l as [|n l IH]; intros s HI; cbn [for_range]; [done|]. unfold on_nil. rewrite bind_eq.
    pose proof (kind_add_cases o opts env ctx n s HI) as H. pose proof (kind_add_inv o opts env ctx n s HI) as HI1.
    destruct (kind_add o opts env ctx n s) as [[r|] s1]; cbn [fst snd] in *; [|by apply IH]. intros [= ->].
    destruct H as (_ & _ & [(? & _)|[(? & _)|(_ & _ & _ & _ & [[? _]|(cs & i & cl & e & _ & He & [= ->])])]]); try done.
    by exists cs, cl, i, e. }
  specialize (Hloop s HI). destruct (for_range l _ s) as [[r|] s1]; [intros [= -> _]; by apply Hloop|].
  rewrite get_bind, bind_eq. by destruct (for_range (keys _) _ s1) as [[msg|] s2].
Qed.
End kind.

(** ** Witnesses *)
Section examples.
Let parse (kd : string) : result error string := Ok kd.
Let keys (m : gmap ClusterName cluster) : list ClusterName := (map_to_list m).*1.

Lemma ex_keys_of : keys_of keys.
Proof.
  intros m. unfold keys. split; [apply NoDup_fst_map_to_list|]. intros n. rewrite list_elem_of_fmap. split.
  - intros ([k v] & -> & Hin%elem_of_map_to_list). by eexists.
  - intros [v Hv]. exists (n, v). split; [done|]. by apply elem_of_map_to_list.
Qed.

Definition ex_kind_opts : @kind_Options string := MkKindOptions "fleet-" [].
Definition ex_kind_state : kstate := KState (Some 0) ∅ ∅ [] empty_world.
Definition ex_kind_env (broken : string) : @kind_env string :=
  MkKindEnv (Ok ["other"; "fleet-a"; "fleet-b"])
    (λ n, if bool_decide (n = broken) then Err (Errorf "no such container") else Ok "kc") (λ n _, Ok (String.length n)).

Lemma ex_kind_inv : kind_inv ex_kind_opts ex_kind_state.
Proof. split; simpl; [by eexists|done|]. intros n [? Hn]. unfold ex_kind_state in Hn. simpl in Hn. by apply lookup_empty_Some in Hn. Qed.

Lemma kind_pass_matches_the_list_witness :
  let '(r, s') := kind_pass parse all_ok ex_kind_opts keys (ex_kind_env "") Background ex_kind_state in
  r = keep_going ∧
  (∀ n, (∃ cl, kind_Get s' n = Ok cl) ↔ n ∈ ["other"; "fleet-a"; "fleet-b"] ∧ wanted ex_kind_opts n = true) ∧
  (∀ n cl, n ∈ ["other"; "fleet-a"; "fleet-b"] → kind_Get ex_kind_state n = Ok cl → kind_Get s' n = Ok cl).
Proof.
  apply (kind_pass_matches_the_list parse all_ok ex_kind_opts keys (ex_kind_env "") Background ex_kind_state);
    [apply ex_keys_of|apply ex_kind_inv|reflexivity|reflexivity|].
  intros n Hn _ _. eexists. unfold kind_new_cluster. simpl. rewrite bool_decide_eq_false_2; [reflexivity|].
  intros Heq. change (ClusterName_String n) with n in Heq. subst.
  repeat (apply elem_of_cons in Hn as [Hn|Hn]; [done|]). by apply elem_of_nil in Hn.
Defined.

Lemma broken_cluster_blocks_the_others_witness :
  poll parse all_ok ex_kind_opts keys Background (replicate 3 (ex_kind_env "fleet-a")) ex_kind_state =
  poll parse all_ok ex_kind_opts keys Background [] ex_kind_state.
Proof.
  apply (broken_cluster_blocks_the_others parse all_ok ex_kind_opts keys (ex_kind_env "fleet-a") Background ex_kind_state ["other"] "fleet-a" ["fleet-b"]
    (Errorf "no such container")); [apply ex_kind_inv|reflexivity| |reflexivity|reflexivity|reflexivity].
  intros m ->%list_elem_of_singleton. by left.
Defined.

Lemma kind_Start_never_panics_witness :
  ∃ err, (kind_Start parse all_ok ex_kind_opts keys Background 0 (Ok []) [ex_kind_env ""; ex_kind_env "fleet-a"] kind_New).1 = Returns err.
Proof. apply (kind_Start_never_panics parse all_ok ex_kind_opts keys Background 0 (Ok [])). apply ex_keys_of. Defined.

Definition no_index : oracle := fun _ c => match c with CallIndex _ _ _ => Some (Errorf "conflict") | _ => None end.

Lemma only_indexing_ends_the_provider_witness :
  ∃ cs cl i e, no_index cs (CallIndex cl Background i) = Some e ∧
    Wrap "failed to index field f" (Errorf "conflict") = Wrap ("failed to index field " +:+ Index_Field i) e.
Proof.
  set (s := KState (Some 0) ∅ ∅ [MkIndex "Pod" "f" 0] empty_world).
  eapply (only_indexing_ends_the_provider parse no_index ex_kind_opts keys (ex_kind_env "") Background s);
    [apply ex_keys_of| |vm_compute; reflexivity].
  split; simpl; [by eexists|done|]. intros n [? Hn]. by apply lookup_empty_Some in Hn.
Defined.
End examples.
