(* ===== verification/FileProvider.v ===== *)
(** * providers/file: clusters from kubeconfig files

    The provider reads all its files whenever something changes in their
    directories, and replaces the clusters it knows - a [Clusters] of
    pkg/clusters - by the contexts found.  The file system, client-go's loader
    and the constructor of clusters answer what a run asks them; fsnotify
    delivers the events. *)

From S2P Require Import Prelude GoErrors GoContext Multicluster Clusters.

Section file.
Context {rest_Config : Type}.

(* src: providers/file/provider.go:38-71 Options *)
Record file_Options := MkFileOptions {
  KubeconfigFiles : list string;
  KubeconfigDirs : list string;
  KubeconfigGlobs : list string;
  Separator : string;
}.

(* src: providers/file/provider.go:73-81 DefaultKubeconfigGlobs *)
Definition DefaultKubeconfigGlobs : list string :=
  ["kubeconfig.yaml"; "kubeconfig.yml"; "*.kubeconfig"; "*.kubeconfig.yaml"; "*.kubeconfig.yml"].

(** What [os.Stat] answers. *)
Inductive stat : Type :=
| Exists
| NotExist
| StatError (err : error).

(** The process's environment. *)
Record host := MkHost {
  Getenv_KUBECONFIG : string;
  Getenv_HOME : string;
  host_Stat : string → stat;
  Getwd : result error string;
}.

(* src: providers/file/provider.go:83-100 Provider.defaultKubeconfigPaths *)
Definition defaultKubeconfigPaths (h : host) : list string * list string :=
  if negb (bool_decide (Getenv_KUBECONFIG h = "")) then ([Getenv_KUBECONFIG h], []) else
  let defaultKubeconfig := Getenv_HOME h +:+ "/.kube/config" in
  match host_Stat h defaultKubeconfig with
  | Exists => ([defaultKubeconfig], [])
  | _ => match Getwd h with
         | Err _ => ([], ["."])
         | Ok pwd => ([], [pwd])
         end
  end.

Definition or_else {A} (l d : list A) : list A := match l with [] => d | _ => l end.

(** The options a provider works with; its clusters are new. *)
(* src: providers/file/provider.go:102-130 New *)
Definition file_New (h : host) (opts : file_Options) (GetConfig : cluster → nat) : file_Options * Clusters :=
  let '(files, dirs) := match KubeconfigFiles opts, KubeconfigDirs opts with
                        | [], [] => defaultKubeconfigPaths h
                        | files, dirs => (files, dirs)
                        end in
  (MkFileOptions files dirs (or_else (KubeconfigGlobs opts) DefaultKubeconfigGlobs)
     (if bool_decide (Separator opts = "") then "+" else Separator opts),
   Clusters.New GetConfig).

(** What the file system, client-go and [cluster.New] answer during a run: the
    files that match a glob in a directory, the names of the contexts in a
    file and their configurations. *)
Record fs := MkFs {
  fs_Stat : string → stat;
  fs_Glob : string → string → result error (list string);
  LoadFromFile : string → result error (list string);
  ClientConfig : string → string → result error rest_Config;
  cluster_New : ClusterName → rest_Config → result error cluster;
}.

Section run.
Context (p : file_Options) (f : fs).

(* src: providers/file/clusters.go:87-100 Provider.matchKubeconfigGlobs *)
Definition matchKubeconfigGlobs (dirpath : string) : list string :=
  mjoin ((λ glob, match fs_Glob f dirpath glob with Err _ => [] | Ok globMatches => globMatches end) <$> KubeconfigGlobs p).

(* src: providers/file/clusters.go:61-70 Provider.collectPaths *)
Fixpoint collect_files (files : list string) : result error (list string) :=
  match files with
  | [] => Ok []
  | file :: files =>
      match fs_Stat f file with
      | NotExist => collect_files files
      | StatError err => Err (Wrap ("failed to stat kubeconfig file " +:+ file) err)
      | Exists => match collect_files files with Err err => Err err | Ok l => Ok (file :: l) end
      end
  end.

(* src: providers/file/clusters.go:72-82 Provider.collectPaths *)
Fixpoint collect_dirs (dirs : list string) : result error (list string) :=
  match dirs with
  | [] => Ok []
  | dir :: dirs =>
      match fs_Stat f dir with
      | NotExist => collect_dirs dirs
      | StatError err => Err (Wrap ("failed to stat directory " +:+ dir) err)
      | Exists => match collect_dirs dirs with Err err => Err err | Ok l => Ok (matchKubeconfigGlobs dir ++ l) end
      end
  end.

(* src: providers/file/clusters.go:58-85 Provider.collectPaths *)
Definition collectPaths : result error (list string) :=
  match collect_files (KubeconfigFiles p) with
  | Err err => Err err
  | Ok files => match collect_dirs (KubeconfigDirs p) with Err err => Err err | Ok l => Ok (files ++ l) end
  end.

(** The contexts of a file, in the order of Go's iteration; an error of one of
    them is an error of the file. *)
(* src: providers/file/clusters.go:108-115 readFile *)
Fixpoint read_contexts (filepath : string) (names : list string) : result error (list (string * rest_Config)) :=
  match names with
  | [] => Ok []
  | name :: names =>
      match ClientConfig f filepath name with
      | Err err => Err (Wrap ("failed to create rest config for context " +:+ name) err)
      | Ok restConfig => match read_contexts filepath names with Err err => Err err | Ok l => Ok ((name, restConfig) :: l) end
      end
  end.

(* src: providers/file/clusters.go:102-118 readFile *)
Definition readFile (filepath : string) : result error (list (string * rest_Config)) :=
  match LoadFromFile f filepath with
  | Err err => Err (Wrap ("failed to load kubeconfig from file " +:+ filepath) err)
  | Ok names => read_contexts filepath names
  end.

Definition context_name (filepath name : string) : ClusterName := filepath +:+ Separator p +:+ name.

(** The first context of a name stays. *)
(* src: providers/file/clusters.go:45-52 Provider.loadClusters *)
Definition add_contexts (filepath : string) (l : list (string * rest_Config)) (m : gmap ClusterName rest_Config) : gmap ClusterName rest_Config :=
  fold_left (λ m kv, let clusterName := context_name filepath kv.1 in
                     match m !! clusterName with
                     | Some _ => m
                     | None => <[clusterName := kv.2]> m
                     end) l m.

(* src: providers/file/clusters.go:38-53 Provider.loadClusters *)
Definition load_files (filepaths : list string) : gmap ClusterName rest_Config :=
  fold_left (λ m filepath, match readFile filepath with
                           | Err _ => m
                           | Ok l => add_contexts filepath l m
                           end) filepaths ∅.

(* src: providers/file/clusters.go:120-137 Provider.fromContexts *)
Definition fromContexts (kubeCtxs : gmap ClusterName rest_Config) : gmap ClusterName cluster :=
  map_imap (λ name kubeCtx, match cluster_New f name kubeCtx with Err _ => None | Ok cl => Some cl end) kubeCtxs.

(* src: providers/file/clusters.go:32-56 Provider.loadClusters *)
Definition loadClusters : result error (gmap ClusterName cluster) :=
  match collectPaths with
  | Err err => Err err
  | Ok filepaths => Ok (fromContexts (load_files filepaths))
  end.
End run.

(** [order] is Go's iteration over the loaded clusters. *)
Definition file_order : Type := gmap ClusterName cluster → list (ClusterName * cluster).

Section start.
Context (o : oracle) (order : file_order) (p : file_Options).

(* src: providers/file/provider.go:204-211 Provider.run *)
Definition add_loaded (ctx : context) (mcAware : nat) (l : list (ClusterName * cluster)) : M kstate unit :=
  for_each l (λ kv, _ ← AddOrReplace o ctx kv.1 kv.2 (Some mcAware); mret tt).

(* src: providers/file/provider.go:213-220 Provider.run *)
Definition remove_gone (loaded : gmap ClusterName cluster) (known : list ClusterName) : M kstate unit :=
  for_each known (λ clusterName, match loaded !! clusterName with Some _ => mret tt | None => Remove clusterName end).

(* src: providers/file/provider.go:197-223 Provider.run *)
Definition file_run (f : fs) (ctx : context) (mcAware : nat) : M kstate (option error) :=
  match loadClusters p f with
  | Err err => mret (Some (Wrap "failed to load clusters" err))
  | Ok loadedClusters =>
      c ← gets k_c;
      let knownClusters := ClusterNames c in
      _ ← add_loaded ctx mcAware (order loadedClusters);
      _ ← remove_gone loadedClusters knownClusters;
      mret None
  end.

(* src: providers/file/provider.go:192-195 Provider.RunOnce *)
Definition RunOnce (f : fs) (ctx : context) (mcAware : nat) : M kstate (option error) := file_run f ctx mcAware.

(** What happens while the loop of [Start] waits: a context is cancelled, or the
    [select] takes one of its cases - the end of its own context, an event with
    what the files then are, an error of the watcher, closed channels. *)
Inductive file_event : Type :=
| FCancel (n : cancel_func)
| FDone
| FEvent (f : fs)
| FError (err : error)
| FEventsClosed
| FErrorsClosed.

(** [None]: still waiting.  [select] takes [ctx.Done()] only when the context is
    done. *)
(* src: providers/file/provider.go:167-189 Provider.Start *)
Fixpoint file_loop (ctx : context) (mcAware : nat) (evs : list file_event) : M kstate (option (option error)) :=
  match evs with
  | [] => mret None
  | FCancel n :: evs => _ ← k_world (w_cancel n); file_loop ctx mcAware evs
  | FDone :: evs =>
      s ← get;
      if done_ctx ctx (w_ctxs (k_w s)) then mret (Some (w_Err ctx (k_w s))) else file_loop ctx mcAware evs
  | FEvent f :: evs => _ ← file_run f ctx mcAware; file_loop ctx mcAware evs
  | FError _ :: evs => file_loop ctx mcAware evs
  | FEventsClosed :: _ => mret (Some (Some (Errorf "file watcher closed")))
  | FErrorsClosed :: _ => mret (Some (Some (Errorf "file watcher errors channel closed")))
  end.

(* src: providers/file/provider.go:161-165 Provider.Start *)
Fixpoint watch_all (watch : string → option error) (what : string) (l : list string) : option error :=
  match l with
  | [] => None
  | x :: l => match watch x with
              | Some err => Some (Wrap (what +:+ x) err)
              | None => watch_all watch what l
              end
  end.

(** [newWatcher] is what fsnotify answers; [watch_file] is [watcher.Add] of a file's
    directory. *)
(* src: providers/file/provider.go:141-190 Provider.Start *)
Definition file_Start (f : fs) (newWatcher : option error) (watch_file watch_dir : string → option error)
    (ctx : context) (mcAware : nat) (evs : list file_event) : M kstate (option (option error)) :=
  err ← file_run f ctx mcAware;
  match err with
  | Some err => mret (Some (Some (Wrap "initial update failed" err)))
  | None =>
      match newWatcher with
      | Some err => mret (Some (Some (Wrap "failed to create file watcher" err)))
      | None =>
          match watch_all watch_file "failed to watch parent dir of kubeconfig file " (KubeconfigFiles p) with
          | Some err => mret (Some (Some err))
          | None =>
              match watch_all watch_dir "failed to watch kubeconfig directory " (KubeconfigDirs p) with
              | Some err => mret (Some (Some err))
              | None => file_loop ctx mcAware evs
              end
          end
      end
  end.
End start.

(* src: providers/file/provider.go:225-237 Provider.Get *)
Definition file_Get (c : Clusters) (ctx : context) (clusterName : ClusterName) : result error cluster :=
  if bool_decide (clusterName = "") then
    match ClusterNames c with
    | [] => Err ErrClusterNotFound
    | name :: _ => Clusters.Get c ctx name
    end
  else Clusters.Get c ctx clusterName.

(** ** Lemmas *)

(** Any order in which Go may iterate. *)
Definition order_ok (order : file_order) : Prop := ∀ m, order m ≡ₚ map_to_list m.

(** What a run, which makes the calls [l], makes of a cluster [cl] it loaded
    under [name]: an old one with the same configuration stays; otherwise
    [cl] has taken every index and been engaged, or there is none and adding it
    has failed. *)
Definition added (s s' : kstate) (aware : nat) (l : list call) (o : oracle) (name : ClusterName) (cl : cluster) : Prop :=
  ∃ err : option error, clusters (k_c s') !! name = (if err then None else Some cl) ∧
    add_answers o name cl (Some aware) (indexers (k_c s)) err (w_calls (k_w s)) l.

Definition mirrored (s s' : kstate) (aware : nat) (l : list call) (o : oracle) (name : ClusterName) (cl : cluster) : Prop :=
  match clusters (k_c s) !! name with
  | Some old => if EqualClusters_fn (k_c s) old cl then clusters (k_c s') !! name = Some old else added s s' aware l o name cl
  | None => added s s' aware l o name cl
  end.

Section lemmas.
Context (o : oracle).

Lemma AddOrReplace_mirrors ctx n cl aware s :
  clusters_wf s →
  let s' := (AddOrReplace o ctx n cl (Some aware) s).2 in
  ∃ l, w_calls (k_w s') = w_calls (k_w s) ++ l ∧ mirrored s s' aware l o n cl.
Proof.
  intros Hwf. pose proof (AddOrReplace_frame o ctx n cl (Some aware) s Hwf) as Ha.
  pose proof (AddOrReplace_calls o ctx n cl (Some aware) s) as Hp. pose proof (AddOrReplace_answers o ctx n cl (Some aware) s) as Hw.
  destruct (AddOrReplace o ctx n cl (Some aware) s) as [err s1]. destruct Ha as (_ & _ & _ & _ & Hcl). cbn [snd] in *.
  unfold mirrored, added. destruct (clusters (k_c s) !! n) as [old|]; [destruct (EqualClusters_fn (k_c s) old cl) eqn:He|].
  { destruct Hp as [l Hl]. by exists l. }
  all: destruct Hw as (l & Hl & Hw); [naive_solver|]; exists l; split; [done|]; by exists err.
Qed.

Lemma mirrored_app s s1 s2 aware l l' name cl :
  clusters (k_c s2) !! name = clusters (k_c s1) !! name → mirrored s s1 aware l o name cl → mirrored s s2 aware (l ++ l') o name cl.
Proof.
  intros Hc. unfold mirrored, added. rewrite Hc.
  assert (∀ err, add_answers o name cl (Some aware) (indexers (k_c s)) err (w_calls (k_w s)) l →
    add_answers o name cl (Some aware) (indexers (k_c s)) err (w_calls (k_w s)) (l ++ l')) as Hm.
  { intros err. apply add_answers_mono. by eexists. }
  destruct (clusters (k_c s) !! name) as [old|]; [destruct (EqualClusters_fn _ _ _)|]; naive_solver.
Qed.

Lemma mirrored_after s s1 s2 aware l l' name cl :
  clusters (k_c s1) !! name = clusters (k_c s) !! name → EqualClusters_fn (k_c s1) = EqualClusters_fn (k_c s) →
  indexers (k_c s1) = indexers (k_c s) → w_calls (k_w s1) = w_calls (k_w s) ++ l →
  mirrored s1 s2 aware l' o name cl → mirrored s s2 aware (l ++ l') o name cl.
Proof.
  intros Hc He Hi Hl. unfold mirrored, added. rewrite Hc, He, Hi, Hl.
  assert (∀ err, _) as Ha by exact (λ err : option error, add_answers_after o name cl (Some aware) (indexers (k_c s)) err (w_calls (k_w s)) l l').
  destruct (clusters (k_c s) !! name) as [old|]; [destruct (EqualClusters_fn _ _ _)|]; naive_solver.
Qed.

Lemma add_loaded_spec ctx aware (l : list (ClusterName * cluster)) s :
  clusters_wf s → NoDup l.*1 →
  let s' := (add_loaded o ctx aware l s).2 in
  clusters_wf s' ∧
  (∀ n, n ∉ l.*1 → clusters (k_c s') !! n = clusters (k_c s) !! n) ∧
  ∃ cs, w_calls (k_w s') = w_calls (k_w s) ++ cs ∧ ∀ n cl, (n, cl) ∈ l → mirrored s s' aware cs o n cl.
Proof.
  revert s. induction l as [|[n cl] l IH]; intros s Hwf Hnd; cbn [add_loaded for_each].
  { split; [done|]. split; [done|]. exists []. split; [by rewrite app_nil_r|by intros ?? ?%elem_of_nil]. }
  apply NoDup_cons in Hnd as [Hn Hnd]. unfold add_loaded. cbn [for_each]. rewrite !bind_eq. cbn [fst snd].
  pose proof (AddOrReplace_frame o ctx n cl (Some aware) s Hwf) as Ha.
  pose proof (AddOrReplace_mirrors ctx n cl aware s Hwf) as Hm.
  destruct (AddOrReplace o ctx n cl (Some aware) s) as [err s1]. destruct Ha as (Hwf1 & Heq & Hix & Ho & Hcl).
  destruct Hm as (l1 & Hl1 & Hm). specialize (IH s1 Hwf1 Hnd). unfold mret, M_ret. unfold add_loaded in IH.
  destruct (for_each l _ s1) as [[] s2]. cbn [snd] in *. destruct IH as (Hwf2 & Hout & l2 & Hl2 & Hin).
  split; [done|]. split.
  - intros m. cbn [fmap list_fmap fst]. rewrite not_elem_of_cons. intros [Hm1 Hm2]. by rewrite Hout, Ho.
  - exists (l1 ++ l2). rewrite Hl2, Hl1, app_assoc. split; [done|].
    intros m cl' [[= -> ->]|Hm']%elem_of_cons; [by eapply mirrored_app; [apply Hout|]|].
    eapply mirrored_after; [|done..|by apply Hin]. apply Ho. intros ->. apply Hn, list_elem_of_fmap. by exists (n, cl').
Qed.

Lemma remove_gone_spec (loaded : gmap ClusterName cluster) known s :
  clusters_wf s →
  let s' := (remove_gone loaded known s).2 in
  clusters_wf s' ∧ w_calls (k_w s') = w_calls (k_w s) ∧
  ∀ n, clusters (k_c s') !! n = if bool_decide (n ∈ known ∧ loaded !! n = None) then None else clusters (k_c s) !! n.
Proof.
  revert s. induction known as [|k known IH]; intros s Hwf; cbn [remove_gone for_each].
  { split; [done|]. split; [done|]. intros n. rewrite bool_decide_eq_false_2; [done|]. by intros [?%elem_of_nil _]. }
  unfold remove_gone. cbn [for_each]. rewrite bind_eq.
  destruct (loaded !! k) as [cl|] eqn:Hk.
  - unfold mret, M_ret. destruct (IH s Hwf) as (Hwf' & Hcs' & Hs'). unfold remove_gone in *. split; [done|]. split; [done|].
    intros n. rewrite Hs'.
    destruct (decide (n = k)) as [->|Hne]; [rewrite !bool_decide_eq_false_2 by (rewrite Hk; by intros [_ ?]); done|].
    erewrite bool_decide_ext; [done|]. rewrite elem_of_cons. naive_solver.
  - pose proof (Remove_wf k s Hwf) as Hwf1. destruct (Remove_spec k s) as (Hc & _ & Hcs & _). destruct (Remove k s) as [[] s1].
    cbn [snd] in *. destruct (IH s1 Hwf1) as (Hwf' & Hcs' & Hs'). unfold remove_gone in *. split; [done|]. split; [by rewrite Hcs'|].
    intros n. rewrite Hs', Hc. cbn [clusters set_maps].
    destruct (decide (n = k)) as [->|Hne].
    + rewrite lookup_delete_eq, (bool_decide_eq_true_2 (k ∈ k :: known ∧ loaded !! k = None)) by (split; [left|done]). by case_bool_decide.
    + rewrite lookup_delete_ne by done. erewrite bool_decide_ext; [done|]. rewrite elem_of_cons. naive_solver.
Qed.

Lemma file_run_spec order p f ctx aware s loaded :
  clusters_wf s → order_ok order → loadClusters p f = Ok loaded →
  let '(err, s') := file_run o order p f ctx aware s in
  err = None ∧ clusters_wf s' ∧
  (∀ n, loaded !! n = None → clusters (k_c s') !! n = None) ∧
  ∃ l, w_calls (k_w s') = w_calls (k_w s) ++ l ∧ ∀ n cl, loaded !! n = Some cl → mirrored s s' aware l o n cl.
Proof.
  intros Hwf Hord Hl. unfold file_run. rewrite Hl. rewrite bind_eq. cbn [gets]. rewrite bind_eq.
  assert (NoDup (order loaded).*1) as Hnd by (rewrite (Hord loaded); apply NoDup_fst_map_to_list).
  assert (∀ n cl, (n, cl) ∈ order loaded ↔ loaded !! n = Some cl) as Hin by (intros n cl; by rewrite (Hord loaded), elem_of_map_to_list).
  assert (∀ n, n ∉ (order loaded).*1 ↔ loaded !! n = None) as Hnin.
  { intros n. split.
    - intros Hn. apply eq_None_not_Some. intros [cl Hcl%Hin]. apply Hn. apply list_elem_of_fmap. by exists (n, cl).
    - intros Hn ([n' cl] & -> & Hc%Hin)%list_elem_of_fmap. cbn [fst] in Hn. by rewrite Hn in Hc. }
  destruct (add_loaded_spec ctx aware (order loaded) s Hwf Hnd) as (Hwf1 & Hout & l & Hcs & Hadd).
  destruct (add_loaded o ctx aware (order loaded) s) as [[] s1]. cbn [snd] in *. rewrite bind_eq.
  destruct (remove_gone_spec loaded (ClusterNames (k_c s)) s1 Hwf1) as (Hwf2 & Hcs2 & Hs2).
  destruct (remove_gone loaded (ClusterNames (k_c s)) s1) as [[] s2]. cbn [snd] in *.
  split; [done|]. split; [done|]. split.
  - intros n Hn. rewrite Hs2. case_bool_decide as Hb; [done|]. rewrite Hout by by apply Hnin.
    destruct (clusters (k_c s) !! n) eqn:Hc; [|done]. exfalso. apply Hb. split; [|done]. apply elem_of_sorted_keys. by eexists.
  - exists l. rewrite Hcs2. split; [done|]. intros n cl Hn. rewrite <-(app_nil_r l). eapply mirrored_app; [|by apply Hadd, Hin].
    rewrite Hs2, bool_decide_eq_false_2; [done|]. rewrite Hn. by intros [_ ?].
Qed.

Lemma file_run_wf order p f ctx aware s :
  clusters_wf s → order_ok order → clusters_wf (file_run o order p f ctx aware s).2.
Proof.
  intros Hwf Hord. destruct (loadClusters p f) as [loaded|e] eqn:Hl.
  - pose proof (file_run_spec order p f ctx aware s loaded Hwf Hord Hl) as H. destruct (file_run _ _ _ _ _ _ s). by destruct H as (_ & H & _).
  - unfold file_run. by rewrite Hl.
Qed.
End lemmas.

(** ** Properties *)

(** C15 (functional): a run makes the clusters those of the files: afterwards every
    cluster is one that was loaded.  An old one whose configuration is the same
    stays; any other one that was loaded is there and has, during the run,
    taken every registered index and been engaged, or is not there, and then
    during the run its cache did not synchronise, it refused an index or its
    engagement failed.  No other cluster remains. *)
Theorem run_mirrors_the_files o order p f ctx aware s loaded :
  clusters_wf s → order_ok order → loadClusters p f = Ok loaded →
  let '(err, s') := RunOnce o order p f ctx aware s in
  err = None ∧
  (∀ n, loaded !! n = None → clusters (k_c s') !! n = None) ∧
  ∃ l, w_calls (k_w s') = w_calls (k_w s) ++ l ∧ ∀ n cl, loaded !! n = Some cl → mirrored s s' aware l o n cl.
Proof.
  intros Hwf Hord Hl. unfold RunOnce. pose proof (file_run_spec o order p f ctx aware s loaded Hwf Hord Hl) as H.
  destruct (file_run _ _ _ _ _ _ s). by destruct H as (? & _ & ?).
Qed.

(** Complement (safety): a file that cannot be read is taken for an empty one: when the only
    file of a provider exists but cannot be loaded, a run reports no error and
    leaves no cluster, whichever there were. *)
Theorem unreadable_file_removes_its_clusters o order globs sep file f ctx aware s e :
  clusters_wf s → order_ok order → fs_Stat f file = Exists → LoadFromFile f file = Err e →
  let '(err, s') := RunOnce o order (MkFileOptions [file] [] globs sep) f ctx aware s in
  err = None ∧ clusters (k_c s') = ∅.
Proof.
  intros Hwf Hord Hst Hload.
  assert (loadClusters (MkFileOptions [file] [] globs sep) f = Ok ∅) as Hl.
  { unfold loadClusters, collectPaths. simpl. rewrite Hst. simpl. unfold load_files, readFile. simpl. rewrite Hload.
    unfold fromContexts. by rewrite map_imap_empty. }
  unfold RunOnce. pose proof (file_run_spec o order _ f ctx aware s ∅ Hwf Hord Hl) as H.
  destruct (file_run _ _ _ _ _ _ s) as [err s']. destruct H as (-> & _ & H & _). split; [done|].
  apply map_eq. intros n. rewrite lookup_empty. by apply H, lookup_empty.
Qed.

(** The events that end [Start], in a state of the contexts. *)
Definition ends (ctx : context) (cs : ctx_store) (e : file_event) : bool :=
  match e with
  | FDone => done_ctx ctx cs
  | FEventsClosed | FErrorsClosed => true
  | FCancel _ | FEvent _ | FError _ => false
  end.

(** One event of the loop. *)
Lemma file_loop_cons o order p ctx aware e evs s :
  file_loop o order p ctx aware (e :: evs) s =
    let '(r, s1) := file_loop o order p ctx aware [e] s in
    match r with None => file_loop o order p ctx aware evs s1 | Some _ => (r, s1) end.
Proof.
  destruct e as [n| |f|err| |]; cbn [file_loop]; unfold mbind, M_bind, get; try done.
  - by destruct (done_ctx ctx (w_ctxs (k_w s))).
  - by destruct (file_run o order p f ctx aware s).
Qed.

Lemma file_loop_one o order p ctx aware e s :
  (file_loop o order p ctx aware [e] s).1 ≠ None ↔ ends ctx (w_ctxs (k_w s)) e = true.
Proof.
  destruct e as [n| |f|err| |]; cbn [file_loop ends]; unfold mbind, M_bind, get; try done.
  - by destruct (done_ctx ctx (w_ctxs (k_w s))).
  - by destruct (file_run o order p f ctx aware s).
Qed.

(** C35 (termination): once the first run and the watches have succeeded, [Start]
    returns exactly when the [select] finds the context done - as it is after
    everything that happened before - or the watcher closes a channel; failing
    runs and errors of the watcher never end it. *)
Theorem Start_ends_with_its_context o order p f0 watch_file watch_dir ctx aware evs s s1 :
  file_run o order p f0 ctx aware s = (None, s1) →
  watch_all watch_file "failed to watch parent dir of kubeconfig file " (KubeconfigFiles p) = None →
  watch_all watch_dir "failed to watch kubeconfig directory " (KubeconfigDirs p) = None →
  let Start evs := file_Start o order p f0 None watch_file watch_dir ctx aware evs s in
  ((Start evs).1 ≠ None ↔
   ∃ pre e, pre ++ [e] `prefix_of` evs ∧ ends ctx (w_ctxs (k_w (Start pre).2)) e = true).
Proof.
  intros Hrun Hwf Hwd. unfold file_Start. setoid_rewrite bind_eq. rewrite Hrun, Hwf, Hwd. clear. revert s1.
  induction evs as [|e evs IH]; intros s; cbv zeta.
  { split; [done|]. intros (pre & e & [k Hk] & _). by destruct pre. }
  rewrite file_loop_cons. pose proof (file_loop_one o order p ctx aware e s) as He.
  destruct (file_loop o order p ctx aware [e] s) as [[r|] s2] eqn:E1.
  { split; [|done]. intros _. exists [], e. split; [by exists evs|]. by apply He. }
  rewrite IH. split.
  - intros (pre & e' & [k ->] & Hend). exists (e :: pre), e'. split; [by exists k|]. by rewrite file_loop_cons, E1.
  - intros ([|e0 pre] & e' & [k [= <- ->]] & Hend); [by apply He in Hend|].
    exists pre, e'. split; [by exists k|]. by rewrite file_loop_cons, E1 in Hend.
Qed.

(** Complement (functional): the KUBECONFIG variable is used as it is: if it is set and no
    files or directories are given it is the one file of the provider, whether
    or not it names a file; the other defaults are not consulted. *)
Theorem KUBECONFIG_is_not_validated h globs sep GetConfig f :
  Getenv_KUBECONFIG h ≠ "" → fs_Stat f (Getenv_KUBECONFIG h) = NotExist →
  let '(p, c) := file_New h (MkFileOptions [] [] globs sep) GetConfig in
  KubeconfigFiles p = [Getenv_KUBECONFIG h] ∧ KubeconfigDirs p = [] ∧ loadClusters p f = Ok ∅.
Proof.
  intros Hk Hst. unfold file_New. simpl. unfold defaultKubeconfigPaths. rewrite bool_decide_eq_false_2 by done. simpl.
  split; [done|]. split; [done|]. unfold loadClusters, collectPaths. simpl. rewrite Hst. simpl.
  unfold load_files, fromContexts. simpl. by rewrite map_imap_empty.
Qed.

(** Complement (functional): the empty name means the first known cluster in the order of the
    names; other names mean themselves; a name that is not known, and the
    empty one when there is no cluster, is reported as not found. *)
Theorem file_Get_resolves c ctx name :
  match file_Get c ctx name with
  | Ok cl => clusters c !! name = Some cl ∧ name ≠ "" ∨
             name = "" ∧ ∃ first, clusters c !! first = Some cl ∧ ∀ n, is_Some (clusters c !! n) → string_le first n
  | Err e => Is_ErrClusterNotFound e = true ∧ (clusters c !! name = None ∧ name ≠ "" ∨ name = "" ∧ clusters c = ∅)
  end.
Proof.
  unfold file_Get, Clusters.Get, GetTyped. destruct (decide (name = "")) as [->|Hne].
  - rewrite bool_decide_eq_true_2 by done. unfold ClusterNames.
    pose proof (sorted_keys_sorted (clusters c)) as Hs. pose proof (elem_of_sorted_keys (clusters c)) as Hin.
    destruct (sorted_keys (clusters c)) as [|first rest].
    + split; [done|]. right. split; [done|]. apply map_eq. intros n. rewrite lookup_empty. apply eq_None_not_Some.
      intros Hn%Hin. by apply elem_of_nil in Hn.
    + assert (is_Some (clusters c !! (first : ClusterName))) as [cl Hcl] by (apply (Hin first); by left).
      change (clusters c !! first) with (clusters c !! (first : ClusterName)). rewrite Hcl. right. split; [done|]. exists first. split; [done|].
      intros n [->|Hn]%Hin%elem_of_cons; [by destruct (string_le_total first first)|].
      apply StronglySorted_inv in Hs as [_ Hf]. rewrite Forall_forall in Hf. by apply Hf.
  - rewrite bool_decide_eq_false_2 by done. destruct (clusters c !! name) as [cl|] eqn:Hc; [by left|].
    split; [done|]. by left.
Qed.
End file.

(** ** Examples and witnesses *)

Definition ex_order : file_order := map_to_list.

Lemma ex_order_ok : order_ok ex_order.
Proof. by intros m. Qed.

Definition ex_fs (broken : bool) : @fs string := MkFs (λ _, Exists) (λ _ _, Ok [])
  (λ path, if broken then Err (Errorf "yaml: line 1") else Ok ["ctx"]) (λ path name, Ok path) (λ name cfg, Ok 3%nat).
Definition ex_file_options : file_Options := MkFileOptions ["/a"] [] [] "+".
Definition ex_fstate : kstate := KState (Clusters.New (λ cl, cl)) empty_world [].

Lemma ex_fstate_wf : clusters_wf ex_fstate.
Proof.
  split; unfold ex_fstate, Clusters.New; simpl.
  - intros n. simpl. by rewrite !lookup_empty.
  - apply empty_store_wf.
  - intros m n Hn. by apply lookup_empty_Some in Hn.
Qed.

Definition ex_loaded : gmap ClusterName cluster := {["/a+ctx" := 3%nat]}.

Lemma run_mirrors_the_files_witness :
  let '(err, s') := RunOnce all_ok ex_order ex_file_options (ex_fs false) Background 0%nat ex_fstate in
  clusters (k_c s') = ex_loaded ∧ err = None ∧
  ∀ n, ex_loaded !! n = None → clusters (k_c s') !! n = None.
Proof.
  pose proof (run_mirrors_the_files all_ok ex_order ex_file_options (ex_fs false) Background 0%nat ex_fstate ex_loaded
    ex_fstate_wf ex_order_ok ltac:(vm_compute; reflexivity)) as H.
  destruct (RunOnce all_ok ex_order ex_file_options (ex_fs false) Background 0%nat ex_fstate) as [err s'] eqn:E.
  destruct H as (? & ? & _). split; [|by split]. vm_compute in E. injection E as _ <-. vm_compute. reflexivity.
Defined.

Lemma unreadable_file_removes_its_clusters_witness :
  let s := (RunOnce all_ok ex_order ex_file_options (ex_fs false) Background 0%nat ex_fstate).2 in
  let '(err, s') := RunOnce all_ok ex_order ex_file_options (ex_fs true) Background 0%nat s in
  err = None ∧ clusters (k_c s') = ∅.
Proof.
  apply (unreadable_file_removes_its_clusters all_ok ex_order [] "+" "/a" (ex_fs true) Background 0%nat _ (Errorf "yaml: line 1"));
    [|apply ex_order_ok|reflexivity|reflexivity].
  apply file_run_wf; [apply ex_fstate_wf|apply ex_order_ok].
Defined.

Lemma Start_ends_with_its_context_witness :
  (file_Start all_ok ex_order ex_file_options (ex_fs true) None (λ _, None) (λ _, None) (Ctx [9%nat] []) 0%nat
     [FEvent (ex_fs true); FDone; FError (Errorf "overflow"); FCancel 9%nat; FDone] ex_fstate).1 ≠ None.
Proof.
  eapply (Start_ends_with_its_context all_ok ex_order ex_file_options (ex_fs true) (λ _, None) (λ _, None) (Ctx [9%nat] []) 0%nat
    [FEvent (ex_fs true); FDone; FError (Errorf "overflow"); FCancel 9%nat; FDone] ex_fstate);
    [vm_compute; reflexivity|reflexivity|reflexivity|].
  exists [FEvent (ex_fs true); FDone; FError (Errorf "overflow"); FCancel 9%nat], FDone. split; [by exists []|].
  vm_compute. reflexivity.
Defined.

Lemma KUBECONFIG_is_not_validated_witness :
  let h := MkHost "/none" "/root" (λ _, Exists) (Ok "/") in
  let f : @fs string := MkFs (λ _, NotExist) (λ _ _, Ok []) (λ _, Ok []) (λ path name, Ok path) (λ name cfg, Ok 3%nat) in
  let '(p, c) := file_New h (MkFileOptions [] [] [] "") (λ cl, cl) in
  KubeconfigFiles p = ["/none"] ∧ KubeconfigDirs p = [] ∧ loadClusters p f = Ok ∅.
Proof.
  apply (KUBECONFIG_is_not_validated (MkHost "/none" "/root" (λ _, Exists) (Ok "/")) [] "" (λ cl, cl)
    (MkFs (λ _, NotExist) (λ _ _, Ok []) (λ _, Ok []) (λ path name, Ok path) (λ name cfg, Ok 3%nat))); [discriminate|reflexivity].
Defined.
