(* ===== verification/WebhookBuilder.v ===== *)
(** * pkg/builder/forked_webhook.go: registering admission and conversion webhooks

    The builder collects what is to be served for a type and registers it with
    the webhook server.  The server, the scheme and the conversion registry
    belong to controller-runtime: the server is the table of its paths, and a
    path that is registered twice is a panic there; the others answer. *)

From S2P Require Import Prelude GoErrors GoString Regexp Objects.

(** ** Paths *)

Record GVK := MkGVK { Group : string; Version : string; Kind : string }.

(** A string with each byte mapped. *)
Fixpoint map_chars (f : Ascii.ascii → Ascii.ascii) (s : string) : string :=
  match s with EmptyString => EmptyString | String c s => String (f c) (map_chars f s) end.

Definition in_class (lo hi : nat) (c : Ascii.ascii) : bool :=
  Nat.leb lo (Ascii.nat_of_ascii c) && Nat.leb (Ascii.nat_of_ascii c) hi.

(** [strings.ReplaceAll(s, ".", "-")], and [strings.ToLower] of an ASCII string. *)
Definition dot_to_dash (c : Ascii.ascii) : Ascii.ascii := if Ascii.eqb c (Ascii.ascii_of_nat 46) then Ascii.ascii_of_nat 45 else c.
Definition lower (c : Ascii.ascii) : Ascii.ascii :=
  if in_class 65 90 c then Ascii.ascii_of_nat (Ascii.nat_of_ascii c + 32) else c.

Definition path_suffix (gvk : GVK) : string :=
  map_chars dot_to_dash (Group gvk) +:+ "-" +:+ Version gvk +:+ "-" +:+ map_chars lower (Kind gvk).

(* src: pkg/builder/forked_webhook.go:343-346 generateMutatePath *)
Definition generateMutatePath (gvk : GVK) : string := "/mutate-" +:+ path_suffix gvk.

(* src: pkg/builder/forked_webhook.go:348-351 generateValidatePath *)
Definition generateValidatePath (gvk : GVK) : string := "/validate-" +:+ path_suffix gvk.

(* src: pkg/builder/forked_webhook.go:353-353 webhookPathStringValidation *)
Definition webhookPathStringValidation : string := "^((/[a-zA-Z0-9-_]+)+|/)$".

(** That the literal compiles is part of [custom_paths_are_checked]. *)
(* src: pkg/builder/forked_webhook.go:355-355 validWebhookPathRegex *)
Definition validWebhookPathRegex : regex := default RNone (MustCompile webhookPathStringValidation).

Definition quote : string := String (Ascii.ascii_of_nat 34) EmptyString.

Definition custom_path_error (customPath : string) : error :=
  Errorf ("customPath " +:+ quote +:+ customPath +:+ quote +:+ " does not match this regex: " +:+ webhookPathStringValidation).

(* src: pkg/builder/forked_webhook.go:357-362 generateCustomPath *)
Definition generateCustomPath (customPath : string) : result error string :=
  if MatchString validWebhookPathRegex customPath then Ok customPath
  else Err (custom_path_error customPath).

(** ** The builder *)

(** Either the builder's own constructor of loggers or the default one, which
    logs the builder's type. *)
Inductive log_constructor : Type :=
| CustomLog (f : nat)
| DefaultLog.

(** A webhook, by what serves it; interface values are numbered. *)
Inductive hook : Type :=
| WithDefaulterHook (defaulter : nat) (opts : list nat)
| WithCustomDefaulterHook (apiType defaulter : nat) (opts : list nat)
| WithValidatorHook (validator : nat)
| WithCustomValidatorHook (apiType validator : nat).

Record Webhook := MkWebhook {
  wh_hook : hook;
  wh_RecoverPanic : option bool;        (** the default if it was not set *)
  wh_LogConstructor : option log_constructor;
  wh_WithContextFunc : option nat;
}.

Inductive path_handler : Type :=
| HWebhook (w : Webhook)
| HConversion.

(* src: pkg/builder/forked_webhook.go:40-58 WebhookBuilder *)
Record WebhookBuilder := MkWebhookBuilder {
  wb_apiType : option nat;
  wb_customDefaulter : option nat;
  wb_defaulter : option nat;
  wb_customDefaulterOpts : list nat;
  wb_customValidator : option nat;
  wb_validator : option nat;
  customValidatorCustomPath : string;
  customDefaulterCustomPath : string;
  converterConstructor : option nat;
  wb_gvk : GVK;
  wb_config : option nat;
  wb_recoverPanic : option bool;
  wb_logConstructor : option log_constructor;
  wb_contextFunc : option nat;
  wb_err : option error;
}.

(* src: pkg/builder/forked_webhook.go:60-63 WebhookManagedBy *)
Definition WebhookManagedBy (object : option nat) : WebhookBuilder :=
  MkWebhookBuilder object None None [] None None "" "" None (MkGVK "" "" "") None None None None None.

(* src: pkg/builder/forked_webhook.go:65-73 WebhookBuilder.WithCustomDefaulter *)
Definition WithCustomDefaulter (defaulter : nat) (opts : list nat) (b : WebhookBuilder) : WebhookBuilder :=
  MkWebhookBuilder (wb_apiType b) (Some defaulter) (wb_defaulter b) opts (wb_customValidator b) (wb_validator b)
    (customValidatorCustomPath b) (customDefaulterCustomPath b) (converterConstructor b) (wb_gvk b) (wb_config b)
    (wb_recoverPanic b) (wb_logConstructor b) (wb_contextFunc b) (wb_err b).

(* src: pkg/builder/forked_webhook.go:75-80 WebhookBuilder.WithDefaulter *)
Definition WithDefaulter (defaulter : nat) (opts : list nat) (b : WebhookBuilder) : WebhookBuilder :=
  MkWebhookBuilder (wb_apiType b) (wb_customDefaulter b) (Some defaulter) opts (wb_customValidator b) (wb_validator b)
    (customValidatorCustomPath b) (customDefaulterCustomPath b) (converterConstructor b) (wb_gvk b) (wb_config b)
    (wb_recoverPanic b) (wb_logConstructor b) (wb_contextFunc b) (wb_err b).

(* src: pkg/builder/forked_webhook.go:82-88 WebhookBuilder.WithCustomValidator *)
Definition WithCustomValidator (validator : nat) (b : WebhookBuilder) : WebhookBuilder :=
  MkWebhookBuilder (wb_apiType b) (wb_customDefaulter b) (wb_defaulter b) (wb_customDefaulterOpts b) (Some validator) (wb_validator b)
    (customValidatorCustomPath b) (customDefaulterCustomPath b) (converterConstructor b) (wb_gvk b) (wb_config b)
    (wb_recoverPanic b) (wb_logConstructor b) (wb_contextFunc b) (wb_err b).

(* src: pkg/builder/forked_webhook.go:90-94 WebhookBuilder.WithValidator *)
Definition WithValidator (validator : nat) (b : WebhookBuilder) : WebhookBuilder :=
  MkWebhookBuilder (wb_apiType b) (wb_customDefaulter b) (wb_defaulter b) (wb_customDefaulterOpts b) (wb_customValidator b) (Some validator)
    (customValidatorCustomPath b) (customDefaulterCustomPath b) (converterConstructor b) (wb_gvk b) (wb_config b)
    (wb_recoverPanic b) (wb_logConstructor b) (wb_contextFunc b) (wb_err b).

(* src: pkg/builder/forked_webhook.go:96-101 WebhookBuilder.WithConverter *)
Definition WithConverter (constructor : nat) (b : WebhookBuilder) : WebhookBuilder :=
  MkWebhookBuilder (wb_apiType b) (wb_customDefaulter b) (wb_defaulter b) (wb_customDefaulterOpts b) (wb_customValidator b) (wb_validator b)
    (customValidatorCustomPath b) (customDefaulterCustomPath b) (Some constructor) (wb_gvk b) (wb_config b)
    (wb_recoverPanic b) (wb_logConstructor b) (wb_contextFunc b) (wb_err b).

(* src: pkg/builder/forked_webhook.go:103-107 WebhookBuilder.WithLogConstructor *)
Definition WithLogConstructor (f : nat) (b : WebhookBuilder) : WebhookBuilder :=
  MkWebhookBuilder (wb_apiType b) (wb_customDefaulter b) (wb_defaulter b) (wb_customDefaulterOpts b) (wb_customValidator b) (wb_validator b)
    (customValidatorCustomPath b) (customDefaulterCustomPath b) (converterConstructor b) (wb_gvk b) (wb_config b)
    (wb_recoverPanic b) (Some (CustomLog f)) (wb_contextFunc b) (wb_err b).

(* src: pkg/builder/forked_webhook.go:109-113 WebhookBuilder.WithContextFunc *)
Definition WithContextFunc (f : nat) (b : WebhookBuilder) : WebhookBuilder :=
  MkWebhookBuilder (wb_apiType b) (wb_customDefaulter b) (wb_defaulter b) (wb_customDefaulterOpts b) (wb_customValidator b) (wb_validator b)
    (customValidatorCustomPath b) (customDefaulterCustomPath b) (converterConstructor b) (wb_gvk b) (wb_config b)
    (wb_recoverPanic b) (wb_logConstructor b) (Some f) (wb_err b).

(* src: pkg/builder/forked_webhook.go:115-120 WebhookBuilder.RecoverPanic *)
Definition RecoverPanic (recoverPanic : bool) (b : WebhookBuilder) : WebhookBuilder :=
  MkWebhookBuilder (wb_apiType b) (wb_customDefaulter b) (wb_defaulter b) (wb_customDefaulterOpts b) (wb_customValidator b) (wb_validator b)
    (customValidatorCustomPath b) (customDefaulterCustomPath b) (converterConstructor b) (wb_gvk b) (wb_config b)
    (Some recoverPanic) (wb_logConstructor b) (wb_contextFunc b) (wb_err b).

(* src: pkg/builder/forked_webhook.go:122-126 WebhookBuilder.WithValidatorCustomPath *)
Definition WithValidatorCustomPath (customPath : string) (b : WebhookBuilder) : WebhookBuilder :=
  MkWebhookBuilder (wb_apiType b) (wb_customDefaulter b) (wb_defaulter b) (wb_customDefaulterOpts b) (wb_customValidator b) (wb_validator b)
    customPath (customDefaulterCustomPath b) (converterConstructor b) (wb_gvk b) (wb_config b)
    (wb_recoverPanic b) (wb_logConstructor b) (wb_contextFunc b) (wb_err b).

(* src: pkg/builder/forked_webhook.go:128-132 WebhookBuilder.WithDefaulterCustomPath *)
Definition WithDefaulterCustomPath (customPath : string) (b : WebhookBuilder) : WebhookBuilder :=
  MkWebhookBuilder (wb_apiType b) (wb_customDefaulter b) (wb_defaulter b) (wb_customDefaulterOpts b) (wb_customValidator b) (wb_validator b)
    (customValidatorCustomPath b) customPath (converterConstructor b) (wb_gvk b) (wb_config b)
    (wb_recoverPanic b) (wb_logConstructor b) (wb_contextFunc b) (wb_err b).

(** ** Registration *)

(** The webhook server's table - none before the first registration - and the
    registry of converters. *)
Record wserver := WServer {
  WebhookMux : option (gmap string path_handler);
  converters : list (string * string * nat);
}.

(** What the manager and its scheme answer. *)
Record wenv := MkWEnv {
  mgr_GetConfig : nat;
  GVKForObject : nat → result error GVK;
  IsConvertible : nat → result error bool;
  construct_converter : nat → result error nat;
  RegisterConverter : GVK → nat → option error;
}.

Section register.
Context (env : wenv).

(** The builder and the server. *)
Definition wstate : Type := WebhookBuilder * wserver.

Definition w_server (f : wserver → wserver) : M wstate unit := modify (λ s, (s.1, f s.2)).

(* src: pkg/builder/forked_webhook.go:332-341 WebhookBuilder.isAlreadyHandled *)
Definition isAlreadyHandled (path : string) (s : wserver) : bool :=
  match WebhookMux s with
  | None => false
  | Some mux => bool_decide (is_Some (mux !! path))
  end.

(** [Register] of the server: registering a path again is a panic. *)
Definition Register (path : string) (h : path_handler) : M wstate (outcome (option error)) :=
  '(b, s) ← get;
  let mux := default ∅ (WebhookMux s) in
  match mux !! path with
  | Some _ => mret (Panics ("can't register duplicate path: " +:+ path))
  | None => _ ← put (b, WServer (Some (<[path := h]> mux)) (converters s)); mret (Returns None)
  end.

(* src: pkg/builder/forked_webhook.go:146-150 WebhookBuilder.loadRestConfig *)
Definition loadRestConfig : M wstate unit :=
  modify (λ s, let b := s.1 in
    (MkWebhookBuilder (wb_apiType b) (wb_customDefaulter b) (wb_defaulter b) (wb_customDefaulterOpts b) (wb_customValidator b) (wb_validator b)
       (customValidatorCustomPath b) (customDefaulterCustomPath b) (converterConstructor b) (wb_gvk b)
       (match wb_config b with None => Some (mgr_GetConfig env) | Some c => Some c end)
       (wb_recoverPanic b) (wb_logConstructor b) (wb_contextFunc b) (wb_err b), s.2)).

(* src: pkg/builder/forked_webhook.go:152-170 WebhookBuilder.setLogConstructor *)
Definition setLogConstructor : M wstate unit :=
  modify (λ s, let b := s.1 in
    (MkWebhookBuilder (wb_apiType b) (wb_customDefaulter b) (wb_defaulter b) (wb_customDefaulterOpts b) (wb_customValidator b) (wb_validator b)
       (customValidatorCustomPath b) (customDefaulterCustomPath b) (converterConstructor b) (wb_gvk b) (wb_config b)
       (wb_recoverPanic b) (match wb_logConstructor b with None => Some DefaultLog | Some f => Some f end) (wb_contextFunc b) (wb_err b), s.2)).

Definition set_gvk (gvk : GVK) : M wstate unit :=
  modify (λ s, let b := s.1 in
    (MkWebhookBuilder (wb_apiType b) (wb_customDefaulter b) (wb_defaulter b) (wb_customDefaulterOpts b) (wb_customValidator b) (wb_validator b)
       (customValidatorCustomPath b) (customDefaulterCustomPath b) (converterConstructor b) gvk (wb_config b)
       (wb_recoverPanic b) (wb_logConstructor b) (wb_contextFunc b) (wb_err b), s.2)).

(* src: pkg/builder/forked_webhook.go:325-330 WebhookBuilder.getType *)
Definition getType (b : WebhookBuilder) : result error nat :=
  match wb_apiType b with
  | Some t => Ok t
  | None => Err (Errorf "NewWebhookManagedBy() must be called with a valid object")
  end.

(* src: pkg/builder/forked_webhook.go:232-246 WebhookBuilder.getDefaultingWebhook *)
Definition getDefaultingWebhook (b : WebhookBuilder) : result error (option Webhook) :=
  let w h := Some (MkWebhook h (wb_recoverPanic b) None None) in
  match wb_defaulter b with
  | Some d =>
      match wb_customDefaulter b with
      | Some _ => Err (Errorf "only one of Defaulter or CustomDefaulter can be set")
      | None => Ok (w (WithDefaulterHook d (wb_customDefaulterOpts b)))
      end
  | None =>
      match wb_customDefaulter b with
      | Some d => Ok (w (WithCustomDefaulterHook (default 0%nat (wb_apiType b)) d (wb_customDefaulterOpts b)))
      | None => Ok None
      end
  end.

(* src: pkg/builder/forked_webhook.go:279-294 WebhookBuilder.getValidatingWebhook *)
Definition getValidatingWebhook (b : WebhookBuilder) : result error (option Webhook) :=
  let w h := Some (MkWebhook h (wb_recoverPanic b) None None) in
  match wb_validator b with
  | Some v =>
      match wb_customValidator b with
      | Some _ => Err (Errorf "only one of Validator or CustomValidator can be set")
      | None => Ok (w (WithValidatorHook v))
      end
  | None =>
      match wb_customValidator b with
      | Some v => Ok (w (WithCustomValidatorHook (default 0%nat (wb_apiType b)) v))
      | None => Ok None
      end
  end.

(** A webhook as it is registered, and its path. *)
Definition finish (b : WebhookBuilder) (w : Webhook) : Webhook :=
  MkWebhook (wh_hook w) (wh_RecoverPanic w) (wb_logConstructor b) (wb_contextFunc b).

Definition path_or (customPath path : string) : result error string :=
  if bool_decide (customPath = "") then Ok path else generateCustomPath customPath.

Definition register_hook (w : result error (option Webhook)) (path : result error string) : M wstate (outcome (option error)) :=
  '(b, s) ← get;
  match w with
  | Err err => mret (Returns (Some err))
  | Ok None => mret (Returns None)
  | Ok (Some w) =>
      match path with
      | Err err => mret (Returns (Some err))
      | Ok path => if isAlreadyHandled path s then mret (Returns None) else Register path (HWebhook (finish b w))
      end
  end.

(* src: pkg/builder/forked_webhook.go:201-230 WebhookBuilder.registerDefaultingWebhook *)
Definition registerDefaultingWebhook : M wstate (outcome (option error)) :=
  '(b, _) ← get;
  register_hook (getDefaultingWebhook b) (path_or (customDefaulterCustomPath b) (generateMutatePath (wb_gvk b))).

(* src: pkg/builder/forked_webhook.go:248-277 WebhookBuilder.registerValidatingWebhook *)
Definition registerValidatingWebhook : M wstate (outcome (option error)) :=
  '(b, _) ← get;
  register_hook (getValidatingWebhook b) (path_or (customValidatorCustomPath b) (generateValidatePath (wb_gvk b))).

(* src: pkg/builder/forked_webhook.go:317-322 WebhookBuilder.registerConversionWebhook *)
Definition serve_conversion : M wstate (outcome (option error)) :=
  '(_, s) ← get;
  if isAlreadyHandled "/convert" s then mret (Returns None) else Register "/convert" HConversion.

(* src: pkg/builder/forked_webhook.go:296-323 WebhookBuilder.registerConversionWebhook *)
Definition registerConversionWebhook : M wstate (outcome (option error)) :=
  '(b, _) ← get;
  match converterConstructor b with
  | Some c =>
      match construct_converter env c with
      | Err err => mret (Returns (Some err))
      | Ok converter =>
          match RegisterConverter env (wb_gvk b) converter with
          | Some err => mret (Returns (Some err))
          | None =>
              _ ← w_server (λ s, WServer (WebhookMux s) (converters s ++ [(Group (wb_gvk b), Kind (wb_gvk b), converter)]));
              serve_conversion
          end
      end
  | None =>
      match IsConvertible env (default 0%nat (wb_apiType b)) with
      | Err err => mret (Returns (Some err))
      | Ok false => mret (Returns None)
      | Ok true => serve_conversion
      end
  end.

(** A step that may fail, then the next one. *)
Definition and_then (m k : M wstate (outcome (option error))) : M wstate (outcome (option error)) :=
  r ← m;
  match r with
  | Panics msg => mret (Panics msg)
  | Returns (Some err) => mret (Returns (Some err))
  | Returns None => k
  end.

(* src: pkg/builder/forked_webhook.go:172-199 WebhookBuilder.registerWebhooks *)
Definition registerWebhooks : M wstate (outcome (option error)) :=
  '(b, _) ← get;
  match getType b with
  | Err err => mret (Returns (Some err))
  | Ok typ =>
      match GVKForObject env typ with
      | Err err => mret (Returns (Some err))
      | Ok gvk =>
          _ ← set_gvk gvk;
          and_then registerDefaultingWebhook (and_then registerValidatingWebhook (and_then registerConversionWebhook
            ('(b, _) ← get; mret (Returns (wb_err b)))))
      end
  end.

(* src: pkg/builder/forked_webhook.go:134-144 WebhookBuilder.Complete *)
Definition wb_Complete : M wstate (outcome (option error)) :=
  _ ← loadRestConfig;
  _ ← setLogConstructor;
  registerWebhooks.
End register.

(** ** Lemmas *)

(** What the server serves at a path. *)
Definition served (s : wserver) (path : string) : option path_handler := WebhookMux s ≫= λ mux, mux !! path.

Lemma isAlreadyHandled_served path s : isAlreadyHandled path s = bool_decide (is_Some (served s path)).
Proof. unfold isAlreadyHandled, served. destruct (WebhookMux s); [done|]. symmetry. apply bool_decide_eq_false_2. by intros [? ?]. Qed.

(** Registering unless handled: never a panic, and nothing is replaced. *)
Lemma register_unless_handled path h (bs : wstate) :
  let '(r, bs') := (if isAlreadyHandled path bs.2 then (Returns None, bs) else Register path h bs) in
  r = Returns None ∧ bs'.1 = bs.1 ∧ (∀ p, p ≠ path → served bs'.2 p = served bs.2 p) ∧
  served bs'.2 path = Some (default h (served bs.2 path)) ∧ converters bs'.2 = converters bs.2.
Proof.
  destruct bs as [b s]. cbn [fst snd]. rewrite isAlreadyHandled_served. case_bool_decide as Hs.
  - destruct Hs as [h' Hh]. cbn [fst snd]. rewrite Hh. by split_ands.
  - assert (served s path = None) as Hn by by apply eq_None_not_Some.
    unfold Register. rewrite get_bind. cbn [fst snd].
    assert (default ∅ (WebhookMux s) !! path = None) as -> .
    { unfold served in Hn. destruct (WebhookMux s); [done|apply lookup_empty]. }
    unfold put, mbind, M_bind, mret, M_ret. cbn [fst snd]. rewrite Hn. split_ands; try done.
    + intros p Hp. unfold served. simpl. rewrite lookup_insert_ne by done. destruct (WebhookMux s); [done|apply lookup_empty].
    + unfold served. simpl. apply lookup_insert_eq.
Qed.

Lemma register_hook_spec w path (bs : wstate) :
  let '(r, bs') := register_hook w path bs in
  bs'.1 = bs.1 ∧ converters bs'.2 = converters bs.2 ∧
  match w, path with
  | Err e, _ => r = Returns (Some e) ∧ bs' = bs
  | Ok None, _ => r = Returns None ∧ bs' = bs
  | Ok (Some _), Err e => r = Returns (Some e) ∧ bs' = bs
  | Ok (Some hk), Ok p => r = Returns None ∧ (∀ p', p' ≠ p → served bs'.2 p' = served bs.2 p') ∧
                          served bs'.2 p = Some (default (HWebhook (finish bs.1 hk)) (served bs.2 p))
  end.
Proof.
  destruct bs as [b s]. unfold register_hook. rewrite get_bind. destruct w as [[hk|]|e]; [|done..]. destruct path as [p|e]; [|done].
  pose proof (register_unless_handled p (HWebhook (finish b hk)) (b, s)) as H. cbn [fst snd] in H.
  destruct (isAlreadyHandled p s).
  - destruct H as (_ & ? & ? & ? & ?). by split_ands.
  - destruct (Register p _ (b, s)) as [r bs']. destruct H as (-> & ? & ? & ? & ?). by split_ands.
Qed.

Section complete.
Context (env : wenv).

(** The builder as the registration uses it. *)
Definition prepared (b : WebhookBuilder) (gvk : GVK) : WebhookBuilder :=
  MkWebhookBuilder (wb_apiType b) (wb_customDefaulter b) (wb_defaulter b) (wb_customDefaulterOpts b) (wb_customValidator b) (wb_validator b)
    (customValidatorCustomPath b) (customDefaulterCustomPath b) (converterConstructor b) gvk
    (match wb_config b with None => Some (mgr_GetConfig env) | Some c => Some c end)
    (wb_recoverPanic b) (match wb_logConstructor b with None => Some DefaultLog | Some f => Some f end) (wb_contextFunc b) (wb_err b).

Definition mutate_path (b : WebhookBuilder) (gvk : GVK) : result error string :=
  path_or (customDefaulterCustomPath b) (generateMutatePath gvk).
Definition validate_path (b : WebhookBuilder) (gvk : GVK) : result error string :=
  path_or (customValidatorCustomPath b) (generateValidatePath gvk).

Lemma conversion_spec (bs : wstate) :
  let '(r, bs') := registerConversionWebhook env bs in
  (∃ e, r = Returns e) ∧ bs'.1 = bs.1 ∧ (∀ p, p ≠ "/convert" → served bs'.2 p = served bs.2 p) ∧
  (∀ h, served bs.2 "/convert" = Some h → served bs'.2 "/convert" = Some h) ∧
  (r = Returns None → (∃ c, converterConstructor bs.1 = Some c) ∨ IsConvertible env (default 0%nat (wb_apiType bs.1)) = Ok true →
     is_Some (served bs'.2 "/convert")).
Proof.
  destruct bs as [b s]. unfold registerConversionWebhook. rewrite get_bind.
  assert (∀ s0, WebhookMux s0 = WebhookMux s →
    let '(r, bs') := serve_conversion (b, s0) in
    (∃ e, r = Returns e) ∧ bs'.1 = b ∧ (∀ p, p ≠ "/convert" → served bs'.2 p = served s p) ∧
    (∀ h, served s "/convert" = Some h → served bs'.2 "/convert" = Some h) ∧ is_Some (served bs'.2 "/convert")) as Hserve'.
  { intros s0 Hm. unfold serve_conversion. rewrite get_bind.
    pose proof (register_unless_handled "/convert" HConversion (b, s0)) as H. cbn [fst snd] in H.
    assert (∀ p, served s0 p = served s p) as Hsv by (intros p; unfold served; by rewrite Hm).
    destruct (isAlreadyHandled "/convert" s0).
    - destruct H as (_ & _ & Ho & Hh & _). unfold mret, M_ret. cbn [fst snd] in *. split; [by eexists|]. split; [done|]. split; [done|].
      split; [intros h Hx; by rewrite Hsv|rewrite Hh; by eexists].
    - destruct (Register _ _ (b, s0)) as [r bs']. destruct H as (-> & Hb & Ho & Hh & _). cbn [fst snd] in *.
      split; [by eexists|]. split; [done|]. split; [intros p Hp; by rewrite Ho|].
      split; [intros h Hx; by rewrite Hh, Hsv, Hx|rewrite Hh; by eexists]. }
  destruct (converterConstructor b) as [c|] eqn:Hc; cbn [fst snd].
  - destruct (construct_converter env c) as [conv|e].
    2:{ unfold mret, M_ret. cbn [fst snd]. split_ands; try done. by eexists. }
    destruct (RegisterConverter env (wb_gvk b) conv) as [e|].
    { unfold mret, M_ret. cbn [fst snd]. split_ands; try done. by eexists. }
    rewrite bind_eq. unfold w_server at 1, modify. cbn [fst snd].
    specialize (Hserve' (WServer (WebhookMux s) (converters s ++ [(Group (wb_gvk b), Kind (wb_gvk b), conv)])) eq_refl).
    destruct (serve_conversion _) as [r bs']. destruct Hserve' as (? & ? & ? & ? & Hp). by split_ands.
  - destruct (IsConvertible env _) as [[|]|e] eqn:Hcv.
    + specialize (Hserve' s eq_refl). destruct (serve_conversion _) as [r bs']. destruct Hserve' as (? & ? & ? & ? & Hp). by split_ands.
    + unfold mret, M_ret. cbn [fst snd]. split_ands; try done; [by eexists|]. intros _ [[? ?]|?]; cbn [fst] in *; congruence.
    + unfold mret, M_ret. cbn [fst snd]. split_ands; try done. by eexists.
Qed.

Lemma and_then_ok (m k : M wstate (outcome (option error))) bs bs' : m bs = (Returns None, bs') → and_then m k bs = k bs'.
Proof. intros H. unfold and_then. by rewrite bind_eq, H. Qed.

Lemma and_then_error (m k : M wstate (outcome (option error))) bs bs' e :
  m bs = (Returns (Some e), bs') → and_then m k bs = (Returns (Some e), bs').
Proof. intros H. unfold and_then. by rewrite bind_eq, H. Qed.

(** The three registrations, once the type is known. *)
Definition registrations : M wstate (outcome (option error)) :=
  and_then registerDefaultingWebhook (and_then registerValidatingWebhook (and_then (registerConversionWebhook env)
    ('(b, _) ← get; mret (Returns (wb_err b))))).

Lemma Complete_run b s typ gvk :
  wb_apiType b = Some typ → GVKForObject env typ = Ok gvk → wb_Complete env (b, s) = registrations (prepared b gvk, s).
Proof.
  intros Ht Hg. destruct b. cbn [wb_apiType] in Ht. subst. unfold wb_Complete, loadRestConfig, setLogConstructor, registerWebhooks, getType. rewrite !bind_eq.
  cbv beta iota delta [modify get mbind M_bind]. cbn [fst snd wb_apiType]. rewrite Hg. reflexivity.
Qed.

(** One registration keeps what is served. *)
Definition keeps (s s' : wserver) : Prop := ∀ p h, served s p = Some h → served s' p = Some h.

Lemma register_hook_keeps w path bs :
  ∃ r bs', register_hook w path bs = (Returns r, bs') ∧ bs'.1 = bs.1 ∧ keeps bs.2 bs'.2.
Proof.
  pose proof (register_hook_spec w path bs) as H. destruct (register_hook w path bs) as [r bs']. destruct H as (Hb & _ & H).
  destruct w as [[hk|]|e]; [destruct path as [p|e]|..]; destruct H as (-> & H); [|subst bs'; do 2 eexists; (split; [done|]); (split; [done|]); by intros ? ?..].
  destruct H as (Ho & Hp). do 2 eexists. split_ands; [done|done|]. intros p' h Hh. destruct (decide (p' = p)) as [->|Hne].
  - by rewrite Hp, Hh.
  - by rewrite Ho.
Qed.

Lemma defaulting_eq bs : registerDefaultingWebhook bs =
  register_hook (getDefaultingWebhook bs.1) (mutate_path bs.1 (wb_gvk bs.1)) bs.
Proof. by destruct bs. Qed.

Lemma validating_eq bs : registerValidatingWebhook bs =
  register_hook (getValidatingWebhook bs.1) (validate_path bs.1 (wb_gvk bs.1)) bs.
Proof. by destruct bs. Qed.

Lemma conversion_keeps bs :
  ∃ r bs', registerConversionWebhook env bs = (Returns r, bs') ∧ bs'.1 = bs.1 ∧ keeps bs.2 bs'.2.
Proof.
  pose proof (conversion_spec bs) as H. destruct (registerConversionWebhook env bs) as [r bs'].
  destruct H as ((e & ->) & Hb & Ho & Hc & _). do 2 eexists. split_ands; [done|done|]. intros p h Hh.
  destruct (decide (p = "/convert")) as [->|Hne]; [by apply Hc|by rewrite Ho].
Qed.

(** What remains after the defaulting webhook. *)
Lemma last_registrations_keep bs :
  ∃ r bs', and_then (registerConversionWebhook env) ('(b, _) ← get; mret (Returns (wb_err b))) bs = (Returns r, bs') ∧ keeps bs.2 bs'.2.
Proof.
  destruct (conversion_keeps bs) as (r & bs' & Hr & _ & Hk). destruct r as [e|].
  - do 2 eexists. by rewrite (and_then_error _ _ _ _ _ Hr).
  - rewrite (and_then_ok _ _ _ _ Hr), get_bind. destruct bs'. by do 2 eexists.
Qed.

Lemma registrations_keep bs : ∃ r bs', registrations bs = (Returns r, bs') ∧ keeps bs.2 bs'.2.
Proof.
  unfold registrations. destruct (register_hook_keeps (getDefaultingWebhook bs.1) (mutate_path bs.1 (wb_gvk bs.1)) bs) as ([e|] & bs1 & H1 & _ & K1);
    rewrite <-defaulting_eq in H1.
  { do 2 eexists. by rewrite (and_then_error _ _ _ _ _ H1). }
  rewrite (and_then_ok _ _ _ _ H1).
  destruct (register_hook_keeps (getValidatingWebhook bs1.1) (validate_path bs1.1 (wb_gvk bs1.1)) bs1) as ([e|] & bs2 & H2 & _ & K2);
    rewrite <-validating_eq in H2.
  { do 2 eexists. rewrite (and_then_error _ _ _ _ _ H2). split; [done|]. intros p h Hh. by apply K2, K1. }
  rewrite (and_then_ok _ _ _ _ H2). destruct (last_registrations_keep bs2) as (r & bs3 & -> & K3).
  do 2 eexists. split; [done|]. intros p h Hh. by apply K3, K2, K1.
Qed.

(** The webhook registered for one role: served at the path, unless something was. *)
Definition role_served (b : WebhookBuilder) (w : option Webhook) (path : string) (s s' : wserver) : Prop :=
  ∀ hk, w = Some hk → served s' path = Some (default (HWebhook (finish b hk)) (served s path)).
End complete.

(** ** Custom paths *)

(** Letters, digits, dash and underscore. *)
Definition path_char (c : Ascii.ascii) : bool :=
  in_class 97 122 c || in_class 65 90 c || in_class 48 57 c || in_class 45 45 c || in_class 95 95 c.

(** The paths that are allowed: the root, or one or more segments, each a slash
    and at least one of these characters. *)
Definition segment (x : string) : Prop := x ≠ "" ∧ all_chars path_char x = true.
Definition slashed (segs : list string) : string := foldr (λ x r, "/" +:+ x +:+ r) "" segs.
Definition webhook_path (s : string) : Prop := s = "/" ∨ ∃ segs, segs ≠ [] ∧ Forall segment segs ∧ s = slashed segs.

(** What the literal says. *)
Definition path_set : char_set := [(chr 97, chr 122); (chr 65, chr 90); (chr 48, chr 57); (chr 45, chr 45); (chr 95, chr 95)].
Definition slash_set : char_set := [(slash, slash)].

Lemma webhookPathStringValidation_compiles :
  MustCompile webhookPathStringValidation =
    Some (RAlt (RPlus (RSeq (RSet slash_set) (RPlus (RSet path_set)))) (RSet slash_set)).
Proof. reflexivity. Qed.

Lemma path_set_chars c : in_set path_set c = path_char c.
Proof. destruct c as [[] [] [] [] [] [] [] []]; reflexivity. Qed.

Lemma slash_set_char c : in_set slash_set c = true ↔ c = slash.
Proof. destruct c as [[] [] [] [] [] [] [] []]; vm_compute; by split. Qed.

Lemma all_chars_ext f g s : (∀ c, f c = g c) → all_chars f s = all_chars g s.
Proof. intros H. induction s as [|c s IH]; simpl; [done|]. by rewrite H, IH. Qed.

Lemma slash_segment_iff s : lang (RSeq (RSet slash_set) (RPlus (RSet path_set))) s ↔ ∃ x, segment x ∧ s = "/" +:+ x.
Proof.
  rewrite lang_seq_iff. setoid_rewrite lang_set_iff. setoid_rewrite lang_set_plus_iff.
  setoid_rewrite (all_chars_ext _ _ _ path_set_chars). split.
  - intros (? & x & -> & (c & -> & ->%slash_set_char) & Hx). by exists x.
  - intros (x & Hx & ->). exists "/", x. split_ands; [done| |apply Hx|apply Hx]. exists slash. split; [done|]. by apply slash_set_char.
Qed.

Lemma slashed_concat segs : slashed segs = concat_strings (String.append "/" <$> segs).
Proof. induction segs as [|x segs IH]; simpl; [done|]. by rewrite IH. Qed.

Lemma validWebhookPathRegex_spec s : MatchString validWebhookPathRegex s = true ↔ webhook_path s.
Proof.
  rewrite MatchString_lang. unfold validWebhookPathRegex. rewrite webhookPathStringValidation_compiles.
  change (default RNone (Some ?r)) with r. rewrite lang_alt_iff, lang_plus_iff, lang_set_iff. unfold webhook_path. split.
  - intros [(l & Hne & Hl & ->)|(c & -> & ->%slash_set_char)]; [right|by left].
    assert (∃ segs, Forall segment segs ∧ l = String.append "/" <$> segs) as (segs & Hs & ->).
    { clear Hne. induction Hl as [|y l (x & Hx & ->)%slash_segment_iff _ (segs & Hs & ->)]; [by exists []|].
      exists (x :: segs). split; [by constructor|done]. }
    exists segs. rewrite slashed_concat. split_ands; [by intros ->|done|done].
  - intros [->|(segs & Hne & Hs & ->)]; [right; exists slash; split; [done|by apply slash_set_char]|left].
    exists (String.append "/" <$> segs). rewrite slashed_concat. split_ands; [by destruct segs| |done].
    apply list.Forall_fmap. eapply Forall_impl; [exact Hs|]. intros x Hx. apply slash_segment_iff. by exists x.
Qed.

Lemma map_chars_class f (g h : Ascii.ascii → bool) s :
  (∀ c, g c = true → h (f c) = true) → all_chars g s = true → all_chars h (map_chars f s) = true.
Proof.
  intros Hf. induction s as [|c s IH]; simpl; [done|]. intros [Hc Hs]%andb_true_iff. by rewrite Hf, IH.
Qed.

(** The characters of a group: those of a path and the dot. *)
Definition group_char (c : Ascii.ascii) : bool := path_char c || Ascii.eqb c (Ascii.ascii_of_nat 46).

Lemma dot_to_dash_char c : group_char c = true → path_char (dot_to_dash c) = true.
Proof. destruct c as [[] [] [] [] [] [] [] []]; vm_compute; done. Qed.

Lemma lower_char c : path_char c = true → path_char (lower c) = true.
Proof. destruct c as [[] [] [] [] [] [] [] []]; vm_compute; done. Qed.

Lemma path_suffix_chars gvk :
  all_chars group_char (Group gvk) = true → all_chars path_char (Version gvk) = true → all_chars path_char (Kind gvk) = true →
  all_chars path_char (path_suffix gvk) = true.
Proof.
  intros Hg Hv Hk. unfold path_suffix. rewrite !all_chars_app, Hv.
  rewrite (map_chars_class _ _ _ _ dot_to_dash_char Hg), (map_chars_class _ _ _ _ lower_char Hk). reflexivity.
Qed.

(** One of the two roles: what it serves, if anything is asked for. *)
Lemma role_step w p rw rp bs :
  rw = Ok w → rp = Ok p →
  ∃ bs', register_hook rw rp bs = (Returns None, bs') ∧ bs'.1 = bs.1 ∧ (∀ p', p' ≠ p → served bs'.2 p' = served bs.2 p') ∧
    role_served bs.1 w p bs.2 bs'.2.
Proof.
  intros -> ->. pose proof (register_hook_spec (Ok w) (Ok p) bs) as H. destruct (register_hook _ _ bs) as [r bs'].
  destruct H as (Hb & _ & H). exists bs'. destruct w as [hk|].
  - destruct H as (-> & Ho & Hp). split_ands; try done. by intros ? [= <-].
  - destruct H as (-> & ->). by split_ands.
Qed.

Lemma last_registrations_convert env bs :
  ∃ r bs', and_then (registerConversionWebhook env) ('(b, _) ← get; mret (Returns (wb_err b))) bs = (Returns r, bs') ∧ keeps bs.2 bs'.2 ∧
    (r = None → (∃ c, converterConstructor bs.1 = Some c) ∨ IsConvertible env (default 0%nat (wb_apiType bs.1)) = Ok true →
     is_Some (served bs'.2 "/convert")).
Proof.
  pose proof (conversion_spec env bs) as H. destruct (conversion_keeps env bs) as (r & bs' & Hr & _ & Hk).
  rewrite Hr in H. destruct H as (_ & _ & _ & _ & Hc). destruct r as [e|].
  - do 2 eexists. by rewrite (and_then_error _ _ _ _ _ Hr).
  - rewrite (and_then_ok _ _ _ _ Hr), get_bind. destruct bs'. do 2 eexists. split_ands; [done|done|]. intros _. by apply Hc.
Qed.

(** [Complete] after the first, and after the second of its registrations. *)
Definition after_validating env : M wstate (outcome (option error)) :=
  and_then (registerConversionWebhook env) ('(b, _) ← get; mret (Returns (wb_err b))).

Lemma Complete_defaulting env b s typ gvk dw mp :
  wb_apiType b = Some typ → GVKForObject env typ = Ok gvk → getDefaultingWebhook b = Ok dw → mutate_path b gvk = Ok mp →
  ∃ s1, wb_Complete env (b, s) = and_then registerValidatingWebhook (after_validating env) (prepared env b gvk, s1) ∧
    (∀ p, p ≠ mp → served s1 p = served s p) ∧ role_served (prepared env b gvk) dw mp s s1.
Proof.
  intros Ht Hg Hd Hmp. rewrite (Complete_run env b s typ gvk Ht Hg). unfold registrations.
  set (b' := prepared env b gvk).
  destruct (role_step dw mp (getDefaultingWebhook b') (mutate_path b' gvk) (b', s) Hd Hmp) as ([b1 s1] & H1 & Hb1 & Ho1 & Hr1).
  change (register_hook _ _ (b', s)) with (registerDefaultingWebhook (b', s)) in H1. rewrite (and_then_ok _ _ _ _ H1).
  cbn [fst snd] in *. subst b1. by exists s1.
Qed.

Lemma Complete_validating env b s typ gvk dw mp vw vp :
  wb_apiType b = Some typ → GVKForObject env typ = Ok gvk → getDefaultingWebhook b = Ok dw → mutate_path b gvk = Ok mp →
  getValidatingWebhook b = Ok vw → validate_path b gvk = Ok vp →
  ∃ s1 s2, wb_Complete env (b, s) = after_validating env (prepared env b gvk, s2) ∧
    (∀ p, p ≠ mp → served s1 p = served s p) ∧ role_served (prepared env b gvk) dw mp s s1 ∧
    (∀ p, p ≠ vp → served s2 p = served s1 p) ∧ role_served (prepared env b gvk) vw vp s1 s2.
Proof.
  intros Ht Hg Hd Hmp Hv Hvp. destruct (Complete_defaulting env b s typ gvk dw mp Ht Hg Hd Hmp) as (s1 & -> & Ho1 & Hr1).
  set (b' := prepared env b gvk) in *.
  destruct (role_step vw vp (getValidatingWebhook b') (validate_path b' gvk) (b', s1) Hv Hvp) as ([b2 s2] & H2 & Hb2 & Ho2 & Hr2).
  change (register_hook _ _ (b', s1)) with (registerValidatingWebhook (b', s1)) in H2. rewrite (and_then_ok _ _ _ _ H2).
  cbn [fst snd] in *. subst b2. by exists s1, s2.
Qed.

(** ** Properties *)

(** Complement (safety): whatever a builder holds and whatever the server serves,
    [Complete] returns: it never registers a path twice, which would be a
    panic, and every path that was served is served by the same handler
    afterwards. *)
Theorem Complete_never_replaces env b s :
  ∃ r bs', wb_Complete env (b, s) = (Returns r, bs') ∧ keeps s bs'.2.
Proof.
  destruct (wb_apiType b) as [typ|] eqn:Ht; [destruct (GVKForObject env typ) as [gvk|e] eqn:Hg|].
  - rewrite (Complete_run env b s typ gvk Ht Hg). apply (registrations_keep env (prepared env b gvk, s)).
  - destruct b. cbn [wb_apiType] in Ht. subst. unfold wb_Complete, registerWebhooks. rewrite !bind_eq.
    cbv beta iota delta [modify get mbind M_bind loadRestConfig setLogConstructor]. cbn [fst snd getType wb_apiType]. rewrite Hg. do 2 eexists. split; [reflexivity|by intros ? ?].
  - destruct b. cbn [wb_apiType] in Ht. subst. do 2 eexists. split; [reflexivity|by intros ? ?].
Qed.

(** C18 (functional): for a type that the scheme knows and options that do not
    contradict each other, [Complete] returns - with whatever the conversion
    webhook reports - and each of the defaulting and the validating webhook
    that was asked for is served at its path with the builder's logger and
    context function, unless the path was served already, in which case it
    still is as it was; and where nothing is reported and the type converts,
    [/convert] is served. *)
Theorem Complete_serves_the_webhooks env b s typ gvk dw vw mp vp :
  wb_apiType b = Some typ → GVKForObject env typ = Ok gvk →
  getDefaultingWebhook b = Ok dw → getValidatingWebhook b = Ok vw →
  mutate_path b gvk = Ok mp → validate_path b gvk = Ok vp → mp ≠ vp →
  ∃ r bs', wb_Complete env (b, s) = (Returns r, bs') ∧
    role_served (prepared env b gvk) dw mp s bs'.2 ∧
    role_served (prepared env b gvk) vw vp s bs'.2 ∧
    (r = None → (∃ c, converterConstructor b = Some c) ∨ IsConvertible env typ = Ok true → is_Some (served bs'.2 "/convert")).
Proof.
  intros Ht Hg Hd Hv Hmp Hvp Hne.
  destruct (Complete_validating env b s typ gvk dw mp vw vp Ht Hg Hd Hmp Hv Hvp) as (s1 & s2 & -> & Ho1 & Hr1 & Ho2 & Hr2).
  destruct (last_registrations_convert env (prepared env b gvk, s2)) as (r & bs3 & H3 & K3 & Hc3).
  exists r, bs3. split; [exact H3|]. split; [|split].
  - intros hk Hk. apply K3. cbn [snd]. rewrite Ho2 by done. by apply Hr1.
  - intros hk Hk. apply K3. cbn [snd]. rewrite (Hr2 _ Hk). by rewrite (Ho1 vp) by done.
  - intros Hr Hc. apply Hc3; [done|]. cbn. by rewrite Ht.
Qed.

(** C37 (functional): the check of a custom path, as the regular expression is
    written: its literal compiles, and the paths that are accepted are the
    root alone and those made of one or more segments, each a slash and at
    least one letter, digit, dash or underscore; every other path is refused
    with an error that names it. *)
Theorem custom_paths_are_checked :
  is_Some (MustCompile webhookPathStringValidation) ∧
  ∀ customPath, match generateCustomPath customPath with
                | Ok p => p = customPath ∧ webhook_path customPath
                | Err e => e = custom_path_error customPath ∧ ¬ webhook_path customPath
                end.
Proof.
  split; [rewrite webhookPathStringValidation_compiles; by eexists|]. intros customPath. unfold generateCustomPath.
  destruct (MatchString validWebhookPathRegex customPath) eqn:Hm; (split; [done|]); rewrite <-validWebhookPathRegex_spec; congruence.
Qed.

(** Complement (type): for a group of letters, digits, dashes and dots, and a version and
    a kind of letters and digits, the two generated paths are paths that the
    check of custom paths would accept, and they differ. *)
Theorem generated_paths_are_valid gvk :
  all_chars group_char (Group gvk) = true → all_chars path_char (Version gvk) = true → all_chars path_char (Kind gvk) = true →
  webhook_path (generateMutatePath gvk) ∧ webhook_path (generateValidatePath gvk) ∧ generateMutatePath gvk ≠ generateValidatePath gvk.
Proof.
  intros Hg Hv Hk. pose proof (path_suffix_chars gvk Hg Hv Hk) as Hs. split_ands; [| |done]; right.
  - exists ["mutate-" +:+ path_suffix gvk]. split_ands; [done| |by unfold slashed; cbn [foldr]; rewrite append_nil_r].
    constructor; [|constructor]. split; [done|]. by rewrite all_chars_app, Hs.
  - exists ["validate-" +:+ path_suffix gvk]. split_ands; [done| |by unfold slashed; cbn [foldr]; rewrite append_nil_r].
    constructor; [|constructor]. split; [done|]. by rewrite all_chars_app, Hs.
Qed.

(** Complement (safety): a defaulter and a validator with the same custom path: [Complete]
    reports nothing, the defaulter is served there and the validator nowhere,
    so requests are admitted that the validator would have denied. *)
Theorem same_custom_path_drops_the_validator env b s typ gvk dw vw p :
  wb_apiType b = Some typ → GVKForObject env typ = Ok gvk →
  getDefaultingWebhook b = Ok (Some dw) → getValidatingWebhook b = Ok (Some vw) →
  mutate_path b gvk = Ok p → validate_path b gvk = Ok p →
  converterConstructor b = None → IsConvertible env typ = Ok false → wb_err b = None → served s p = None →
  ∃ bs', wb_Complete env (b, s) = (Returns None, bs') ∧
    served bs'.2 p = Some (HWebhook (finish (prepared env b gvk) dw)) ∧ ∀ p', p' ≠ p → served bs'.2 p' = served s p'.
Proof.
  intros Ht Hg Hd Hv Hmp Hvp Hcc Hconv Herr Hs.
  destruct (Complete_validating env b s typ gvk (Some dw) p (Some vw) p Ht Hg Hd Hmp Hv Hvp) as (s1 & s2 & -> & Ho1 & Hr1 & Ho2 & Hr2).
  specialize (Hr1 _ eq_refl). specialize (Hr2 _ eq_refl). rewrite Hr1 in Hr2. rewrite Hs in Hr2.
  exists (prepared env b gvk, s2). split; [|split; [done|]].
  - unfold after_validating. rewrite (and_then_ok _ _ _ (prepared env b gvk, s2)); [rewrite get_bind; cbn; by rewrite Herr|].
    unfold registerConversionWebhook. rewrite get_bind. cbn. rewrite Hcc, Ht. cbn. by rewrite Hconv.
  - intros p' Hp'. cbn [snd]. by rewrite Ho2, Ho1.
Qed.

(** Complement (error): both kinds of validator, or a custom path for it that is not one,
    is reported, but after the defaulting webhook has been registered: the
    manager serves it although [Complete] failed. *)
Theorem refused_validator_leaves_the_defaulter env b s typ gvk dw mp e :
  wb_apiType b = Some typ → GVKForObject env typ = Ok gvk →
  getDefaultingWebhook b = Ok (Some dw) → mutate_path b gvk = Ok mp →
  getValidatingWebhook b = Err e ∨ (∃ vw, getValidatingWebhook b = Ok (Some vw) ∧ validate_path b gvk = Err e) →
  ∃ bs', wb_Complete env (b, s) = (Returns (Some e), bs') ∧ role_served (prepared env b gvk) (Some dw) mp s bs'.2.
Proof.
  intros Ht Hg Hd Hmp Hv. destruct (Complete_defaulting env b s typ gvk (Some dw) mp Ht Hg Hd Hmp) as (s1 & -> & Ho1 & Hr1).
  exists (prepared env b gvk, s1). split; [|exact Hr1]. apply and_then_error. rewrite validating_eq.
  change (getValidatingWebhook (prepared env b gvk, s1).1) with (getValidatingWebhook b).
  change (validate_path (prepared env b gvk, s1).1 (wb_gvk (prepared env b gvk, s1).1)) with (validate_path b gvk).
  unfold register_hook. rewrite get_bind. by destruct Hv as [->|(vw & -> & ->)].
Qed.

(** ** Witnesses *)

Definition demo_gvk : GVK := MkGVK "apps.example" "v1" "Crew".

(** The type 7 is known and does not convert. *)
Definition demo_env : wenv :=
  MkWEnv 1%nat (λ t, if Nat.eqb t 7 then Ok demo_gvk else Err (Errorf "no kind is registered for the type"))
    (λ _, Ok false) (λ c, Ok c) (λ _ _, None).

Definition demo_builder : WebhookBuilder := WithCustomValidator 3%nat (WithDefaulter 2%nat [] (WebhookManagedBy (Some 7%nat))).

Definition demo_server : wserver := WServer None [].

Example demo_paths :
  generateMutatePath demo_gvk = "/mutate-apps-example-v1-crew" ∧ generateValidatePath demo_gvk = "/validate-apps-example-v1-crew".
Proof. split; reflexivity. Qed.

Lemma Complete_serves_the_webhooks_witness :
  ∃ r bs', wb_Complete demo_env (demo_builder, demo_server) = (Returns r, bs') ∧
    role_served (prepared demo_env demo_builder demo_gvk) (Some (MkWebhook (WithDefaulterHook 2 []) None None None)) "/mutate-apps-example-v1-crew" demo_server bs'.2 ∧
    role_served (prepared demo_env demo_builder demo_gvk) (Some (MkWebhook (WithCustomValidatorHook 7 3) None None None)) "/validate-apps-example-v1-crew" demo_server bs'.2 ∧
    (r = None → (∃ c, converterConstructor demo_builder = Some c) ∨ IsConvertible demo_env 7 = Ok true → is_Some (served bs'.2 "/convert")).
Proof. apply (Complete_serves_the_webhooks demo_env demo_builder demo_server 7 demo_gvk); first [reflexivity|discriminate]. Defined.

Lemma generated_paths_are_valid_witness :
  webhook_path (generateMutatePath demo_gvk) ∧ webhook_path (generateValidatePath demo_gvk) ∧ generateMutatePath demo_gvk ≠ generateValidatePath demo_gvk.
Proof. apply (generated_paths_are_valid demo_gvk); reflexivity. Defined.

Definition same_path_builder : WebhookBuilder := WithDefaulterCustomPath "/admit" (WithValidatorCustomPath "/admit" demo_builder).

Lemma same_custom_path_drops_the_validator_witness :
  ∃ bs', wb_Complete demo_env (same_path_builder, demo_server) = (Returns None, bs') ∧
    served bs'.2 "/admit" = Some (HWebhook (finish (prepared demo_env same_path_builder demo_gvk) (MkWebhook (WithDefaulterHook 2 []) None None None))) ∧
    ∀ p', p' ≠ "/admit" → served bs'.2 p' = served demo_server p'.
Proof.
  apply (same_custom_path_drops_the_validator demo_env same_path_builder demo_server 7 demo_gvk
           _ (MkWebhook (WithCustomValidatorHook 7 3) None None None) "/admit"); reflexivity.
Defined.

Definition bad_path_builder : WebhookBuilder := WithValidatorCustomPath "/a//b" demo_builder.

Lemma refused_validator_leaves_the_defaulter_witness :
  ∃ bs', wb_Complete demo_env (bad_path_builder, demo_server) = (Returns (Some (custom_path_error "/a//b")), bs') ∧
    role_served (prepared demo_env bad_path_builder demo_gvk) (Some (MkWebhook (WithDefaulterHook 2 []) None None None))
      "/mutate-apps-example-v1-crew" demo_server bs'.2.
Proof.
  apply (refused_validator_leaves_the_defaulter demo_env bad_path_builder demo_server 7 demo_gvk); try reflexivity.
  right. exists (MkWebhook (WithCustomValidatorHook 7 3) None None None). split; reflexivity.
Defined.
