(* ===== verification/EndToEnd.v ===== *)
(** * The parts together: from a provider's clusters to reconciles in them

    The providers implement the interface [Provider] of the manager; here each
    becomes an instance, its promise about [Get] and its promise about indexes
    are discharged, and what the manager and the controllers do with any
    provider is proved against the interface alone. *)

From S2P Require Import Prelude GoErrors GoContext Multicluster NamespaceClient NamespaceProvider Reconcile Handler Source Basic Manager Clusters SimpleProviders ActiveClusters KubeconfigProvider ClusterAPIProvider InventoryProvider KindProvider FileProvider.

(** ** Providers as the manager sees them *)

(** A provider's own method, run in the world of its caller. *)
Definition run_in {S A} (set_w : world → S → S) (get_w : S → world) (m : M S A) (s : S) : M world (S * A) :=
  λ w, let '(a, s') := m (set_w w s) in ((s', a), get_w s').

Section providers.
Context (o : oracle).

(** Go iterates over the maps in an order of its own, of which [map_to_list] is one. *)
Definition kube_Provider : Provider astate := {|
  provider_Get := kube_Get;
  provider_IndexField s ctx i :=
    run_in (λ w s, AState (a_clusters s) (a_indexers s) w) a_w (kube_IndexField o ctx i (map_to_list (a_clusters s))) s;
|}.

Definition capi_Provider : Provider astate := {|
  provider_Get s _ n := capi_Get s n;
  provider_IndexField s ctx i :=
    run_in (λ w s, AState (a_clusters s) (a_indexers s) w) a_w (capi_IndexField o ctx i (map_to_list (a_clusters s))) s;
|}.

Definition inv_Provider {rest_Config} : Provider (istate (rest_Config:=rest_Config)) := {|
  provider_Get s _ n := inv_Get s n;
  provider_IndexField s ctx i :=
    run_in (λ w s, IState (i_mcMgr s) (i_clusters s) (i_cancelFns s) (i_kubeconfig s) (i_indexers s) w) i_w
      (inv_IndexField o ctx i (map_to_list (i_clusters s))) s;
|}.

Definition kind_Provider : Provider KindProvider.kstate := {|
  provider_Get s _ n := kind_Get s n;
  provider_IndexField s ctx i :=
    run_in (λ w s, KindProvider.KState (k_mcAware s) (k_clusters s) (k_cancelFns s) (k_indexers s) w) KindProvider.k_w
      (kind_IndexField o ctx i (map_to_list (k_clusters s))) s;
|}.

(** The file provider is [Clusters] with a [Get] of its own. *)
Definition file_Provider : Provider Clusters := {|
  provider_Get := file_Get;
  provider_IndexField := @provider_IndexField _ (Clusters_Provider o);
|}.

Definition ns_Provider : Provider (nstate world) := {|
  provider_Get s _ n := ns_Get s n;
  provider_IndexField s ctx i :=
    run_in (λ w s, NState (n_cluster s) (n_mcAware s) (n_clusters s) (n_cancelFns s) (n_heap s) w) n_w
      (ns_IndexField (SW:=outside o) o ctx i) s;
|}.

(** What [Get] promises. *)
Program Definition kube_ProviderSpec : @ProviderSpec astate kube_Provider := {|
  known s n := ac_Cluster <$> a_clusters s !! n;
|}.
Next Obligation. intros s ctx n cl. simpl. unfold kube_Get, getCluster. destruct (a_clusters s !! n); by intros [= <-]. Qed.
Next Obligation. intros s ctx n. simpl. unfold kube_Get, getCluster. destruct (a_clusters s !! n); [done|]. by eexists. Qed.

Program Definition capi_ProviderSpec : @ProviderSpec astate capi_Provider := {|
  known s n := ac_Cluster <$> a_clusters s !! n;
|}.
Next Obligation. intros s ctx n cl. simpl. unfold capi_Get. destruct (a_clusters s !! n); by intros [= <-]. Qed.
Next Obligation. intros s ctx n. simpl. unfold capi_Get. destruct (a_clusters s !! n); [done|]. by eexists. Qed.

Program Definition inv_ProviderSpec {rest_Config} : @ProviderSpec (istate (rest_Config:=rest_Config)) inv_Provider := {|
  known s n := i_clusters s !! n;
|}.
Next Obligation. intros R s ctx n cl. simpl. unfold inv_Get. by intros ->. Qed.
Next Obligation. intros R s ctx n. simpl. unfold inv_Get. intros ->. by eexists. Qed.

Program Definition kind_ProviderSpec : @ProviderSpec KindProvider.kstate kind_Provider := {|
  known s n := k_clusters s !! n;
|}.
Next Obligation. intros s ctx n cl. simpl. unfold kind_Get. by intros ->. Qed.
Next Obligation. intros s ctx n. simpl. unfold kind_Get. intros ->. by eexists. Qed.

Program Definition ns_ProviderSpec : @ProviderSpec (nstate world) ns_Provider := {|
  known s n := n_clusters s !! n;
|}.
Next Obligation. intros s ctx n cl. simpl. unfold ns_Get. by intros ->. Qed.
Next Obligation. intros s ctx n. simpl. unfold ns_Get. intros ->. by eexists. Qed.

(** The empty name is the first cluster in the order of the names. *)
Definition file_known (c : Clusters) (n : ClusterName) : option cluster :=
  if bool_decide (n = "") then head (ClusterNames c) ≫= λ name, clusters c !! name else clusters c !! n.

Program Definition file_ProviderSpec : @ProviderSpec Clusters file_Provider := {| known := file_known |}.
Next Obligation.
  intros c ctx n cl. simpl. unfold file_known, file_Get, Clusters.Get, GetTyped. case_bool_decide as Hn.
  - destruct (ClusterNames c) as [|name l]; [done|]. simpl. by intros ->.
  - by intros ->.
Qed.
Next Obligation.
  intros c ctx n. simpl. unfold file_known, file_Get, Clusters.Get, GetTyped. case_bool_decide as Hn.
  - destruct (ClusterNames c) as [|name l] eqn:Hl; [by eexists|]. simpl. intros ->. by eexists.
  - intros ->. by eexists.
Qed.
End providers.

(** ** Indexes through the manager *)

(** What [IndexField] promises to the manager when it reports nothing: it has
    asked its clusters and nobody else, every one of them has accepted, and it
    still knows the same clusters. *)
Class IndexingProvider (o : oracle) (P : Type) `{PS : ProviderSpec P} : Prop :=
  indexes_known p ctx i w p' w' :
    provider_IndexField p ctx i w = ((p', None), w') →
    (∀ n, known p' n = known p n) ∧
    ∃ l, w' = World (w_ctxs w) (w_calls w ++ l) ∧
      (∀ c, c ∈ l → ∃ n cl, known p n = Some cl ∧ c = CallIndex cl ctx i) ∧
      ∀ n cl, known p n = Some cl → answered_in o (w_calls w) l (CallIndex cl ctx i) None.

Section indexing.
Context (o : oracle).

(** A loop that asks the cluster of every entry, up to the first refusal. *)
Lemma index_range_accepts {A} (f : A → cluster) (g : A → string) (body : A → M world (option error)) ctx i l w w' :
  for_range l body w = (None, w') →
  (∀ x w, body x w = (Wrap (g x) <$> o (w_calls w) (CallIndex (f x) ctx i),
     World (w_ctxs w) (w_calls w ++ [CallIndex (f x) ctx i]))) →
  w' = World (w_ctxs w) (w_calls w ++ ((λ x, CallIndex (f x) ctx i) <$> l)) ∧
  ∀ x, x ∈ l → answered_in o (w_calls w) ((λ x, CallIndex (f x) ctx i) <$> l) (CallIndex (f x) ctx i) None.
Proof.
  intros H Hb. revert w H. induction l as [|x l IH]; intros w; cbn [for_range].
  { intros [= <-]. simpl. rewrite app_nil_r. split; [by destruct w|]. by intros ? ?%elem_of_nil. }
  unfold on_nil. rewrite bind_eq, Hb.
  destruct (o (w_calls w) _) as [e|] eqn:Ho; [done|]. simpl. intros H. destruct (IH _ H) as [-> Hl].
  simpl in *. split; [by rewrite <-app_assoc|].
  intros y [->|Hy]%elem_of_cons; [rewrite <-Ho; apply answered_in_here|].
  by apply (answered_in_app o _ [_]), Hl.
Qed.

(** The same over a map, whose entries are the clusters the provider knows. *)
Lemma index_map_accepts {A} (m : gmap ClusterName A) (f : A → cluster) (g : ClusterName * A → string)
    (body : ClusterName * A → M world (option error)) ctx i w w' :
  for_range (map_to_list m) body w = (None, w') →
  (∀ x w, body x w = (Wrap (g x) <$> o (w_calls w) (CallIndex (f x.2) ctx i),
     World (w_ctxs w) (w_calls w ++ [CallIndex (f x.2) ctx i]))) →
  ∃ l, w' = World (w_ctxs w) (w_calls w ++ l) ∧
    (∀ c, c ∈ l → ∃ n cl, f <$> m !! n = Some cl ∧ c = CallIndex cl ctx i) ∧
    ∀ n cl, f <$> m !! n = Some cl → answered_in o (w_calls w) l (CallIndex cl ctx i) None.
Proof.
  intros H Hb. destruct (index_range_accepts (λ kv, f kv.2) g body ctx i _ w w' H Hb) as [-> Hl].
  eexists. split_ands; [done|..].
  - intros c ((n & x) & -> & Hin%elem_of_map_to_list)%list_elem_of_fmap. exists n, (f x). by rewrite Hin.
  - intros n cl (x & Hx & ->)%fmap_Some. by apply (Hl (n, x)), elem_of_map_to_list.
Qed.

#[local] Ltac answers := let x := fresh in let w := fresh in intros x w; destruct x; unfold index_active; cbn [fst snd]; unfold mbind, M_bind, mret, M_ret, ask; destruct (o _ _); reflexivity.

(** The loop of a provider whose [known] is a map of its state. *)
#[local] Ltac by_map m f g ctx i Hr :=
  let Hm := fresh in let l := fresh "l" in let Hc := fresh in let Hl := fresh in
  pose proof (index_map_accepts m f g _ ctx i _ _ Hr) as Hm;
  match type of Hm with ?P → _ => assert (P) as Hb by answers; specialize (Hm Hb); clear Hb end;
  destruct Hm as (l & -> & Hc & Hl);
  exists l; split_ands; [done
    |let x := fresh in let H := fresh in
     intros x H; destruct (Hc _ H) as (? & ? & ? & ?); do 2 eexists; split; [|eassumption]
    |let n := fresh in let x := fresh in let H := fresh in intros n x H; apply (Hl n)];
  (eassumption || by rewrite option_fmap_id in * || by rewrite option_fmap_id).

#[export] Instance single_indexes : @IndexingProvider o single _ (single_ProviderSpec o).
Proof.
  intros p ctx i w p' w'. simpl. unfold single_IndexField. run_m. destruct (o _ _) eqn:Ho; [done|]. intros [= <- <-].
  split; [done|]. exists [CallIndex (sp_cl p) ctx i]. split_ands; [done|..]; simpl.
  - intros c ->%list_elem_of_singleton. exists (sp_name p), (sp_cl p). by rewrite bool_decide_eq_true_2.
  - intros n cl. case_bool_decide; [|done]. intros [= <-]. rewrite <-Ho. apply answered_in_here.
Qed.

#[export] Instance nop_indexes : @IndexingProvider o nop _ nop_ProviderSpec.
Proof.
  intros p ctx i w p' w'. destruct p. intros H. injection H as <-. split; [done|]. exists []. rewrite app_nil_r. split_ands; [by destruct w|..|done].
  by intros c ?%elem_of_nil.
Qed.

#[export] Instance kube_indexes : @IndexingProvider o astate _ (kube_ProviderSpec o).
Proof.
  intros s ctx i w p' w'. simpl. unfold run_in, kube_IndexField, addIndexer, modify, a_world. rewrite bind_eq. cbn [a_w a_clusters a_indexers].
  destruct (for_range _ _ w) as [err w1] eqn:Hr. intros [= <- -> <-]. split; [done|].
  by_map (a_clusters s) ac_Cluster (λ kv : ClusterName * activeCluster, "failed to index field " +:+ Index_Field i +:+ " on cluster " +:+ kv.1) ctx i Hr.
Qed.

#[export] Instance capi_indexes : @IndexingProvider o astate _ (capi_ProviderSpec o).
Proof.
  intros s ctx i w p' w'. simpl. unfold run_in, capi_IndexField, modify, a_world. rewrite bind_eq. cbn [a_w a_clusters a_indexers].
  destruct (for_range _ _ w) as [err w1] eqn:Hr. intros [= <- -> <-]. split; [done|].
  by_map (a_clusters s) ac_Cluster (λ kv : ClusterName * activeCluster, "failed to index field " +:+ Index_Field i +:+ " on cluster " +:+ kv.1) ctx i Hr.
Qed.

#[export] Instance inv_indexes {R} : @IndexingProvider o (istate (rest_Config:=R)) _ (inv_ProviderSpec o).
Proof.
  intros s ctx i w p' w'. simpl. unfold run_in, inv_IndexField, modify, i_world. rewrite bind_eq. cbn.
  destruct (for_range _ _ w) as [err w1] eqn:Hr. intros [= <- -> <-]. split; [done|].
  by_map (i_clusters s) (λ c : cluster, c) (λ kv : ClusterName * cluster, "failed to index field " +:+ Index_Field i +:+ " on ClusterProfile " +:+ kv.1) ctx i Hr.
Qed.

#[export] Instance kind_indexes : @IndexingProvider o KindProvider.kstate _ (kind_ProviderSpec o).
Proof.
  intros s ctx i w p' w'. simpl. unfold run_in, kind_IndexField, modify, KindProvider.k_world. rewrite bind_eq. cbn.
  destruct (for_range _ _ w) as [err w1] eqn:Hr. intros [= <- -> <-]. split; [done|].
  by_map (k_clusters s) (λ c : cluster, c) (λ kv : ClusterName * cluster, "failed to index field " +:+ Index_Field i +:+ " on cluster " +:+ kv.1) ctx i Hr.
Qed.

(** [Clusters] asks all of them and joins the errors. *)
Lemma clusters_accept (c c' : Clusters) ctx i w w' :
  (let '(err, s) := IndexField o ctx i (Clusters.KState c w []) in ((Clusters.k_c s, err), Clusters.k_w s)) = ((c', None), w') →
  clusters c' = clusters c ∧
  ∃ l, w' = World (w_ctxs w) (w_calls w ++ l) ∧
    (∀ x, x ∈ l → ∃ n cl, clusters c !! n = Some cl ∧ x = CallIndex cl ctx i) ∧
    ∀ n cl, clusters c !! n = Some cl → answered_in o (w_calls w) l (CallIndex cl ctx i) None.
Proof.
  unfold IndexField. run_m. unfold Clusters.k_world; simpl.
  pose proof (index_all_trace o ctx i (map_to_list (clusters c)) w) as Ha.
  destruct (index_all o ctx i (map_to_list (clusters c)) w) as [err w1]. destruct Ha as (l & -> & Hc & Ht). simpl in *.
  intros [= <- -> <-]. split; [done|]. exists l. split_ands; [done|..].
  - intros x (n & cl & Hn%elem_of_map_to_list & ->)%Hc. by exists n, cl.
  - intros n cl Hn%elem_of_map_to_list. destruct (Ht _ _ Hn) as (r & Ha & Hr). destruct r; [by destruct Hr|done].
Qed.

#[export] Instance Clusters_indexes : @IndexingProvider o Clusters _ (Clusters_ProviderSpec o).
Proof. intros c ctx i w c' w' [Hc Hl]%clusters_accept. split; [intros n; simpl; by rewrite Hc|exact Hl]. Qed.

Lemma file_known_in (c : Clusters) n cl : file_known c n = Some cl → ∃ n', clusters c !! n' = Some cl.
Proof.
  unfold file_known. case_bool_decide; [|eauto]. destruct (head (ClusterNames c)); simpl; [eauto|done].
Qed.

(** A cluster stored under the empty name would be the first in the order. *)
Lemma known_in_file (c : Clusters) n cl : clusters c !! n = Some cl → file_known c n = Some cl.
Proof.
  intros Hn. unfold file_known. case_bool_decide as He; [|done]. subst n.
  assert ("" ∈ ClusterNames c) as Hin by (apply elem_of_sorted_keys; by eexists).
  pose proof (sorted_keys_sorted (clusters c)) as Hs. fold (ClusterNames c) in Hs.
  destruct (ClusterNames c) as [|x l]; [by apply elem_of_nil in Hin|]. simpl.
  enough (x = "") as -> by done. apply elem_of_cons in Hin as [<-|Hin]; [done|].
  apply StronglySorted_inv in Hs as [_ Hx]. rewrite list.Forall_forall in Hx. specialize (Hx _ Hin).
  destruct x; [done|]. by vm_compute in Hx.
Qed.

#[export] Instance file_indexes : @IndexingProvider o Clusters _ (file_ProviderSpec o).
Proof.
  intros c ctx i w c' w' (Hc & l & -> & Hl & Ha)%clusters_accept.
  split; [intros n; simpl; unfold file_known, ClusterNames; by rewrite Hc|].
  exists l. split_ands; [done|..].
  - intros x (n & cl & Hn & ->)%Hl. exists n, cl. split; [by apply known_in_file|done].
  - intros n cl (n' & Hn)%file_known_in. by apply (Ha n').
Qed.
End indexing.

(** ** Any of the shipped providers *)

(** The manager's provider is an interface value: one of these, whose methods
    are the ones of the type it holds. *)
Inductive AnyProvider {rest_Config : Type} : Type :=
| PSingle (p : single)
| PNop (p : nop)
| PClusters (p : Clusters)
| PFile (p : Clusters)
| PKubeconfig (p : astate)
| PClusterAPI (p : astate)
| PInventory (p : istate (rest_Config:=rest_Config))
| PKind (p : KindProvider.kstate).
Arguments AnyProvider : clear implicits.

Section any.
Context {R : Type} (o : oracle).

Definition rewrap {S A} (f : S → AnyProvider R) (m : M world (S * A)) : M world (AnyProvider R * A) :=
  '(p, a) ← m; mret (f p, a).

Definition any_Provider : Provider (AnyProvider R) := {|
  provider_Get v ctx n :=
    match v with
    | PSingle p => @provider_Get _ (single_Provider o) p ctx n
    | PNop p => @provider_Get _ nop_Provider p ctx n
    | PClusters p => @provider_Get _ (Clusters_Provider o) p ctx n
    | PFile p => @provider_Get _ (file_Provider o) p ctx n
    | PKubeconfig p => @provider_Get _ (kube_Provider o) p ctx n
    | PClusterAPI p => @provider_Get _ (capi_Provider o) p ctx n
    | PInventory p => @provider_Get _ (inv_Provider o) p ctx n
    | PKind p => @provider_Get _ (kind_Provider o) p ctx n
    end;
  provider_IndexField v ctx i :=
    match v with
    | PSingle p => rewrap PSingle (@provider_IndexField _ (single_Provider o) p ctx i)
    | PNop p => rewrap PNop (@provider_IndexField _ nop_Provider p ctx i)
    | PClusters p => rewrap PClusters (@provider_IndexField _ (Clusters_Provider o) p ctx i)
    | PFile p => rewrap PFile (@provider_IndexField _ (file_Provider o) p ctx i)
    | PKubeconfig p => rewrap PKubeconfig (@provider_IndexField _ (kube_Provider o) p ctx i)
    | PClusterAPI p => rewrap PClusterAPI (@provider_IndexField _ (capi_Provider o) p ctx i)
    | PInventory p => rewrap PInventory (@provider_IndexField _ (inv_Provider o) p ctx i)
    | PKind p => rewrap PKind (@provider_IndexField _ (kind_Provider o) p ctx i)
    end;
|}.

Definition any_known (v : AnyProvider R) : ClusterName → option cluster :=
  match v with
  | PSingle p => @known _ _ (single_ProviderSpec o) p
  | PNop p => @known _ _ nop_ProviderSpec p
  | PClusters p => @known _ _ (Clusters_ProviderSpec o) p
  | PFile p => @known _ _ (file_ProviderSpec o) p
  | PKubeconfig p => @known _ _ (kube_ProviderSpec o) p
  | PClusterAPI p => @known _ _ (capi_ProviderSpec o) p
  | PInventory p => @known _ _ (inv_ProviderSpec o) p
  | PKind p => @known _ _ (kind_ProviderSpec o) p
  end.

Program Definition any_ProviderSpec : @ProviderSpec (AnyProvider R) any_Provider := {| known := any_known |}.
Next Obligation.
  intros v ctx n cl. destruct v as [p|p|p|p|p|p|p|p].
  - exact (@provider_Get_known _ _ (single_ProviderSpec o) p ctx n cl).
  - exact (@provider_Get_known _ _ (nop_ProviderSpec) p ctx n cl).
  - exact (@provider_Get_known _ _ (Clusters_ProviderSpec o) p ctx n cl).
  - exact (@provider_Get_known _ _ (file_ProviderSpec o) p ctx n cl).
  - exact (@provider_Get_known _ _ (kube_ProviderSpec o) p ctx n cl).
  - exact (@provider_Get_known _ _ (capi_ProviderSpec o) p ctx n cl).
  - exact (@provider_Get_known _ _ (inv_ProviderSpec o) p ctx n cl).
  - exact (@provider_Get_known _ _ (kind_ProviderSpec o) p ctx n cl).
Qed.
Next Obligation.
  intros v ctx n. destruct v as [p|p|p|p|p|p|p|p].
  - exact (@provider_Get_unknown _ _ (single_ProviderSpec o) p ctx n).
  - exact (@provider_Get_unknown _ _ (nop_ProviderSpec) p ctx n).
  - exact (@provider_Get_unknown _ _ (Clusters_ProviderSpec o) p ctx n).
  - exact (@provider_Get_unknown _ _ (file_ProviderSpec o) p ctx n).
  - exact (@provider_Get_unknown _ _ (kube_ProviderSpec o) p ctx n).
  - exact (@provider_Get_unknown _ _ (capi_ProviderSpec o) p ctx n).
  - exact (@provider_Get_unknown _ _ (inv_ProviderSpec o) p ctx n).
  - exact (@provider_Get_unknown _ _ (kind_ProviderSpec o) p ctx n).
Qed.

Lemma rewrap_indexes {S} {PP : Provider S} {PS : ProviderSpec S} {IP : IndexingProvider o S} (f : S → AnyProvider R)
    (s : S) ctx i w v' w' :
  rewrap f (provider_IndexField s ctx i) w = ((v', None), w') →
  (∀ s, any_known (f s) = known s) →
  (∀ n, any_known v' n = any_known (f s) n) ∧
  ∃ l, w' = World (w_ctxs w) (w_calls w ++ l) ∧
    (∀ c, c ∈ l → ∃ n cl, any_known (f s) n = Some cl ∧ c = CallIndex cl ctx i) ∧
    ∀ n cl, any_known (f s) n = Some cl → answered_in o (w_calls w) l (CallIndex cl ctx i) None.
Proof.
  intros H Hf. unfold rewrap in H. rewrite bind_eq in H.
  destruct (provider_IndexField s ctx i w) as [[p' err] w1] eqn:Hx. injection H as <- -> <-.
  destruct (indexes_known _ _ _ _ _ _ Hx) as [Hk Hl]. rewrite !Hf. by split.
Qed.

#[export] Instance any_indexes : @IndexingProvider o (AnyProvider R) _ any_ProviderSpec.
Proof.
  intros v ctx i w v' w' H. destruct v; simpl in H.
  - by eapply (rewrap_indexes (IP:=single_indexes o)) in H.
  - by eapply (rewrap_indexes (IP:=nop_indexes o)) in H.
  - by eapply (rewrap_indexes (IP:=Clusters_indexes o)) in H.
  - by eapply (rewrap_indexes (IP:=file_indexes o)) in H.
  - by eapply (rewrap_indexes (IP:=kube_indexes o)) in H.
  - by eapply (rewrap_indexes (IP:=capi_indexes o)) in H.
  - by eapply (rewrap_indexes (IP:=inv_indexes o)) in H.
  - by eapply (rewrap_indexes (IP:=kind_indexes o)) in H.
Qed.
End any.

(** ** From an event to a reconcile *)

(** The first thing a multi-cluster reconciler does: look its cluster up. *)
Section reconcile.
Context {P : Type} {PP : Provider P} {PS : ProviderSpec P} {C : Type} {CI : CoordinatorI C}.
Context (local : cluster) (quote : string → string).

(* src: examples/sharded-namespace/main.go:99-107 run *)
Definition in_its_cluster (m : mcManager P C) (body : cluster → Reconciler cr_Request) : Reconciler Request :=
  fun ctx req =>
    match GetCluster local quote m ctx (req_ClusterName req) with
    | Err err => mret (zero_Result, Some err)
    | Ok cl => body cl ctx (req_Request req)
    end.

Lemma GetCluster_known (m : mcManager P C) p ctx n :
  mm_provider m = Some p → n ≠ LocalCluster →
  match known p n with
  | Some cl => GetCluster local quote m ctx n = Ok cl
  | None => ∃ e, GetCluster local quote m ctx n = Err e ∧ Is_ErrClusterNotFound e = true
  end.
Proof.
  intros Hp Hn. unfold GetCluster. rewrite bool_decide_eq_false_2, Hp by done.
  destruct (known p n) as [cl|] eqn:Hk; [by apply provider_Get_known|by apply provider_Get_unknown].
Qed.

Lemma in_its_cluster_reconciles m p body ctx req w :
  mm_provider m = Some p → req_ClusterName req ≠ LocalCluster →
  Wrapper_Reconcile (NewClusterNotFoundWrapper (in_its_cluster m body)) ctx req w =
    match known p (req_ClusterName req) with
    | Some cl => let '(res, err, w') := body cl ctx (req_Request req) w in
                 if IsOpt err "cluster not found" then (zero_Result, None, w') else (res, err, w')
    | None => (zero_Result, None, w)
    end.
Proof.
  intros Hp Hn. rewrite Wrapper_Reconcile_spec. unfold in_its_cluster.
  pose proof (GetCluster_known m p ctx _ Hp Hn) as H. destruct (known p (req_ClusterName req)) as [cl|].
  - by rewrite H.
  - destruct H as (e & -> & He). unfold mret, M_ret. simpl. unfold Is_ErrClusterNotFound in He. by rewrite He.
Qed.
End reconcile.

(** An informer's events, as it gives them to the registered handlers. *)
Inductive informer_event (object : Type) : Type :=
| IAdded (o : object)
| IUpdated (o o' : object)
| IDeleted (i : item object).
Arguments IAdded {object} _.
Arguments IUpdated {object} _ _.
Arguments IDeleted {object} _.

Definition deliver {object request Q} (RQ : RateLimitingQueue Q request) (s : sstate object request)
    (e : informer_event object) (q : Q) : Q :=
  fold_left (λ q (r : registration),
    match buildEventHandler RQ (s_ck s) r.2 with
    | Err _ => q
    | Ok f => match e with
              | IAdded o => AddFunc Q f (s_ctxs s) (IObject o) q
              | IUpdated o o' => UpdateFunc Q f (s_ctxs s) (IObject o) (IObject o') q
              | IDeleted i => DeleteFunc Q f (s_ctxs s) i q
              end
    end) (s_inf s) q.

(** What identifies a source; it never changes. *)
Definition identity {object request} (ck : clusterKind object request) :=
  (ck_clusterName ck, ck_cl ck, ck_h ck, ck_preds ck).

Lemma remove_registration_identity {object request} b (s : sstate object request) :
  identity (s_ck (remove_registration b s)) = identity (s_ck s).
Proof. unfold remove_registration. by destruct (ck_registration (s_ck s)). Qed.

Lemma start_section_identity {object request} b env ctx p (s : sstate object request) :
  identity (s_ck (start_section b env ctx p s).2) = identity (s_ck s).
Proof.
  destruct p as [| |r|]; simpl.
  - destruct (se_getInformer env); [done|]. apply remove_registration_identity.
  - destruct (ck_h _ _ _); [|done]. by destruct (se_addErr env).
  - done.
  - destruct (se_synced env); simpl; [done|]. apply remove_registration_identity.
Qed.

Lemma sexec_identity {object request} b l (s s' : sstate object request) :
  sexec b l s = Some s' → identity (s_ck s') = identity (s_ck s).
Proof.
  destruct l as [p|n|env ctx| |i]; simpl; [by intros [= <-]..| | |].
  - destruct (s_start s); [done|]. intros [= <-]. by destruct (already_started ctx s).
  - destruct (s_start s) as [[[env ctx] p]|]; [|done]. simpl. pose proof (start_section_identity b env ctx p s) as H.
    destruct (start_section b env ctx p s) as [r s1]. by intros [= <-].
  - destruct (s_waiters s !! i) as [ctx|]; [|done]. simpl. destruct (done_ctx _ _); [|done]. intros [= <-].
    unfold on_done. destruct (bool_decide _); [by rewrite remove_registration_identity|done].
Qed.

(** ** Properties *)

(** C21 (safety): an index registered through the manager's field indexer, over
    any of the single, nop, clusters, file, kubeconfig, Cluster API, cluster
    inventory and kind providers: when it reports nothing, exactly the clusters
    that the provider knew were asked, every one of them accepted the index, and
    the manager resolves every name as before.  In particular every cluster
    that the manager resolves for a name other than the empty one has the
    index; the host cluster, which the empty name resolves to, is asked only if
    it is one of the provider's clusters. *)
Theorem manager_index_reaches_every_cluster {R C} {CI : CoordinatorI C} (o : oracle) local quote
    (m m' : @mcManager (AnyProvider R) C) p ctx i w w' :
  let PP := any_Provider o in
  mm_provider m = Some p → GetFieldIndexer o local quote m ctx i w = ((m', None), w') →
  (∀ n, is_ok (GetCluster local quote m' ctx n) = is_ok (GetCluster local quote m ctx n)) ∧
  (∀ n cl, GetCluster local quote m ctx n = Ok cl → GetCluster local quote m' ctx n = Ok cl) ∧
  ∃ l, w' = World (w_ctxs w) (w_calls w ++ l) ∧
    (∀ c, c ∈ l → ∃ n cl, any_known o p n = Some cl ∧ c = CallIndex cl ctx i) ∧
    ∀ n cl, n ≠ LocalCluster → GetCluster local quote m ctx n = Ok cl →
      answered_in o (w_calls w) l (CallIndex cl ctx i) None.
Proof.
  cbv zeta. intros Hp Hi. unfold GetFieldIndexer in Hi. rewrite Hp in Hi. rewrite bind_eq in Hi.
  destruct (provider_IndexField p ctx i w) as [[p' [e|]] w1] eqn:Hx; [done|]. injection Hi as <- <-.
  destruct (indexes_known (PS:=any_ProviderSpec o) p ctx i w p' w1 Hx) as (Hk & l & -> & Hc & Ha).
  set (m' := MkManager (Some p') (mm_coord m)).
  assert (∀ n, n ≠ LocalCluster → match any_known o p n with
    | Some cl => GetCluster (PP:=any_Provider o) local quote m ctx n = Ok cl ∧ GetCluster (PP:=any_Provider o) local quote m' ctx n = Ok cl
    | None => is_ok (GetCluster (PP:=any_Provider o) local quote m ctx n) = false ∧ is_ok (GetCluster (PP:=any_Provider o) local quote m' ctx n) = false
    end) as Hg.
  { intros n Hn. pose proof (GetCluster_known (PS:=any_ProviderSpec o) local quote m p ctx n Hp Hn) as Hg.
    pose proof (GetCluster_known (PS:=any_ProviderSpec o) local quote m' p' ctx n eq_refl Hn) as Hg'.
    rewrite (Hk n) in Hg'. simpl in Hg, Hg'. destruct (any_known o p n); [by split|].
    destruct Hg as (e & -> & _), Hg' as (e' & -> & _). by split. }
  split_ands.
  - intros n. destruct (decide (n = LocalCluster)) as [->|Hn]; [done|]. specialize (Hg n Hn).
    destruct (any_known o p n); destruct Hg as [Hg1 Hg2]; [by rewrite Hg1, Hg2|by rewrite Hg1, Hg2].
  - intros n cl. destruct (decide (n = LocalCluster)) as [->|Hn]; [done|]. specialize (Hg n Hn).
    destruct (any_known o p n); destruct Hg as [Hg1 Hg2]; [by rewrite Hg1, Hg2|].
    intros Hgc. by rewrite Hgc in Hg1.
  - exists l. split_ands; [done|done|]. intros n cl Hn Hgc. apply (Ha n). specialize (Hg n Hn). simpl.
    destruct (any_known o p n); destruct Hg as [Hg1 Hg2]; rewrite Hgc in Hg1; [congruence|done].
Qed.

Section end_to_end.
Context {object : Type} (pc : context → CreateEvent object → qprog cr_Request)
  (pu : context → UpdateEvent object → qprog cr_Request) (pd : context → DeleteEvent object → qprog cr_Request)
  (pg : context → GenericEvent object → qprog cr_Request).

(** A kind whose handler is a lifted one. *)
Definition lifted_kind (obj : object) (preds : list (Predicate object)) : kind object Request :=
  TypedKind obj (λ n cl, Some (TypedLift (prog_handler pc pu pd pg) n cl)) preds.

(** What the handler does about an event, before the cluster is put in. *)
Definition reaction (preds : list (Predicate object)) (ctx : context) (e : informer_event object) : qprog cr_Request :=
  match e with
  | IAdded o => if passCreate preds (MkCreateEvent o) then pc ctx (MkCreateEvent o) else PRet
  | IUpdated o o' => if passUpdate preds (MkUpdateEvent o o') then pu ctx (MkUpdateEvent o o') else PRet
  | IDeleted (IObject o) | IDeleted (ITombstone (IObject o)) =>
      if passDelete preds (MkDeleteEvent o) then pd ctx (MkDeleteEvent o) else PRet
  | IDeleted _ => PRet
  end.

Lemma lifted_handler obj preds n cl ck b ctx :
  ForCluster (lifted_kind obj preds) n cl = Ok (ck, b) →
  ∀ ck', identity ck' = identity ck → ∀ Q (RQ : RateLimitingQueue Q Request),
  ∃ f, buildEventHandler RQ ck' ctx = Ok f ∧ ∀ cs e (q : Q),
    match e with
    | IAdded o => AddFunc Q f cs (IObject o) q
    | IUpdated o o' => UpdateFunc Q f cs (IObject o) (IObject o') q
    | IDeleted i => DeleteFunc Q f cs i q
    end = if done_ctx ctx cs then q else run_prog RQ (tag_prog n (reaction preds ctx e)) q.
Proof.
  intros [= <- _] ck' [= Hn Hcl Hh Hp] Q RQ. unfold buildEventHandler. rewrite Hh, Hn, Hcl. eexists. split; [done|].
  intros cs e q. rewrite Hp.
  destruct e as [o|o o'|[o|[o| |]|]]; cbn [AddFunc UpdateFunc DeleteFunc reaction]; destruct (done_ctx ctx cs); try done;
    match goal with |- context [if ?c then _ else _] => destruct c; [|done] end;
    exact (f_equal cq_q (run_clusterQueue RQ n _ q)).
Qed.

(** What a registered source does with an event. *)
Lemma registered_deliver obj preds n cl ck b s r sctx e {Q} (RQ : RateLimitingQueue Q Request) (q : Q) :
  ForCluster (lifted_kind obj preds) n cl = Ok (ck, b) →
  reachable (sexec true) (λ s, sinit s ∧ s_ck s = ck) s →
  (r, sctx) ∈ s_inf s → done_ctx sctx (s_ctxs s) = false →
  deliver RQ s e q = run_prog RQ (tag_prog n (reaction preds sctx e)) q.
Proof.
  intros Hck Hr Hin Hlive.
  assert (reg_inv s ∧ identity (s_ck s) = identity ck) as [HI Hid].
  { revert Hr. apply (invariant_reachable (sexec true) _ (λ s, reg_inv s ∧ identity (s_ck s) = identity ck)).
    - intros s0 [H0 <-]. split; [by apply sinit_reg_inv|done].
    - intros s0 l s1 [Hi Hs] Hx. split; [by eapply reg_inv_step|]. by rewrite (sexec_identity _ _ _ _ Hx). }
  unfold deliver. rewrite (reg_inv_one s _ HI Hin). cbn [fold_left snd].
  destruct (lifted_handler obj preds n cl ck b sctx Hck (s_ck s) Hid Q RQ) as (f & -> & Hf).
  rewrite Hf. by rewrite Hlive.
Qed.

(** C6 (refinement): an event of a cluster is handled in that cluster.  Let a
    source of a lifted handler, made for a cluster, be registered at its
    informer with a live context, in any interleaving of the sections of its
    starts, wake-ups and cancellations.  Delivering an event then acts on the controller's queue as
    the original handler's reaction with the cluster's name in every request -
    once, and only if the predicates pass; and reconciling any request that was
    queued, behind the not-found wrapper and through the manager, runs the
    reconciler's body on that very cluster with the original request as long as
    the provider knows it, and does nothing when it no longer does. *)
Theorem events_are_reconciled_in_their_cluster obj preds n cl ck b s r sctx e {Q} (RQ : RateLimitingQueue Q Request) (q : Q) :
  ForCluster (lifted_kind obj preds) n cl = Ok (ck, b) →
  reachable (sexec true) (λ s, sinit s ∧ s_ck s = ck) s →
  (r, sctx) ∈ s_inf s → done_ctx sctx (s_ctxs s) = false → n ≠ LocalCluster →
  let prog := tag_prog n (reaction preds sctx e) in
  deliver RQ s e q = run_prog RQ prog q ∧
  ∀ req, passes prog req → passes (reaction preds sctx e) (req_Request req) ∧
    ∀ P (PP : Provider P) (PS : ProviderSpec P) C (CI : CoordinatorI C) local quote (m : mcManager P C) p body rctx w,
      mm_provider m = Some p →
      let reconciled := Wrapper_Reconcile (NewClusterNotFoundWrapper (in_its_cluster local quote m body)) rctx req w in
      (known p n = Some cl →
         reconciled = let '(res, err, w') := body cl rctx (req_Request req) w in
                      if IsOpt err "cluster not found" then (zero_Result, None, w') else (res, err, w')) ∧
      (known p n = None → reconciled = (zero_Result, None, w)).
Proof.
  intros Hck Hr Hin Hlive Hn prog. split.
  - by eapply registered_deliver.
  - intros req Hp. apply map_prog_passes in Hp as (rq & -> & Hrq). split; [done|].
    intros P PP PS C CI local quote m p body rctx w Hm reconciled. unfold reconciled.
    rewrite (in_its_cluster_reconciles local quote m p body rctx (MkRequest rq n) w Hm Hn). cbn [req_ClusterName req_Request].
    split; [by intros ->|by intros ->].
Qed.
End end_to_end.

(** ** Witnesses *)

(** The kubeconfig provider with one cluster, and a manager over it. *)
Definition one_cluster : astate := AState {["east" := MkActive 7%nat Background 0%nat "h"]} [] empty_world.
Definition kube_manager : mcManager astate basic := MkManager (Some one_cluster) (Some (inl basic_New)).

(** A manager over the kind provider's map of two clusters. *)
Definition two_kind : AnyProvider unit :=
  PKind (KindProvider.KState None (<["kind-a" := 7%nat]> {["kind-b" := 8%nat]}) ∅ [] empty_world).
Definition any_manager : mcManager (AnyProvider unit) basic := MkManager (Some two_kind) (Some (inl basic_New)).

Lemma manager_index_reaches_every_cluster_witness :
  let PP := any_Provider (R:=unit) all_ok in
  let i := MkIndex "Pod" "spec.node" 0 in
  ∃ m' w' l, GetFieldIndexer all_ok 1%nat id any_manager Background i empty_world = ((m', None), w') ∧
    w_calls w' = l ∧ answered_in all_ok [] l (CallIndex 8%nat Background i) None ∧
    GetCluster 1%nat id m' Background "kind-b" = Ok 8%nat.
Proof.
  intros PP i.
  destruct (GetFieldIndexer all_ok 1%nat id any_manager Background i empty_world) as [[m' [e|]] w'] eqn:Hg; [by vm_compute in Hg|].
  destruct (manager_index_reaches_every_cluster (C:=basic) all_ok 1%nat id any_manager m' two_kind Background i empty_world w' eq_refl Hg)
    as (_ & Hr & l & -> & _ & Ha).
  exists m', (World (w_ctxs empty_world) (w_calls empty_world ++ l)), l.
  split_ands; [done|done|by apply (Ha "kind-b")|by apply Hr].
Defined.

Definition fifo : RateLimitingQueue (list Request) Request := {|
  q_Add i q := q ++ [i]; q_Len := length;
  q_Get q := match q with i :: q => ((i, false), q) | [] => ((MkRequest (MkCrRequest "" "") "", true), []) end;
  q_Done _ q := q; q_ShutDown q := q; q_ShutDownWithDrain q := q; q_ShuttingDown _ := false;
  q_AddAfter i _ q := q ++ [i]; q_AddRateLimited i q := q ++ [i]; q_Forget _ q := q; q_NumRequeues _ _ := 0%nat |}.

(** A handler that asks to reconcile the object, and its source of the cluster. *)
Definition for_object (ctx : context) (o : string) : qprog cr_Request := PAdd (MkCrRequest "default" o) PRet.
Definition demo_kind : kind string Request :=
  lifted_kind (λ c e, for_object c (ce_Object e)) (λ c e, for_object c (ue_ObjectNew e)) (λ c e, for_object c (de_Object e))
    (λ c e, for_object c (ge_Object e)) "Pod" [].
Definition demo_source : clusterKind string Request := MkClusterKind "east" 7%nat "Pod" (k_handler demo_kind) [] 0 None None.
Definition demo_start : sstate string Request := SState demo_source [] 0 [] empty_store None.
Definition demo_labels : list slabel :=
  [SNewCtx Background; SStart (MkStartEnv None None true) (Ctx [0%nat] []); SSection; SSection; SSection; SSection].
Definition demo_started : sstate string Request := default demo_start (run (sexec true) demo_labels demo_start).

Lemma events_are_reconciled_in_their_cluster_witness :
  deliver fifo demo_started (IAdded "web") [] = [MkRequest (MkCrRequest "default" "web") "east"] ∧
  ∀ body rctx w, (∀ ctx rq w, IsOpt (body 7%nat ctx rq w).1.2 "cluster not found" = false) →
    Wrapper_Reconcile (NewClusterNotFoundWrapper
      (@in_its_cluster astate (kube_Provider all_ok) basic 1%nat id kube_manager body)) rctx
      (MkRequest (MkCrRequest "default" "web") "east") w = body 7%nat rctx (MkCrRequest "default" "web") w.
Proof.
  destruct (events_are_reconciled_in_their_cluster (λ c e, for_object c (ce_Object e)) (λ c e, for_object c (ue_ObjectNew e))
    (λ c e, for_object c (de_Object e)) (λ c e, for_object c (ge_Object e)) "Pod" [] "east" 7%nat demo_source true demo_started
    0%nat (Ctx [0%nat] []) (IAdded "web") fifo []) as [Hd Hr];
    [reflexivity| |apply list_elem_of_singleton; reflexivity|reflexivity|done|].
  { eapply (run_reachable _ _ demo_labels demo_start); [|reflexivity].
    apply reach_init. repeat split. }
  split; [exact Hd|]. intros body rctx w Hok.
  destruct (Hr (MkRequest (MkCrRequest "default" "web") "east") (pass_add _ _)) as [_ H].
  destruct (H astate (kube_Provider all_ok) (kube_ProviderSpec all_ok) basic basic_CoordinatorI 1%nat id kube_manager one_cluster
    body rctx w eq_refl) as [Hb _]. eapply eq_trans; [exact (Hb eq_refl)|]. cbn [req_Request].
  pose proof (Hok rctx (MkCrRequest "default" "web") w) as Ho. destruct (body _ _ _ _) as [[res err] w']. cbn [fst snd] in Ho. by rewrite Ho.
Defined.
