(* ===== verification/NamespaceEvents.v ===== *)
(** * providers/namespace: from an event of the shared cluster to a reconcile

    A controller that watches the clusters of the namespace provider has a source
    for each, registered at an informer of the shared cluster through the
    wrappers of that cluster; its reconciler gets the wrapper from the provider
    and reads through it.  Here the wrappers, the provider, the source and the
    manager are put together. *)

From S2P Require Import Prelude GoErrors GoContext Multicluster NamespaceClient NamespaceProvider Reconcile Handler Source Basic Manager EndToEnd.

(** ** The wrappers the provider hands out *)

Section wrappers.
Context {W : Type} {SW : Surroundings W}.

(** The wrapper that an address is of. *)
Definition wrapper_at (p : nstate W) (cl : cluster) : option NamespacedCluster :=
  if Nat.odd cl then n_heap p !! Nat.div2 cl else None.

(** Every cluster of the provider is a wrapper of the shared one, under its name. *)
Definition wrapped (p : nstate W) : Prop :=
  ∀ name cl, n_clusters p !! name = Some cl → wrapper_at p cl = Some (MkNamespacedCluster name (n_cluster p)).

Lemma wrapper_at_app (p : nstate W) cl c l :
  wrapper_at p cl = Some c →
  (if Nat.odd cl then (n_heap p ++ l) !! Nat.div2 cl else None) = Some c.
Proof. unfold wrapper_at. destruct (Nat.odd cl); [|done]. by apply lookup_app_l_Some. Qed.

Lemma wrapper_at_new (p : nstate W) c :
  (if Nat.odd (2 * length (n_heap p) + 1) then (n_heap p ++ [c]) !! Nat.div2 (2 * length (n_heap p) + 1) else None) = Some c.
Proof.
  rewrite Nat.add_1_r, Nat.odd_succ, Nat.even_even, Nat.div2_succ_double. by apply list_lookup_middle.
Qed.

Lemma wrapped_forget name (p : nstate W) : wrapped p → wrapped (n_forget name p).2 ∧ n_cluster (n_forget name p).2 = n_cluster p.
Proof. intros Hp. split; [|done]. intros n cl Hl. simpl in Hl. apply lookup_delete_Some in Hl as [_ Hl]. by apply Hp. Qed.

Lemma wrapped_lift {A} (m : M W A) (p : nstate W) :
  wrapped p → wrapped (n_lift m p).2 ∧ n_cluster (n_lift m p).2 = n_cluster p.
Proof. unfold n_lift. destruct (m (n_w p)) as [a w]. by split. Qed.

Lemma wrapped_store ctx name (p : nstate W) :
  wrapped p → wrapped (add_store ctx name p).2 ∧ n_cluster (add_store ctx name p).2 = n_cluster p.
Proof.
  intros Hp. unfold add_store. rewrite bind_eq. destruct (wrapped_lift (in_world (w_WithCancel ctx)) p Hp) as [H1 H2].
  unfold n_world. destruct (n_lift _ p) as [[c k] p1]. rewrite get_bind. simpl in H1, H2. split; [|exact H2].
  intros n cl Hl. unfold wrapper_at. simpl in Hl |- *. apply lookup_insert_Some in Hl as [[<- <-]|[_ Hl]].
  - apply (wrapper_at_new p1 (MkNamespacedCluster name (n_cluster p1))).
  - apply wrapper_at_app. by apply H1.
Qed.

Lemma wrapped_handle ctx e (p : nstate W) :
  wrapped p → wrapped (ns_handle ctx e p).2 ∧ n_cluster (ns_handle ctx e p).2 = n_cluster p.
Proof.
  intros Hp. destruct e as [ns|ns|ns|]; cbn [ns_handle]; [|done| |done].
  - unfold NamespaceProvider.AddFunc. rewrite get_bind. destruct (n_clusters p !! ns); [done|]. rewrite bind_eq.
    destruct (wrapped_store ctx ns p Hp) as [H1 H2]. destruct (add_store ctx ns p) as [[c cl] p1]. simpl in H1, H2. rewrite <-H2.
    unfold add_engage. rewrite get_bind. destruct (n_mcAware p1) as [a|]; [|done]. rewrite bind_eq.
    destruct (wrapped_lift (aware_Engage a c ns cl) p1 H1) as [H3 H4]. destruct (n_lift _ p1) as [[e|] p2]; simpl in H3, H4; [|done].
    rewrite bind_eq. rewrite <-H4. by apply wrapped_forget.
  - unfold NamespaceProvider.DeleteFunc. rewrite get_bind. destruct (n_cancelFns p !! ns) as [k|]; [|done]. rewrite bind_eq.
    destruct (wrapped_lift (in_world (w_cancel k)) p Hp) as [H1 H2]. unfold n_world. destruct (n_lift _ p) as [[] p1]. simpl in H1, H2.
    rewrite <-H2. unfold delete_stored. rewrite get_bind. destruct (n_cancelFns p1 !! ns) as [k'|]; [|done]. rewrite bind_eq.
    destruct (wrapped_lift (in_world (w_cancel k')) p1 H1) as [H3 H4]. unfold n_world. destruct (n_lift _ p1) as [[] p2]. simpl in H3, H4.
    rewrite <-H4, bind_eq. by apply wrapped_forget.
Qed.

Lemma wrapped_handle_all ctx evs (p : nstate W) :
  wrapped p → wrapped (ns_handle_all ctx evs p).2 ∧ n_cluster (ns_handle_all ctx evs p).2 = n_cluster p.
Proof.
  revert p. induction evs as [|e evs IH]; intros p Hp; [done|]. cbn [ns_handle_all]. rewrite bind_eq.
  destruct (wrapped_handle ctx e p Hp) as [H1 H2]. destruct (ns_handle ctx e p) as [[[]|msg] p1]; simpl in H1, H2; [|done].
  rewrite <-H2. by apply IH.
Qed.
End wrappers.

(** ** Events and reconciles *)

(** An event as the source's handler is told it. *)
Definition as_informer {B} (e : event B) : informer_event (Object B) :=
  match e with
  | EvAdd obj _ => IAdded obj
  | EvUpdate oldObj newObj => IUpdated oldObj newObj
  | EvDelete obj => IDeleted (IObject obj)
  | EvTombstone (Some obj) => IDeleted (ITombstone (IObject obj))
  | EvTombstone None => IDeleted (ITombstone IOther)
  end.

(** The object an event is about. *)
Definition event_object {B} (e : event B) : option (Object B) :=
  match e with
  | EvAdd obj _ | EvUpdate _ obj | EvDelete obj | EvTombstone (Some obj) => Some obj
  | EvTombstone None => None
  end.

(** The object a source's handler is told about. *)
Definition told_object {B} (e : informer_event (Object B)) : option (Object B) :=
  match e with
  | IAdded obj | IUpdated _ obj | IDeleted (IObject obj) | IDeleted (ITombstone (IObject obj)) => Some obj
  | IDeleted _ => None
  end.

Section events.
Context {B Opt G : Type}.
Context (InNamespace : string → Opt) (ns_of_opts : list Opt → string) (NewInvalid : Object B → string → error).
Context (pc : context → CreateEvent (Object B) → qprog cr_Request) (pu : context → UpdateEvent (Object B) → qprog cr_Request)
  (pd : context → DeleteEvent (Object B) → qprog cr_Request) (pg : context → GenericEvent (Object B) → qprog cr_Request).

(** The shared informer tells a source of the cluster [cn], which has registered
    through the cluster's cache. *)
Definition shared_event {Q} (RQ : RateLimitingQueue Q Request) (cn : ClusterName) (s : sstate (Object B) Request) :
  event B → M Q (outcome unit) :=
  scoped (scoped_event_with_options cn) (λ e q, (Returns tt, deliver RQ s (as_informer e) q)).

(** A reconciler's reads and writes of its object, in the cluster it has got;
    [client] are the clients of the clusters that are not wrappers. *)
Definition read_in (client : cluster → Client world B Opt) (p : nstate world) (cl : cluster) (rq : cr_Request) (obj : Object B) (opts : list Opt) :
  M world (outcome (Object B * option error)) :=
  match wrapper_at p cl with
  | Some c => let '(name, n) := nsc_GetClient client c in
              a ← nc_Get NewInvalid name n (Namespace rq, Name rq) obj opts; mret (Returns a)
  | None => mret (Panics "invalid memory address or nil pointer dereference")
  end.

Definition write_in (client : cluster → Client world B Opt) (p : nstate world) (cl : cluster) (obj : Object B) (opts : list Opt) :
  M world (outcome (Object B * option error)) :=
  match wrapper_at p cl with
  | Some c => let '(name, n) := nsc_GetClient client c in
              a ← nc_Update NewInvalid name n obj opts; mret (Returns a)
  | None => mret (Panics "invalid memory address or nil pointer dereference")
  end.

(** A handler that asks to reconcile the object of an event and nothing else, as
    controller-runtime documents of [EnqueueRequestForObject]. *)
Definition asks_for_objects : Prop :=
  ∀ ctx preds e rq, passes (reaction pc pu pd preds ctx e) rq →
    ∃ obj, told_object e = Some obj ∧ rq = MkCrRequest (GetNamespace obj) (GetName obj).

(** What the wrapper passes on is about the same object, renamed. *)
Lemma scoped_told cn (e : event B) obj :
  event_object e = Some obj →
  if bool_decide (GetNamespace obj = cn)
  then ∃ e', scoped_event_with_options cn e = Returns (Some e') ∧ told_object (as_informer e') = Some (SetNamespace NamespaceDefault obj)
  else scoped_event_with_options cn e = Returns None.
Proof.
  destruct e as [o b|o' o|o|[o|]]; intros [= ->]; simpl; unfold ClusterName_String; case_bool_decide; try done; by eexists.
Qed.

(** A call acts on one namespace of a shared cluster as [f] does. *)
Definition acts_in (c : Client world B Opt) (ops : @ns_operations B Opt G) {NS : NamespacedStore InNamespace ns_of_opts c ops}
    (cn : ClusterName) {A A'} (call : M world A) (f : M (@section_state B G) A') (conv : A → A' → Prop) : Prop :=
  acts_on (glob (c:=c) (ops:=ops) InNamespace ns_of_opts) (sect (c:=c) (ops:=ops) InNamespace ns_of_opts) cn call f conv.

(** A wrapper's calls act on the section of its namespace. *)
Section calls.
Context (client : cluster → Client world B Opt) (p : nstate world) (ops : @ns_operations B Opt G).
Context {NS : NamespacedStore InNamespace ns_of_opts (client (n_cluster p)) ops}.

Lemma read_in_acts cn cl name obj opts :
  wrapper_at p cl = Some (MkNamespacedCluster cn (n_cluster p)) →
  acts_in _ ops cn (read_in client p cl (MkCrRequest NamespaceDefault name) obj opts) (NamespaceClient.ns_Get ops name (to_plain obj) opts)
    (λ r a, ∃ obj', r = Returns (obj', a.2) ∧ to_plain obj' = a.1 ∧ (a.2 = None → GetNamespace obj' = NamespaceDefault)).
Proof.
  intros Hw s. unfold read_in, nsc_GetClient. rewrite Hw. cbn [clusterName nsc_Cluster Namespace Name]. unfold nc_Get. rewrite bool_decide_eq_true_2 by done.
  destruct (law_Get InNamespace ns_of_opts cn name obj opts s) as ([Hp He] & Hs & Ho).
  unfold mbind, M_bind, mret, M_ret, ClusterName_String. destruct (cl_Get (client (n_cluster p)) ((cn : string), name) obj opts s) as [[obj' err] s1]. simpl in *.
  destruct (NamespaceClient.ns_Get ops name (to_plain obj) opts (glob InNamespace ns_of_opts s, sect InNamespace ns_of_opts s cn)) as [[x err'] st]. simpl in *. subst err' x.
  destruct err as [e|]; simpl; (split; [|done]); eexists; (split; [done|]); by split.
Qed.

Lemma write_in_acts cn cl obj opts :
  wrapper_at p cl = Some (MkNamespacedCluster cn (n_cluster p)) → GetNamespace obj = NamespaceDefault →
  acts_in _ ops cn (write_in client p cl obj opts) (ns_Update ops (to_plain obj) opts)
    (λ r a, r = Returns (at_ns NamespaceDefault a.1, a.2)).
Proof.
  intros Hw Hn s. unfold write_in, nsc_GetClient. rewrite Hw. cbn [clusterName nsc_Cluster]. unfold nc_Update, in_cluster, default_only. rewrite bool_decide_eq_true_2 by done.
  destruct (law_Update InNamespace ns_of_opts (SetNamespace cn obj) opts s) as (Hr & Hs & Ho).
  unfold mbind, M_bind, mret, M_ret, ClusterName_String. destruct (cl_Update (client (n_cluster p)) (SetNamespace cn obj) opts s) as [[obj' err] s1].
  change (to_plain (SetNamespace cn obj)) with (to_plain obj) in *. change (GetNamespace (SetNamespace cn obj)) with cn in *. simpl in *.
  destruct (ns_Update ops (to_plain obj) opts (glob InNamespace ns_of_opts s, sect InNamespace ns_of_opts s cn)) as [[x err'] st]. injection Hr as -> ->. by split.
Qed.
End calls.

(** C9 (refinement): an object is reconciled where it is.  Let the namespace provider
    have handled any events, and a source that asks for objects run for one of
    its clusters.  When the shared informer reports an object, the source does
    nothing if the object is in another namespace; if it is in the cluster's,
    every request it queues names the object in "default" and the cluster, and
    as the manager resolves that name, reading the request in the cluster reads
    - and writing what was read writes - that object of that namespace of the
    shared cluster, renamed to "default", and touches no other namespace. *)
Theorem objects_are_reconciled_where_they_are {Q} (RQ : RateLimitingQueue Q Request) (q : Q)
    o root aware shared w0 evs p obj preds cn cl ck b s r sctx e x client (ops : @ns_operations B Opt G)
    {NS : NamespacedStore InNamespace ns_of_opts (client shared) ops} {C} {CI : CoordinatorI C} local quote (m : mcManager (nstate world) C) :
  ns_Start (SW:=outside o) root aware None None evs (ns_New shared w0) = (Returns None, p) →
  ns_Get p cn = Ok cl → cn ≠ LocalCluster → mm_provider m = Some p → asks_for_objects →
  ForCluster (lifted_kind pc pu pd pg obj preds) cn cl = Ok (ck, b) →
  reachable (sexec true) (λ s, sinit s ∧ s_ck s = ck) s → (r, sctx) ∈ s_inf s → done_ctx sctx (s_ctxs s) = false →
  event_object e = Some x →
  let '(ended, q') := shared_event RQ cn s e q in
  ended = Returns tt ∧
  (GetNamespace x ≠ cn → q' = q) ∧
  (GetNamespace x = cn → ∃ e', scoped_event_with_options cn e = Returns (Some e') ∧
     let prog := tag_prog cn (reaction pc pu pd preds sctx (as_informer e')) in
     q' = run_prog RQ prog q ∧ ∀ req, passes prog req →
     req = MkRequest (MkCrRequest NamespaceDefault (GetName x)) cn ∧
     (∀ rctx, GetCluster (PP:=ns_Provider o) local quote m rctx (req_ClusterName req) = Ok cl) ∧
     (∀ obj opts, acts_in (client shared) ops cn (read_in client p cl (req_Request req) obj opts) (NamespaceClient.ns_Get ops (GetName x) (to_plain obj) opts)
        (λ r a, ∃ obj', r = Returns (obj', a.2) ∧ to_plain obj' = a.1 ∧ (a.2 = None → GetNamespace obj' = NamespaceDefault))) ∧
     (∀ obj opts, GetNamespace obj = NamespaceDefault →
        acts_in (client shared) ops cn (write_in client p cl obj opts) (ns_Update ops (to_plain obj) opts)
          (λ r a, r = Returns (at_ns NamespaceDefault a.1, a.2)))).
Proof.
  intros Hst Hg Hn Hm Hasks Hck Hr Hin Hlive Hx.
  assert (wrapper_at p cl = Some (MkNamespacedCluster cn (n_cluster p)) ∧ n_cluster p = shared) as [Hw Hsh].
  { unfold ns_Start in Hst. unfold modify in Hst. rewrite !bind_eq in Hst. simpl in Hst.
    set (p0 := NState shared (Some aware) ∅ ∅ [] w0) in Hst.
    destruct (wrapped_handle_all (SW:=outside o) root evs p0) as [H1 H2]; [intros nm k Hl; by apply (lookup_empty_Some nm k) in Hl|].
    destruct (ns_handle_all root evs p0) as [[[]|msg] p1]; unfold mret, M_ret in Hst; simpl in Hst; [|done]. assert (p1 = p) as -> by congruence. simpl in H1, H2. split; [|done].
    apply H1. unfold ns_Get in Hg. destruct (n_clusters p !! cn); congruence. }
  subst shared. pose proof (scoped_told cn e x Hx) as Ht. unfold shared_event, scoped. case_bool_decide as Hns.
  - destruct Ht as (e' & -> & Ht). split; [done|]. split; [done|]. intros _. exists e'. split; [done|].
    split; [by eapply registered_deliver|]. intros req (rq & -> & (x' & Hx' & ->)%Hasks)%map_prog_passes.
    rewrite Ht in Hx'. injection Hx' as <-. split; [done|]. split.
    + intros rctx. unfold GetCluster. rewrite bool_decide_eq_false_2, Hm by done. exact Hg.
    + split; [intros obj' opts; by apply read_in_acts|intros obj' opts Hd; by apply write_in_acts].
  - rewrite Ht. split; [done|]. split; [done|]. by intros ?.
Qed.
End events.

(** ** Witness *)

(** A shared cluster with one object in one namespace that refuses writes. *)
Definition zoo (ns : string) : gmap string nat := if bool_decide (ns = "zoo") then {["lion" := 1%nat]} else ∅.
Definition forbidden : error := Sentinel "Forbidden".
Definition ro_ops : @ns_operations nat string unit := MkNsOps
  (λ name x _ s, match s.2 !! name with Some b => (((name, b), None), s) | None => ((x, Some (Sentinel "NotFound")), s) end)
  (λ _ s, ((map_to_list s.2, None), s))
  (λ x _ s, ((x, Some forbidden), s)) (λ x _ s, ((x, Some forbidden), s)) (λ x _ s, ((x, Some forbidden), s))
  (λ x _ s, (Some forbidden, s)).
Definition ro_refuse (obj : Object nat) (_ : list string) (w : world) : (Object nat * option error) * world := ((obj, Some forbidden), w).
Definition ro_client : Client world nat string := MkClient
  (λ key obj _ w, match zoo key.1 !! key.2 with
                  | Some b => ((MkObj key.1 key.2 b, None), w)
                  | None => ((obj, Some (Sentinel "NotFound")), w)
                  end)
  (λ _ opts w, ((at_ns (ns_of opts) <$> map_to_list (zoo (ns_of opts)), None), w))
  ro_refuse ro_refuse ro_refuse ro_refuse (λ _ _ w, (Some forbidden, w)).

#[local] Instance ro_store : NamespacedStore id ns_of ro_client ro_ops.
Proof.
  refine {| glob _ := (); sect _ := zoo |}.
  - intros opts ns. unfold ns_of. by rewrite last_snoc.
  - intros ns name obj opts w. unfold same_get. simpl. destruct (zoo ns !! name); by split_ands.
  - intros ns l opts _ w. unfold same_list, ns_of, id. simpl. unfold ns_of. rewrite last_snoc. by split_ands.
  - intros [ns name b] opts w. by split_ands.
  - intros [ns name b] opts w. by split_ands.
  - intros [ns name b] opts w. by split_ands.
  - intros obj opts w. by split_ands.
Defined.

Definition ask_for (obj : Object nat) : qprog cr_Request := PAdd (MkCrRequest (GetNamespace obj) (GetName obj)) PRet.
Definition zoo_kind : kind (Object nat) Request :=
  lifted_kind (λ _ e, ask_for (ce_Object e)) (λ _ e, ask_for (ue_ObjectNew e)) (λ _ e, ask_for (de_Object e))
    (λ _ e, ask_for (ge_Object e)) (MkObj "" "" 0%nat) [].
Definition zoo_source : clusterKind (Object nat) Request := MkClusterKind "zoo" 1%nat (MkObj "" "" 0%nat) (k_handler zoo_kind) [] 0 None None.
Definition zoo_start : sstate (Object nat) Request := SState zoo_source [] 0 [] empty_store None.
Definition zoo_labels : list slabel :=
  [SNewCtx Background; SStart (MkStartEnv None None true) (Ctx [0%nat] []); SSection; SSection; SSection; SSection].
Definition zoo_started : sstate (Object nat) Request := default zoo_start (run (sexec true) zoo_labels zoo_start).

(** The provider after the namespace has appeared, and a manager over it. *)
Definition zoo_provider : nstate world :=
  (ns_Start (SW:=outside all_ok) Background 0 None None [NsAdd "zoo"] (ns_New 4%nat empty_world)).2.
Definition zoo_manager : mcManager (nstate world) basic := MkManager (Some zoo_provider) (Some (inl basic_New)).
Definition zoo_invalid (obj : Object nat) (ns : string) : error := Errorf "Invalid".

Lemma zoo_asks : asks_for_objects (λ _ e, ask_for (ce_Object e)) (λ _ e, ask_for (ue_ObjectNew e)) (λ _ e, ask_for (de_Object e)).
Proof.
  assert (∀ obj rq, passes (ask_for obj) rq → rq = MkCrRequest (GetNamespace obj) (GetName obj)) as Hp.
  { intros obj rq H. inversion H; subst; [done|]. by match goal with H' : passes PRet _ |- _ => inversion H' end. }
  intros ctx preds e rq. destruct e as [o|o o'|[o|[o| |]|]]; simpl; try (by inversion 1);
    match goal with |- context [if ?c then _ else _] => destruct c; [|by inversion 1] end; intros ->%Hp; by eexists.
Qed.

Lemma objects_are_reconciled_where_they_are_witness :
  let lion := MkObj "zoo" "lion" 1%nat in
  shared_event fifo "zoo" zoo_started (EvAdd lion true) [] = (Returns tt, [MkRequest (MkCrRequest "default" "lion") "zoo"]) ∧
  ∃ obj' w', read_in zoo_invalid (λ _, ro_client) zoo_provider 1%nat (MkCrRequest "default" "lion") (MkObj "" "" 0%nat) [] empty_world =
    (Returns (obj', None), w') ∧ to_plain obj' = ("lion", 1%nat).
Proof.
  intros lion.
  pose proof (objects_are_reconciled_where_they_are id ns_of zoo_invalid (λ _ e, ask_for (ce_Object e)) (λ _ e, ask_for (ue_ObjectNew e))
    (λ _ e, ask_for (de_Object e)) (λ _ e, ask_for (ge_Object e)) fifo [] all_ok Background 0 4%nat empty_world [NsAdd "zoo"] zoo_provider
    (MkObj "" "" 0%nat) [] "zoo" 1%nat zoo_source true zoo_started 0%nat (Ctx [0%nat] []) (EvAdd lion true) lion (λ _, ro_client) ro_ops 1%nat id zoo_manager) as H.
  destruct (shared_event fifo "zoo" zoo_started (EvAdd lion true) []) as [ended q'] eqn:Hs.
  assert ((ended, q') = (Returns tt, [MkRequest (MkCrRequest "default" "lion") "zoo"])) as [= -> ->].
  { rewrite <-Hs. vm_compute. reflexivity. }
  split; [done|]. destruct H as (_ & _ & H).
  - vm_compute. reflexivity.
  - vm_compute. reflexivity.
  - discriminate.
  - reflexivity.
  - exact zoo_asks.
  - reflexivity.
  - eapply (run_reachable _ _ zoo_labels zoo_start); [|vm_compute; reflexivity]. apply reach_init. repeat split.
  - apply list_elem_of_singleton. reflexivity.
  - reflexivity.
  - reflexivity.
  - destruct (H eq_refl) as (e' & [= <-] & _ & Hr).
    destruct (Hr (MkRequest (MkCrRequest "default" "lion") "zoo") (pass_add _ _)) as (_ & _ & Hread & _).
    destruct (Hread (MkObj "" "" 0%nat) [] empty_world) as ((obj' & Ho & Hp & _) & _). simpl in Hp.
    eexists obj', _. split; [|exact Hp]. etransitivity; [apply surjective_pairing|]. f_equal. exact Ho.
Defined.
