(* ===== verification/SyncExample.v ===== *)
(** * examples/sync-local-to-remote: ConfigMaps copied from one cluster to all

    Two reconcilers: one pushes a ConfigMap of the local cluster to every
    cluster of the file provider, the other reverts what was changed there.
    They use the API servers of the clusters through controller-runtime's
    clients: the operations are a class, and what they document is
    [ConfigMapLaws].  Writes go to the API server; reads are answered from a
    cache, of which nothing is assumed - [CurrentReads] adds that they show
    what the server holds.  [servers] is a client that reads from the server,
    [cached_servers] one with a cache that lags behind. *)

From S2P Require Import Prelude GoErrors GoContext Multicluster Reconcile Clusters FileProvider.

(** ** ConfigMaps and their servers *)

Definition ObjectKey : Type := string * string.

(** The data, the labels, and the metadata the server keeps, as its version.  A
    [Data] that is nil is not the empty map for [cmp.Equal]. *)
Record ConfigMap := MkConfigMap {
  cm_Namespace : string;
  cm_Name : string;
  cm_Labels : gmap string string;
  cm_Data : option (gmap string string);
  cm_ResourceVersion : nat;      (** zero is the empty string *)
}.

Definition cm_key (cm : ConfigMap) : ObjectKey := (cm_Namespace cm, cm_Name cm).
Definition with_data (data : option (gmap string string)) (cm : ConfigMap) : ConfigMap :=
  MkConfigMap (cm_Namespace cm) (cm_Name cm) (cm_Labels cm) data (cm_ResourceVersion cm).

(** [apierrors.IsNotFound]: the reason of the status error in the chain. *)
Definition StatusNotFound : error := Sentinel "NotFound".
Definition IsNotFound (e : error) : bool := Is e "NotFound".

(** The client of each cluster; [key] is the request's namespaced name. *)
Class ConfigMapClient (A : Type) := {
  cm_Get : cluster → ObjectKey → M A (result error ConfigMap);
  cm_Create : cluster → ConfigMap → M A (option error);
  cm_Update : cluster → ConfigMap → M A (option error);
  cm_Delete : cluster → ObjectKey → M A (option error);
}.

(** What was written under [k] of cluster [cl], if anything. *)
Definition wrote (st st' : cluster → ObjectKey → option ConfigMap) (cl : cluster) (k : ObjectKey)
    (ok : bool) (to : option ConfigMap → Prop) : Prop :=
  (∀ cl' k', (cl', k') ≠ (cl, k) → st' cl' k' = st cl' k') ∧
  (if ok then to (st' cl k) else st' cl k = st cl k ∨ to (st' cl k)).

(** The entries of the data: the encodings of an object do not tell nil from
    empty. *)
Definition contents (cm : ConfigMap) : gmap string string := default ∅ (cm_Data cm).

Definition is_image (cm : ConfigMap) (x : option ConfigMap) : Prop :=
  ∃ cm', x = Some cm' ∧ cm_key cm' = cm_key cm ∧ cm_Labels cm' = cm_Labels cm ∧ contents cm' = contents cm.

(** A [Get] of a client and its answer. *)
Definition read : Type := cluster * ObjectKey * result error ConfigMap.

(** What the API servers hold, and what the clients have read.  A write that
    reports an error may have been carried out or not, except that not finding
    the object to delete means that it is not there.  What a read answers is
    the cache's business. *)
Class ConfigMapLaws (A : Type) {CC : ConfigMapClient A} := {
  cm_stored : A → cluster → ObjectKey → option ConfigMap;
  cm_reads : A → list read;
  Get_law a cl k : let '(r, a') := cm_Get cl k a in
    cm_stored a' = cm_stored a ∧ cm_reads a' = cm_reads a ++ [(cl, k, r)] ∧
    ∀ cm, r = Ok cm → cm_key cm = k;
  Create_law a cl cm : let '(r, a') := cm_Create cl cm a in
    cm_reads a' = cm_reads a ∧
    wrote (cm_stored a) (cm_stored a') cl (cm_key cm) (bool_decide (r = None)) (is_image cm);
  Update_law a cl cm : let '(r, a') := cm_Update cl cm a in
    cm_reads a' = cm_reads a ∧
    wrote (cm_stored a) (cm_stored a') cl (cm_key cm) (bool_decide (r = None)) (is_image cm);
  Delete_law a cl k : let '(r, a') := cm_Delete cl k a in
    cm_reads a' = cm_reads a ∧
    wrote (cm_stored a) (cm_stored a') cl k (match r with None => true | Some e => IsNotFound e end) (λ x, x = None);
}.

(** The reads show what the servers hold: no cache, or one that has caught up.
    An empty map of data is read as nil. *)
Class CurrentReads (A : Type) {CC : ConfigMapClient A} {L : ConfigMapLaws A} : Prop :=
  Get_current a cl k : match (cm_Get cl k a).1 with
                       | Ok cm => cm_stored a cl k = Some cm ∧ cm_Data cm ≠ Some ∅
                       | Err e => IsNotFound e = true → cm_stored a cl k = None
                       end.

Section reconcilers.
Context {A : Type} {CC : ConfigMapClient A}.

(** The local cluster, and what the provider answers: its names, in order, and
    then the lookups - a cluster can go away in between. *)
Context (localCl : cluster) (ClusterNames : list ClusterName) (provider_Get : ClusterName → result error cluster).

(** What one iteration adds to the errors. *)
Definition join_opt (errs err : option error) : option error :=
  match err with None => errs | Some err => join2 errs err end.

(* src: examples/sync-local-to-remote/main.go:188-206 pushLocalToProvider *)
Fixpoint delete_everywhere (k : ObjectKey) (names : list ClusterName) (errs : option error) : M A (option error) :=
  match names with
  | [] => mret None
  | clusterName :: names =>
      match provider_Get clusterName with
      | Err err => mret (Some err)
      | Ok cl =>
          err ← cm_Delete cl k;
          delete_everywhere k names
            (match err with Some err => if IsNotFound err then errs else join2 errs err | None => errs end)
      end
  end.

(* src: examples/sync-local-to-remote/main.go:216-259 pushLocalToProvider *)
Definition propagate (k : ObjectKey) (cm : ConfigMap) (clusterName : ClusterName) : M A (option error) :=
  match provider_Get clusterName with
  | Err err => mret (Some err)
  | Ok cl =>
      existing ← cm_Get cl k;
      match existing with
      | Err err =>
          if negb (IsNotFound err) then mret (Some err)
          else cm_Create cl (MkConfigMap (cm_Namespace cm) (cm_Name cm) (cm_Labels cm) (cm_Data cm) 0)
      | Ok existingCM =>
          if bool_decide (cm_Data existingCM = cm_Data cm) then mret None
          else cm_Update cl (with_data (cm_Data cm) existingCM)
      end
  end.

(* src: examples/sync-local-to-remote/main.go:211-260 pushLocalToProvider *)
Fixpoint propagate_all (k : ObjectKey) (cm : ConfigMap) (names : list ClusterName) (errs : option error) : M A (option error) :=
  match names with
  | [] => mret errs
  | clusterName :: names => err ← propagate k cm clusterName; propagate_all k cm names (join_opt errs err)
  end.

Definition req_key (req : Request) : ObjectKey := (Namespace (req_Request req), Name (req_Request req)).

(** When the ConfigMap is gone the error that is returned is that of the lookup. *)
(* src: examples/sync-local-to-remote/main.go:168-264 pushLocalToProvider *)
Definition pushLocalToProvider (req : Request) : M A (Result * option error) :=
  let k := req_key req in
  cm ← cm_Get localCl k;
  match cm with
  | Err err =>
      if negb (IsNotFound err) then mret (zero_Result, Some err) else
      early ← delete_everywhere k ClusterNames None;
      mret (zero_Result, match early with Some err' => Some err' | None => Some err end)
  | Ok cm => errs ← propagate_all k cm ClusterNames None; mret (zero_Result, errs)
  end.

(* src: examples/sync-local-to-remote/main.go:266-320 pullProviderFromLocal *)
Definition pullProviderFromLocal (req : Request) : M A (Result * option error) :=
  let k := req_key req in
  match provider_Get (req_ClusterName req) with
  | Err err => mret (zero_Result, Some err)
  | Ok cl =>
      cm ← cm_Get cl k;
      match cm with
      | Err err => mret (zero_Result, if IsNotFound err then None else Some err)
      | Ok cm =>
          localCM ← cm_Get localCl k;
          match localCM with
          | Err err =>
              if negb (IsNotFound err) then mret (zero_Result, Some err)
              else err ← cm_Delete cl k; mret (zero_Result, err)
          | Ok localCM =>
              if bool_decide (cm_Data localCM = cm_Data cm) then mret (zero_Result, None)
              else err ← cm_Update cl (with_data (cm_Data localCM) cm); mret (zero_Result, err)
          end
      end
  end.
End reconcilers.

(* src: examples/sync-local-to-remote/main.go:322-327 ignoreCanceled *)
Definition ignoreCanceled (err : option error) : option error :=
  if IsOpt err "context.Canceled" then None else err.

(** ** Lemmas *)
Section lemmas.
Context {A : Type} {CC : ConfigMapClient A} {L : ConfigMapLaws A}.
Context (localCl : cluster) (names : list ClusterName) (pget : ClusterName → result error cluster).

(** A cluster has the data under the key. *)
Definition has_data (a : A) (cl : cluster) (k : ObjectKey) (data : gmap string string) : Prop :=
  ∃ cm, cm_stored a cl k = Some cm ∧ contents cm = data.

(** At most objects under [k] were changed, to hold [data]. *)
Definition only_data (a a' : A) (k : ObjectKey) (data : gmap string string) : Prop :=
  ∀ cl' k', cm_stored a' cl' k' = cm_stored a cl' k' ∨ k' = k ∧ has_data a' cl' k data.

(** Among the reads [l] that lead to [a'], the cluster's object had the data of
    [cm]; since that read nothing was changed but to hold it. *)
Definition seen_equal (a' : A) (l : list read) (cl : cluster) (k : ObjectKey) (cm : ConfigMap) : Prop :=
  ∃ ex a0, (cl, k, Ok ex) ∈ l ∧ cm_Data ex = cm_Data cm ∧ (cm_Get cl k a0).1 = Ok ex ∧ only_data a0 a' k (contents cm).

(** The cluster was written the data of [cm], or was seen to have it. *)
Definition settled (a' : A) (l : list read) (cl : cluster) (k : ObjectKey) (cm : ConfigMap) : Prop :=
  has_data a' cl k (contents cm) ∨ seen_equal a' l cl k cm.

Lemma only_data_refl a a' k d : cm_stored a' = cm_stored a → only_data a a' k d.
Proof. intros H cl' k'. left. by rewrite H. Qed.

Lemma only_data_trans a1 a2 a3 k d : only_data a1 a2 k d → only_data a2 a3 k d → only_data a1 a3 k d.
Proof.
  intros H1 H2 cl' k'. destruct (H2 cl' k') as [H|?]; [|by right]. rewrite H. destruct (H1 cl' k') as [?|[-> (cm & Hc & Hd)]]; [by left|].
  right. split; [done|]. exists cm. by rewrite H.
Qed.

Lemma has_data_kept a a' cl k d : only_data a a' k d → has_data a cl k d → has_data a' cl k d.
Proof. intros Ho (cm & Hc & Hd). destruct (Ho cl k) as [H|[_ ?]]; [exists cm; by rewrite H|done]. Qed.

Lemma settled_kept a a' l l' cl k cm :
  l ⊆ l' → only_data a a' k (contents cm) → settled a l cl k cm → settled a' l' cl k cm.
Proof.
  intros Hl Ho [Hd|(ex & a0 & Hin & Heq & Hg & Ho0)]; [left; by eapply has_data_kept|right].
  exists ex, a0. split_ands; auto. by eapply only_data_trans.
Qed.

Lemma wrote_only a a' cl cm ok :
  wrote (cm_stored a) (cm_stored a') cl (cm_key cm) ok (is_image cm) →
  only_data a a' (cm_key cm) (contents cm) ∧ (ok = true → has_data a' cl (cm_key cm) (contents cm)).
Proof.
  intros [Ho Hw]. assert (is_image cm (cm_stored a' cl (cm_key cm)) → has_data a' cl (cm_key cm) (contents cm)) as Hi.
  { intros (cm' & Hv & _ & _ & Hd). by exists cm'. }
  split.
  - intros cl' k'. destruct (decide ((cl', k') = (cl, cm_key cm))) as [[= -> ->]|Hne]; [|left; by apply Ho].
    destruct ok; [right; by auto|]. destruct Hw as [?|?]; [by left|right; by auto].
  - intros ->. by apply Hi.
Qed.

Lemma propagate_spec k cm n a :
  cm_key cm = k →
  let '(err, a') := propagate pget k cm n a in
  only_data a a' k (contents cm) ∧
  ∃ l, cm_reads a' = cm_reads a ++ l ∧ (err = None → ∃ cl, pget n = Ok cl ∧ settled a' l cl k cm).
Proof.
  intros <-. unfold propagate. destruct (pget n) as [cl|e].
  2:{ split; [by apply only_data_refl|]. exists []. by rewrite app_nil_r. }
  rewrite bind_eq. pose proof (Get_law a cl (cm_key cm)) as Hg. destruct (cm_Get cl (cm_key cm) a) as [r0 a1] eqn:Hget.
  destruct Hg as (Hs & Hl & Hk). assert (only_data a a1 (cm_key cm) (contents cm)) as Ho1 by by apply only_data_refl.
  destruct r0 as [ex|e].
  - specialize (Hk ex eq_refl). case_bool_decide as Hd.
    + split; [done|]. eexists. split; [exact Hl|]. intros _. exists cl. split; [done|]. right. exists ex, a.
      rewrite Hget. split_ands; [by left|done|done|done].
    + pose proof (Update_law a1 cl (with_data (cm_Data cm) ex)) as Hu. destruct (cm_Update _ _ a1) as [r a2].
      destruct Hu as [Hl2 Hu]. apply wrote_only in Hu as [Ho Hi].
      change (cm_key (with_data (cm_Data cm) ex)) with (cm_key ex) in *.
      change (contents (with_data (cm_Data cm) ex)) with (contents cm) in *. rewrite Hk in *.
      split; [by eapply only_data_trans|]. eexists. split; [by rewrite Hl2|]. intros ->. exists cl. split; [done|]. left. by apply Hi.
  - destruct (IsNotFound e); cbn [negb]; [|split; [done|]; eexists; by split].
    match goal with |- context [cm_Create cl ?c] => pose proof (Create_law a1 cl c) as Hu end.
    destruct (cm_Create _ _ a1) as [r a2]. destruct Hu as [Hl2 Hu]. apply wrote_only in Hu as [Ho Hi].
    split; [eapply only_data_trans; [exact Ho1|exact Ho]|]. eexists. split; [by rewrite Hl2|].
    intros ->. exists cl. split; [done|]. left. by apply Hi.
Qed.

Lemma join_opt_None errs err : join_opt errs err = None → errs = None ∧ err = None.
Proof. unfold join_opt, join2. by destruct err. Qed.

Lemma propagate_all_spec k cm l errs a :
  cm_key cm = k →
  let '(err, a') := propagate_all pget k cm l errs a in
  only_data a a' k (contents cm) ∧
  ∃ rs, cm_reads a' = cm_reads a ++ rs ∧
    (err = None → errs = None ∧ ∀ n, n ∈ l → ∃ cl, pget n = Ok cl ∧ settled a' rs cl k cm).
Proof.
  intros Hk. revert errs a. induction l as [|n l IH]; intros errs a; cbn [propagate_all].
  { split; [by apply only_data_refl|]. exists []. rewrite app_nil_r. split; [done|]. intros ->. split; [done|]. by intros ? ?%elem_of_nil. }
  rewrite bind_eq. pose proof (propagate_spec k cm n a Hk) as Hp. destruct (propagate pget k cm n a) as [e a1].
  destruct Hp as (Ho & r1 & Hr1 & Hn). specialize (IH (join_opt errs e) a1).
  destruct (propagate_all _ _ _ l _ a1) as [err a2]. destruct IH as (Ho2 & r2 & Hr2 & Hn2).
  split; [by eapply only_data_trans|]. exists (r1 ++ r2). rewrite Hr2, Hr1, app_assoc. split; [done|].
  intros ->. destruct (Hn2 eq_refl) as [[-> ->]%join_opt_None Hl]. split; [done|].
  intros m [->|Hm]%elem_of_cons.
  - destruct (Hn eq_refl) as (cl & Hcl & Hd). exists cl. split; [done|]. eapply settled_kept; [|done..]. set_solver.
  - destruct (Hl m Hm) as (cl & Hcl & Hd). exists cl. split; [done|]. eapply settled_kept; [|by apply only_data_refl|done]. set_solver.
Qed.
End lemmas.

(** What a successful push leaves. *)
Section steps.
Context {A : Type} {CC : ConfigMapClient A} {L : ConfigMapLaws A}.
Context (localCl : cluster) (names : list ClusterName) (pget : ClusterName → result error cluster).

Lemma push_spec req a res a' :
  pushLocalToProvider localCl names pget req a = ((res, None), a') →
  ∃ cm l, (cm_Get localCl (req_key req) a).1 = Ok cm ∧ res = zero_Result ∧
    cm_reads a' = cm_reads a ++ (localCl, req_key req, Ok cm) :: l ∧
    (∀ n, n ∈ names → ∃ cl, pget n = Ok cl ∧ settled a' l cl (req_key req) cm) ∧
    only_data a a' (req_key req) (contents cm).
Proof.
  unfold pushLocalToProvider. rewrite bind_eq. pose proof (Get_law a localCl (req_key req)) as Hg.
  destruct (cm_Get _ _ a) as [[cm|e] a1]; destruct Hg as (Hs & Hl & Hk).
  - specialize (Hk cm eq_refl). rewrite bind_eq. pose proof (propagate_all_spec pget (req_key req) cm names None a1 Hk) as Hp.
    destruct (propagate_all _ _ _ _ _ a1) as [err a2]. destruct Hp as (Ho & rs & Hrs & Hn). intros [= <- -> <-]. exists cm, rs.
    destruct (Hn eq_refl) as [_ Hall]. split_ands; [done|done|by rewrite Hrs, Hl, <-app_assoc|done|].
    eapply only_data_trans; [by apply only_data_refl|done].
  - destruct (IsNotFound e); cbn [negb]; [|done]. rewrite bind_eq. by destruct (delete_everywhere _ _ _ _ a1) as [[?|] ?].
Qed.

(** With current reads every cluster has the data. *)
Lemma push_current {Cur : CurrentReads A} req a res a' :
  pushLocalToProvider localCl names pget req a = ((res, None), a') →
  ∃ cm, cm_stored a localCl (req_key req) = Some cm ∧
    (∀ n, n ∈ names → ∃ cl, pget n = Ok cl ∧ has_data a' cl (req_key req) (contents cm)) ∧
    has_data a' localCl (req_key req) (contents cm) ∧ only_data a a' (req_key req) (contents cm).
Proof using L.
  intros (cm & l & Hget & _ & _ & Hall & Ho)%push_spec. pose proof (Get_current a localCl (req_key req)) as Hg.
  rewrite Hget in Hg. destruct Hg as [Hcm _]. exists cm. split; [done|]. split.
  - intros n Hn. destruct (Hall n Hn) as (cl & Hcl & [Hd|(ex & a0 & _ & Heq & Hex & Ho0)]); exists cl; (split; [done|]); [done|].
    pose proof (Get_current a0 cl (req_key req)) as Hg. rewrite Hex in Hg. destruct Hg as [Hst _].
    eapply has_data_kept; [exact Ho0|]. exists ex. unfold contents. by rewrite Heq.
  - split; [|done]. eapply has_data_kept; [done|]. by exists cm.
Qed.

Lemma contents_inj x y : cm_Data x ≠ Some ∅ → cm_Data y ≠ Some ∅ → contents x = contents y → cm_Data x = cm_Data y.
Proof. unfold contents. destruct (cm_Data x), (cm_Data y); simpl; intros; congruence. Qed.

(** Deleting everywhere: what is gone stays gone. *)
Lemma delete_everywhere_spec k l errs a :
  (∀ n, n ∈ l → ∃ cl, pget n = Ok cl) →
  let '(early, a') := delete_everywhere pget k l errs a in
  early = None ∧ (∀ cl, cm_stored a cl k = None → cm_stored a' cl k = None) ∧
  ((∀ n cl a, pget n = Ok cl → match (cm_Delete cl k a).1 with None => True | Some e => IsNotFound e = true end) →
   ∀ n cl, n ∈ l → pget n = Ok cl → cm_stored a' cl k = None).
Proof.
  revert errs a. induction l as [|n l IH]; intros errs a Hp; cbn [delete_everywhere].
  { split; [done|]. split; [done|]. by intros _ ? ? ?%elem_of_nil. }
  destruct (Hp n) as [cl Hcl]; [by left|]. rewrite Hcl, bind_eq. pose proof (Delete_law a cl k) as Hd.
  destruct (cm_Delete cl k a) as [r a1] eqn:Hdel. destruct Hd as [_ [Ho Hw]].
  match goal with |- context [delete_everywhere pget k l ?e a1] => specialize (IH e a1) end.
  destruct (delete_everywhere _ _ l _ a1) as [early a2]. destruct IH as (-> & Hk & Hl); [intros m Hm; apply Hp; by right|].
  assert (∀ cl', cm_stored a cl' k = None → cm_stored a1 cl' k = None) as Hk1.
  { intros cl' Hc. destruct (decide ((cl', k) = (cl, k))) as [[= ->]|Hne]; [|by rewrite Ho].
    destruct r as [e|]; [destruct (IsNotFound e)|]; try done. destruct Hw as [Hw|?]; [by rewrite Hw|done]. }
  split; [done|]. split; [by intros; apply Hk, Hk1|]. intros Hok m cl' [->|Hm]%elem_of_cons Hc; [|by eapply Hl].
  assert (cl' = cl) as -> by congruence. apply Hk. specialize (Hok n cl a Hcl). rewrite Hdel in Hok. simpl in Hok.
  destruct r as [e|]; [by rewrite Hok in Hw|done].
Qed.
End steps.

(** ** Properties *)
Section properties.
Context {A : Type} {CC : ConfigMapClient A} {L : ConfigMapLaws A}.
Context (localCl : cluster) (names : list ClusterName) (pget : ClusterName → result error cluster).

(** C29 (functional): when pushing succeeds it has read the local ConfigMap, every
    cluster of the provider was written one of that name with the same data -
    and has it - or was seen to have that data already when it was read; and
    nothing else was changed: no other name, and no object but to hold that
    data.  Of the answers to reads, which come from a cache, nothing is
    assumed. *)
Theorem push_copies_everywhere req a res a' :
  pushLocalToProvider localCl names pget req a = ((res, None), a') →
  ∃ cm l, (cm_Get localCl (req_key req) a).1 = Ok cm ∧ res = zero_Result ∧
    cm_reads a' = cm_reads a ++ (localCl, req_key req, Ok cm) :: l ∧
    (∀ n, n ∈ names → ∃ cl, pget n = Ok cl ∧ settled a' l cl (req_key req) cm) ∧
    only_data a a' (req_key req) (contents cm).
Proof. apply push_spec. Qed.

(** Complement (functional): when the reads are current, all clusters have the data of
    the local ConfigMap after a push that succeeded. *)
Theorem push_copies_everything {Cur : CurrentReads A} req a res a' :
  pushLocalToProvider localCl names pget req a = ((res, None), a') →
  ∃ cm, cm_stored a localCl (req_key req) = Some cm ∧
    ∀ n, n ∈ names → ∃ cl, pget n = Ok cl ∧ has_data a' cl (req_key req) (contents cm).
Proof using L.
  intros Hp. destruct (push_current localCl names pget req a res a' Hp) as (cm & Hcm & Hall & _). by exists cm.
Qed.

(** Complement (functional): pulling a cluster's ConfigMap settles it as far as the two
    reads tell: if it succeeds, there was no such ConfigMap to read and nothing
    was done; or there was no local one, and it is gone; or the two had the same
    data and nothing was done; or it has the data of the local one now.
    Nothing else was changed. *)
Theorem pull_reverts_changes req a res a' :
  pullProviderFromLocal localCl pget req a = ((res, None), a') →
  ∃ cl l, pget (req_ClusterName req) = Ok cl ∧ res = zero_Result ∧ cm_reads a' = cm_reads a ++ l ∧
    (∀ cl' k', (cl', k') ≠ (cl, req_key req) → cm_stored a' cl' k' = cm_stored a cl' k') ∧
    ((∃ e, l = [(cl, req_key req, Err e)] ∧ IsNotFound e = true ∧ cm_stored a' = cm_stored a) ∨
     (∃ cm e, l = [(cl, req_key req, Ok cm); (localCl, req_key req, Err e)] ∧ IsNotFound e = true ∧
        cm_stored a' cl (req_key req) = None) ∨
     ∃ cm localCM, l = [(cl, req_key req, Ok cm); (localCl, req_key req, Ok localCM)] ∧
       (cm_Data localCM = cm_Data cm ∧ cm_stored a' = cm_stored a ∨ has_data a' cl (req_key req) (contents localCM))).
Proof.
  unfold pullProviderFromLocal. set (k := req_key req). destruct (pget _) as [cl|e]; [|done].
  rewrite bind_eq. pose proof (Get_law a cl k) as Hg. destruct (cm_Get cl k a) as [[cm|e] a1]; destruct Hg as (Hs1 & Hl1 & Hk).
  2:{ destruct (IsNotFound e) eqn:He; [|done]. intros [= <- <-]. exists cl, [(cl, k, Err e)]. rewrite Hs1. split_ands; try done.
      left. by exists e. }
  specialize (Hk cm eq_refl). rewrite bind_eq. pose proof (Get_law a1 localCl k) as Hl.
  destruct (cm_Get localCl k a1) as [[l|e] a2]; destruct Hl as (Hs2 & Hl2 & _); rewrite Hl1, <-app_assoc in Hl2; rewrite Hs1 in Hs2.
  - case_bool_decide as Hd.
    + intros [= <- <-]. eexists cl, _. rewrite Hs2. split_ands; [done|done|exact Hl2|done|]. right. right. exists cm, l. auto.
    + rewrite bind_eq. pose proof (Update_law a2 cl (with_data (cm_Data l) cm)) as Hu. destruct (cm_Update _ _ a2) as [r a3].
      intros [= <- -> <-]. destruct Hu as [Hl3 Hu]. destruct (wrote_only _ _ _ _ _ Hu) as [_ Hi]. destruct Hu as [Ho _].
      change (cm_key (with_data (cm_Data l) cm)) with (cm_key cm) in *. rewrite Hk in *. rewrite Hs2 in Ho.
      eexists cl, _. split_ands; [done|done|by rewrite Hl3|done|]. right. right. exists cm, l. split; [done|]. right. by apply Hi.
  - destruct (IsNotFound e) eqn:He; cbn [negb]; [|done]. rewrite bind_eq. pose proof (Delete_law a2 cl k) as Hu.
    destruct (cm_Delete cl k a2) as [r a3]. intros [= <- -> <-]. destruct Hu as [Hl3 [Ho Hn]]. rewrite Hs2 in Ho.
    eexists cl, _. split_ands; [done|done|by rewrite Hl3|done|]. right. left. by exists cm, e.
Qed.

(** Complement (equivalence): the two reconcilers agree: when the reads are current,
    after a push that succeeded pulling the ConfigMap of any of the clusters
    writes nothing, whatever the servers answer. *)
Theorem push_then_pull_is_quiet {Cur : CurrentReads A} req a res a1 n req' :
  pushLocalToProvider localCl names pget req a = ((res, None), a1) →
  n ∈ names → req_ClusterName req' = n → req_Request req' = req_Request req →
  cm_stored (pullProviderFromLocal localCl pget req' a1).2 = cm_stored a1.
Proof using L.
  intros Hp Hn Hcn Hreq. destruct (push_current localCl names pget req a res a1 Hp) as (cm & _ & Hall & (y & Hy & Hdy) & _).
  destruct (Hall n Hn) as (cl & Hcl & x & Hx & Hdx).
  unfold pullProviderFromLocal. rewrite Hcn, Hcl. assert (req_key req' = req_key req) as -> by (unfold req_key; by rewrite Hreq).
  rewrite bind_eq. pose proof (Get_law a1 cl (req_key req)) as Hg. pose proof (Get_current a1 cl (req_key req)) as Hc.
  destruct (cm_Get cl _ a1) as [[c|e] a2]; destruct Hg as [Hs2 _]; simpl in Hc.
  2:{ destruct (IsNotFound e) eqn:He; exact Hs2. }
  rewrite bind_eq. pose proof (Get_law a2 localCl (req_key req)) as Hg. pose proof (Get_current a2 localCl (req_key req)) as Hlc.
  destruct (cm_Get localCl _ a2) as [[l|e] a3]; destruct Hg as [Hs3 _]; simpl in Hlc; rewrite Hs2 in Hlc.
  - destruct Hc as [Hc Hcn'], Hlc as [Hlc Hln]. rewrite bool_decide_eq_true_2; [simpl; by rewrite Hs3, Hs2|].
    apply contents_inj; [done..|]. congruence.
  - destruct (IsNotFound e); cbn [negb]; [|simpl; by rewrite Hs3, Hs2]. specialize (Hlc eq_refl). congruence.
Qed.

(** Complement (error): when the local ConfigMap is gone, pushing never succeeds: the
    error it returns is the one of the lookup, even if the ConfigMap was
    deleted everywhere, so that the request is retried for ever - and a
    deletion that failed is not what is reported. *)
Theorem deleted_configmap_is_retried_forever req a e a0 :
  cm_Get localCl (req_key req) a = (Err e, a0) → IsNotFound e = true →
  (∀ n, n ∈ names → ∃ cl, pget n = Ok cl) →
  let '((res, err), a') := pushLocalToProvider localCl names pget req a in
  err = Some e ∧
  ((∀ n cl a, pget n = Ok cl → match (cm_Delete cl (req_key req) a).1 with None => True | Some e => IsNotFound e = true end) →
   ∀ n cl, n ∈ names → pget n = Ok cl → cm_stored a' cl (req_key req) = None).
Proof.
  intros Hg He Hp. unfold pushLocalToProvider. rewrite bind_eq, Hg, He. cbn [negb]. rewrite bind_eq.
  pose proof (delete_everywhere_spec pget (req_key req) names None a0 Hp) as Hd.
  destruct (delete_everywhere _ _ _ _ a0) as [early a']. destruct Hd as (-> & _ & Hd). by split.
Qed.
End properties.

(** ** Concrete servers *)

(** Objects by cluster and name, without what the key says; some servers do not
    answer.  Data without entries is read as nil. *)
Definition stored_cm : Type := gmap string string * gmap string string * nat.
Record servers := MkServers {
  sv_objs : gmap (nat * ObjectKey) stored_cm;
  sv_next : nat;
  sv_down : gset nat;
  sv_reads : list read;
}.

Definition nil_if_empty (data : gmap string string) : option (gmap string string) :=
  if bool_decide (data = ∅) then None else Some data.

Definition to_cm (k : ObjectKey) (x : stored_cm) : ConfigMap := MkConfigMap k.1 k.2 x.1.1 (nil_if_empty x.1.2) x.2.

Definition sv_call (cl : cluster) (f : servers → option error * servers) : M servers (option error) := fun s =>
  if bool_decide (cl ∈ sv_down s) then (Some (Errorf "connection refused"), s) else f s.

Definition sv_put (cl : cluster) (cm : ConfigMap) (s : servers) : servers :=
  MkServers (<[(cl, cm_key cm) := (cm_Labels cm, contents cm, S (sv_next s))]> (sv_objs s)) (S (sv_next s)) (sv_down s) (sv_reads s).

(** A read of [objs], which is recorded. *)
Definition sv_read (objs : gmap (nat * ObjectKey) stored_cm) (cl : cluster) (k : ObjectKey) : M servers (result error ConfigMap) := fun s =>
  let r := if bool_decide (cl ∈ sv_down s) then Err (Errorf "connection refused") else
           match objs !! (cl, k) with Some x => Ok (to_cm k x) | None => Err StatusNotFound end in
  (r, MkServers (sv_objs s) (sv_next s) (sv_down s) (sv_reads s ++ [(cl, k, r)])).

#[export] Instance servers_client : ConfigMapClient servers := {|
  cm_Get cl k := λ s, sv_read (sv_objs s) cl k s;
  cm_Create cl cm := sv_call cl (λ s,
    match sv_objs s !! (cl, cm_key cm) with Some _ => (Some (Errorf "already exists"), s) | None => (None, sv_put cl cm s) end);
  cm_Update cl cm := sv_call cl (λ s,
    match sv_objs s !! (cl, cm_key cm) with
    | None => (Some StatusNotFound, s)
    | Some x => if bool_decide (x.2 = cm_ResourceVersion cm) then (None, sv_put cl cm s) else (Some (Errorf "conflict"), s)
    end);
  cm_Delete cl k := sv_call cl (λ s,
    match sv_objs s !! (cl, k) with
    | None => (Some StatusNotFound, s)
    | Some _ => (None, MkServers (delete (cl, k) (sv_objs s)) (sv_next s) (sv_down s) (sv_reads s))
    end);
|}.

Definition sv_stored (s : servers) (cl : cluster) (k : ObjectKey) : option ConfigMap := to_cm k <$> sv_objs s !! (cl, k).

Lemma sv_put_wrote cl cm s : wrote (sv_stored s) (sv_stored (sv_put cl cm s)) cl (cm_key cm) true (is_image cm).
Proof.
  unfold sv_stored. split.
  - intros cl' k' Hne. simpl. rewrite lookup_insert_ne; [done|]. intros Heq. apply Hne. exact (eq_sym Heq).
  - simpl. rewrite lookup_insert_eq. eexists. split; [done|]. unfold to_cm, contents at 1, nil_if_empty. simpl.
    split; [by destruct cm|]. split; [done|]. by case_bool_decide as H; simpl; [rewrite H|].
Qed.

#[export] Program Instance servers_laws : ConfigMapLaws servers := {|
  cm_stored := sv_stored;
  cm_reads := sv_reads;
|}.
Next Obligation.
  intros s cl k. split; [done|]. split; [done|]. intros cm. case_bool_decide; [done|].
  destruct (sv_objs s !! (cl, k)) as [x|]; [|done]. intros [= <-]. by destruct k.
Qed.
Next Obligation.
  intros s cl cm. unfold cm_Create, servers_client, sv_call. case_bool_decide; [split; [done|split; [done|by left]]|].
  destruct (sv_objs s !! (cl, cm_key cm)) as [x|]; [split; [done|split; [done|by left]]|]. split; [done|]. apply sv_put_wrote.
Qed.
Next Obligation.
  intros s cl cm. unfold cm_Update, servers_client, sv_call. case_bool_decide; [split; [done|split; [done|by left]]|].
  destruct (sv_objs s !! (cl, cm_key cm)) as [x|]; [|split; [done|split; [done|by left]]].
  case_bool_decide; [|split; [done|split; [done|by left]]]. split; [done|]. apply sv_put_wrote.
Qed.
Next Obligation.
  intros s cl k. unfold cm_Delete, servers_client, sv_call. case_bool_decide; [split; [done|split; [done|by left]]|].
  unfold sv_stored. destruct (sv_objs s !! (cl, k)) as [x|] eqn:Hx; [|split; [done|split; [done|simpl; by rewrite Hx]]].
  split; [done|]. split; simpl; [|by rewrite lookup_delete_eq].
  intros cl' k' Hne. rewrite lookup_delete_ne; [done|]. intros Heq. apply Hne. exact (eq_sym Heq).
Qed.

#[export] Instance servers_current : CurrentReads servers.
Proof.
  intros s cl k. simpl. unfold sv_stored. case_bool_decide; [done|]. destruct (sv_objs s !! (cl, k)) as [x|]; [|done].
  split; [done|]. unfold to_cm, nil_if_empty. simpl. case_bool_decide; [done|]. congruence.
Qed.

(** A client that reads from a cache, which is not filled while it is used. *)
Record cached_servers := MkCached {
  cd_servers : servers;
  cd_cache : gmap (nat * ObjectKey) stored_cm;
}.

Definition on_servers {B} (f : M servers B) : M cached_servers B := fun s =>
  let '(b, sv) := f (cd_servers s) in (b, MkCached sv (cd_cache s)).

#[export] Instance cached_client : ConfigMapClient cached_servers := {|
  cm_Get cl k := λ s, on_servers (sv_read (cd_cache s) cl k) s;
  cm_Create cl cm := on_servers (cm_Create cl cm);
  cm_Update cl cm := on_servers (cm_Update cl cm);
  cm_Delete cl k := on_servers (cm_Delete cl k);
|}.

#[export] Program Instance cached_laws : ConfigMapLaws cached_servers := {|
  cm_stored s := sv_stored (cd_servers s);
  cm_reads s := sv_reads (cd_servers s);
|}.
Next Obligation.
  intros s cl k. split; [done|]. split; [done|]. intros cm. case_bool_decide; [done|].
  destruct (cd_cache s !! (cl, k)) as [x|]; [|done]. intros [= <-]. by destruct k.
Qed.
Next Obligation.
  intros s cl cm. pose proof (Create_law (cd_servers s) cl cm) as H. unfold cm_Create at 1, cached_client, on_servers.
  destruct (cm_Create cl cm (cd_servers s)). exact H.
Qed.
Next Obligation.
  intros s cl cm. pose proof (Update_law (cd_servers s) cl cm) as H. unfold cm_Update at 1, cached_client, on_servers.
  destruct (cm_Update cl cm (cd_servers s)). exact H.
Qed.
Next Obligation.
  intros s cl k. pose proof (Delete_law (cd_servers s) cl k) as H. unfold cm_Delete at 1, cached_client, on_servers.
  destruct (cm_Delete cl k (cd_servers s)). exact H.
Qed.

(** ** Witnesses: two clusters of a file provider; the local one is number zero *)

Definition two : Clusters := set_maps {["a" := 1%nat; "b" := 2%nat]} ∅ (Clusters.New (λ _, 0%nat)).
Definition two_Get (n : ClusterName) : result error cluster := file_Get two Background n.
Definition demo_req (n : ClusterName) : Request := MkRequest (MkCrRequest "default" "settings") n.
Definition demo_key : ObjectKey := ("default", "settings").
Definition color (c : string) : gmap string string := {["color" := c]}.
Definition demo_objs : gmap (nat * ObjectKey) stored_cm :=
  {[(0%nat, demo_key) := (∅, color "red", 1%nat); (2%nat, demo_key) := (∅, color "blue", 2%nat)]}.
Definition before : servers := MkServers demo_objs 2 ∅ [].
Definition after : servers := (pushLocalToProvider 0%nat (ClusterNames two) two_Get (demo_req "") before).2.

Lemma after_eq : pushLocalToProvider 0%nat (ClusterNames two) two_Get (demo_req "") before = ((zero_Result, None), after).
Proof.
  assert ((pushLocalToProvider 0%nat (ClusterNames two) two_Get (demo_req "") before).1 = (zero_Result, None)) as <- by (vm_compute; reflexivity).
  apply surjective_pairing.
Qed.

Lemma push_copies_everything_witness :
  ∃ cm, cm_stored before 0%nat demo_key = Some cm ∧ contents cm = color "red" ∧
    ∀ n, n ∈ ["a"; "b"] → ∃ cl, two_Get n = Ok cl ∧ has_data after cl demo_key (contents cm).
Proof.
  destruct (push_copies_everything 0%nat (ClusterNames two) two_Get (demo_req "") before zero_Result after after_eq) as (cm & Hcm & Hall).
  exists cm. split; [done|]. split; [|exact Hall].
  assert (contents <$> cm_stored before 0%nat demo_key = Some (color "red")) as Hc by (vm_compute; reflexivity).
  pose proof (eq_trans (eq_sym Hc) (f_equal (fmap contents) Hcm)) as [= ->]. reflexivity.
Defined.

(** A cache that shows what the servers hold when the push begins. *)
Definition filled : cached_servers := MkCached before demo_objs.
Definition pushed : cached_servers := (pushLocalToProvider 0%nat (ClusterNames two) two_Get (demo_req "") filled).2.

Lemma pushed_eq : pushLocalToProvider 0%nat (ClusterNames two) two_Get (demo_req "") filled = ((zero_Result, None), pushed).
Proof.
  assert ((pushLocalToProvider 0%nat (ClusterNames two) two_Get (demo_req "") filled).1 = (zero_Result, None)) as <- by (vm_compute; reflexivity).
  apply surjective_pairing.
Qed.

Lemma push_copies_everywhere_witness :
  contents <$> cm_stored pushed 2%nat demo_key = Some (color "red") ∧
  ∃ cm l, cm_reads pushed = cm_reads filled ++ (0%nat, demo_key, Ok cm) :: l ∧
    ∀ n, n ∈ ["a"; "b"] → ∃ cl, two_Get n = Ok cl ∧ settled pushed l cl demo_key cm.
Proof.
  split; [vm_compute; reflexivity|].
  destruct (push_copies_everywhere 0%nat (ClusterNames two) two_Get (demo_req "") filled zero_Result pushed pushed_eq)
    as (cm & l & _ & _ & Hr & Hall & _).
  exists cm, l. split; [exact Hr|exact Hall].
Defined.

(** Complement (safety): what a stale cache hides is not pushed: cluster b's cache still
    shows the data of the local ConfigMap, pushing succeeds, and the cluster
    keeps other data. *)
Theorem stale_cache_hides_a_difference :
  let a := MkCached before (<[(1%nat, demo_key) := (∅, color "red", 1%nat)]> (<[(2%nat, demo_key) := (∅, color "red", 1%nat)]> demo_objs)) in
  let '((_, err), a') := pushLocalToProvider 0%nat (ClusterNames two) two_Get (demo_req "") a in
  err = None ∧ contents <$> cm_stored a' 2%nat demo_key = Some (color "blue").
Proof. vm_compute. by split. Qed.

Definition pulled : servers := (pullProviderFromLocal 0%nat two_Get (demo_req "b") before).2.

Lemma pulled_eq : pullProviderFromLocal 0%nat two_Get (demo_req "b") before = ((zero_Result, None), pulled).
Proof.
  assert ((pullProviderFromLocal 0%nat two_Get (demo_req "b") before).1 = (zero_Result, None)) as <- by (vm_compute; reflexivity).
  apply surjective_pairing.
Qed.

Lemma pull_reverts_changes_witness :
  ∃ a', pullProviderFromLocal 0%nat two_Get (demo_req "b") before = ((zero_Result, None), a') ∧
    contents <$> cm_stored a' 2%nat demo_key = Some (color "red") ∧
    ∃ cl, two_Get "b" = Ok cl ∧ ∀ cl' k', (cl', k') ≠ (cl, demo_key) → cm_stored a' cl' k' = cm_stored before cl' k'.
Proof.
  exists pulled. split; [exact pulled_eq|]. split; [vm_compute; reflexivity|].
  destruct (pull_reverts_changes 0%nat two_Get (demo_req "b") before zero_Result pulled pulled_eq) as (cl & l & Hcl & _ & _ & H & _).
  exists cl. split; [exact Hcl|exact H].
Defined.

Lemma push_then_pull_is_quiet_witness :
  cm_stored (pullProviderFromLocal 0%nat two_Get (demo_req "b") after).2 = cm_stored after.
Proof.
  apply (push_then_pull_is_quiet 0%nat (ClusterNames two) two_Get (demo_req "") before zero_Result after "b" (demo_req "b") after_eq);
    [|reflexivity|reflexivity].
  change (ClusterNames two) with ["a"; "b"]. right. by left.
Defined.

Definition gone : servers := MkServers {[(2%nat, demo_key) := (∅, color "blue", 2%nat)]} 2 ∅ [].
Definition gone_read : servers := (cm_Get 0%nat demo_key gone).2.

Lemma gone_Get : cm_Get 0%nat demo_key gone = (Err StatusNotFound, gone_read).
Proof.
  assert ((cm_Get 0%nat demo_key gone).1 = Err StatusNotFound) as <- by (vm_compute; reflexivity). apply surjective_pairing.
Qed.

Lemma deleted_configmap_is_retried_forever_witness :
  let '((_, err), a') := pushLocalToProvider 0%nat (ClusterNames two) two_Get (demo_req "") gone in
  err = Some StatusNotFound ∧ cm_stored a' 2%nat demo_key = None.
Proof.
  assert (∀ n, n ∈ ClusterNames two → ∃ cl, two_Get n = Ok cl) as Hp.
  { change (ClusterNames two) with ["a"; "b"]. intros n [->|[->|Hn%elem_of_nil]%elem_of_cons]%elem_of_cons; [by exists 1%nat|by exists 2%nat|done]. }
  pose proof (deleted_configmap_is_retried_forever 0%nat (ClusterNames two) two_Get (demo_req "") gone StatusNotFound gone_read
    gone_Get eq_refl Hp) as H.
  assert (cm_stored (pushLocalToProvider 0%nat (ClusterNames two) two_Get (demo_req "") gone).2 2%nat demo_key = None) as Hs
    by (vm_compute; reflexivity).
  destruct (pushLocalToProvider _ _ _ _ gone) as [[res err] a']. split; [apply H|exact Hs].
Defined.
