(* ===== verification/Examples.v ===== *)
(** * examples: the programs

    Each example is a program of its own: it makes a provider and a manager,
    builds a controller of ConfigMaps with the same reconciler and starts.  The
    parts are those of the library, called as the programs call them; what
    controller-runtime, the cluster and the flags answer is the environment. *)

From S2P Require Import Prelude GoErrors GoContext GoString Multicluster Objects NamespaceClient NamespaceProvider Reconcile Handler Source Basic Manager Controller Clusters ActiveClusters KubeconfigProvider ClusterAPIProvider KubeconfigStrategy InventoryProvider KindProvider FileProvider Builder EndToEnd SyncExample Registry.

#[local] Open Scope nat_scope.

(** ** Flags *)

Definition comma : Ascii.ascii := Ascii.ascii_of_nat 44.

(** [strings.Split] gives at least one string, so index 0 exists. *)
(* src: examples/file/main.go:53-56 main *)
Definition comma_list (flag : string) : list string :=
  let files := split_char comma flag in
  if bool_decide (length files = 1) && bool_decide (files !! 0 = Some "") then [] else files.

(* src: examples/file/main.go:53-67 main *)
Definition file_flags (fKubeconfigFiles fKubeconfigDirs fGlobs : string) : file_Options :=
  MkFileOptions (comma_list fKubeconfigFiles) (comma_list fKubeconfigDirs) (split_char comma fGlobs) "".

(** The bytes of the characters that [unicode.IsSpace] accepts. *)
Definition of_bytes : list nat → string := fold_right (λ b s, String (Ascii.ascii_of_nat b) s) "".
Definition unicode_spaces : list string :=
  of_bytes <$> ([[9]; [10]; [11]; [12]; [13]; [32]; [194; 133]; [194; 160]; [225; 154; 128]] ++
    ((λ b, [226; 128; b]) <$> seq 128 11) ++ [[226; 128; 168]; [226; 128; 169]; [226; 128; 175]; [226; 129; 159]; [227; 128; 128]]).

Fixpoint reverse_string (s : string) : string :=
  match s with EmptyString => "" | String c s => reverse_string s +:+ String c "" end.

(** A prefix that is one of the patterns is dropped, at most [fuel] times. *)
Fixpoint trim_prefixes (patterns : list string) (fuel : nat) (s : string) : string :=
  match fuel with
  | 0 => s
  | S fuel => match list_find (λ p, String.prefix p s = true) patterns with
              | Some (_, p) => trim_prefixes patterns fuel (String.substring (String.length p) (String.length s) s)
              | None => s
              end
  end.

(** [strings.TrimSpace]; every pattern has a byte, so the length is fuel enough. *)
Definition TrimSpace (s : string) : string :=
  let left := trim_prefixes unicode_spaces (String.length s) s in
  reverse_string (trim_prefixes (reverse_string <$> unicode_spaces) (String.length left) (reverse_string left)).

(** ** Errors *)

(** [if err != nil { return err }]: the first error is the result. *)
Definition on_ok {S E A B} (m : M S (result E A)) (k : A → M S (result E B)) : M S (result E B) := fun s =>
  match m s with
  | (Err e, s) => (Err e, s)
  | (Ok a, s) => k a s
  end.

Notation "x '←?' m ; k" := (on_ok m (λ x, k)) (at level 20, m at level 100, k at level 200, only parsing).

Definition check {S E} (m : M S (option E)) : M S (result E unit) := fun s =>
  let '(err, s) := m s in (match err with Some e => Err e | None => Ok tt end, s).

(** [fmt.Errorf] with the error at the end. *)
Definition wrap_err {S A} (msg : string) (m : M S (result error A)) : M S (result error A) := fun s =>
  match m s with
  | (Err e, s) => (Err (Wrap msg e), s)
  | r => r
  end.

(** The exit code of a [main] that ends with [os.Exit(1)] on an error, and of one
    that logs the error and returns. *)
Definition exits {A} (body : M world (result error A)) : M world nat := fun w =>
  match body w with (Err _, w) => (1, w) | (Ok _, w) => (0, w) end.
Definition logs {A} (body : M world (result error A)) : M world nat := fun w =>
  let '(_, w) := body w in (0, w).

(** ** The controller of ConfigMaps *)

(** What the builder uses of controller-runtime ([Builder]). *)
Record environment := MkEnvironment {
  e_o : oracle;
  e_local : cluster;
  e_quote : string → string;
  e_address : clusterKind Handler.client_Object Request → nat;
  e_GVKForObject : Handler.client_Object → cluster → result error GVK;
  e_metaObj : GVK → Handler.client_Object;
  e_ForObject : TypedEventHandler Handler.client_Object cr_Request;
  e_ForOwner : cluster → cluster → Handler.client_Object → bool → TypedEventHandler Handler.client_Object cr_Request;
  e_globals : globalOptions;
  e_logger : logger;
  e_GroupKind_String : GVK → string;
  e_as_cr_Request : Request → option cr_Request;
  e_KRef : cr_Request → string;
  e_built : string → ctrlOptions (request:=Request) → result error (option nat);
  e_run : mcController → Runnable;
}.

(** What the steps of a [main] are answered: loading the configuration, making
    the host manager, building the provider's own controller, and the runnable
    that the manager makes of the provider. *)
Record answers := MkAnswers {
  an_GetConfig : option error;
  an_NewManager : option error;
  an_Complete : option error;
  an_runnable : option nat;
}.

Section programs.
Context (E : environment) {CC : ConfigMapClient world}.

Section manager.
Context {P : Type} {PP : Provider P} {C : Type} {CI : CoordinatorI C}.

Definition build (b : TypedBuilder (request:=Request) (P:=P) (C:=C)) (r : Reconciler Request) : M world (result error (mcController * mcManager P C)) :=
  Builder.Build (e_o E) (e_local E) (e_quote E) (e_address E) (e_GVKForObject E) (e_metaObj E) (Some eq_refl)
    (e_ForObject E) (e_ForOwner E) (e_globals E) (e_logger E) (e_GroupKind_String E) (e_as_cr_Request E) (e_KRef E)
    (e_built E) (e_run E) b (Some r).

(** The reconciler: it reads the ConfigMap and logs it. *)
(* src: examples/kubeconfig/main.go:98-118 main *)
Definition log_config_maps (mgr : mcManager P C) : Reconciler Request :=
  in_its_cluster (e_local E) (e_quote E) mgr (λ cl ctx rq,
    cm ← cm_Get cl (Namespace rq, Name rq);
    mret (zero_Result, match cm with
                       | Err err => if IsNotFound err then None else Some err
                       | Ok _ => None
                       end)).

(** The same, but it records an event in the cluster of the ConfigMap. *)
(* src: examples/kind/main.go:55-84 main *)
Definition record_config_maps (Eventf : cluster → ConfigMap → string → M world unit) (mgr : mcManager P C) : Reconciler Request :=
  fun ctx req => in_its_cluster (e_local E) (e_quote E) mgr (λ cl ctx rq,
    cm ← cm_Get cl (Namespace rq, Name rq);
    match cm with
    | Err err => mret (zero_Result, if IsNotFound err then None else Some err)
    | Ok cm => _ ← Eventf cl cm ("ConfigMap found in cluster " +:+ ClusterName_String (req_ClusterName req)); mret (zero_Result, None)
    end) ctx req.

(* src: examples/kubeconfig/main.go:94-96 main *)
Definition config_maps_builder (mgr : mcManager P C) : TypedBuilder (request:=Request) (P:=P) (C:=C) :=
  For "ConfigMap" [] (Named "multicluster-configmaps" (ControllerManagedBy (Some mgr))).

(** Building the controller and starting the manager. *)
(* src: examples/kubeconfig/main.go:94-130 main *)
Definition serve (runnable : option nat) (mgr : mcManager P C) (r : mcManager P C → Reconciler Request) (ctx : context) :
  M world (result error unit) :=
  cm ←? build (config_maps_builder mgr) (r mgr);
  check (err ← Manager.Start (e_o E) runnable cm.2 ctx; mret (ignoreCanceled err)).
End manager.

(** The host manager is not nil when the providers are set up. *)
Let host_mgr : option nat := Some 0.
Let localMgr : option nat := Some (e_local E).

(* src: examples/kubeconfig/main.go:79-84 main *)
Definition new_manager {P} (a : answers) (provider : P) : M world (result error (mcManager P basic)) :=
  Manager.New (e_o E) (an_NewManager a) (Some provider) [].

(** [complete] is what building the provider's controller of Secrets answers. *)
(* src: examples/kubeconfig/main.go:40-131 main *)
Definition kubeconfig_main (namespace kubeconfigSecretLabel kubeconfigSecretKey : string)
    (complete : string → (Secret → bool) → option error) (a : answers) (ctx : context) : M world nat :=
  let providerOpts := KubeconfigProvider.MkOptions (rest_Config:=unit) namespace kubeconfigSecretLabel kubeconfigSecretKey [] "" in
  let provider := kube_New providerOpts in
  let PP := kube_Provider (e_o E) in
  exits (_ ←? check (mret (an_GetConfig a));
         mgr ←? new_manager a provider.2;
         _ ←? check (mret (KubeconfigProvider.SetupWithManager provider.1 host_mgr localMgr complete));
         serve (an_runnable a) mgr log_config_maps ctx).

(* src: examples/cluster-api/main.go:51-125 main *)
Definition capi_main (a : answers) (ctx : context) : M world nat :=
  let provider := (capi_New (rest_Config:=unit) (MkCapiOptions None None None None [])).2 in
  let PP := capi_Provider (e_o E) in
  exits (_ ←? check (mret (an_GetConfig a));
         mgr ←? new_manager a provider;
         _ ←? check (mret (capi_SetupWithManager host_mgr localMgr (an_Complete a)));
         serve (an_runnable a) mgr log_config_maps ctx).

(** [NewFromFile] reads the access configuration; a panic ends the process. *)
(* src: examples/cluster-inventory-api/main.go:51-141 main *)
Definition inventory_main {rest_Config access_Config} FindStatusCondition healthy true_
    (NewFromFile : result error access_Config) (a : answers) (ctx : context) : M world (outcome nat) :=
  match an_GetConfig a, NewFromFile with
  | Some _, _ | _, Err _ => mret (Returns 1)
  | None, Ok accessCfg =>
      let opts := MkInvOptions (rest_Config:=rest_Config) (MkOption None (Some (MkAccessProviderOption (Some accessCfg))) None) None None in
      match inv_New FindStatusCondition healthy true_ opts with
      | None => mret (Panics "invalid memory address or nil pointer dereference")
      | Some (Err _) => mret (Returns 1)
      | Some (Ok (cfg, provider)) =>
          let PP := inv_Provider (e_o E) in
          code ← exits (mgr ←? new_manager a provider;
                        _ ←? check (mret (inv_SetupWithManager cfg host_mgr localMgr (λ _, an_Complete a) provider).1);
                        serve (an_runnable a) mgr log_config_maps ctx);
          mret (Returns code)
      end
  end.

(** An error of [Start] is only logged. *)
(* src: examples/kind/main.go:39-95 main *)
Definition kind_main (Eventf : cluster → ConfigMap → string → M world unit) (a : answers) (ctx : context) : M world nat :=
  let PP := kind_Provider (e_o E) in
  exits (_ ←? check (mret (an_GetConfig a));
         mgr ←? new_manager a kind_New;
         cm ←? build (config_maps_builder mgr) (record_config_maps Eventf mgr);
         check (_ ← Manager.Start (e_o E) (an_runnable a) cm.2 ctx; mret None)).

(** Every error is only logged, except that [GetConfigOrDie] exits. *)
(* src: examples/file/main.go:46-114 main *)
Definition file_main (h : host) (GetConfig : cluster → nat) (fKubeconfigFiles fKubeconfigDirs fGlobs : string)
    (a : answers) (ctx : context) : M world nat :=
  let '(_, provider) := file_New h (file_flags fKubeconfigFiles fKubeconfigDirs fGlobs) GetConfig in
  let PP := file_Provider (e_o E) in
  match an_GetConfig a with
  | Some _ => mret 1
  | None => logs (mgr ←? new_manager a provider; serve (an_runnable a) mgr log_config_maps ctx)
  end.

(** ** examples/sync-local-to-remote *)

(** What the steps are answered that are not those of every program. *)
Record sync_answers := MkSyncAnswers {
  sa_BuildConfigFromFlags : option error;
  sa_AddToScheme : option error * option error;
  sa_LabelSelectorPredicate : result error (Predicate Handler.client_Object);
}.

(** One watch per controller, with the predicate on the label. *)
(* src: examples/sync-local-to-remote/main.go:142-145 doMain *)
Definition local_builder (predicate : Predicate Handler.client_Object) (mgr : mcManager Clusters basic) : TypedBuilder (request:=Request) (P:=Clusters) (C:=basic) :=
  WithEventFilter predicate (For "ConfigMap" [engage_ApplyToFor (WithEngageWithLocalCluster true)] (Named "local" (ControllerManagedBy (Some mgr)))).

(* src: examples/sync-local-to-remote/main.go:155-158 doMain *)
Definition provider_builder (predicate : Predicate Handler.client_Object) (mgr : mcManager Clusters basic) : TypedBuilder (request:=Request) (P:=Clusters) (C:=basic) :=
  WithEventFilter predicate (For "ConfigMap" [engage_ApplyToFor (WithEngageWithProviderClusters true)] (Named "provider" (ControllerManagedBy (Some mgr)))).

(** The reconcilers hold the provider's pointer: [now] is what it then knows. *)
(* src: examples/sync-local-to-remote/main.go:64-166 doMain *)
Definition doMain (h : host) (GetConfig : cluster → nat) (now : world → Clusters) (fLocalKubeconfig fProviderKubeconfigs : string)
    (a : answers) (sa : sync_answers) (ctx : context) : M world (result error unit) :=
  let localKubeconfig := TrimSpace fLocalKubeconfig in
  if bool_decide (localKubeconfig = "") then mret (Err (Errorf "the --local-kubeconfig flag is required")) else
  _ ←? wrap_err "error building local kubeconfig" (check (mret (sa_BuildConfigFromFlags sa)));
  let kubeconfigFiles := comma_list fProviderKubeconfigs in
  _ ←? wrap_err "error adding corev1 to provider scheme" (check (mret (sa_AddToScheme sa).1));
  let '(_, provider) := file_New h (MkFileOptions kubeconfigFiles [] [] "") GetConfig in
  let PP := file_Provider (e_o E) in
  _ ←? wrap_err "error adding corev1 to manager scheme" (check (mret (sa_AddToScheme sa).2));
  mgr ←? wrap_err "error setting up mcmanager" (new_manager a provider);
  predicate ←? wrap_err "failed to build label selector predicate" (mret (sa_LabelSelectorPredicate sa));
  let localCl := Manager.GetLocalManager (e_local E) mgr in
  l ←? wrap_err "failed to build controller" (build (local_builder predicate mgr)
         (λ ctx req w, pushLocalToProvider localCl (ClusterNames (now w)) (file_Get (now w) ctx) req w));
  p ←? wrap_err "failed to build controller" (build (provider_builder predicate l.2)
         (λ ctx req w, pullProviderFromLocal localCl (file_Get (now w) ctx) req w));
  check (Manager.Start (e_o E) (an_runnable a) p.2 ctx).

(* src: examples/sync-local-to-remote/main.go:53-62 main *)
Definition sync_main (h : host) (GetConfig : cluster → nat) (now : world → Clusters) (fLocalKubeconfig fProviderKubeconfigs : string)
    (a : answers) (sa : sync_answers) (ctx : context) : M world nat :=
  logs (doMain h GetConfig now fLocalKubeconfig fProviderKubeconfigs a sa ctx).

(** ** The examples of providers/namespace *)

(** [errgroup.Group.Wait] for what the functions of the group have returned. *)
Context (Wait : list (option error) → option error).

(** A [run] ends by returning, in [os.Exit], or by a panic. *)
Inductive ended : Type :=
| Returned (err : option error)
| Exited (code : nat)
| Panicked (msg : string).

Definition returned (m : M world (result error unit)) : M world ended := fun w =>
  let '(r, w) := m w in (Returned (match r with Err e => Some e | Ok _ => None end), w).

(** The exit code of a [main] that exits with 1 when [run] returns an error. *)
Definition exit_code (r : ended) : nat :=
  match r with Returned None => 0 | Returned (Some _) => 1 | Exited code => code | Panicked _ => 2 end.

(** [apierrors.IsAlreadyExists] and [client.IgnoreAlreadyExists]. *)
Definition IsAlreadyExists (e : error) : bool := Is e "AlreadyExists".
Definition IgnoreAlreadyExists (err : option error) : option error :=
  match err with Some e => if IsAlreadyExists e then None else Some e | None => None end.

(** The objects of the example, namespaces without a name of their own. *)
Definition fixtures : list (string * string) :=
  [("zoo", ""); ("zoo", "elephant"); ("zoo", "lion"); ("jungle", ""); ("jungle", "monkey"); ("island", ""); ("island", "bird")].

(** [runtime.Must] panics on the first error. *)
(* src: examples/namespace/main.go:103-109 run *)
Fixpoint create_fixtures (Create : string * string → option error) (objs : list (string * string)) : outcome unit :=
  match objs with
  | [] => Returns tt
  | obj :: objs => match IgnoreAlreadyExists (Create obj) with
                   | Some _ => Panics "error"
                   | None => create_fixtures Create objs
                   end
  end.

Record ns_answers := MkNsAnswers {
  na_testEnv_Start : option error;
  na_testEnv_Stop : option error;
  na_client_New : option error;
  na_Create : string * string → option error;
  na_cluster_New : result error cluster;
  na_provider_Start : option error;
}.

(** [errgroup.WithContext], the functions of the group and [Wait]: the context is
    the group's own and is cancelled when [Wait] returns.  [body] makes the calls
    of the functions, in this order or another, and is what they return. *)
Definition in_group (ctx : context) (body : context → M world (list (option error))) : M world (option error) :=
  cc ← w_WithCancel ctx;
  errs ← body cc.1;
  _ ← w_cancel cc.2;
  mret (Wait errs).

(* src: examples/namespace/main.go:154-167 run *)
Definition start_group (cl : cluster) (runnable : option nat) (mgr : mcManager (nstate world) basic) (ctx : context)
    (provider_Start : option error) : M world (option error) :=
  in_group ctx (λ ctx,
    err_cl ← ask (e_o E) (CallStart cl ctx);
    err_mgr ← Manager.Start (e_o E) runnable mgr ctx;
    mret (map ignoreCanceled [provider_Start; err_cl; err_mgr])).

(* src: examples/namespace/main.go:97-169 run *)
Definition namespace_serve (a : answers) (na : ns_answers) (ctx : context) : M world ended :=
  match na_client_New na with
  | Some err => mret (Returned (Some (Wrap "failed to create client" err)))
  | None =>
      match create_fixtures (na_Create na) fixtures with
      | Panics msg => mret (Panicked msg)
      | Returns _ =>
          returned (
            cl ←? wrap_err "failed to create cluster" (mret (na_cluster_New na));
            let provider := ns_New cl empty_world in
            let PP := ns_Provider (e_o E) in
            mgr ←? wrap_err "unable to set up overall controller manager" (new_manager a provider);
            cm ←? wrap_err "unable to build controller" (build (config_maps_builder mgr) (log_config_maps mgr));
            wrap_err "unable to start" (check (start_group cl (an_runnable a) cm.2 ctx (na_provider_Start na))))
      end
  end.

(** The deferred function stops the test environment, however the rest ends. *)
(* src: examples/namespace/main.go:70-169 run *)
Definition namespace_run (kubeconfig : string) (a : answers) (na : ns_answers) (ctx : context) : M world ended :=
  if bool_decide (kubeconfig = "") then
    match na_testEnv_Start na with
    | Some err => mret (Returned (Some (Wrap "failed to start local environment" err)))
    | None => r ← namespace_serve a na ctx;
              mret (match na_testEnv_Stop na with Some _ => Exited 1 | None => r end)
    end
  else
    match an_GetConfig a with
    | Some err => mret (Returned (Some (Wrap "failed to get kubeconfig" err)))
    | None => namespace_serve a na ctx
    end.

(* src: examples/namespace/main.go:56-68 main *)
Definition namespace_main (kubeconfig : string) (a : answers) (na : ns_answers) (ctx : context) : M world nat :=
  r ← namespace_run kubeconfig a na ctx; mret (exit_code r).

(** The goroutine that prints: the names the registry knows in each round until
    its context is done. *)
(* src: examples/registry/main.go:79-92 run *)
Fixpoint print_clusters (rounds : list (list ClusterName)) : list string * option error :=
  match rounds with
  | [] => ([], None)
  | names :: rounds =>
      let '(out, err) := print_clusters rounds in
      ("current clusters:" :: map (λ clusterName, "  - " +:+ clusterName) names ++ out, err)
  end.

(** [registry] is the registry as a runnable. *)
(* src: examples/registry/main.go:51-94 run *)
Definition registry_run (registry : Runnable) (cluster_New : result error cluster) (rounds : list (list ClusterName))
    (a : answers) (ctx : context) : M world (result error unit) :=
  _ ←? wrap_err "failed to get kubeconfig" (check (mret (an_GetConfig a)));
  cl ←? wrap_err "failed to create cluster" (mret cluster_New);
  let provider := ns_New cl empty_world in
  let PP := ns_Provider (e_o E) in
  mgr ←? wrap_err "unable to set up overall controller manager" (new_manager a provider);
  mgr ←? wrap_err "error adding registry as runnable to manager"
           (λ w, let '((mgr, err), w) := Manager.Add (e_o E) mgr registry w in
                 (match err with Some err => Err err | None => Ok mgr end, w));
  check (in_group ctx (λ ctx,
    err_cl ← ask (e_o E) (CallStart cl ctx);
    err_mgr ← Manager.Start (e_o E) (an_runnable a) mgr ctx;
    mret (map ignoreCanceled [err_cl; err_mgr] ++ [(print_clusters rounds).2]))).

(* src: examples/registry/main.go:43-49 main *)
Definition registry_main (registry : Runnable) (cluster_New : result error cluster) (rounds : list (list ClusterName))
    (a : answers) (ctx : context) : M world nat := exits (registry_run registry cluster_New rounds a ctx).

(** [coordinator] is the sharded coordinator with the options of the example. *)
(* src: examples/sharded-namespace/main.go:58-139 run *)
Definition sharded_run {C} {CI : CoordinatorI C} (coordinator : C) (cluster_New : result error cluster) (client_New : option error)
    (a : answers) (ctx : context) : M world (result error unit) :=
  _ ←? wrap_err "get kubeconfig" (check (mret (an_GetConfig a)));
  host ←? wrap_err "create host cluster" (mret cluster_New);
  let provider := ns_New host empty_world in
  let PP := ns_Provider (e_o E) in
  _ ←? wrap_err "create client" (check (mret client_New));
  mgr ←? wrap_err "create mc manager" (Manager.New (e_o E) (an_NewManager a) (Some provider) [WithCoordinator coordinator]);
  cm ←? wrap_err "build controller" (build (config_maps_builder mgr) (log_config_maps mgr));
  check (in_group ctx (λ ctx,
    err_host ← ask (e_o E) (CallStart host ctx);
    err_mgr ← Manager.Start (e_o E) (an_runnable a) cm.2 ctx;
    mret (map ignoreCanceled [err_host; err_mgr]))).

(* src: examples/sharded-namespace/main.go:45-56 main *)
Definition sharded_main {C} {CI : CoordinatorI C} (coordinator : C) (cluster_New : result error cluster) (client_New : option error)
    (a : answers) (ctx : context) : M world nat := exits (sharded_run coordinator cluster_New client_New a ctx).
End programs.

(** ** Properties *)

(** Complement (roundtrip): a comma-separated flag is read as it was written:
    joining names without commas and splitting the flag gives the names back,
    and a flag that is not set gives none - but one empty name does not survive. *)
Theorem comma_list_reads names :
  Forall (λ x, has_char comma x = false) names → names ≠ [""] → comma_list (join_char comma names) = names.
Proof.
  intros Hf Hne. destruct names as [|x names]; [reflexivity|]. unfold comma_list. rewrite split_join by done.
  destruct names as [|y names]; [|by rewrite bool_decide_eq_false_2].
  rewrite (bool_decide_eq_false_2 ([x] !! 0 = Some "")), andb_false_r; [done|]. intros [= ->]. by apply Hne.
Qed.

(** Complement (functional): in the example a [-globs] flag that is not set is one
    empty pattern, and the defaults of the provider are not used: a directory
    then matches its own name only, which is not a file that can be read, so no
    cluster is found in it. *)
Theorem unset_globs_find_nothing {rest_Config} (h : host) (f : fs (rest_Config:=rest_Config)) GetConfig dirs :
  comma_list dirs ≠ [] →
  (∀ dir, dir ∈ comma_list dirs → fs_Stat f dir = Exists ∧ fs_Glob f dir "" = Ok [dir] ∧ ∃ e, LoadFromFile f dir = Err e) →
  let opts := (file_New h (file_flags "" dirs "") GetConfig).1 in
  KubeconfigGlobs opts = [""] ∧ loadClusters opts f = Ok ∅.
Proof.
  intros Hne Hdirs opts.
  assert (opts = MkFileOptions [] (comma_list dirs) [""] "+") as ->.
  { unfold opts, file_New, file_flags. cbn [KubeconfigFiles KubeconfigDirs KubeconfigGlobs]. change (comma_list "") with ([] : list string).
    by destruct (comma_list dirs). }
  split; [done|]. unfold loadClusters, collectPaths. cbn [KubeconfigFiles KubeconfigDirs collect_files].
  set (opts := MkFileOptions [] (comma_list dirs) [""] "+").
  assert (collect_dirs opts f (comma_list dirs) = Ok (comma_list dirs)) as ->.
  { clear Hne. revert Hdirs. generalize (comma_list dirs) as l. intros l. induction l as [|dir l IH]; intros Hl; [done|].
    cbn [collect_dirs]. destruct (Hl dir) as (-> & Hg & _); [by left|]. rewrite IH by (intros d Hd; apply Hl; by right).
    unfold matchKubeconfigGlobs. simpl. by rewrite Hg. }
  simpl. f_equal. unfold load_files.
  assert (fold_left (λ m filepath, match readFile f filepath with Err _ => m | Ok l => add_contexts opts filepath l m end) (comma_list dirs) ∅ = ∅) as ->.
  { revert Hdirs. generalize (comma_list dirs) as l. intros l. induction l as [|dir l IH]; intros Hl; [done|]. cbn [fold_left].
    unfold readFile at 2. destruct (Hl dir) as (_ & _ & e & ->); [by left|]. apply IH. intros d Hd. apply Hl. by right. }
  apply map_eq. intros n. unfold fromContexts. by rewrite map_lookup_imap, !lookup_empty.
Qed.

Section programs.
Context (E : environment) {CC : ConfigMapClient world}.

(** What [serve] does on every branch. *)
Lemma serve_spec {P} {PP : Provider P} {C} {CI : CoordinatorI C} runnable (mgr : mcManager P C) r ctx w :
  serve E runnable mgr r ctx w =
  match build E (config_maps_builder mgr) (r mgr) w with
  | (Err e, w1) => (Err e, w1)
  | (Ok cm, w1) => let '(err, w2) := Manager.Start (e_o E) runnable cm.2 ctx w1 in
                   (match ignoreCanceled err with Some e => Err e | None => Ok tt end, w2)
  end.
Proof.
  unfold serve, on_ok, check. cbv beta. destruct (build _ _ _ w) as [[cm|e] w1]; [|done]. rewrite bind_eq.
  by destruct (Manager.Start _ _ _ _ _) as [err w2].
Qed.

Lemma new_manager_eq {P} (a : answers) (provider : P) w :
  new_manager E a provider w =
  (match an_NewManager a with Some e => Err e | None => Ok (MkManager (Some provider) (Some (inl basic_New))) end, w).
Proof. unfold new_manager, Manager.New. by destruct (an_NewManager a). Qed.

(** The Secrets the program is to watch, by its flags: those of the namespace with
    the label, or the default one if the flag is empty. *)
Definition flagged (namespace label : string) (obj : Secret) : bool :=
  bool_decide (sec_Namespace obj = namespace) &&
  bool_decide (sec_Labels obj !! (if bool_decide (label = "") then DefaultKubeconfigSecretLabel else label) = Some "true").

(** C40 (error): the exit code of examples/kubeconfig tells whether it ran: it is
    zero exactly if the configuration was loaded, the manager made, the provider's
    controller set up for the Secrets of the namespace and label in the flags,
    the controller of ConfigMaps built, and the manager then ended without an
    error or because it was cancelled; otherwise it is one, and if a step
    before the start has failed the manager is never started.  This is about
    that program only: the programs of the kind, the file and the
    synchronisation example exit with zero also when the manager failed. *)
Theorem kubeconfig_main_exit_code ns l k complete a ctx w :
  let '(code, w') := kubeconfig_main E ns l k complete a ctx w in
  let mgr := MkManager (Some (AState ∅ [] empty_world)) (Some (inl basic_New)) : mcManager astate basic in
  let '(built, w1) := build E (config_maps_builder mgr) (log_config_maps (PP:=kube_Provider (e_o E)) E mgr) w in
  let secrets := complete KubeconfigProvider.DefaultControllerName (flagged ns l) in
  (code = 0 ↔ an_GetConfig a = None ∧ an_NewManager a = None ∧ secrets = None ∧
     ∃ cm, built = Ok cm ∧ ignoreCanceled (Manager.Start (e_o E) (an_runnable a) cm.2 ctx w1).1 = None) ∧
  (code = 0 ∨ code = 1) ∧
  (an_GetConfig a ≠ None ∨ an_NewManager a ≠ None ∨ secrets ≠ None → w' = w) ∧
  (is_ok built = false → w' = w ∨ w' = w1).
Proof.
  unfold kubeconfig_main, exits, on_ok, check, mret, M_ret. destruct (an_GetConfig a) as [e|].
  { destruct (build _ _ _ _) as [b w1]. split; [split; [done|by intros [? _]]|]. split; [by right|]. split; [done|]. by left. }
  rewrite new_manager_eq. destruct (an_NewManager a) as [e|].
  { destruct (build _ _ _ _) as [b w1]. split; [split; [done|by intros (_ & ? & _)]|]. split; [by right|]. split; [done|]. by left. }
  unfold KubeconfigProvider.SetupWithManager.
  change (complete (ControllerName _) _) with (complete KubeconfigProvider.DefaultControllerName (flagged ns l)).
  destruct (complete _ _) as [e|].
  { destruct (build _ _ _ _) as [b w1]. split; [split; [done|by intros (_ & _ & ? & _)]|]. split; [by right|]. split; [done|]. by left. }
  rewrite (serve_spec (PP:=kube_Provider (e_o E))). simpl. destruct (build _ _ _ _) as [[cm|e] w1]; swap 1 2.
  { split; [split; [done|intros (_ & _ & _ & cm & ? & _); done]|]. split; [by right|]. split; [by intros [?|[?|?]]|]. by right. }
  destruct (Manager.Start _ _ _ _ w1) as [err w2] eqn:Hs. destruct (ignoreCanceled err) as [e|] eqn:He.
  - split; [split; [done|]|split; [by right|split; [by intros [?|[?|?]]|done]]]. intros (_ & _ & _ & cm' & [= <-] & H). rewrite Hs in H. simpl in H. congruence.
  - split; [split; [|done]|split; [by left|split; [by intros [?|[?|?]]|done]]]. intros _. split_ands; try done. exists cm. by rewrite Hs.
Qed.

(** Complement (error): not all of the examples tell: kind's exits with zero
    even when the manager failed to run, whatever its error. *)
Theorem failed_kind_exits_with_zero Eventf a ctx w :
  an_GetConfig a = None → an_NewManager a = None →
  let PP := kind_Provider (e_o E) in
  let mgr := MkManager (Some kind_New) (Some (inl basic_New)) : mcManager KindProvider.kstate basic in
  is_ok (build E (config_maps_builder mgr) (record_config_maps E Eventf mgr) w).1 = true →
  (kind_main E Eventf a ctx w).1 = 0.
Proof.
  intros Hc Hm PP mgr Hb. unfold kind_main, exits, on_ok, check, mret, M_ret. rewrite Hc, new_manager_eq, Hm. fold PP mgr.
  destruct (build _ _ _ w) as [[cm|e] w1]; [|done]. rewrite bind_eq. by destruct (Manager.Start _ _ _ _ _).
Qed.

(** Complement (functional): what the reconciler of the examples reports behind
    the not-found wrapper: never a requeue, an error only if reading the
    ConfigMap of a known cluster failed otherwise than by its absence, and the
    clusters' objects are left as they are. *)
Theorem log_config_maps_reads {L : ConfigMapLaws world} {P} {PP : Provider P} {PS : ProviderSpec P} {C} {CI : CoordinatorI C}
    (mgr : mcManager P C) p ctx req w :
  mm_provider mgr = Some p → req_ClusterName req ≠ LocalCluster →
  let '(res, err, w') := Wrapper_Reconcile (NewClusterNotFoundWrapper (log_config_maps E mgr)) ctx req w in
  res = zero_Result ∧ cm_stored w' = cm_stored w ∧
  (err ≠ None → ∃ cl e, known p (req_ClusterName req) = Some cl ∧ err = Some e ∧ IsNotFound e = false ∧
     (cm_Get cl (req_key req) w).1 = Err e).
Proof.
  intros Hp Hn. unfold log_config_maps. rewrite (in_its_cluster_reconciles (e_local E) (e_quote E) mgr p _ ctx req w Hp Hn).
  destruct (known p (req_ClusterName req)) as [cl|] eqn:Hk; [|by split_ands].
  rewrite bind_eq. change (Namespace (req_Request req), Name (req_Request req)) with (req_key req).
  pose proof (Get_law w cl (req_key req)) as Hl. destruct (cm_Get cl (req_key req) w) as [[cm|e] w1] eqn:Hg; destruct Hl as [Hl _]; swap 1 2.
  - unfold mret, M_ret. destruct (IsNotFound e) eqn:He; simpl; [by split_ands|].
    destruct (Is e "cluster not found"); (split; [done|split; [done|]]); [done|]. intros _. exists cl, e. by rewrite Hg.
  - unfold mret, M_ret. simpl. by split_ands.
Qed.

(** The kind of ConfigMaps of a builder. *)
Definition config_map_kind (b : TypedBuilder (request:=Request) (P:=Clusters) (C:=basic)) : kind Handler.client_Object Request :=
  for_kind (e_GVKForObject E) (e_metaObj E) (e_ForObject E) b eq_refl "ConfigMap".

(** Complement (functional): the controller of the local cluster watches the
    ConfigMaps of the provider's clusters as well, because it does not turn off
    the default: what doMain builds for the local cluster and for the provider's
    are controllers with one source each, and in the plan the first one has the
    watch of the local cluster besides. *)
Theorem local_controller_watches_all_clusters pred (p : Clusters) r w c mgr' w' :
  let PP := file_Provider (e_o E) in
  let mgr := MkManager (Some p) (Some (inl basic_New)) : mcManager Clusters basic in
  let plan b := watch_plan (e_local E) (e_GVKForObject E) (e_metaObj E) (Some eq_refl) (e_ForObject E) (e_ForOwner E) true b in
  plan (local_builder pred mgr) = [ALocal (config_map_kind (local_builder pred mgr)); AMulti (config_map_kind (local_builder pred mgr))] ∧
  plan (provider_builder pred mgr) = [AMulti (config_map_kind (provider_builder pred mgr))] ∧
  (build E (local_builder pred mgr) r w = (Ok (c, mgr'), w') →
   mc_sources c = [as_source (e_address E) (config_map_kind (local_builder pred mgr))]).
Proof.
  intros PP mgr plan. split; [reflexivity|]. split; [reflexivity|]. intros Hb.
  unfold build in Hb. apply Build_sources with (mgr := mgr) in Hb as (_ & Hs & _); [|reflexivity|reflexivity]. exact Hs.
Qed.
Context (Wait : list (option error) → option error).

(** The objects of the example exist afterwards, or it panics on the first one
    that could not be made. *)
Lemma create_fixtures_ok Create objs :
  create_fixtures Create objs =
  (if bool_decide (Forall (λ obj, IgnoreAlreadyExists (Create obj) = None) objs) then Returns tt else Panics "error").
Proof.
  induction objs as [|obj objs IH]; [done|]. cbn [create_fixtures]. destruct (IgnoreAlreadyExists (Create obj)) as [e|] eqn:He.
  - rewrite bool_decide_eq_false_2; [done|]. intros [H _]%Forall_cons_1. congruence.
  - rewrite IH. by rewrite (bool_decide_ext (Forall _ (obj :: objs)) (Forall (λ obj, IgnoreAlreadyExists (Create obj) = None) objs)) by (rewrite Forall_cons; naive_solver).
Qed.

(** Complement (error): the exit code of the namespace example tells which part
    failed: it is two only for the panic on an object of the example that could
    not be created for another reason than that it exists, one for every error
    that is returned and whenever the test environment that it has started
    cannot be stopped, however the rest ended. *)
Theorem namespace_main_exit_code kubeconfig a na ctx w :
  let code := (namespace_main E Wait kubeconfig a na ctx w).1 in
  let own_env := bool_decide (kubeconfig = "") in
  (code = 0 ∨ code = 1 ∨ code = 2) ∧
  (own_env = true → na_testEnv_Start na = None → na_testEnv_Stop na ≠ None → code = 1) ∧
  (code = 2 → na_client_New na = None ∧ ∃ obj, obj ∈ fixtures ∧ IgnoreAlreadyExists (na_Create na obj) ≠ None) ∧
  (code = 0 → na_client_New na = None ∧ (∀ obj, obj ∈ fixtures → IgnoreAlreadyExists (na_Create na obj) = None) ∧
     (∃ cl, na_cluster_New na = Ok cl) ∧ an_NewManager a = None ∧
     (own_env = true → na_testEnv_Start na = None ∧ na_testEnv_Stop na = None) ∧ (own_env = false → an_GetConfig a = None)).
Proof.
  assert (∀ w, match (namespace_serve E Wait a na ctx w).1 with
    | Exited _ => False
    | Panicked _ => na_client_New na = None ∧ ∃ obj, obj ∈ fixtures ∧ IgnoreAlreadyExists (na_Create na obj) ≠ None
    | Returned (Some _) => True
    | Returned None => na_client_New na = None ∧ (∀ obj, obj ∈ fixtures → IgnoreAlreadyExists (na_Create na obj) = None) ∧
        (∃ cl, na_cluster_New na = Ok cl) ∧ an_NewManager a = None
    end) as Hs.
  { clear w. intros w. unfold namespace_serve. destruct (na_client_New na); [done|]. rewrite create_fixtures_ok.
    case_bool_decide as Hf; swap 1 2.
    { split; [done|]. apply not_Forall_Exists in Hf; [|apply _]. by apply list.Exists_exists in Hf. }
    rewrite list.Forall_forall in Hf. unfold returned, on_ok, wrap_err, mret, M_ret.
    destruct (na_cluster_New na) as [cl|e]; [|done]. rewrite new_manager_eq. destruct (an_NewManager a); [done|].
    destruct (build _ _ _ w) as [[cm|e] w1]; [|done]. unfold check. destruct (start_group _ _ _ _ _ _ _ w1) as [[err|] w2]; [done|].
    split; [done|]. split; [exact Hf|]. split; [by exists cl|done]. }
  intros code own_env. unfold code, own_env, namespace_main, namespace_run. rewrite bind_eq. unfold mret, M_ret.
  case_bool_decide as Hk.
  - destruct (na_testEnv_Start na); [split_ands; try done; by right; left|]. rewrite bind_eq.
    specialize (Hs w). destruct (namespace_serve _ _ _ _ _ w) as [r w']. simpl in Hs |- *.
    destruct (na_testEnv_Stop na); simpl; [split_ands; try done; by right; left|].
    destruct r as [[e|]|c|msg]; simpl; [| |done|]; split_ands; try done; try (by right; left); try (by left); try (by right; right).
    intros _. destruct Hs as (? & ? & ? & ?). by split_ands.
  - destruct (an_GetConfig a); [split_ands; try done; by right; left|].
    specialize (Hs w). destruct (namespace_serve _ _ _ _ _ w) as [r w']. simpl in Hs |- *.
    destruct r as [[e|]|c|msg]; simpl; [| |done|]; split_ands; try done; try (by right; left); try (by left); try (by right; right).
    intros _. destruct Hs as (? & ? & ? & ?). by split_ands.
Qed.
End programs.
