(* ===== verification/ModCheck.v ===== *)
(** * hack/tools/cmd/gomodcheck: are the module versions those of upstream?

    The tool reads the module graph and reports every module of the project
    whose version is not the one an upstream module requires.  The go command,
    the parsers of go.mod and of YAML belong to others: what they return are
    arguments.  Indexing a slice past its end is a panic. *)

From S2P Require Import Prelude GoErrors GoString.

(* src: hack/tools/cmd/gomodcheck/main.go:19-22 config *)
Record config := MkConfig {
  UpstreamRefs : list string;
  ExcludedModules : list string;
}.

(* src: hack/tools/cmd/gomodcheck/main.go:24-27 upstream *)
Record upstream := MkUpstream {
  up_Ref : string;
  up_Version : string;
}.

(* src: hack/tools/cmd/gomodcheck/main.go:29-34 oosMod *)
Record oosMod := MkOosMod {
  oos_Name : string;
  oos_Version : string;
  oos_Upstreams : list upstream;
}.

(** [strings.Split(s, "\n")], and [strings.SplitN] by a separator of one byte. *)
Definition newline : Ascii.ascii := Ascii.ascii_of_nat 10.

Definition split_lines : string → list string := split_char newline.

(** Index [1] of a slice that may be too short. *)
Definition index1 (l : list string) : outcome string :=
  match l with _ :: x :: _ => Returns x | _ => Panics "index out of range [1] with length 1" end.

(** The upstream a line is about, and what the line says it requires. *)
Definition line_ref (line : string) : string := match SplitN2 line "@" with x :: _ => x | [] => "" end.

(* src: hack/tools/cmd/gomodcheck/main.go:174-176 modulesFromUpstreamModGraph *)
Definition line_dep (line : string) : outcome (string * string) :=
  match index1 (SplitN2 line " ") with
  | Panics msg => Panics msg
  | Returns dep =>
      match index1 (SplitN2 dep "@") with
      | Panics msg => Panics msg
      | Returns version => Returns (line_ref dep, version)
      end
  end.

Notation versions := (gmap string (gmap string string)).

(* src: hack/tools/cmd/gomodcheck/main.go:178-182 modulesFromUpstreamModGraph *)
Definition add_version (name version ref : string) (m : versions) : versions :=
  <[name := <[version := ref]> (default ∅ (m !! name))]> m.

(* src: hack/tools/cmd/gomodcheck/main.go:165-183 modulesFromUpstreamModGraph *)
Fixpoint read_graph (lines : list string) (upstreamRefs : gmap string bool) (m : versions) :
  outcome (gmap string bool * versions) :=
  match lines with
  | [] => Returns (upstreamRefs, m)
  | line :: lines =>
      let ref := line_ref line in
      match upstreamRefs !! ref with
      | None => read_graph lines upstreamRefs m
      | Some _ =>
          match line_dep line with
          | Panics msg => Panics msg
          | Returns (name, version) =>
              read_graph lines (<[ref := true]> upstreamRefs) (add_version name version ref m)
          end
      end
  end.

(** The names not found; Go's order of the map is not specified. *)
(* src: hack/tools/cmd/gomodcheck/main.go:185-190 modulesFromUpstreamModGraph *)
Definition not_found (upstreamRefs : gmap string bool) : list string :=
  (filter (λ kv : string * bool, kv.2 = false) (map_to_list upstreamRefs)).*1.

Definition not_found_error (refs : list string) : error :=
  Errorf ("cannot verify modules: the following specified upstream module(s) cannot be found in go.mod: [ " +:+
          String.concat ", " refs +:+ " ]").

(* src: hack/tools/cmd/gomodcheck/main.go:146-199 modulesFromUpstreamModGraph *)
Definition modulesFromUpstreamModGraph (go_mod_graph : result error string) (upstreamRefList : list string) :
  outcome (result error versions) :=
  match go_mod_graph with
  | Err err => Returns (Err err)
  | Ok graph =>
      let refs : gmap string bool := list_to_map ((λ ref, (ref, false)) <$> upstreamRefList) in
      match read_graph (split_lines graph) refs ∅ with
      | Panics msg => Panics msg
      | Returns (refs, m) =>
          match not_found refs with
          | [] => Returns (Ok m)
          | missing => Returns (Err (not_found_error missing))
          end
      end
  end.

(** The [require] directives, path and version; the last one of a path counts. *)
(* src: hack/tools/cmd/gomodcheck/main.go:127-144 modulesFromGoModFile *)
Definition modulesFromGoModFile (go_mod : result error (list (string * string))) : result error (gmap string string) :=
  match go_mod with
  | Err err => Err err
  | Ok requires => Ok (fold_left (λ out m, <[m.1 := m.2]> out) requires ∅)
  end.

(* src: hack/tools/cmd/gomodcheck/main.go:88-99 main *)
Definition out_of_sync (version : string) (versionToRef : gmap string string) : list upstream :=
  (λ kv, MkUpstream kv.2 kv.1) <$> filter (λ kv : string * string, version ≠ kv.1) (map_to_list versionToRef).

(* src: hack/tools/cmd/gomodcheck/main.go:75-111 main *)
Definition check_modules (excluded : list string) (projectModules : gmap string string) (upstreamModules : versions) : list oosMod :=
  omap (λ mv : string * string,
    let '(name, version) := mv in
    if bool_decide (name ∈ excluded) then None else
    match upstreamModules !! name with
    | None => None
    | Some versionToRef =>
        match out_of_sync version versionToRef with
        | [] => None
        | ups => Some (MkOosMod name version ups)
        end
    end) (map_to_list projectModules).

(** What is printed, and the exit code: nothing is printed but the report. *)
Inductive exit : Type :=
| Success
| Fatal (err : error)
| OutOfSync (mods : list oosMod).

Definition exit_code (e : exit) : Z := match e with Success => 0 | _ => 1 end.

(* src: hack/tools/cmd/gomodcheck/main.go:45-125 main *)
Definition main (read_config : result error config) (go_mod : result error (list (string * string)))
    (go_mod_graph : result error string) : outcome exit :=
  match read_config with
  | Err err => Returns (Fatal err)
  | Ok cfg =>
      match modulesFromGoModFile go_mod with
      | Err err => Returns (Fatal err)
      | Ok projectModules =>
          match modulesFromUpstreamModGraph go_mod_graph (UpstreamRefs cfg) with
          | Panics msg => Panics msg
          | Returns (Err err) => Returns (Fatal err)
          | Returns (Ok upstreamModules) =>
              match check_modules (ExcludedModules cfg) projectModules upstreamModules with
              | [] => Returns Success
              | mods => Returns (OutOfSync mods)
              end
          end
      end
  end.

(** ** Lemmas *)

(** The lines of the graph that say what an upstream requires. *)
Definition requires (lines : list string) (refs : gmap string bool) (ref name version : string) : Prop :=
  ∃ line, line ∈ lines ∧ line_ref line = ref ∧ is_Some (refs !! ref) ∧ line_dep line = Returns (name, version).

Lemma lookup_add_version name version ref m name' version' :
  (add_version name version ref m !! name' ≫= lookup version') =
    if bool_decide (name' = name ∧ version' = version) then Some ref else m !! name' ≫= lookup version'.
Proof.
  unfold add_version. destruct (decide (name' = name)) as [->|Hn].
  - rewrite lookup_insert_eq. change (Some (<[version:=ref]> (default ∅ (m !! name))) ≫= lookup version') with (<[version:=ref]> (default ∅ (m !! name)) !! version'). destruct (decide (version' = version)) as [->|Hv].
    + by rewrite lookup_insert_eq, bool_decide_eq_true_2.
    + rewrite lookup_insert_ne by done. rewrite bool_decide_eq_false_2 by naive_solver. by destruct (m !! name).
  - rewrite lookup_insert_ne by done. rewrite bool_decide_eq_false_2 by naive_solver. done.
Qed.

Lemma read_graph_spec lines refs m refs' m' :
  read_graph lines refs m = Returns (refs', m') →
  (∀ ref, is_Some (refs' !! ref) ↔ is_Some (refs !! ref)) ∧
  (∀ ref, refs' !! ref = Some true ↔ refs !! ref = Some true ∨ is_Some (refs !! ref) ∧ ∃ line, line ∈ lines ∧ line_ref line = ref) ∧
  (∀ name version, is_Some (m' !! name ≫= lookup version) ↔
     is_Some (m !! name ≫= lookup version) ∨ ∃ ref, requires lines refs ref name version) ∧
  (∀ name version ref, m' !! name ≫= lookup version = Some ref →
     m !! name ≫= lookup version = Some ref ∨ requires lines refs ref name version).
Proof.
  revert refs m. induction lines as [|line lines IH]; intros refs m; cbn [read_graph].
  { intros [= <- <-]. unfold requires. split_ands; try done; try naive_solver.
    - intros ref. split; [by left|]. intros [?|(_ & ? & ?%elem_of_nil & _)]; done.
    - intros name version. split; [by left|]. intros [?|(? & ? & ?%elem_of_nil & _)]; done. }
  destruct (refs !! line_ref line) as [b|] eqn:Hl.
  - destruct (line_dep line) as [[name version]|] eqn:Hd; [|done]. intros (H1 & H2 & H3 & H4)%IH.
    set (R := line_ref line) in *. set (refs1 := <[R := true]> refs) in *.
    assert (∀ ref, is_Some (refs1 !! ref) ↔ is_Some (refs !! ref)) as Hs.
    { intros ref. unfold refs1. destruct (decide (ref = R)) as [->|]; [by rewrite lookup_insert_eq, Hl; split; eexists|by rewrite lookup_insert_ne]. }
    assert (∀ r n v, requires (line :: lines) refs r n v ↔ (r = R ∧ n = name ∧ v = version) ∨ requires lines refs1 r n v) as Hreq.
    { intros r n v. unfold requires. setoid_rewrite Hs. setoid_rewrite elem_of_cons. split.
      - intros (l & [->|Hin] & Hr & Hrs & Hdep); [left|right; by exists l]. rewrite Hd in Hdep. by injection Hdep as <- <-.
      - intros [(-> & -> & ->)|(l & Hin & Hr & Hrs & Hdep)]; [exists line|exists l]; split_ands; eauto. }
    split; [intros ref; by rewrite H1, Hs|]. split; [|split].
    + intros ref. rewrite H2, Hs. setoid_rewrite elem_of_cons. unfold refs1. destruct (decide (ref = R)) as [->|Hne].
      * rewrite lookup_insert_eq. split; [intros _; right; split; [rewrite Hl; by eexists|]; exists line; auto|by left].
      * rewrite lookup_insert_ne by done. split; [naive_solver|]. intros [?|(? & l & [->|?] & ?)]; [by left|done|right; eauto].
    + intros n v. rewrite H3, lookup_add_version. setoid_rewrite Hreq. case_bool_decide as Hc.
      * destruct Hc as [-> ->]. split; [intros _; right; exists R; auto|intros _; left; by eexists].
      * naive_solver.
    + intros n v r Hr. destruct (H4 n v r Hr) as [Hx|Hx]; [|right; apply Hreq; by right].
      rewrite lookup_add_version in Hx. case_bool_decide as Hc; [|by left]. right. apply Hreq. left. destruct Hc as [-> ->]. by injection Hx as <-.
  - intros (H1 & H2 & H3 & H4)%IH.
    assert (∀ r n v, requires (line :: lines) refs r n v ↔ requires lines refs r n v) as Hreq.
    { intros r n v. unfold requires. setoid_rewrite elem_of_cons. split; [|naive_solver].
      intros (l & [->|Hin] & Hr & Hrs & Hdep); [|by exists l]. subst r. rewrite Hl in Hrs. by destruct Hrs. }
    split; [done|]. split; [|split].
    + intros ref. rewrite H2. setoid_rewrite elem_of_cons. split; [naive_solver|].
      intros [?|(Hs & l & [->|?] & <-)]; [by left|rewrite Hl in Hs; by destruct Hs|right; eauto].
    + intros n v. rewrite H3. by setoid_rewrite Hreq.
    + intros n v r Hr. destruct (H4 n v r Hr) as [?|?]; [by left|right; by apply Hreq].
Qed.

Lemma read_graph_total lines refs m :
  (∃ r, read_graph lines refs m = Returns r) ↔
  ∀ line, line ∈ lines → is_Some (refs !! line_ref line) → ∃ d, line_dep line = Returns d.
Proof.
  revert refs m. induction lines as [|line lines IH]; intros refs m; cbn [read_graph].
  { split; [by intros _ ? ?%elem_of_nil|by eexists]. }
  setoid_rewrite elem_of_cons. destruct (refs !! line_ref line) as [b|] eqn:Hl.
  - destruct (line_dep line) as [[name version]|msg] eqn:Hd.
    + rewrite IH. assert (∀ r, is_Some (<[line_ref line := true]> refs !! r) ↔ is_Some (refs !! r)) as Hs.
      { intros r. destruct (decide (r = line_ref line)) as [->|]; [by rewrite lookup_insert_eq, Hl; split; eexists|by rewrite lookup_insert_ne]. }
      setoid_rewrite Hs. split; [|by auto]. intros H l [->|Hin]; [by eexists|by apply H].
    + split; [by intros [? ?]|]. intros H. destruct (H line) as [? Hx]; [by left|by rewrite Hl; eexists|]. congruence.
  - rewrite IH. split; [|by auto]. intros H l [->|Hin]; [rewrite Hl; by intros [? ?]|by apply H].
Qed.

Definition initial_refs (l : list string) : gmap string bool := list_to_map ((λ ref, (ref, false)) <$> l).

Lemma lookup_initial_refs l ref : initial_refs l !! ref = if bool_decide (ref ∈ l) then Some false else None.
Proof.
  unfold initial_refs. induction l as [|x l IH]; [done|]. cbn [fmap list_fmap list_to_map foldr uncurry fst snd].
  destruct (decide (ref = x)) as [->|Hne].
  - rewrite lookup_insert_eq, bool_decide_eq_true_2; [done|by left].
  - rewrite lookup_insert_ne by done. rewrite IH. repeat case_bool_decide; try done; set_solver.
Qed.

Lemma not_found_nil refs : not_found refs = [] ↔ ∀ ref, refs !! ref ≠ Some false.
Proof.
  unfold not_found. split.
  - intros H ref Hr%elem_of_map_to_list. apply fmap_nil_inv in H.
    assert ((ref, false) ∈ filter (λ kv : string * bool, kv.2 = false) (map_to_list refs)) as Hin by by apply list_elem_of_filter.
    rewrite H in Hin. by apply elem_of_nil in Hin.
  - intros H. destruct (filter _ _) as [|[ref b] l] eqn:Hf; [done|]. exfalso.
    assert ((ref, b) ∈ filter (λ kv : string * bool, kv.2 = false) (map_to_list refs)) as [Hb Hin]%list_elem_of_filter by (rewrite Hf; by left).
    simpl in Hb. subst. apply elem_of_map_to_list in Hin. by apply (H ref).
Qed.

Lemma elem_of_out_of_sync version vs u :
  u ∈ out_of_sync version vs ↔ vs !! up_Version u = Some (up_Ref u) ∧ up_Version u ≠ version.
Proof.
  unfold out_of_sync. rewrite list_elem_of_fmap. split.
  - intros ([v r] & -> & [Hv Hin]%list_elem_of_filter). apply elem_of_map_to_list in Hin. simpl in *. by split.
  - intros [Hv Hne]. exists (up_Version u, up_Ref u). split; [by destruct u|]. apply list_elem_of_filter. split; [by apply not_eq_sym|].
    by apply elem_of_map_to_list.
Qed.

(** What is reported: the module, its version, and all upstream versions that differ, of which there is one. *)
Lemma elem_of_check_modules excluded project ups x :
  x ∈ check_modules excluded project ups ↔
  project !! oos_Name x = Some (oos_Version x) ∧ oos_Name x ∉ excluded ∧
  ∃ vs, ups !! oos_Name x = Some vs ∧ oos_Upstreams x = out_of_sync (oos_Version x) vs ∧ oos_Upstreams x ≠ [].
Proof.
  unfold check_modules. rewrite list_elem_of_omap. split.
  - intros ([name version] & Hin & H). apply elem_of_map_to_list in Hin. case_bool_decide; [done|].
    destruct (ups !! name) as [vs|] eqn:Hv; [|done]. destruct (out_of_sync version vs) as [|u us] eqn:Ho; [done|].
    injection H as <-. simpl. split_ands; [done|done|]. exists vs. by rewrite Ho.
  - intros (Hp & Hx & vs & Hv & Ho & Hne). exists (oos_Name x, oos_Version x). split; [by apply elem_of_map_to_list|].
    rewrite bool_decide_eq_false_2, Hv by done. rewrite <-Ho. destruct x as [n v [|u us]]; done.
Qed.

Lemma check_modules_nil excluded project ups :
  check_modules excluded project ups = [] ↔
  ∀ name version v, project !! name = Some version → name ∉ excluded → is_Some (ups !! name ≫= lookup v) → v = version.
Proof.
  split.
  - intros H name version v Hp Hx [ref Hv]. destruct (ups !! name) as [vs|] eqn:Hu; [|done].
    destruct (decide (v = version)) as [|Hne]; [done|exfalso].
    assert (MkUpstream ref v ∈ out_of_sync version vs) as Hin by by apply elem_of_out_of_sync.
    assert (MkOosMod name version (out_of_sync version vs) ∈ check_modules excluded project ups) as Hc.
    { apply elem_of_check_modules. simpl. split_ands; [done|done|]. exists vs. split_ands; [done|done|]. intros Hn. rewrite Hn in Hin. by apply elem_of_nil in Hin. }
    rewrite H in Hc. by apply elem_of_nil in Hc.
  - intros H. destruct (check_modules _ _ _) as [|x l] eqn:Hc; [done|exfalso].
    assert (x ∈ check_modules excluded project ups) as (Hp & Hx & vs & Hv & Ho & Hne)%elem_of_check_modules by (rewrite Hc; by left).
    destruct (oos_Upstreams x) as [|u us] eqn:Hu; [done|].
    assert (u ∈ out_of_sync (oos_Version x) vs) as [Huv Hud]%elem_of_out_of_sync by (rewrite <-Ho; by left).
    apply Hud, (H (oos_Name x)); [done|done|]. rewrite Hv. simpl. by eexists.
Qed.

(** ** Properties *)

(** Complement (functional): the tool succeeds exactly when the project is in sync: every
    line about an upstream can be read, every upstream of the configuration
    occurs in the graph, and for every module of the project that is not
    excluded, each version that an upstream requires of it is the project's. *)
Theorem gomodcheck_succeeds_when_in_sync cfg reqs graph project :
  modulesFromGoModFile (Ok reqs) = Ok project →
  let about_upstream line := line ∈ split_lines graph ∧ line_ref line ∈ UpstreamRefs cfg in
  main (Ok cfg) (Ok reqs) (Ok graph) = Returns Success ↔
  (∀ line, about_upstream line → ∃ d, line_dep line = Returns d) ∧
  (∀ ref, ref ∈ UpstreamRefs cfg → ∃ line, line ∈ split_lines graph ∧ line_ref line = ref) ∧
  (∀ name version line v, project !! name = Some version → name ∉ ExcludedModules cfg →
     about_upstream line → line_dep line = Returns (name, v) → v = version).
Proof.
  intros Hproj about. unfold main. rewrite Hproj. unfold modulesFromUpstreamModGraph.
  change (list_to_map ((λ ref : string, (ref, false)) <$> UpstreamRefs cfg)) with (initial_refs (UpstreamRefs cfg)).
  assert (∀ ref, is_Some (initial_refs (UpstreamRefs cfg) !! ref) ↔ ref ∈ UpstreamRefs cfg) as Hinit.
  { intros ref. rewrite lookup_initial_refs. case_bool_decide; split; try done. }
  pose proof (read_graph_total (split_lines graph) (initial_refs (UpstreamRefs cfg)) ∅) as Htot. setoid_rewrite Hinit in Htot.
  destruct (read_graph _ _ _) as [[refs m]|msg] eqn:Hr.
  2:{ split; [done|]. intros (H & _). exfalso. destruct (proj2 Htot) as [? ?]; [|done]. intros l ? ?. by apply H. }
  apply read_graph_spec in Hr as (Hdom & Hfound & Hver & _). setoid_rewrite Hinit in Hdom. setoid_rewrite Hinit in Hfound.
  assert (∀ ref, initial_refs (UpstreamRefs cfg) !! ref ≠ Some true) as Hni.
  { intros ref. rewrite lookup_initial_refs. by case_bool_decide. }
  assert (not_found refs = [] ↔ ∀ ref, ref ∈ UpstreamRefs cfg → ∃ line, line ∈ split_lines graph ∧ line_ref line = ref) as Hnf.
  { rewrite not_found_nil. split.
    - intros H ref Hin. pose proof (proj2 (Hdom ref) Hin) as [[] Hb]; [|by apply H in Hb].
      apply Hfound in Hb as [Hb|[_ ?]]; [by apply Hni in Hb|done].
    - intros H ref Hb. assert (ref ∈ UpstreamRefs cfg) as Hin by (apply Hdom; by eexists).
      assert (refs !! ref = Some true) as Ht; [|congruence]. apply Hfound. right. split; [done|by apply H]. }
  assert (check_modules (ExcludedModules cfg) project m = [] ↔
    ∀ name version line v, project !! name = Some version → name ∉ ExcludedModules cfg → about line → line_dep line = Returns (name, v) → v = version) as Hchk.
  { rewrite check_modules_nil. split.
    - intros H name version line v Hp Hx [Hl Hrf] Hd. apply (H name); [done|done|]. apply Hver. right. exists (line_ref line), line.
      split_ands; try done. by apply Hinit.
    - intros H name version v Hp Hx [Hv|(ref & line & Hl & <- & Hs%Hinit & Hd)]%Hver.
      + rewrite lookup_empty in Hv. by destruct Hv.
      + by apply (H name version line v). }
  rewrite <-Hnf, <-Hchk.
  destruct (not_found refs) as [|r rs]; [|split; [done|by intros (_ & ? & _)]].
  destruct (check_modules _ _ _) as [|x xs]; [|split; [done|by intros (_ & _ & ?)]].
  split; [|done]. intros _. split; [|done]. intros line [Hl Hrf]. by apply (proj1 Htot (ex_intro _ _ eq_refl)).
Qed.

(** ** Witness *)

Definition demo_graph : string :=
  "me ctrl@v1" +:+ String newline ("ctrl@v1 lib@v2" +:+ String newline ("other@v1 lib@v3" +:+ String newline "")).
Definition demo_config : config := MkConfig ["ctrl"] ["old"].

Lemma gomodcheck_succeeds_when_in_sync_witness :
  main (Ok demo_config) (Ok [("lib", "v2"); ("old", "v0")]) (Ok demo_graph) = Returns Success ∧
  main (Ok demo_config) (Ok [("lib", "v3")]) (Ok demo_graph) = Returns (OutOfSync [MkOosMod "lib" "v3" [MkUpstream "ctrl" "v2"]]) ∧
  ∀ name version line v, list_to_map (M:=gmap string string) [("lib", "v2"); ("old", "v0")] !! name = Some version → name ∉ ["old"] →
     line ∈ split_lines demo_graph ∧ line_ref line ∈ ["ctrl"] → line_dep line = Returns (name, v) → v = version.
Proof.
  split; [vm_compute; reflexivity|]. split; [vm_compute; reflexivity|].
  apply (gomodcheck_succeeds_when_in_sync demo_config [("lib", "v2"); ("old", "v0")] demo_graph
           (list_to_map [("lib", "v2"); ("old", "v0")])); vm_compute; reflexivity.
Defined.
