(* ===== verification/PortAllocator.v ===== *)
(** * internal/forked/testing: ports for test servers

    [addr.Suggest] asks the system for a free port and reserves it by locking a
    file that is named after it, in a directory all processes share; a
    reservation is meant to last a while after the process has released the
    port.  The system's side is here as its manual pages document it: a file
    has a modification time, which creating it sets and opening it does not
    change, and a lock, which belongs to the open file and is kept until the
    process ends.  Walking the directory and locking the file is one step here
    ([PortRaces] has a step per call); what the walk and the calls fail with is
    the environment's. *)

From S2P Require Import Prelude GoErrors GoNum GoString.
Open Scope Z_scope.

(* src: internal/forked/testing/addr/manager.go:34-38 portReserveTime *)
Definition portReserveTime : Z := 2 * 60 * Second.
Definition portConflictRetry : nat := 100.

(* src: internal/forked/testing/flock/errors.go:21-24 ErrAlreadyLocked *)
Definition ErrAlreadyLocked : error := Sentinel "the file is already locked".

(** A file, and the process that holds its lock. *)
Record file := MkFile { f_ModTime : Z; f_lock : option nat }.

(** The files of the ports, by port, and the clock. *)
Record ports := MkPorts { p_files : gmap Z file; p_now : Z }.

(** How the calls of one [add] fail: the walk, after it has visited some files. *)
Record add_env := MkAddEnv {
  walk_err : option (gset Z * error);
  open_err : option error;       (** [unix.Open]; [os.ErrExist] is distinguished *)
}.

(* src: internal/forked/testing/flock/flock_unix.go:30-48 Acquire *)
Definition Acquire (open_err : option error) (pid : nat) (path : Z) : M ports (option error) := fun s =>
  match open_err with
  | Some err =>
      if Is err "file already exists" then (Some (Wrap "cannot lock file" ErrAlreadyLocked), s) else (Some err, s)
  | None =>
      let f := default (MkFile (p_now s) None) (p_files s !! path) in
      match f_lock f with
      | Some _ => (Some (Wrap "cannot lock file" ErrAlreadyLocked), MkPorts (<[path := f]> (p_files s)) (p_now s))
      | None => (None, MkPorts (<[path := MkFile (f_ModTime f) (Some pid)]> (p_files s)) (p_now s))
      end
  end.

(** The files without the outdated ones that were visited. *)
Definition prune (visited : Z → bool) (s : ports) : ports :=
  MkPorts (filter (λ kv : Z * file, visited kv.1 = false ∨ p_now s - f_ModTime kv.2 ≤ portReserveTime) (p_files s)) (p_now s).

(* src: internal/forked/testing/addr/manager.go:63-103 portCache.add *)
Definition add (env : add_env) (pid : nat) (port : Z) : M ports (bool * option error) :=
  match walk_err env with
  | Some (visited, err) => _ ← modify (prune (λ port, bool_decide (port ∈ visited))); mret (false, Some err)
  | None =>
      _ ← modify (prune (λ _, true));
      err ← Acquire (open_err env) pid port;
      match err with
      | None => mret (true, None)
      | Some err => if Is err "the file is already locked" then mret (false, None) else mret (false, Some err)
      end
  end.

(** The directory of the files: that of the user's caches or, if there is none or
    it cannot be made, one for temporary files. *)
(* src: internal/forked/testing/addr/manager.go:40-59 init *)
Definition init (UserCacheDir : result error string) (TempDir : string) (MkdirAll : string → option error) : outcome string :=
  let cacheDir baseDir := baseDir +:+ "/kubebuilder-envtest" in
  let fallback := match MkdirAll (cacheDir TempDir) with Some _ => Panics "error" | None => Returns (cacheDir TempDir) end in
  match UserCacheDir with
  | Ok baseDir => match MkdirAll (cacheDir baseDir) with None => Returns (cacheDir baseDir) | Some _ => fallback end
  | Err _ => fallback
  end.

(** [net.JoinHostPort] *)
Definition JoinHostPort (host port : string) : string :=
  if has_char (Ascii.ascii_of_nat 58) host then "[" +:+ host +:+ "]:" +:+ port else host +:+ ":" +:+ port.

(** The system resolves an address and listens on it, on a port it chooses for 0. *)
(* src: internal/forked/testing/addr/manager.go:107-122 suggest *)
Definition suggest (ResolveTCPAddr : string → result error string) (ListenTCP : string → result error Z) (listenHost : string) :
  result error (Z * string) :=
  let listenHost := if bool_decide (listenHost = "") then "localhost" else listenHost in
  match ResolveTCPAddr (JoinHostPort listenHost "0") with
  | Err err => Err err
  | Ok ip => match ListenTCP ip with Err err => Err err | Ok port => Ok (port, ip) end
  end.

(** What the system answers to one attempt: the port it chose, and the address. *)
Definition attempt : Type := result error (Z * string) * add_env.

(* src: internal/forked/testing/addr/manager.go:128-142 Suggest *)
Fixpoint suggest_loop (retries : nat) (pid : nat) (attempts : nat → attempt) (i : nat) : M ports (result error (Z * string)) :=
  match retries with
  | O => mret (Err (Errorf "no free ports found after 100 retries"))
  | S retries =>
      let '(r, env) := attempts i in
      match r with
      | Err err => mret (Err err)
      | Ok (port, resolvedHost) =>
          '(ok, err) ← add env pid port;
          if (ok : bool) then mret (Ok (port, resolvedHost))
          else match err with
               | Some err => mret (Err err)
               | None => suggest_loop retries pid attempts (S i)
               end
      end
  end.

(* src: internal/forked/testing/addr/manager.go:124-142 Suggest *)
Definition Suggest (pid : nat) (attempts : nat → attempt) : M ports (result error (Z * string)) :=
  suggest_loop portConflictRetry pid attempts 0%nat.

(** ** Processes *)

(** What was granted: to whom, when, and whether the file was made for it. *)
Record grant := MkGrant { g_pid : nat; g_port : Z; g_time : Z; g_fresh : bool }.

Record psys := PSys { y_ports : ports; y_exited : gset nat; y_grants : list grant }.

Inductive plabel : Type :=
| PAddPort (env : add_env) (pid : nat) (port : Z)
| PExit (pid : nat)
| PTick (d : Z).

(** The locks of a process that ends are released. *)
Definition release (pid : nat) (f : file) : file :=
  MkFile (f_ModTime f) (if bool_decide (f_lock f = Some pid) then None else f_lock f).

Definition is_fresh (port : Z) (s : ports) : bool :=
  match p_files (prune (λ _, true) s) !! port with None => true | Some _ => false end.

Definition pexec (l : plabel) (y : psys) : option psys :=
  match l with
  | PAddPort env pid port =>
      if bool_decide (pid ∈ y_exited y) then None else
      let '((ok, _), s) := add env pid port (y_ports y) in
      let g := MkGrant pid port (p_now (y_ports y)) (is_fresh port (y_ports y)) in
      Some (PSys s (y_exited y) (if ok : bool then y_grants y ++ [g] else y_grants y))
  | PExit pid =>
      Some (PSys (MkPorts (release pid <$> p_files (y_ports y)) (p_now (y_ports y))) ({[pid]} ∪ y_exited y) (y_grants y))
  | PTick d => if 0 <? d then Some (PSys (MkPorts (p_files (y_ports y)) (p_now (y_ports y) + d)) (y_exited y) (y_grants y)) else None
  end.

Definition pinit (y : psys) : Prop := y_exited y = ∅ ∧ y_grants y = [].

(** ** Lemmas *)

(** A locked file that is not outdated stays as it is, and refuses the port. *)
Lemma prune_young visited s port f :
  p_files s !! port = Some f → p_now s - f_ModTime f ≤ portReserveTime → p_files (prune visited s) !! port = Some f.
Proof. intros Hf Hy. simpl. apply map_lookup_filter_Some. split; [done|by right]. Qed.

Lemma port_Acquire_spec e pid path s :
  let '(r, s') := Acquire e pid path s in
  p_now s' = p_now s ∧ (∀ port, port ≠ path → p_files s' !! port = p_files s !! port) ∧
  (r = None → f_lock (default (MkFile (p_now s) None) (p_files s !! path)) = None ∧
     p_files s' !! path = Some (MkFile (f_ModTime (default (MkFile (p_now s) None) (p_files s !! path))) (Some pid))) ∧
  (∀ f p, p_files s !! path = Some f → f_lock f = Some p → r ≠ None ∧ p_files s' !! path = Some f).
Proof.
  unfold Acquire. destruct e as [e|].
  { destruct (Is e _); (split_ands; [done|done|done|]); intros; by split. }
  destruct (f_lock (default _ _)) as [q|] eqn:Hl; cbn [p_now p_files].
  - split_ands; [done|intros port Hp; by rewrite lookup_insert_ne|done|]. intros f p Hf _. split; [done|]. rewrite lookup_insert_eq. by rewrite Hf.
  - split_ands; [done|intros port Hp; by rewrite lookup_insert_ne|intros _; split; [done|by rewrite lookup_insert_eq]|].
    intros f p Hf Hp. rewrite Hf in Hl. simpl in Hl. congruence.
Qed.

Lemma port_add_spec env pid port s :
  let '((ok, _), s') := add env pid port s in
  p_now s' = p_now s ∧
  (ok = true → p_files s' !! port =
     Some (MkFile (f_ModTime (default (MkFile (p_now s) None) (p_files (prune (λ _, true) s) !! port))) (Some pid))) ∧
  (∀ q f p, p_files s !! q = Some f → f_lock f = Some p → p_now s - f_ModTime f ≤ portReserveTime →
     p_files s' !! q = Some f ∧ (q = port → ok = false)).
Proof.
  unfold add. destruct (walk_err env) as [[vis e]|].
  { unfold mbind, M_bind, modify, mret, M_ret. split_ands; [done|done|]. intros q f p Hf _ Hy. split; [by apply prune_young|done]. }
  rewrite bind_eq. unfold modify. rewrite bind_eq. set (s1 := prune (λ _, true) s).
  pose proof (port_Acquire_spec (open_err env) pid port s1) as H. destruct (Acquire _ _ _ s1) as [r s2]. destruct H as (Hn & Ho & Hok & Hk).
  assert (∀ q f p, p_files s !! q = Some f → f_lock f = Some p → p_now s - f_ModTime f ≤ portReserveTime →
     p_files s2 !! q = Some f ∧ (q = port → r ≠ None)) as Hkeep.
  { intros q f p Hf Hl Hy. pose proof (prune_young (λ _, true) s q f Hf Hy) as Hf1. destruct (decide (q = port)) as [->|Hne].
    - destruct (Hk f p Hf1 Hl) as [? ?]. by split.
    - split; [|done]. by rewrite Ho. }
  destruct r as [x|].
  - unfold mret, M_ret. destruct (Is x _); (split_ands; [exact Hn|done|]); intros q f p Hf Hl Hy; destruct (Hkeep q f p Hf Hl Hy); by split.
  - unfold mret, M_ret. split_ands; [exact Hn|intros _; by apply Hok|]. intros q f p Hf Hl Hy. destruct (Hkeep q f p Hf Hl Hy) as [? Hx]. split; [done|]. intros Hq. by destruct (Hx Hq).
Qed.

(** The reservations that are still in force. *)
Definition reserved (y : psys) (g : grant) : Prop :=
  g_fresh g = true ∧ g_pid g ∉ y_exited y ∧ p_now (y_ports y) - g_time g ≤ portReserveTime.

Definition grants_ok (y : psys) : Prop :=
  ∀ g, g ∈ y_grants y → reserved y g → p_files (y_ports y) !! g_port g = Some (MkFile (g_time g) (Some (g_pid g))).

Lemma grants_ok_step l y y' : grants_ok y → pexec l y = Some y' → grants_ok y'.
Proof.
  intros HI. destruct l as [env pid port|pid|d]; simpl.
  - case_bool_decide as Hx; [done|]. pose proof (port_add_spec env pid port (y_ports y)) as H.
    destruct (add env pid port (y_ports y)) as [[ok e] s]. destruct H as (Hn & Hok & Hk). intros [= <-].
    intros g Hg (Hf & Hp & Ht). cbn [y_ports y_exited y_grants] in *. rewrite Hn in Ht.
    assert (g ∈ y_grants y → p_files s !! g_port g = Some (MkFile (g_time g) (Some (g_pid g)))) as Hold.
    { intros Hin. apply (Hk _ _ (g_pid g)); [by apply HI|done|done]. }
    destruct ok; [|by apply Hold]. apply elem_of_app in Hg as [Hg|Hg]; [by apply Hold|]. apply list_elem_of_singleton in Hg. subst g.
    cbn [g_port g_time g_pid g_fresh] in *. rewrite (Hok eq_refl). unfold is_fresh in Hf.
    destruct (p_files (prune (λ _, true) (y_ports y)) !! port); [done|reflexivity].
  - intros [= <-]. intros g Hg (Hf & Hp & Ht). simpl in *. rewrite lookup_fmap, (HI g); [|done|split; [done|split; [clear -Hp; set_solver|done]]]. simpl.
    unfold release. simpl. rewrite bool_decide_eq_false_2; [done|]. intros [= Hpid]. apply Hp. rewrite Hpid. apply elem_of_union_l, elem_of_singleton. done.
  - destruct (Z.ltb_spec 0 d); [|done]. intros [= <-]. intros g Hg (Hf & Hp & Ht). simpl in *. apply HI; [done|]. split; [done|]. split; [done|]. lia.
Qed.

Lemma suggest_loop_spec n pid att i s :
  let '(r, s') := suggest_loop n pid att i s in
  match r with
  | Ok (port, host) => ∃ j, (i ≤ j < i + n)%nat ∧ (att j).1 = Ok (port, host) ∧ ∃ t, p_files s' !! port = Some (MkFile t (Some pid))
  | Err _ => True
  end.
Proof.
  revert i s. induction n as [|n IH]; intros i s; cbn [suggest_loop]; [done|].
  destruct (att i) as [[[port host]|e] env] eqn:Ha; [|done]. rewrite bind_eq.
  pose proof (port_add_spec env pid port s) as H. destruct (add env pid port s) as [[ok e] s1]. destruct H as (_ & Hok & _).
  destruct ok.
  - exists i. split; [lia|]. rewrite Ha. split; [done|]. eexists. by apply Hok.
  - destruct e as [e|]; [done|]. specialize (IH (S i) s1). destruct (suggest_loop _ _ _ _ s1) as [[[p h]|e] s2]; [|done].
    destruct IH as (j & Hj & ?). exists j. split; [lia|done].
Qed.

Lemma suggest_loop_ext n pid att att' i s :
  (∀ j, (i ≤ j < i + n)%nat → att j = att' j) → suggest_loop n pid att i s = suggest_loop n pid att' i s.
Proof.
  revert i s. induction n as [|n IH]; intros i s Hj; cbn [suggest_loop]; [done|]. rewrite <-(Hj i) by lia.
  destruct (att i) as [[[port host]|e] env]; [|done]. rewrite !bind_eq. destruct (add env pid port s) as [[[] [e|]] s1]; try done.
  apply IH. intros j Hjj. apply Hj. lia.
Qed.

(** ** Properties *)

(** Complement (invariant): a reservation holds: while the process that was granted a port
    on a file made for it lives, and for two minutes at most, nobody is granted
    that port again, itself included, in any interleaving of grants, ends of
    processes and time. *)
Theorem fresh_port_is_not_suggested_again y g env pid :
  reachable pexec pinit y → g ∈ y_grants y → reserved y g → (add env pid (g_port g) (y_ports y)).1.1 = false.
Proof.
  intros Hr Hg Hres. assert (grants_ok y) as HI.
  { apply (invariant_reachable pexec pinit grants_ok); [|intros; by eapply grants_ok_step|done].
    intros y0 [_ Hn] g0 Hg0. rewrite Hn in Hg0. by apply elem_of_nil in Hg0. }
  pose proof (port_add_spec env pid (g_port g) (y_ports y)) as H. destruct (add _ _ _ _) as [[ok e] s]. destruct H as (_ & _ & Hk).
  destruct (Hk _ _ (g_pid g) (HI g Hg Hres) eq_refl) as [_ Hf]; [apply Hres|by apply Hf].
Qed.

(** Complement (bounds): [Suggest] makes at most a hundred attempts - what the system would
    answer later does not matter - and a port it returns was answered by one of
    them and is locked by the process. *)
Theorem Suggest_makes_100_attempts pid att att' s :
  (∀ i, (i < 100)%nat → att i = att' i) →
  Suggest pid att s = Suggest pid att' s ∧
  ∀ port host s', Suggest pid att s = (Ok (port, host), s') →
    ∃ i, (i < 100)%nat ∧ (att i).1 = Ok (port, host) ∧ ∃ t, p_files s' !! port = Some (MkFile t (Some pid)).
Proof.
  intros Hext. split; [apply suggest_loop_ext; intros j Hj; apply Hext; unfold portConflictRetry in Hj; lia|].
  intros port host s' Hs. pose proof (suggest_loop_spec portConflictRetry pid att 0%nat s) as H. unfold Suggest in Hs. rewrite Hs in H.
  destruct H as (j & Hj & ?). exists j. split; [unfold portConflictRetry in Hj; lia|done].
Qed.

(** Complement (functional): what is suggested for a host is the address it resolves
    to - for no host that of localhost - with a port on which the system has let
    the process listen. *)
Theorem Suggest_listens_on_the_host pid ResolveTCPAddr (ListenTCP : nat → string → result error Z) (envs : nat → add_env) listenHost s port host s' :
  Suggest pid (λ i, (suggest ResolveTCPAddr (ListenTCP i) listenHost, envs i)) s = (Ok (port, host), s') →
  let h := if bool_decide (listenHost = "") then "localhost" else listenHost in
  ResolveTCPAddr (JoinHostPort h "0") = Ok host ∧ ∃ i, (i < portConflictRetry)%nat ∧ ListenTCP i host = Ok port.
Proof.
  intros Hs h. unfold Suggest in Hs.
  pose proof (suggest_loop_spec portConflictRetry pid (λ i, (suggest ResolveTCPAddr (ListenTCP i) listenHost, envs i)) 0%nat s) as H.
  rewrite Hs in H. destruct H as (j & Hj & Ha & _). cbn [fst] in Ha. unfold suggest in Ha. fold h in Ha.
  destruct (ResolveTCPAddr _) as [ip|]; [|done]. destruct (ListenTCP j ip) as [p|] eqn:Hl; [|done]. injection Ha as -> ->.
  split; [done|]. exists j. split; [|done]. lia.
Qed.

(** Complement (safety): a file that is left over keeps its modification time when it is
    locked again, so a port can be granted to two living processes within two
    seconds. *)
Theorem leftover_file_shortens_the_reservation : ∃ y,
  reachable pexec pinit y ∧ y_exited y = {[1%nat]} ∧
  y_grants y = [MkGrant 1 8080 0 true; MkGrant 2 8080 (119 * Second) false; MkGrant 3 8080 (121 * Second) true].
Proof.
  set (ok := MkAddEnv None None). set (y0 := PSys (MkPorts ∅ 0) ∅ []).
  assert (∃ y, run pexec [PAddPort ok 1 8080; PExit 1; PTick (119 * Second); PAddPort ok 2 8080; PTick (2 * Second); PAddPort ok 3 8080] y0 = Some y ∧
    y_exited y = {[1%nat]} ∧ y_grants y = [MkGrant 1 8080 0 true; MkGrant 2 8080 (119 * Second) false; MkGrant 3 8080 (121 * Second) true])
    as (y & Hrun & Hy).
  { eexists. split; [vm_compute; reflexivity|]. split; vm_compute; reflexivity. }
  exists y. split; [|exact Hy]. refine (run_reachable pexec pinit _ y0 y _ Hrun). apply reach_init. split; reflexivity.
Qed.

(** ** Witnesses *)

Definition granted : psys := default (PSys (MkPorts ∅ 0) ∅ []) (run pexec [PAddPort (MkAddEnv None None) 1 8080; PTick Second] (PSys (MkPorts ∅ 0) ∅ [])).

Lemma fresh_port_is_not_suggested_again_witness :
  y_grants granted = [MkGrant 1 8080 0 true] ∧ (add (MkAddEnv None None) 1 8080 (y_ports granted)).1.1 = false.
Proof.
  split; [vm_compute; reflexivity|].
  apply (fresh_port_is_not_suggested_again granted (MkGrant 1 8080 0 true) (MkAddEnv None None) 1).
  - eapply (run_reachable pexec pinit [PAddPort (MkAddEnv None None) 1 8080; PTick Second] (PSys (MkPorts ∅ 0) ∅ [])); [by apply reach_init|].
    vm_compute. reflexivity.
  - assert (y_grants granted = [MkGrant 1 8080 0 true]) as -> by (vm_compute; reflexivity). by left.
  - assert (y_exited granted = ∅) as He by (vm_compute; reflexivity). assert (p_now (y_ports granted) = Second) as Hn by (vm_compute; reflexivity).
    unfold reserved. rewrite He, Hn. split; [reflexivity|]. split; [apply not_elem_of_empty|]. by vm_compute.
Defined.

Definition always (port : Z) (i : nat) : attempt := (Ok (port + Z.of_nat (Nat.min i 1), "::1"), MkAddEnv None None).

Lemma Suggest_makes_100_attempts_witness :
  (Suggest 2 (always 8080) (y_ports granted)).1 = Ok (8081, "::1") ∧
  ∀ att', (∀ i, (i < 100)%nat → always 8080 i = att' i) → Suggest 2 (always 8080) (y_ports granted) = Suggest 2 att' (y_ports granted).
Proof.
  split; [vm_compute; reflexivity|]. intros att' H. exact (proj1 (Suggest_makes_100_attempts 2 (always 8080) att' (y_ports granted) H)).
Defined.
