(* ===== verification/PortRaces.v ===== *)
(** * internal/forked/testing: the reservations of ports interleaved

    [portCache.add] looks at the files of a directory that all processes share,
    removes the outdated ones and locks the file of its port.  Here each call
    of the system is a step and the adds of several threads interleave: a path
    names a file only until it is removed, and what is locked is the file that
    was opened, removed or not. *)

From S2P Require Import Prelude GoErrors GoNum PortAllocator.
#[local] Open Scope Z_scope.

(** Where a thread is in [add]: it walks and has these paths left, it has found
    one outdated and is about to remove it, it is about to open the file of its
    port, it has opened one and is about to lock it. *)
Inductive add_pc : Type :=
| PWalk (todo : list Z) (port : Z)
| PRemove (path : Z) (todo : list Z) (port : Z)
| POpen (port : Z)
| PLock (port : Z) (inode : nat).

(** What a thread was granted: the port, the file it has locked, and when. *)
Record lgrant := MkLGrant { lg_pid : nat; lg_port : Z; lg_inode : nat; lg_time : Z }.

(** The directory, the files that were ever made, the clock, the threads in [add],
    the threads that have ended. *)
Record dstate := DState {
  d_dir : gmap Z nat;
  d_inodes : list file;
  d_now : Z;
  d_pcs : gmap nat add_pc;
  d_exited : gset nat;
  d_grants : list lgrant;
}.

Definition set_pc (pid : nat) (pc : option add_pc) (s : dstate) : dstate :=
  DState (d_dir s) (d_inodes s) (d_now s) (match pc with Some pc => <[pid := pc]> (d_pcs s) | None => delete pid (d_pcs s) end)
    (d_exited s) (d_grants s).
Definition set_dir (dir : gmap Z nat) (s : dstate) : dstate :=
  DState dir (d_inodes s) (d_now s) (d_pcs s) (d_exited s) (d_grants s).

Definition outdated (f : file) (s : dstate) : bool := bool_decide (d_now s - f_ModTime f > portReserveTime).

(** The next call of a thread; nothing fails except that files are gone. *)
(* src: internal/forked/testing/addr/manager.go:63-103 portCache.add *)
Definition add_step (pid : nat) (pc : add_pc) (s : dstate) : dstate :=
  match pc with
  | PWalk [] port => set_pc pid (Some (POpen port)) s
  | PWalk (path :: todo) port =>
      match d_dir s !! path ≫= λ i, d_inodes s !! i with
      | Some f => set_pc pid (Some (if outdated f s then PRemove path todo port else PWalk todo port)) s
      | None => set_pc pid (Some (PWalk todo port)) s
      end
  | PRemove path todo port => set_pc pid (Some (PWalk todo port)) (set_dir (delete path (d_dir s)) s)
  | POpen port =>
      match d_dir s !! port with
      | Some i => set_pc pid (Some (PLock port i)) s
      | None => let i := length (d_inodes s) in
                set_pc pid (Some (PLock port i))
                  (DState (<[port := i]> (d_dir s)) (d_inodes s ++ [MkFile (d_now s) None]) (d_now s) (d_pcs s) (d_exited s) (d_grants s))
      end
  | PLock port i =>
      match d_inodes s !! i with
      | Some (MkFile t None) =>
          set_pc pid None (DState (d_dir s) (<[i := MkFile t (Some pid)]> (d_inodes s)) (d_now s) (d_pcs s) (d_exited s)
            (d_grants s ++ [MkLGrant pid port i (d_now s)]))
      | _ => set_pc pid None s
      end
  end.

Inductive dlabel : Type :=
| DAdd (pid : nat) (port : Z)
| DStep (pid : nat)
| DExit (pid : nat)
| DTick (d : Z).

(** A walk reads the directory first. *)
Definition dexec (l : dlabel) (s : dstate) : option dstate :=
  match l with
  | DAdd pid port =>
      if bool_decide (pid ∈ d_exited s) then None else
      match d_pcs s !! pid with
      | Some _ => None
      | None => Some (set_pc pid (Some (PWalk (map_to_list (d_dir s)).*1 port)) s)
      end
  | DStep pid => pc ← d_pcs s !! pid; Some (add_step pid pc s)
  | DExit pid =>
      Some (DState (d_dir s) (release pid <$> d_inodes s) (d_now s) (delete pid (d_pcs s)) ({[pid]} ∪ d_exited s) (d_grants s))
  | DTick d => if 0 <? d then Some (DState (d_dir s) (d_inodes s) (d_now s + d) (d_pcs s) (d_exited s) (d_grants s)) else None
  end.

(** ** Invariant *)

Record dir_inv (s : dstate) : Prop := {
  di_bound p i : d_dir s !! p = Some i → (i < length (d_inodes s))%nat;
  di_inj p q i : d_dir s !! p = Some i → d_dir s !! q = Some i → p = q;
  di_open pid port i : d_pcs s !! pid = Some (PLock port i) →
    (i < length (d_inodes s))%nat ∧ ∀ p, d_dir s !! p = Some i → p = port;
  di_live pid pc : d_pcs s !! pid = Some pc → pid ∉ d_exited s;
  di_grant g : g ∈ d_grants s → lg_pid g ∉ d_exited s → f_lock <$> d_inodes s !! lg_inode g = Some (Some (lg_pid g));
  di_grant_port g p : g ∈ d_grants s → d_dir s !! p = Some (lg_inode g) → p = lg_port g;
  di_grant_bound g : g ∈ d_grants s → (lg_inode g < length (d_inodes s))%nat;
}.

Lemma dir_inv_pc pid pc s :
  dir_inv s → pid ∉ d_exited s →
  (∀ port i, pc = Some (PLock port i) → (i < length (d_inodes s))%nat ∧ ∀ p, d_dir s !! p = Some i → p = port) →
  dir_inv (set_pc pid pc s).
Proof.
  intros [H1 H2 H3 H4 H5 H6 H7] Hx Hpc. split; simpl; try done.
  - intros pid' port i. destruct pc as [pc|].
    + intros [[<- ->]|[_ Hl]]%lookup_insert_Some; [by apply Hpc|by eapply H3].
    + intros [_ Hl]%lookup_delete_Some. by eapply H3.
  - intros pid' pc'. destruct pc as [pc|].
    + intros [[<- _]|[_ Hl]]%lookup_insert_Some; [done|by eapply H4].
    + intros [_ Hl]%lookup_delete_Some. by eapply H4.
Qed.

Lemma dir_inv_step pid pc s : dir_inv s → d_pcs s !! pid = Some pc → dir_inv (add_step pid pc s).
Proof.
  intros HI Hpc. pose proof HI as [H1 H2 H3 H4 H5 H6 H7]. pose proof (H4 _ _ Hpc) as Hx.
  destruct pc as [[|path todo] port|path todo port|port|port i]; cbn [add_step].
  - by apply dir_inv_pc.
  - destruct (_ ≫= _) as [f|]; apply dir_inv_pc; try done. by destruct (outdated f s).
  - apply dir_inv_pc; [|done|done]. split; simpl; try done.
    + intros p i [_ Hl]%lookup_delete_Some. by eapply H1.
    + intros p q i [_ Hl]%lookup_delete_Some [_ Hl']%lookup_delete_Some. by eapply H2.
    + intros pid' port' i Hl. destruct (H3 _ _ _ Hl) as [? Hp]. split; [done|]. intros p [_ ?]%lookup_delete_Some. by apply Hp.
    + intros g p Hg [_ ?]%lookup_delete_Some. by eapply H6.
  - destruct (d_dir s !! port) as [i|] eqn:Hd.
    + apply dir_inv_pc; [done|done|]. intros port' i' [= <- <-]. split; [by eapply H1|]. intros p Hp. by eapply H2.
    + apply dir_inv_pc; [|done|].
      * split; simpl; try done.
        -- intros p i. rewrite length_app. simpl. intros [[<- <-]|[_ Hl%H1]]%lookup_insert_Some; lia.
        -- intros p q i [[<- <-]|[Hn1 Hl1]]%lookup_insert_Some [[<- Heq]|[Hn2 Hl2]]%lookup_insert_Some; [done| | |by eapply H2].
           ++ apply H1 in Hl2. lia.
           ++ subst. apply H1 in Hl1. lia.
        -- intros pid' port' i Hl. destruct (H3 _ _ _ Hl) as [Hb Hp]. rewrite length_app. split; [simpl; lia|].
           intros p [[_ <-]|[_ ?]]%lookup_insert_Some; [lia|by apply Hp].
        -- intros g Hg Hl. rewrite lookup_app_l by (by apply H7). by apply H5.
        -- intros g p Hg [[_ Heq]|[_ ?]]%lookup_insert_Some; [|by eapply H6]. apply H7 in Hg. lia.
        -- intros g Hg. apply H7 in Hg. rewrite length_app. simpl. lia.
      * simpl. intros port' i [= <- <-]. rewrite length_app. split; [simpl; lia|].
        intros p [[? _]|[_ Hl%H1]]%lookup_insert_Some; [done|lia].
  - destruct (H3 _ _ _ Hpc) as [Hb Hp].
    destruct (d_inodes s !! i) as [[t [q|]]|] eqn:Hi; [by apply dir_inv_pc| |by apply dir_inv_pc].
    apply dir_inv_pc; [|done|done]. split; simpl; try done.
    + intros p j. rewrite length_insert. by apply H1.
    + intros pid' port' j. rewrite length_insert. by apply H3.
    + intros g [Hg| ->%list_elem_of_singleton]%elem_of_app Hl; simpl in *; [|by rewrite list_lookup_insert_eq].
      rewrite list_lookup_insert_ne; [by apply H5|]. intros ->. pose proof (H5 g Hg Hl) as Hf. by rewrite Hi in Hf.
    + intros g p [Hg| ->%list_elem_of_singleton]%elem_of_app Hl; [by eapply H6|by apply Hp].
    + intros g. rewrite length_insert. intros [Hg| ->%list_elem_of_singleton]%elem_of_app; [by apply H7|done].
Qed.

(** At the start the files are somebody's leftovers. *)
Definition dinit (s : dstate) : Prop :=
  d_pcs s = ∅ ∧ d_exited s = ∅ ∧ d_grants s = [] ∧
  (∀ p i, d_dir s !! p = Some i → (i < length (d_inodes s))%nat) ∧
  (∀ p q i, d_dir s !! p = Some i → d_dir s !! q = Some i → p = q).

Lemma dir_inv_reachable s : reachable dexec dinit s → dir_inv s.
Proof.
  apply (invariant_reachable dexec dinit dir_inv).
  - intros s0 (Hp & He & Hg & Hb & Hi). split; try done; intros *; rewrite ?Hp, ?Hg, ?lookup_empty; try done; by intros ?%elem_of_nil.
  - intros s0 l s1 HI. pose proof HI as [H1 H2 H3 H4 H5 H6 H7]. destruct l as [pid port|pid|pid|d]; simpl.
    + case_bool_decide; [done|]. destruct (d_pcs s0 !! pid) eqn:Hp; [done|]. intros [= <-]. by apply dir_inv_pc.
    + destruct (d_pcs s0 !! pid) as [pc|] eqn:Hp; [|done]. intros [= <-]. by apply dir_inv_step.
    + intros [= <-]. split; simpl; try done.
      * intros p i. rewrite length_fmap. apply H1.
      * intros pid' port i [_ Hl]%lookup_delete_Some. rewrite length_fmap. by eapply H3.
      * intros pid' pc [Hne Hl]%lookup_delete_Some. apply H4 in Hl. set_solver.
      * intros g Hg Hl. rewrite list_lookup_fmap. pose proof (H5 g Hg ltac:(set_solver)) as Hf.
        destruct (d_inodes s0 !! lg_inode g) as [f|]; [|done]. injection Hf as Hf. simpl. rewrite Hf.
        rewrite bool_decide_eq_false_2; [done|]. set_solver.
      * intros g Hg. rewrite length_fmap. by apply H7.
    + destruct (0 <? d); [|done]. intros [= <-]. by split.
Qed.

(** ** One add after the other *)

(** The directory as [PortAllocator] has it. *)
Definition abs (s : dstate) : ports := MkPorts (omap (λ i, d_inodes s !! i) (d_dir s)) (d_now s).

Lemma set_pc_twice pid pc pc' s : set_pc pid pc (set_pc pid (Some pc') s) = set_pc pid pc s.
Proof. unfold set_pc. simpl. destruct pc; f_equal; [apply insert_insert_eq|apply delete_insert_eq]. Qed.

Lemma dstep_at pid pc s : dexec (DStep pid) (set_pc pid (Some pc) s) = Some (add_step pid pc (set_pc pid (Some pc) s)).
Proof. simpl. by rewrite lookup_insert_eq. Qed.

(** The directory after the outdated paths of a list are removed. *)
Definition walked (todo : list Z) (s : dstate) : gmap Z nat :=
  filter (λ kv : Z * nat, ¬ (kv.1 ∈ todo ∧ (λ f, outdated f s) <$> d_inodes s !! kv.2 = Some true)) (d_dir s).

Lemma walked_cons path todo s :
  walked (path :: todo) s =
  walked todo (if decide ((λ f, outdated f s) <$> (d_dir s !! path ≫= λ i, d_inodes s !! i) = Some true) then set_dir (delete path (d_dir s)) s else s).
Proof.
  apply map_eq. intros p. apply option_eq. intros i. unfold walked. rewrite map_lookup_filter_Some. case_decide as Ho.
  - unfold set_dir. rewrite map_lookup_filter_Some. simpl. rewrite lookup_delete_Some, elem_of_cons.
    change (λ f, outdated f _) with (λ f, outdated f s).
    split.
    + intros [Hd Hn]. assert (path ≠ p) by (intros <-; apply Hn; rewrite Hd in Ho; simpl in Ho; auto). naive_solver.
    + intros [[Hne Hd] Hn]. split; [done|]. intros [[->|?] ?]; [done|]. by apply Hn.
  - rewrite map_lookup_filter_Some. simpl. rewrite elem_of_cons. split; [naive_solver|]. intros [Hd Hn]. split; [done|].
    intros [[->|?] Hx]; [|by apply Hn]. apply Ho. by rewrite Hd.
Qed.

Lemma walk_ends pid port todo s :
  ∃ k, run dexec (replicate k (DStep pid)) (set_pc pid (Some (PWalk todo port)) s) =
    Some (set_pc pid (Some (POpen port)) (set_dir (walked todo s) s)).
Proof.
  revert s. induction todo as [|path todo IH]; intros s.
  - exists 1%nat. cbn [replicate run]. rewrite dstep_at. cbn [add_step]. rewrite set_pc_twice. do 3 f_equal.
    unfold walked. rewrite map_filter_id; [by destruct s|]. intros p i _ [Hin _]. by apply elem_of_nil in Hin.
  - rewrite walked_cons. case_decide as Ho.
    + destruct (IH (set_dir (delete path (d_dir s)) s)) as [k Hk]. exists (S (S k)). cbn [replicate run]. rewrite dstep_at.
      cbn [add_step]. change (d_dir (set_pc _ _ s)) with (d_dir s). change (d_inodes (set_pc _ _ s)) with (d_inodes s).
      destruct (d_dir s !! path ≫= _) as [f|]; [|done]. injection Ho as Ho.
      change (outdated f (set_pc _ _ s)) with (outdated f s). rewrite Ho, set_pc_twice, dstep_at. cbn [add_step].
      change (set_dir ?d (set_pc ?a ?b s)) with (set_pc a b (set_dir d s)). change (d_dir (set_pc _ _ s)) with (d_dir s). rewrite set_pc_twice. rewrite Hk. done.
    + destruct (IH s) as [k Hk]. exists (S k). cbn [replicate run]. rewrite dstep_at.
      cbn [add_step]. change (d_dir (set_pc _ _ s)) with (d_dir s). change (d_inodes (set_pc _ _ s)) with (d_inodes s).
      destruct (d_dir s !! path ≫= _) as [f|]; [|rewrite set_pc_twice; exact Hk].
      change (outdated f (set_pc _ _ s)) with (outdated f s). simpl in Ho. destruct (outdated f s); [by destruct Ho|]. rewrite set_pc_twice. exact Hk.
Qed.

(** Walking over all paths is pruning. *)
Lemma abs_walked s : dir_inv s → abs (set_dir (walked (map_to_list (d_dir s)).*1 s) s) = prune (λ _, true) (abs s).
Proof.
  intros HI. unfold abs, prune. simpl. f_equal. apply map_eq. intros p. apply option_eq. intros f.
  rewrite lookup_omap_Some, map_lookup_filter_Some, lookup_omap_Some. simpl. unfold walked. setoid_rewrite map_lookup_filter_Some.
  split.
  - intros (i & Hf & Hd & Hn). split; [by exists i|]. right. apply Z.nlt_ge. intros Hlt. apply Hn. simpl. split.
    + apply list_elem_of_fmap. exists (p, i). split; [done|]. by apply elem_of_map_to_list.
    + rewrite Hf. simpl. unfold outdated. rewrite bool_decide_eq_true_2; [done|lia].
  - intros [(i & Hf & Hd) [?|Hy]]; [done|]. exists i. split; [done|]. split; [done|]. simpl. intros [_ Ho]. rewrite Hf in Ho. injection Ho as Ho.
    apply bool_decide_eq_true_1 in Ho. lia.
Qed.

(** Opening and locking, without a step in between, is [Acquire]. *)
Lemma open_and_lock pid port s :
  (∀ p i, d_dir s !! p = Some i → (i < length (d_inodes s))%nat) →
  (∀ p q i, d_dir s !! p = Some i → d_dir s !! q = Some i → p = q) →
  let '(err, ps) := Acquire None pid port (abs s) in
  ∃ s' i, run dexec [DStep pid; DStep pid] (set_pc pid (Some (POpen port)) s) = Some s' ∧ abs s' = ps ∧
    d_pcs s' = delete pid (d_pcs s) ∧
    d_grants s' = d_grants s ++ (match err with None => [MkLGrant pid port i (d_now s)] | Some _ => [] end) ∧
    (err = None ∨ ∃ e, err = Some e ∧ Is e "the file is already locked" = true).
Proof.
  intros Hb Hinj. unfold Acquire. cbn [run]. rewrite dstep_at. cbn [add_step]. change (d_dir (set_pc _ _ s)) with (d_dir s).
  assert (∀ p, p_files (abs s) !! p = d_dir s !! p ≫= λ i, d_inodes s !! i) as Habs by (intros p; apply lookup_omap).
  rewrite Habs. destruct (d_dir s !! port) as [i|] eqn:Hd; cbn [mbind option_bind].
  - destruct (lookup_lt_is_Some_2 (d_inodes s) i (Hb _ _ Hd)) as [[t l] Hi]. rewrite Hi. cbn [default from_option id f_lock].
    rewrite set_pc_twice, dstep_at. cbn [add_step]. change (d_inodes (set_pc _ _ s)) with (d_inodes s). rewrite Hi. destruct l as [q|].
    + eexists _, i. split; [reflexivity|]. rewrite set_pc_twice. split.
      * unfold abs. simpl. f_equal. symmetry. apply insert_id. by rewrite lookup_omap, Hd.
      * split; [done|]. split; [by rewrite app_nil_r|]. right. by eexists.
    + eexists _, i. split; [reflexivity|]. split; [|by split_ands; [apply delete_insert_eq| |left]].
      unfold abs. simpl. f_equal. apply map_eq. intros p. rewrite lookup_omap. destruct (decide (p = port)) as [->|Hp].
      * rewrite Hd, lookup_insert_eq. simpl. apply list_lookup_insert_eq. by eapply Hb.
      * rewrite lookup_insert_ne, lookup_omap by done. destruct (d_dir s !! p) as [j|] eqn:Hj; [|done]. simpl.
        apply list_lookup_insert_ne. intros ->. apply Hp. by eapply Hinj.
  - cbn [default from_option f_lock]. set (n := length (d_inodes s)).
    change (DState _ (_ ++ [MkFile (d_now (set_pc ?a ?b s)) None]) _ _ _ _) with
      (set_pc a b (DState (<[port := n]> (d_dir s)) (d_inodes s ++ [MkFile (d_now s) None]) (d_now s) (d_pcs s) (d_exited s) (d_grants s))).
    rewrite set_pc_twice, dstep_at. cbn [add_step]. change (length (d_inodes (set_pc _ _ s))) with n.
    assert ((d_inodes s ++ [MkFile (d_now s) None]) !! n = Some (MkFile (d_now s) None)) as Hn by (by apply list_lookup_middle).
    cbn [set_pc d_inodes d_dir d_now d_pcs d_exited d_grants]. rewrite Hn.
    eexists _, n. split; [reflexivity|]. split; [|by split_ands; [apply delete_insert_eq| |left]].
    unfold abs. simpl. f_equal. apply map_eq. intros p. rewrite lookup_omap. destruct (decide (p = port)) as [->|Hp].
    + rewrite !lookup_insert_eq. simpl. apply list_lookup_insert_eq. rewrite length_app. simpl. unfold n. lia.
    + rewrite !lookup_insert_ne, lookup_omap by done. destruct (d_dir s !! p) as [j|] eqn:Hj; [|done]. simpl. apply Hb in Hj.
      rewrite list_lookup_insert_ne by (unfold n; lia). by apply lookup_app_l.
Qed.

(** ** Properties *)

(** Complement (refinement): an add that no other thread interrupts does what
    [PortAllocator.add] does: from any reachable state the thread comes to its
    end, the directory is then that of the add run through, and the port is
    granted exactly if that add grants it. *)
Theorem uninterrupted_adds_refine s pid port :
  reachable dexec dinit s → d_pcs s !! pid = None → pid ∉ d_exited s →
  let '((ok, err), ps) := add (MkAddEnv None None) pid port (abs s) in
  err = None ∧ ∃ k s' i, run dexec (DAdd pid port :: replicate k (DStep pid)) s = Some s' ∧ abs s' = ps ∧ d_pcs s' = d_pcs s ∧
    d_grants s' = d_grants s ++ (if ok : bool then [MkLGrant pid port i (d_now s)] else []).
Proof.
  intros Hr Hp Hx. pose proof (dir_inv_reachable s Hr) as HI. unfold add. cbn [walk_err]. rewrite bind_eq. unfold modify.
  rewrite bind_eq. cbn [open_err]. rewrite <-(abs_walked s HI). set (s1 := set_dir _ s).
  assert (∀ p i, d_dir s1 !! p = Some i → d_dir s !! p = Some i) as Hsub by (intros p i [? _]%map_lookup_filter_Some; done).
  pose proof (open_and_lock pid port s1) as Hol. destruct (Acquire None pid port (abs s1)) as [err ps].
  destruct Hol as (s' & i & Hrun & Habs & Hpcs & Hg & Herr).
  { intros p j Hj. by eapply (di_bound s HI), Hsub. }
  { intros p q j Hj Hj'. eapply (di_inj s HI); by apply Hsub. }
  destruct (walk_ends pid port (map_to_list (d_dir s)).*1 s) as [k Hk].
  assert (run dexec (DAdd pid port :: replicate (k + 2) (DStep pid)) s = Some s') as Hall.
  { cbn [run]. simpl dexec. rewrite bool_decide_eq_false_2, Hp by done. rewrite replicate_add, run_app. setoid_rewrite Hk. exact Hrun. }
  assert (d_pcs s' = d_pcs s) as Hpc by (rewrite Hpcs; by apply delete_id).
  destruct Herr as [->|(e & -> & He)]; [|rewrite He]; unfold mret, M_ret; (split; [done|]); exists (k + 2)%nat, s', i; by split_ands.
Qed.

(** Complement (invariant): however adds interleave, two living threads that were both
    granted a port have locked two different files: at most one of them is what
    the path still names, so the file of the other has been removed by a walk
    that had found the path outdated. *)
Theorem port_is_granted_twice_only_after_removal s g1 g2 :
  reachable dexec dinit s → g1 ∈ d_grants s → g2 ∈ d_grants s → lg_port g1 = lg_port g2 →
  lg_pid g1 ≠ lg_pid g2 → lg_pid g1 ∉ d_exited s → lg_pid g2 ∉ d_exited s →
  lg_inode g1 ≠ lg_inode g2 ∧
  ∃ g, (g = g1 ∨ g = g2) ∧ f_lock <$> d_inodes s !! lg_inode g = Some (Some (lg_pid g)) ∧ ∀ p, d_dir s !! p ≠ Some (lg_inode g).
Proof.
  intros Hr%dir_inv_reachable Hg1 Hg2 Hport Hne Hx1 Hx2.
  pose proof (di_grant s Hr g1 Hg1 Hx1) as Hl1. pose proof (di_grant s Hr g2 Hg2 Hx2) as Hl2.
  assert (lg_inode g1 ≠ lg_inode g2) as Hi by (intros Heq; rewrite Heq, Hl2 in Hl1; congruence).
  split; [done|]. destruct (decide (d_dir s !! lg_port g1 = Some (lg_inode g1))) as [Hd|Hd].
  - exists g2. split; [by right|]. split; [done|]. intros p Hp. pose proof (di_grant_port s Hr g2 p Hg2 Hp) as ->. congruence.
  - exists g1. split; [by left|]. split; [done|]. intros p Hp. by pose proof (di_grant_port s Hr g1 p Hg1 Hp) as ->.
Qed.

(** A left-over file of the port, just outdated.  The first thread finds it so;
    before it removes it the second has removed it, made a new one and locked
    that; the first then removes the second's, and a third is granted the port. *)
Definition leftover : dstate := DState {[8080 := 0%nat]} [MkFile 0 None] (121 * Second) ∅ ∅ [].
Definition race : list dlabel :=
  [DAdd 1 9090; DStep 1; DAdd 2 8080; DStep 2; DStep 2; DStep 2; DStep 2; DStep 2; DStep 1;
   DAdd 3 8080; DStep 3; DStep 3; DStep 3].
Definition raced : dstate := default leftover (run dexec race leftover).

(** Complement (safety): a walk removes a path, whatever it names by then: a port can be
    granted to two living threads at the same time. *)
Theorem walk_can_remove_a_reservation :
  reachable dexec dinit raced ∧ d_exited raced = ∅ ∧
  d_grants raced = [MkLGrant 2 8080 1 (121 * Second); MkLGrant 3 8080 2 (121 * Second)].
Proof.
  split; [|split; vm_compute; reflexivity]. refine (run_reachable dexec dinit race leftover raced _ _); [|vm_compute; reflexivity].
  apply reach_init. unfold leftover. split; [done|]. split; [done|]. split; [done|]. cbn [d_dir d_inodes]. split.
  - intros p i [_ <-]%lookup_singleton_Some. simpl. lia.
  - intros p q i [<- _]%lookup_singleton_Some [<- _]%lookup_singleton_Some. done.
Qed.
